(* ===== verification/_CoqProject ===== *)
-Q . S2P
Prelude.v
GoStd.v
GoStrings.v
GoTime.v
GoJson.v
JsonSpec.v
Uuid.v
Errors.v
GoFmt.v
GoFlag.v
GrpcErrors.v
Config.v
Migrate.v
Money.v
Schema.v
Tx.v
Transfer.v
Posting.v
LedgerInv.v
Sha256.v
Idempotency.v
Prog.v
Auth.v
Pools.v
Retry.v
Store.v
RecordJson.v
Instances.v
Account.v
Ledger.v
Idempotent.v
Grpc.v
Scenario.v
StoreSpec.v
Health.v
HttpBody.v
GrpcLifecycle.v
HttpLifecycle.v
Interceptors.v
DevToken.v
Leak.v
RetrySpec.v
Locks.v
Concurrency.v
PostOnce.v
Reconcile.v
Stress.v
StressJson.v
BooksSpec.v
AtMostOnce.v
HttpServer.v
Process.v
Logs.v
IdempotentSpec.v
IdempotentExact.v
System.v
StressSpec.v
StressReport.v
Mains.v
Server.v
Guarantees.v
