(* ===== verification/Prelude.v ===== *)
(** * Realtime payments ledger: a verification library

    The program is a double-entry payments ledger in Go: a gRPC server in front
    of a service layer that posts transfers to PostgreSQL in SERIALIZABLE
    transactions, deduplicates them by idempotency key with Redis as a
    coordinator, and checks its own books. This library translates the program
    into executable definitions and proves what makes it correct.

    ** The parts of the program and the files that model them

    - Foundations. [Prelude]: 64-bit integers, SQL sums and counts over finite
      maps, shared tactics. [GoStd], [GoStrings], [GoTime], [Sha256]: the parts of
      Go's standard library the program calls (runes and UTF-8, hex, decimal
      numbers, trimming and splitting, RFC 3339, [time.ParseDuration], SHA-256).
      [GoJson] and [JsonSpec]: [encoding/json], the encoder and the reader, byte
      by byte. [GoFmt]: the text a message prints as ([%q], durations). [GoFlag]:
      package [flag] with [strconv.ParseInt], its usage text and its exits.
      [Uuid]: identifiers and their byte order; the textual form is the class
      [UuidLib] (google/uuid). [Errors]: Go errors as trees with [errors.Is] and
      [errors.As], and messages as fragments.
    - [Schema]: the tables, constraints, row triggers and deferred constraint
      triggers of [migrations/], as the statements that may violate them. [Tx]: a
      transaction as a monad over a database, with the faults of the
      environment (begin, any statement, commit refused, commit
      acknowledgement lost).
    - [Money] ([internal/money]), [Transfer] (the posting of
      [internal/transfer/transfer.go], statement by statement), [Retry]
      ([retry.go] and the retry loop), [Idempotency] ([key.go],
      [fingerprint.go]), [Store] ([store.go]), [RecordJson] (the JSON text of its
      record), [Idempotent] ([idempotent.go]),
      [Account] ([internal/account]), [Ledger] ([internal/ledger]), [Reconcile]
      ([internal/reconcile]).
    - [Prog]: a request handler is a [prog], the tree of the operations it
      performs on the outside (one posting transaction, an account insert, a
      query, a Redis command, the clock, randomness, waiting) and a panic is a
      [Crash]. [run] executes one program; [step] interleaves any number of them
      one operation at a time, and between operations Redis may change in any
      way. Redis is the class [UniversalClient] (go-redis), an arbitrary state
      machine; [Instances] has an in-memory one and one that is down.
    - [Config] ([internal/config]), [Auth] ([internal/auth]), [GrpcErrors],
      [Grpc], [Interceptors] ([internal/grpcapi]: error mapping, handlers,
      interceptors and the chain of [New]), [Health] ([internal/health], the
      probes of [internal/grpcapi/server.go] and [internal/httpapi], and the
      checks [cmd/api] registers), [HttpBody] (the bytes the probes send).
    - The running process. [Pools] ([internal/database], [internal/redisclient]):
      building and verifying the two clients. [GrpcLifecycle] and [HttpLifecycle]
      ([Start], [Run] and [Shutdown] of the two servers): state machines [gstep]
      and [hstep] with one program counter per goroutine. [HttpServer]: routing,
      the status recorder and request logging of [internal/httpapi]. [Process]
      ([cmd/api]): start-up as a [prog], then both servers under one lifecycle
      as the state machine [pstep], up to [main]'s exit. A step is labelled
      [Program] (the program moves), [Finish] (a request in flight ends) or
      [Ambient] (anything else). [Logs]: the lines that start-up and the
      interceptor chain write, as programs that return their lines; without
      them they are those of [Process] and [Interceptors].
    - The commands. [Migrate] ([cmd/migrate]), a state monad over the migration
      library with a trace of events; [DevToken] ([cmd/devtoken]), a state monad
      over the disk; [Stress] ([cmd/stress]), the main goroutine as relations
      [proc] between worlds and the workers as the interleaving [xstep];
      [StressJson], its report as JSON. [Mains]: the flags and [main] of the
      three, from the arguments to the exit status.
    - [Scenario]: a small concrete world at which instances are evaluated.

    Functions keep their Go names, with the receiver's or package's name in front
    where two would clash ([Account_Get], [Store_Ping]). Go's [(T, error)] is
    [result T], or a pair where the value matters beside an error.

    ** What is proved

    - One posting. [Posting] and [LedgerInv] give the abstract specification, one
      update [apply_posting] allowed under [can_post], and the invariant
      [db_inv] of the books; [PostOnce] shows that a transaction of the program
      refines it on every fault, and its exact outcome when nothing fails.
    - Locks. [Locks]: the rows [lockAccounts] requests, in the order of its
      statements, cannot deadlock; the source-first order can.
    - Retries. [RetrySpec]: the loop ends within its budget, counts exactly, and
      sleeps within bounds; where the backoff overflows (both also as lemmas
      about single delays).
    - Idempotency. [IdempotentSpec]: a first request posts and a second replays,
      Redis outages degrade, every call is bounded; [IdempotentExact]: with a
      logic [wp] of total correctness, the answer to every request on every
      combination of what Redis and PostgreSQL hold for its key, the same
      without Redis, and two ways in which a payment on record is refused after
      its Redis record is gone; [StoreSpec]: over a Redis that
      answers, the store refines a map from keys to records; [AtMostOnce] and
      [Concurrency]: the logic [safe] for interleaved requests and the promise
      every successful answer makes, that its transfer is recorded under the key.
    - The service under load. [System] and [Guarantees]: any number of requests
      of any kind, any faults, any behaviour of Redis: the books stay in order,
      money is conserved, the [history] of the database is a sequence of changes
      that were asked for with at most one payment per key, a key always answers
      with the same transfer, reconciliation raises no false alarm. [BooksSpec]: a
      reconciliation pass alone is exact.
    - The server. [Server]: the same for RPCs through the interceptor chain, what
      [CreateTransfer] accepts, and that what was created can be read;
      [Interceptors]: without credentials that are good for it at the time an RPC
      touches nothing, with them its handler answers; [Leak]:
      no text of the database, the driver or the runtime reaches a client;
      [Auth]: which tokens are accepted, under which key; [Config]: what a loaded
      configuration satisfies; [Health]: reports and readiness. [Server] also
      has the type of every successful reply. [HttpServer]: what every HTTP
      request is answered and that the logged status is the one on the wire;
      [HttpBody]: what a client that parses the readiness body learns is true.
    - The process. [GrpcLifecycle]: a draining server never reports SERVING.
      [Process]: start-up does not depend on PostgreSQL or Redis; after a signal
      the process ends within 30 steps of its own once its requests finish; the
      pools close last; the exit status by its causes, stated by what was done
      to the two servers ([grpc_failed], [http_failed]) and whether start-up
      failed; and a failure of the gRPC server alone does not end the process.
      [Pools]: the ceiling of the connection pool. [Logs]: the lines of start-up,
      and the errors it prints, do not depend on the passwords and the key beyond
      what is said there, and a refused request leaves none of its credentials.
    - The commands. [Migrate]: each command is exactly the library call it
      names. [DevToken]: what the command leaves on disk, and that its claims
      survive signing. [StressSpec]: the workers finish,
      the workload is valid, and the verdict is right on a ledger in order.
      [StressReport]: the numbers of a report are those of the tables, and its
      JSON form reads back as the report. [Mains]: the same from the command line
      to the exit status, arguments that do not parse touch nothing, every set
      of options can be written as flags, and the documented use of development
      tokens, a run that writes the key pair and a run that mints with it, gives a
      token that the configured service accepts.
    - JSON. [JsonSpec]: what [Encode] and [Marshal] write, [parse] reads back,
      with every byte that is not UTF-8 replaced; [RecordJson]: every record of
      the store survives its text.

    ** Assumptions and bounds

    - PostgreSQL runs SERIALIZABLE transactions as if one after the other: one
      attempt [postOnce] is one operation of [Prog]. Which statements fail, and
      whether a commit is durable when its answer is lost, is up to the
      environment. Queries read one state; rows of a query may stop arriving.
    - Third-party code is a parameter with documented laws: [UuidLib],
      [UniversalClient] and, where a
      theorem needs a Redis that works, [RedisLaws]; [JwtLib] (the JWT parser
      with the effect of its options, and the decoding of keys) and [SigningLib]
      (its counterpart); [PgxLib] (pgxpool settings and [Close]); [HealthLib],
      [GrpcLib] and [HttpLib] (the health server and when [Serve],
      [GracefulStop], [Stop] and [Shutdown] return); [MigrateLib]. Each has an
      instance. [RecordCodec] is the interface between the service and the
      encoding of its records, discharged by [encoding/json] in [RecordJson].
    - [float64] arithmetic of [time.ParseDuration], which runes outside ASCII
      [%q] takes for printable, and the driver's text of a server error are
      parameters.
    - Loops of the source that are not structural run on fuel that is shown to
      suffice: the retry loop on its attempt budget ([retry_loop_leaves]), decimal
      digits on the bit length ([dec_fuel_enough]), durations on the length of the
      text ([duration_loop_fuel]). The claim loop of the store has the source's
      own bound of three. The 30 steps of a shutdown are the rank of its first
      state, 63 steps of a stress worker the 60 operations of a posting with its
      slot and its counting. The JSON reader runs on twice the length of the text
      ([parse_fuel_enough]).
    - [make] of a slice panics beyond the 2^48 bytes of the address space of a
      64-bit Linux process ([maxAlloc]).

    ** What is not modelled

    Log output except the lines of start-up, of refused credentials and scopes,
    of [logRequests] and of [withLogging]; the encoding of protobuf messages and
    the client stubs, which are generated; memory that runs out below the address
    space; the passage of time, which appears as timers that may fire at any moment and as
    errors that operations may return; that a write to standard output or to a
    socket is cut short. The stress command is taken to be alone on its database.
    What is left of the sources beside this is imports, comments, constructors
    that only store their arguments and getters. *)
From stdpp Require Import base gmap fin_maps strings list sorting.
From Stdlib Require Import ZArith Lia Ascii.

Open Scope Z_scope.

(** ** Machine integers: Go's [int64] and PostgreSQL's [BIGINT] *)

Definition int64_min : Z := - 2 ^ 63.
Definition int64_max : Z := 2 ^ 63 - 1.

(** [in_int64 z]: [z] is representable in 64 signed bits. *)
Definition in_int64 (z : Z) : bool := (int64_min <=? z) && (z <=? int64_max).

(** Go's [int64] arithmetic wraps around silently. *)
Definition wrap64 (z : Z) : Z := (z + 2 ^ 63) mod 2 ^ 64 - 2 ^ 63.

Lemma in_int64_spec z : in_int64 z = true <-> int64_min <= z <= int64_max.
Proof. unfold in_int64. rewrite andb_true_iff, !Z.leb_le. done. Qed.

(** Membership in the 64-bit range, from linear bounds in the context. *)
Ltac int64 := apply in_int64_spec; unfold int64_min, int64_max in *; lia.

Lemma wrap64_id z : in_int64 z = true -> wrap64 z = z.
Proof.
  rewrite in_int64_spec. unfold wrap64, int64_min, int64_max. intros.
  rewrite Z.mod_small; lia.
Qed.

(** Go's conversion to [int32] keeps the low 32 bits. *)
Definition int32_max : Z := 2 ^ 31 - 1.
Definition wrap32 (z : Z) : Z := (z + 2 ^ 31) mod 2 ^ 32 - 2 ^ 31.

Lemma wrap32_range z : - 2 ^ 31 <= wrap32 z <= int32_max.
Proof. unfold wrap32, int32_max. pose proof (Z.mod_pos_bound (z + 2 ^ 31) (2 ^ 32)). lia. Qed.

Lemma wrap32_id z : - 2 ^ 31 <= z <= int32_max -> wrap32 z = z.
Proof. unfold wrap32, int32_max. intros. rewrite Z.mod_small; lia. Qed.

(** ** Sums over finite maps: SQL's [SUM] *)

Section sumZ.
Context {K V : Type} `{Countable K}.
Implicit Types (f g : V -> Z) (m : gmap K V).

Definition sumZ f m : Z := map_fold (fun _ v acc => f v + acc) 0 m.

Lemma sumZ_empty f : sumZ f ∅ = 0.
Proof. apply map_fold_empty. Qed.

Lemma sumZ_insert f m k v :
  m !! k = None -> sumZ f (<[k := v]> m) = f v + sumZ f m.
Proof. intros. unfold sumZ. rewrite map_fold_insert_L; [done | lia | done]. Qed.

Lemma sumZ_delete f m k v :
  m !! k = Some v -> sumZ f m = f v + sumZ f (delete k m).
Proof.
  intros Hk. unfold sumZ. rewrite (map_fold_delete_L _ _ k v); [done | lia | done].
Qed.

(** Overwriting one row changes the sum by the difference of that row. *)
Lemma sumZ_update f m k v v' :
  m !! k = Some v -> sumZ f (<[k := v']> m) = sumZ f m - f v + f v'.
Proof.
  intros Hk. rewrite <- insert_delete_eq, sumZ_insert by apply lookup_delete_eq.
  rewrite (sumZ_delete f m k v Hk). lia.
Qed.

Lemma sumZ_ext f g m :
  (forall k v, m !! k = Some v -> f v = g v) -> sumZ f m = sumZ g m.
Proof.
  induction m as [|k v m Hk IH] using map_ind; intros Heq.
  - by rewrite !sumZ_empty.
  - rewrite !sumZ_insert by done.
    rewrite (Heq k v) by apply lookup_insert_eq. f_equal. apply IH.
    intros k' v' Hk'. apply (Heq k'). rewrite lookup_insert_ne; [done | congruence].
Qed.

Lemma sumZ_zero f m :
  (forall k v, m !! k = Some v -> f v = 0) -> sumZ f m = 0.
Proof.
  intros Hz. rewrite (sumZ_ext f (fun _ => 0)) by done. clear Hz.
  induction m as [|k v m Hk IH] using map_ind.
  - by rewrite sumZ_empty.
  - rewrite sumZ_insert by done. lia.
Qed.

Lemma sumZ_add f g m : sumZ (fun v => f v + g v) m = sumZ f m + sumZ g m.
Proof.
  induction m as [|k v m Hk IH] using map_ind.
  - by rewrite !sumZ_empty.
  - rewrite !sumZ_insert by done. lia.
Qed.

Lemma sumZ_nonneg f m :
  (forall k v, m !! k = Some v -> 0 <= f v) -> 0 <= sumZ f m.
Proof.
  induction m as [|k v m Hk IH] using map_ind; intros Hp.
  - by rewrite sumZ_empty.
  - rewrite sumZ_insert by done.
    pose proof (Hp k v (lookup_insert_eq _ _ _)).
    assert (0 <= sumZ f m); [| lia]. apply IH.
    intros k' v' ?. apply (Hp k'). rewrite lookup_insert_ne; [done | congruence].
Qed.
End sumZ.

(** [countZ p m]: SQL's [COUNT( * ) FILTER (WHERE p)]. *)
Definition countZ {K V} `{Countable K} (p : V -> bool) (m : gmap K V) : Z :=
  sumZ (fun v => if p v then 1 else 0) m.

Lemma countZ_nonneg {K V} `{Countable K} (p : V -> bool) (m : gmap K V) : 0 <= countZ p m.
Proof. unfold countZ. apply sumZ_nonneg. intros. destruct (p v); lia. Qed.

Lemma countZ_insert {K V} `{Countable K} (p : V -> bool) (m : gmap K V) k v :
  m !! k = None -> countZ p (<[k := v]> m) = (if p v then 1 else 0) + countZ p m.
Proof. apply sumZ_insert. Qed.

(** No row is counted exactly when no row satisfies the predicate. *)
Lemma countZ_zero {K V} `{Countable K} (p : V -> bool) (m : gmap K V) :
  countZ p m = 0 <-> forall k v, m !! k = Some v -> p v = false.
Proof.
  split.
  - intros Hz k v Hk. unfold countZ in Hz. rewrite (sumZ_delete _ _ k v Hk) in Hz.
    pose proof (countZ_nonneg p (delete k m)). unfold countZ in *.
    destruct (p v); [lia | done].
  - intros Hz. apply sumZ_zero. intros k v Hk. by rewrite (Hz k v Hk).
Qed.
