(* ===== verification/GoStd.v ===== *)
(** * The parts of Go's standard library the ledger calls

    A Go [string] or [[]byte] is a [String.string], a sequence of bytes.
    This file models [bytes.Compare], the rune iteration of
    [for _, r := range s] with [unicode/utf8]'s validity, [encoding/hex],
    and [strconv.FormatInt]/[strconv.Atoi], each as an executable function,
    with the lemmas the components share. *)
From stdpp Require Import base gmap fin_maps strings list.
From Stdlib Require Import ZArith Lia Ascii.
From S2P Require Import Prelude.

Open Scope Z_scope.

(** The numeric value of a byte. *)
Definition bz (b : ascii) : Z := Z.of_N (N_of_ascii b).

Definition byte_of_Z (z : Z) : ascii := ascii_of_N (Z.to_N z).

Lemma bz_range b : 0 <= bz b < 256.
Proof.
  unfold bz. pose proof (N_ascii_bounded b). lia.
Qed.

Lemma bz_inj a b : bz a = bz b -> a = b.
Proof.
  unfold bz. intros E%N2Z.inj. rewrite <- (ascii_N_embedding a), E.
  apply ascii_N_embedding.
Qed.

Lemma byte_of_Z_bz b : byte_of_Z (bz b) = b.
Proof. unfold byte_of_Z, bz. rewrite N2Z.id. apply ascii_N_embedding. Qed.

Lemma bz_byte_of_Z z : 0 <= z < 256 -> bz (byte_of_Z z) = z.
Proof.
  intros. unfold byte_of_Z, bz. rewrite N_ascii_embedding by lia. lia.
Qed.

(** ** Byte strings as lists *)

Fixpoint bytes_of (s : string) : list ascii :=
  match s with
  | EmptyString => []
  | String c s' => c :: bytes_of s'
  end.

Fixpoint string_of_bytes (l : list ascii) : string :=
  match l with
  | [] => EmptyString
  | c :: l' => String c (string_of_bytes l')
  end.

Lemma string_of_bytes_of s : string_of_bytes (bytes_of s) = s.
Proof. induction s; simpl; congruence. Qed.

Lemma bytes_of_string_of l : bytes_of (string_of_bytes l) = l.
Proof. induction l; simpl; congruence. Qed.

Lemma length_bytes_of s : length (bytes_of s) = String.length s.
Proof. induction s; simpl; congruence. Qed.

Lemma bytes_of_app s t : bytes_of (s +:+ t) = (bytes_of s ++ bytes_of t)%list.
Proof.
  induction s as [|c s IH]; [done |].
  change (bytes_of (String c s +:+ t)) with (c :: bytes_of (s +:+ t)). by rewrite IH.
Qed.

Lemma bytes_of_inj s t : bytes_of s = bytes_of t -> s = t.
Proof. intros E. rewrite <- (string_of_bytes_of s), E. apply string_of_bytes_of. Qed.

(** Go's [len]. *)
Definition len (s : string) : Z := Z.of_nat (String.length s).

Lemma len_String_eqb c s : (len (String c s) =? 0) = false.
Proof. reflexivity. Qed.

(** ** [bytes.Compare] *)

Fixpoint bytes_Compare (a b : list ascii) : Z :=
  match a, b with
  | [], [] => 0
  | [], _ :: _ => -1
  | _ :: _, [] => 1
  | x :: a', y :: b' =>
      if bz x <? bz y then -1 else if bz y <? bz x then 1 else bytes_Compare a' b'
  end.

Lemma bytes_Compare_refl a : bytes_Compare a a = 0.
Proof. induction a; simpl; [done |]. by rewrite Z.ltb_irrefl. Qed.

Lemma bytes_Compare_antisym a b : bytes_Compare b a = - bytes_Compare a b.
Proof.
  revert b; induction a as [|x a IH]; intros [|y b]; simpl; try done.
  destruct (Z.ltb_spec (bz x) (bz y)), (Z.ltb_spec (bz y) (bz x)); try lia. apply IH.
Qed.

Lemma bytes_Compare_eq a b : bytes_Compare a b = 0 -> a = b.
Proof.
  revert b; induction a as [|x a IH]; intros [|y b]; simpl; try done.
  destruct (Z.ltb_spec (bz x) (bz y)), (Z.ltb_spec (bz y) (bz x)); try done.
  intros ?%IH. f_equal; [apply bz_inj; lia | done].
Qed.

Lemma bytes_Compare_trans a b c :
  bytes_Compare a b < 0 -> bytes_Compare b c < 0 -> bytes_Compare a c < 0.
Proof.
  revert b c; induction a as [|x a IH]; intros [|y b] [|z c]; simpl; try lia.
  destruct (Z.ltb_spec (bz x) (bz y)), (Z.ltb_spec (bz y) (bz x)),
    (Z.ltb_spec (bz y) (bz z)), (Z.ltb_spec (bz z) (bz y)),
    (Z.ltb_spec (bz x) (bz z)), (Z.ltb_spec (bz z) (bz x)); try lia.
  apply IH.
Qed.

(** ** Runes *)

Definition RuneError : Z := 65533.

Definition cont (lo hi : Z) (b : ascii) : bool := (lo <=? bz b) && (bz b <=? hi).

(** [utf8.DecodeRuneInString]: the first rune and its width; an ill-formed
    sequence yields [(RuneError, 1)]. *)
Definition decode_rune (c0 : ascii) (rest : string) : Z * nat :=
  let x := bz c0 in
  let bad := (RuneError, 1%nat) in
  if x <? 128 then (x, 1%nat)
  else if x <? 194 then bad
  else if x <? 224 then
    match rest with
    | String c1 _ =>
        if cont 128 191 c1 then ((x - 192) * 64 + (bz c1 - 128), 2%nat) else bad
    | _ => bad
    end
  else if x <? 240 then
    let lo := if x =? 224 then 160 else 128 in
    let hi := if x =? 237 then 159 else 191 in
    match rest with
    | String c1 (String c2 _) =>
        if cont lo hi c1 && cont 128 191 c2
        then ((x - 224) * 4096 + (bz c1 - 128) * 64 + (bz c2 - 128), 3%nat) else bad
    | _ => bad
    end
  else if x <? 245 then
    let lo := if x =? 240 then 144 else 128 in
    let hi := if x =? 244 then 143 else 191 in
    match rest with
    | String c1 (String c2 (String c3 _)) =>
        if cont lo hi c1 && cont 128 191 c2 && cont 128 191 c3
        then ((x - 240) * 262144 + (bz c1 - 128) * 4096
              + (bz c2 - 128) * 64 + (bz c3 - 128), 4%nat) else bad
    | _ => bad
    end
  else bad.

(** The iterations of [for _, r := range s], each rune with its width;
    [skip] counts the bytes of the current rune still to be passed over. *)
Fixpoint runes_from (skip : nat) (s : string) : list (Z * nat) :=
  match s with
  | EmptyString => []
  | String c s' =>
      match skip with
      | S k => runes_from k s'
      | O => let '(r, w) := decode_rune c s' in (r, w) :: runes_from (w - 1) s'
      end
  end.

Definition runes (s : string) : list (Z * nat) := runes_from 0 s.

(** [utf8.ValidString]. *)
Definition ValidString (s : string) : bool :=
  forallb (fun '(r, w) => negb ((r =? RuneError) && (w =? 1)%nat)) (runes s).

(** All bytes of [s] satisfy [p]. *)
Definition all_bytes (p : Z -> bool) (s : string) : bool :=
  forallb (fun b => p (bz b)) (bytes_of s).

(** All runes of [s] satisfy [p]. *)
Definition all_runes (p : Z -> bool) (s : string) : bool :=
  forallb (fun '(r, _) => p r) (runes s).

(** The first [n] bytes of [s] are all at least [0x80]. *)
Fixpoint high_prefix (n : nat) (s : string) : Prop :=
  match n with
  | O => True
  | S n' => match s with
            | EmptyString => False
            | String c s' => 128 <= bz c /\ high_prefix n' s'
            end
  end.

Lemma decode_rune_ascii c s : bz c < 128 -> decode_rune c s = (bz c, 1%nat).
Proof. intros. unfold decode_rune. by rewrite (proj2 (Z.ltb_lt _ _)). Qed.

Lemma cont_lo lo hi b : cont lo hi b = true -> lo <= bz b <= hi.
Proof. unfold cont. rewrite andb_true_iff, !Z.leb_le. done. Qed.

(** A rune decoded from a byte at or above [0x80] is itself at or above [0x80],
    and the bytes it spans are too. *)
Lemma decode_rune_high c s r w :
  128 <= bz c -> decode_rune c s = (r, w) ->
  128 <= r /\ high_prefix (w - 1) s.
Proof.
  intros Hc. unfold decode_rune.
  assert (Hbad : (RuneError, 1%nat) = (r, w) -> 128 <= r /\ high_prefix (w - 1) s)
    by (intros [= <- <-]; unfold RuneError; simpl; split; [lia | done]).
  rewrite (proj2 (Z.ltb_ge (bz c) 128)) by done.
  destruct (Z.ltb_spec (bz c) 194); [done |].
  destruct (Z.ltb_spec (bz c) 224).
  { destruct s as [|c1 s]; [done |].
    destruct (cont 128 191 c1) eqn:E1; [|done]. apply cont_lo in E1.
    intros [= <- <-]. simpl. lia. }
  destruct (Z.ltb_spec (bz c) 240).
  { destruct s as [|c1 [|c2 s]]; try done.
    destruct (_ && _) eqn:E; [|done]. apply andb_true_iff in E as [E1 E2].
    apply cont_lo in E1, E2. intros [= <- <-]. simpl.
    destruct (Z.eqb_spec (bz c) 224); lia. }
  destruct (Z.ltb_spec (bz c) 245); [|done].
  destruct s as [|c1 [|c2 [|c3 s]]]; try done.
  destruct (_ && _) eqn:E; [|done]. rewrite !andb_true_iff in E. destruct E as [[E1 E2] E3].
  apply cont_lo in E1, E2, E3. intros [= <- <-]. simpl.
  destruct (Z.eqb_spec (bz c) 240); lia.
Qed.

(** A predicate that is constant on values at or above [0x80] holds of every
    rune exactly when it holds of every byte. *)
Lemma all_runes_from_bytes p (v : bool) k s :
  (forall z, 128 <= z -> p z = v) -> high_prefix k s ->
  (k <> 0%nat -> v = true) ->
  forallb (fun '(r, _) => p r) (runes_from k s) = all_bytes p s.
Proof.
  intros Hp. revert k. induction s as [|c s IH]; intros k Hk Hv; [done |].
  unfold all_bytes; simpl. destruct k as [|k].
  - destruct (decode_rune c s) as [r w] eqn:E. simpl.
    destruct (Z.lt_ge_cases (bz c) 128) as [Hl|Hh].
    + rewrite decode_rune_ascii in E by done. injection E as <- <-.
      rewrite IH by done. done.
    + apply decode_rune_high in E as [Hr Hw]; [|done].
      rewrite !Hp by done. destruct v; [|done]. simpl. by apply IH.
  - destruct Hk as [Hc Hk]. rewrite Hp, Hv by done. simpl. apply IH; [done |].
    intros _. by apply Hv.
Qed.

Lemma all_runes_bytes p (v : bool) s :
  (forall z, 128 <= z -> p z = v) -> all_runes p s = all_bytes p s.
Proof. intros Hp. apply (all_runes_from_bytes p v 0); done. Qed.

(** ** [encoding/hex] *)

Definition hex_digit (n : Z) : ascii :=
  byte_of_Z (if n <? 10 then 48 + n else 87 + n).

(** [hex.EncodeToString]. *)
Fixpoint hex_EncodeToString (l : list ascii) : string :=
  match l with
  | [] => ""
  | b :: l' =>
      String (hex_digit (bz b / 16)) (String (hex_digit (bz b mod 16)) (hex_EncodeToString l'))
  end.

(** [fromHexChar]: upper and lower case are both accepted. *)
Definition from_hex_char (c : ascii) : option Z :=
  let x := bz c in
  if (48 <=? x) && (x <=? 57) then Some (x - 48)
  else if (97 <=? x) && (x <=? 102) then Some (x - 87)
  else if (65 <=? x) && (x <=? 70) then Some (x - 55)
  else None.

(** [hex.DecodeString]: [None] for a bad character or an odd length. *)
Fixpoint hex_DecodeString (s : string) : option (list ascii) :=
  match s with
  | EmptyString => Some []
  | String a (String b s') =>
      match from_hex_char a, from_hex_char b, hex_DecodeString s' with
      | Some h, Some l, Some rest => Some (byte_of_Z (h * 16 + l) :: rest)
      | _, _, _ => None
      end
  | String _ EmptyString => None
  end.

Lemma from_hex_digit n : 0 <= n < 16 -> from_hex_char (hex_digit n) = Some n.
Proof.
  intros Hn.
  assert (H : forallb (fun k => bool_decide (from_hex_char (hex_digit k) = Some k))
                (seqZ 0 16) = true) by reflexivity.
  rewrite forallb_forall in H.
  specialize (H n). rewrite bool_decide_eq_true in H. apply H.
  apply list_elem_of_In, elem_of_seqZ. lia.
Qed.

Lemma hex_decode_encode l : hex_DecodeString (hex_EncodeToString l) = Some l.
Proof.
  induction l as [|b l IH]; simpl; [done |].
  pose proof (bz_range b).
  rewrite !from_hex_digit by (try apply Z.mod_pos_bound; try split;
    try apply Z.div_pos; try apply Z.div_lt_upper_bound; lia).
  rewrite IH. do 2 f_equal.
  replace (bz b / 16 * 16 + bz b mod 16) with (bz b)
    by (rewrite (Z.div_mod (bz b) 16) at 1; lia).
  apply byte_of_Z_bz.
Qed.

(** ** [strconv.FormatInt] and [strconv.Atoi], base 10 *)

(** The decimal digits of [n], least significant last, in front of [acc]. *)
Fixpoint dec_digits (fuel : nat) (n : Z) (acc : string) : string :=
  match fuel with
  | O => acc
  | S f =>
      let acc' := String (byte_of_Z (48 + n mod 10)) acc in
      if n <? 10 then acc' else dec_digits f (n / 10) acc'
  end.

(** One step of fuel per bit is more than one per decimal digit. *)
Definition dec_fuel (n : Z) : nat := S (Z.to_nat (Z.log2 n)).

Definition FormatInt (z : Z) : string :=
  if z <? 0 then String "-" (dec_digits (dec_fuel (- z)) (- z) "")
  else dec_digits (dec_fuel z) z "".

Fixpoint parse_dec (s : string) (acc : Z) : option Z :=
  match s with
  | EmptyString => Some acc
  | String c s' =>
      if (48 <=? bz c) && (bz c <=? 57) then parse_dec s' (acc * 10 + (bz c - 48)) else None
  end.

(** An optional sign and at least one digit, as [strconv.Atoi] reads them,
    before the range check. *)
Definition parse_signed (s : string) : option Z :=
  match s with
  | EmptyString => None
  | String c s' =>
      if bz c =? 45 then if (len s' =? 0) then None else Z.opp <$> parse_dec s' 0
      else if bz c =? 43 then if (len s' =? 0) then None else parse_dec s' 0
      else parse_dec s 0
  end.

Definition Atoi (s : string) : option Z :=
  match parse_signed s with
  | Some z => if in_int64 z then Some z else None
  | None => None
  end.

Lemma bz_dec_digit n : bz (byte_of_Z (48 + n mod 10)) = 48 + n mod 10.
Proof. apply bz_byte_of_Z. pose proof (Z.mod_pos_bound n 10). lia. Qed.

Lemma dec_fuel_enough n : 0 <= n -> n < 10 ^ Z.of_nat (dec_fuel n).
Proof.
  intros. unfold dec_fuel. destruct (Z.eq_dec n 0) as [->|]; [done |].
  destruct (Z.log2_spec n) as [_ Hl]; [lia |].
  pose proof (Z.log2_nonneg n).
  eapply Z.lt_le_trans; [exact Hl |].
  rewrite Nat2Z.inj_succ, Z2Nat.id by done.
  apply Z.pow_le_mono_l. lia.
Qed.

Lemma parse_dec_digits f n acc :
  0 <= n < 10 ^ Z.of_nat f -> (f <> 0)%nat -> parse_dec (dec_digits f n acc) 0 = parse_dec acc n.
Proof.
  revert n acc. induction f as [|f IH]; intros n acc Hn Hf; [done |]. simpl.
  pose proof (Z.mod_pos_bound n 10 eq_refl).
  assert (Hstep : forall v, parse_dec (String (byte_of_Z (48 + n mod 10)) acc) v
                            = parse_dec acc (v * 10 + n mod 10)).
  { intros v. simpl. rewrite bz_dec_digit.
    rewrite (proj2 (Z.leb_le _ _)), (proj2 (Z.leb_le _ _)) by lia. simpl. f_equal. lia. }
  destruct (Z.ltb_spec n 10) as [Hlt|Hge].
  - rewrite Hstep, Z.mod_small by lia. f_equal.
  - rewrite Nat2Z.inj_succ, Z.pow_succ_r in Hn by lia.
    rewrite IH, Hstep.
    + f_equal. rewrite (Z.div_mod n 10) at 3 by done. lia.
    + split; [apply Z.div_pos; lia | apply Z.div_lt_upper_bound; lia].
    + intros ->. simpl in Hn. lia.
Qed.

Lemma dec_digits_head f n acc :
  0 <= n -> (f <> 0)%nat ->
  exists c s, dec_digits f n acc = String c s /\ 48 <= bz c <= 57.
Proof.
  revert n acc. induction f as [|f IH]; intros n acc Hn Hf; [done |]. simpl.
  pose proof (Z.mod_pos_bound n 10 eq_refl).
  assert (48 <= bz (byte_of_Z (48 + n mod 10)) <= 57) by (rewrite bz_dec_digit; lia).
  destruct (Z.ltb_spec n 10); [by eauto |].
  destruct f; [by simpl; eauto |]. apply IH; [apply Z.div_pos; lia | done].
Qed.

(** Parsing a formatted integer gives the integer back. *)
Lemma parse_signed_FormatInt z : parse_signed (FormatInt z) = Some z.
Proof.
  unfold FormatInt. destruct (Z.ltb_spec z 0) as [Hn|Hp].
  - destruct (dec_digits_head (dec_fuel (- z)) (- z) "") as (c & s & E & _); [lia | done |].
    unfold parse_signed. change (bz "-" =? 45) with true. cbv iota.
    rewrite E at 1. rewrite len_String_eqb, parse_dec_digits; [| | done].
    + simpl. f_equal. lia.
    + split; [lia | apply dec_fuel_enough; lia].
  - destruct (dec_digits_head (dec_fuel z) z "") as (c & s & E & Hc); [lia | done |].
    unfold parse_signed. rewrite E.
    rewrite (proj2 (Z.eqb_neq _ _)), (proj2 (Z.eqb_neq _ _)) by lia.
    rewrite <- E, parse_dec_digits; [done | | done].
    split; [lia | apply dec_fuel_enough; lia].
Qed.

Lemma FormatInt_inj a b : FormatInt a = FormatInt b -> a = b.
Proof.
  intros E. apply (f_equal parse_signed) in E.
  rewrite !parse_signed_FormatInt in E. by simplify_eq.
Qed.

Lemma Atoi_FormatInt z : in_int64 z = true -> Atoi (FormatInt z) = Some z.
Proof. intros Hz. unfold Atoi. by rewrite parse_signed_FormatInt, Hz. Qed.

Lemma dec_digits_bytes f n acc :
  0 <= n -> Forall (fun b => 45 <= bz b <= 57) (bytes_of acc) ->
  Forall (fun b => 45 <= bz b <= 57) (bytes_of (dec_digits f n acc)).
Proof.
  revert n acc. induction f as [|f IH]; intros n acc Hn Hacc; [done |]. simpl.
  pose proof (Z.mod_pos_bound n 10 eq_refl).
  assert (Forall (fun b => 45 <= bz b <= 57)
            (bytes_of (String (byte_of_Z (48 + n mod 10)) acc))).
  { simpl. constructor; [rewrite bz_dec_digit; lia | done]. }
  destruct (Z.ltb_spec n 10); [done |]. apply IH; [apply Z.div_pos; lia | done].
Qed.

(** A formatted integer is made of digits and possibly a minus sign. *)
Lemma FormatInt_bytes z : Forall (fun b => 45 <= bz b <= 57) (bytes_of (FormatInt z)).
Proof.
  unfold FormatInt. destruct (Z.ltb_spec z 0).
  - cbn [bytes_of]. constructor; [done |]. apply dec_digits_bytes; [lia | constructor].
  - apply dec_digits_bytes; [lia | constructor].
Qed.
