(* ===== verification/GoStrings.v ===== *)
(** * [strings] and [strconv]: the text functions of configuration and transport

    [TrimSpace], [Fields], [Split], [HasPrefix], [Contains], [ContainsAny],
    [ToLower], [EqualFold] and [ParseBool], and path cleaning, as far as the
    program uses them.
    Trimming and splitting work on runes, by [unicode.IsSpace]. *)
From stdpp Require Import base gmap fin_maps strings list.
From Stdlib Require Import ZArith Lia Ascii.
From S2P Require Import Prelude.
From S2P Require Import GoStd.

Open Scope Z_scope.

(** [unicode.IsSpace]: the runes of the White_Space property. *)
Definition IsSpace (r : Z) : bool :=
  ((9 <=? r) && (r <=? 13)) || (r =? 32) || (r =? 133) || (r =? 160) || (r =? 5760)
  || ((8192 <=? r) && (r <=? 8202)) || (r =? 8232) || (r =? 8233) || (r =? 8239)
  || (r =? 8287) || (r =? 12288).

(** Leading space runes dropped; [skip] counts the bytes of a dropped rune
    still to be passed over. *)
Fixpoint trim_left (skip : nat) (s : string) : string :=
  match s with
  | EmptyString => EmptyString
  | String c s' =>
      match skip with
      | S k => trim_left k s'
      | O => let '(r, w) := decode_rune c s' in
             if IsSpace r then trim_left (w - 1) s' else s
      end
  end.

(** Trailing space runes dropped: cut at the first rune from which on all are
    spaces. A well-formed rune is the same read forwards or backwards, because
    a leading byte is never a continuation byte. *)
Fixpoint trim_right (skip : nat) (s : string) : string :=
  match s with
  | EmptyString => EmptyString
  | String c s' =>
      match skip with
      | S k => String c (trim_right k s')
      | O => if all_runes IsSpace s then EmptyString
             else String c (trim_right (snd (decode_rune c s') - 1) s')
      end
  end.

Definition TrimSpace (s : string) : string := trim_right 0 (trim_left 0 s).

(** [strings.Fields]: maximal runs of runes that are not spaces. [cur] holds
    the bytes of the current field, latest first; [keep] says whether the rune
    being passed over belongs to it. *)
Definition flush (cur : list ascii) : list string :=
  match cur with [] => [] | _ => [string_of_bytes (rev cur)] end.

Fixpoint fields_from (skip : nat) (keep : bool) (cur : list ascii) (s : string) : list string :=
  match s with
  | EmptyString => flush cur
  | String c s' =>
      match skip with
      | S k => fields_from k keep (if keep then c :: cur else cur) s'
      | O => let '(r, w) := decode_rune c s' in
             if IsSpace r then (flush cur ++ fields_from (w - 1) false [] s')%list
             else fields_from (w - 1) true (c :: cur) s'
      end
  end.

Definition Fields (s : string) : list string := fields_from 0 false [] s.

(** [strings.Split] by a separator of one byte. *)
Fixpoint split_from (sep : ascii) (cur : list ascii) (s : string) : list string :=
  match s with
  | EmptyString => [string_of_bytes (rev cur)]
  | String c s' =>
      if bool_decide (c = sep) then string_of_bytes (rev cur) :: split_from sep [] s'
      else split_from sep (c :: cur) s'
  end.

Definition Split (s : string) (sep : ascii) : list string := split_from sep [] s.

(** [path.Clean] and, on Unix, [filepath.Clean]: the segments of a path with
    empty ones and "." dropped and ".." removing the one before it; at the root
    ".." is dropped, and a relative path keeps those it cannot resolve. [kept]
    holds the segments kept so far, latest first. *)
Fixpoint clean_segments (rooted : bool) (kept segs : list string) : list string :=
  match segs with
  | [] => reverse kept
  | s :: segs' =>
      if bool_decide (s = "" \/ s = ".") then clean_segments rooted kept segs'
      else if bool_decide (s = "..") then
        match kept with
        | [] => clean_segments rooted (if rooted then [] else [".."%string]) segs'
        | x :: rest =>
            if bool_decide (x = "..") then clean_segments rooted (s :: kept) segs'
            else clean_segments rooted rest segs'
        end
      else clean_segments rooted (s :: kept) segs'
  end.

Fixpoint join_slash (segs : list string) : string :=
  match segs with
  | [] => ""
  | [s] => s
  | s :: segs' => s +:+ "/" +:+ join_slash segs'
  end.

Definition path_Clean (p : string) : string :=
  let rooted := match p with String c _ => bool_decide (c = "/"%char) | EmptyString => false end in
  let body := join_slash (clean_segments rooted [] (Split p "/")) in
  if rooted then "/" +:+ body else if bool_decide (body = "") then "."%string else body.

(** [filepath.Join(dir, name)] of two elements that are not empty. *)
Definition filepath_Join (dir name : string) : string := path_Clean (dir +:+ "/" +:+ name).

(** [strings.HasPrefix(s, prefix)]. *)
Fixpoint HasPrefix (s prefix : string) : bool :=
  match prefix, s with
  | EmptyString, _ => true
  | String p prefix', String c s' => bool_decide (p = c) && HasPrefix s' prefix'
  | String _ _, EmptyString => false
  end.

(** [strings.Contains(s, substr)]. *)
Fixpoint Contains (s substr : string) : bool :=
  HasPrefix s substr || match s with EmptyString => false | String _ s' => Contains s' substr end.

(** [strings.ContainsAny(s, chars)] for ASCII [chars]. *)
Definition ContainsAny (s chars : string) : bool :=
  existsb (fun c => bool_decide (c ∈ bytes_of chars)) (bytes_of s).

Definition lower_byte (c : ascii) : ascii :=
  if (65 <=? bz c) && (bz c <=? 90) then byte_of_Z (bz c + 32) else c.

(** [strings.ToLower]: the ASCII letters, and the two other runes whose lower
    case is an ASCII letter (U+0130 and the Kelvin sign U+212A). Any other rune
    has a lower case outside ASCII and is left as it is here: the program only
    compares the result with ASCII words. *)
Fixpoint lower_from (skip : nat) (s : string) : string :=
  match s with
  | EmptyString => EmptyString
  | String c s' =>
      match skip with
      | S k => lower_from k s'
      | O => let '(r, w) := decode_rune c s' in
             if r =? 304 then String "i" (lower_from (w - 1) s')
             else if r =? 8490 then String "k" (lower_from (w - 1) s')
             else String (lower_byte c) (lower_from 0 s')
      end
  end.

Definition ToLower (s : string) : string := lower_from 0 s.

(** [strings.EqualFold(s, t)] for a [t] of ASCII bytes without the letters K and
    S, the only ones that fold with a rune outside ASCII. *)
Definition EqualFold (s t : string) : bool :=
  bool_decide (lower_byte <$> bytes_of s = lower_byte <$> bytes_of t).

(** [s[i:]] for an [i] within the string. *)
Definition slice_from (i : nat) (s : string) : string := string_of_bytes (drop i (bytes_of s)).
(** [s[:i]] for an [i] within the string. *)
Definition slice_to (i : nat) (s : string) : string := string_of_bytes (take i (bytes_of s)).

(** [strconv.ParseBool]. *)
Definition ParseBool (s : string) : option bool :=
  if bool_decide (s ∈ ["1"; "t"; "T"; "TRUE"; "true"; "True"]%string) then Some true
  else if bool_decide (s ∈ ["0"; "f"; "F"; "FALSE"; "false"; "False"]%string) then Some false
  else None.

(** ** Facts *)

Lemma HasPrefix_app p s : HasPrefix (p +:+ s) p = true.
Proof.
  induction p as [|c p IH]; [by destruct s |].
  change (String c p +:+ s) with (String c (p +:+ s)). cbn [HasPrefix].
  by rewrite bool_decide_eq_true_2, IH.
Qed.

Lemma HasPrefix_spec s p : HasPrefix s p = true <-> exists t, s = p +:+ t.
Proof.
  split; [|intros [t ->]; apply HasPrefix_app].
  revert s. induction p as [|c p IH]; intros s; [by exists s |].
  destruct s as [|d s]; [done |]. cbn [HasPrefix].
  rewrite andb_true_iff, bool_decide_eq_true. intros [-> [t ->]%IH]. by exists t.
Qed.

Lemma ContainsAny_false s chars :
  ContainsAny s chars = false <-> Forall (fun c => c ∉ bytes_of chars) (bytes_of s).
Proof.
  unfold ContainsAny. rewrite <- not_true_iff_false, existsb_exists, List.Forall_forall.
  setoid_rewrite bool_decide_eq_true. split.
  - intros H c Hc Hin. apply H. eauto.
  - intros H (c & Hc & Hin). by apply (H c).
Qed.

(** ** Trimming *)

(** At a rune boundary: the bytes of the first rune, then the rest. *)
Lemma all_runes_String p c s :
  all_runes p (String c s) = p (fst (decode_rune c s))
    && forallb (fun '(r, _) => p r) (runes_from (snd (decode_rune c s) - 1) s).
Proof. unfold all_runes, runes. simpl. by destruct (decode_rune c s). Qed.

(** What trimming on the right leaves ends with a rune that is not a space, so
    trimming twice is trimming once, whatever is skipped first. *)
Lemma trim_right_nil_iff k s :
  trim_right k s = "" <-> s = "" \/ (k = 0%nat /\ all_runes IsSpace s = true).
Proof.
  destruct s as [|c s]; [by split; [left |] |]. destruct k as [|k]; cbn [trim_right].
  - destruct (all_runes IsSpace (String c s)); split; try done; [by right | by intros [|[]]].
  - split; [done | by intros [|[]]].
Qed.

(** [TrimSpace] is empty exactly on blank strings. *)
Lemma trim_left_blank k s :
  forallb (fun '(r, _) => IsSpace r) (runes_from k s) = true -> trim_left k s = "".
Proof.
  revert k. induction s as [|c s IH]; intros k; [done |].
  cbn [runes_from trim_left]. destruct k as [|k]; [|apply IH].
  destruct (decode_rune c s) as [r w]. cbn [forallb]. rewrite andb_true_iff.
  intros [-> H]. by apply IH.
Qed.

Lemma trim_left_not_blank k s :
  all_runes IsSpace (trim_left k s) = true -> trim_left k s = "".
Proof.
  revert k. induction s as [|c s IH]; intros k; [done |].
  cbn [trim_left]. destruct k as [|k]; [|apply IH].
  destruct (decode_rune c s) as [r w] eqn:E. destruct (IsSpace r) eqn:Hr; [apply IH |].
  rewrite all_runes_String, E. simpl. by rewrite Hr.
Qed.

Lemma TrimSpace_empty s : TrimSpace s = "" <-> all_runes IsSpace s = true.
Proof.
  unfold TrimSpace. rewrite trim_right_nil_iff. split.
  - intros [H|[_ H]]; [|apply trim_left_not_blank in H]; revert H;
      unfold all_runes, runes; generalize 0%nat as k;
      (induction s as [|c s IH]; intros k; [done |]; cbn [trim_left runes_from];
       destruct k as [|k]; [|apply IH]; destruct (decode_rune c s) as [r w];
       destruct (IsSpace r) eqn:Hr; [|done]; cbn [forallb]; rewrite Hr; apply IH).
  - intros H. left. by apply trim_left_blank.
Qed.

(** ** Paths *)

Lemma split_from_app sep cur a b :
  split_from sep cur (a +:+ String sep b) = (split_from sep cur a ++ split_from sep [] b)%list.
Proof.
  revert cur. induction a as [|c a IH]; intros cur.
  - change ("" +:+ String sep b) with (String sep b). cbn [split_from].
    by rewrite bool_decide_eq_true_2.
  - change (String c a +:+ String sep b) with (String c (a +:+ String sep b)). cbn [split_from].
    case_bool_decide; [by rewrite IH | apply IH].
Qed.

(** A plain file name: not empty, no separator, not a dot segment. *)
Definition plain_name (s : string) : Prop :=
  Forall (fun c => c <> "/"%char) (bytes_of s) /\ s <> "" /\ s <> "." /\ s <> "..".

Lemma split_from_plain cur s :
  Forall (fun c => c <> "/"%char) (bytes_of s) ->
  split_from "/" cur s = [string_of_bytes (rev cur ++ bytes_of s)].
Proof.
  revert cur. induction s as [|c s IH]; intros cur Hs; cbn [split_from bytes_of] in *.
  - by rewrite app_nil_r.
  - inversion_clear Hs as [|? ? Hc Hr]. rewrite bool_decide_eq_false_2 by done.
    rewrite IH by done. simpl. by rewrite <- app_assoc.
Qed.

(** An ordinary name at the end of a path stays there. *)
Lemma clean_segments_snoc rooted kept segs x :
  x <> "" -> x <> "." -> x <> ".." ->
  clean_segments rooted kept (segs ++ [x]) = (clean_segments rooted kept segs ++ [x])%list.
Proof.
  intros H1 H2 H3. revert kept. induction segs as [|s segs IH]; intros kept; simpl.
  - rewrite bool_decide_eq_false_2 by naive_solver. rewrite bool_decide_eq_false_2 by done.
    by rewrite reverse_cons.
  - case_bool_decide; [apply IH |]. case_bool_decide; [|apply IH].
    destruct kept as [|y kept]; [apply IH |]. case_bool_decide; apply IH.
Qed.

Lemma append_assoc (a b c : string) : (a +:+ b) +:+ c = a +:+ b +:+ c.
Proof. apply bytes_of_inj. by rewrite !bytes_of_app, app_assoc. Qed.

Lemma append_inj (a b c : string) : a +:+ b = a +:+ c -> b = c.
Proof. intros H%(f_equal bytes_of). rewrite !bytes_of_app in H. by apply app_inv_head, bytes_of_inj in H. Qed.

Lemma join_slash_snoc l : exists pre, forall x, join_slash (l ++ [x]) = pre +:+ x.
Proof.
  induction l as [|s l [pre IH]]; [by exists "" |]. exists (s +:+ "/" +:+ pre). intros x.
  assert (Hj : join_slash ((s :: l) ++ [x]) = s +:+ "/" +:+ join_slash (l ++ [x])) by (by destruct l).
  by rewrite Hj, IH, !append_assoc.
Qed.

(** Two names in one directory are two files. *)
Lemma filepath_Join_inj dir x y :
  plain_name x -> plain_name y -> filepath_Join dir x = filepath_Join dir y -> x = y.
Proof.
  intros Hx Hy. set (rooted := match dir with String c _ => bool_decide (c = "/"%char) | EmptyString => true end).
  destruct (join_slash_snoc (clean_segments rooted [] (Split dir "/"))) as [pre Hpre].
  assert (Hj : forall z, plain_name z ->
    filepath_Join dir z = (if rooted then "/" +:+ pre +:+ z else pre +:+ z)).
  { intros z (Hz & H1 & H2 & H3). unfold filepath_Join, path_Clean.
    replace (match dir +:+ "/" +:+ z with String c _ => bool_decide (c = "/"%char) | EmptyString => false end)
      with rooted by (by destruct dir).
    unfold Split. change (dir +:+ "/" +:+ z) with (dir +:+ String "/" z).
    rewrite split_from_app, (split_from_plain [] z Hz). simpl rev. simpl app. rewrite string_of_bytes_of.
    rewrite clean_segments_snoc by done. rewrite Hpre. destruct rooted; [done |].
    rewrite bool_decide_eq_false_2; [done |]. intros H%(f_equal bytes_of). rewrite bytes_of_app in H.
    apply app_eq_nil in H as [_ H]. by destruct z. }
  rewrite !Hj by done. destruct rooted; intros H; [do 2 apply append_inj in H | apply append_inj in H]; done.
Qed.
