(* ===== verification/GoTime.v ===== *)
(** * [time]: the timestamp format of a store record

    [time.Now().UTC().Format(time.RFC3339Nano)] for an instant given in
    nanoseconds since the Unix epoch: the proleptic Gregorian date, the time
    of day, and the fraction without trailing zeros; and [time.ParseDuration]. *)
From stdpp Require Import base gmap fin_maps strings list.
From Stdlib Require Import ZArith Lia Ascii.
From S2P Require Import Prelude.
From S2P Require Import GoStd.

Open Scope Z_scope.

(** The zero [time.Time], January 1 of the year 1, and [IsZero]. *)
Definition zero_time : Z := -62135596800 * 1000000000.
Definition IsZero (t : Z) : bool := t =? zero_time.

(** Year, month and day of a day number counted from 1970-01-01, by
    400-year eras that start on the first of March. *)
Definition civil_from_days (days : Z) : Z * Z * Z :=
  let z := days + 719468 in
  let era := z / 146097 in
  let doe := z mod 146097 in
  let yoe := (doe - doe / 1460 + doe / 36524 - doe / 146096) / 365 in
  let doy := doe - (365 * yoe + yoe / 4 - yoe / 100) in
  let mp := (5 * doy + 2) / 153 in
  let d := doy - (153 * mp + 2) / 5 + 1 in
  let m := if mp <? 10 then mp + 3 else mp - 9 in
  let y := yoe + era * 400 + (if m <=? 2 then 1 else 0) in
  (y, m, d).

(** A decimal number in at least [w] digits. *)
Definition pad_int (w : nat) (n : Z) : string :=
  let s := FormatInt n in
  string_of_bytes (replicate (w - String.length s) "0"%char ++ bytes_of s)%list.

(** Trailing zeros dropped. *)
Fixpoint trim_zeros (l : list ascii) : list ascii :=
  match l with
  | [] => []
  | c :: l' =>
      match trim_zeros l' with
      | [] => if bz c =? 48 then [] else [c]
      | r => c :: r
      end
  end.

Definition fraction (ns : Z) : string :=
  match trim_zeros (bytes_of (pad_int 9 ns)) with
  | [] => ""
  | l => String "." (string_of_bytes l)
  end.

Definition FormatRFC3339Nano (t : Z) : string :=
  let secs := t / 1000000000 in
  let ns := t mod 1000000000 in
  let '(y, m, d) := civil_from_days (secs / 86400) in
  let tod := secs mod 86400 in
  pad_int 4 y +:+ "-" +:+ pad_int 2 m +:+ "-" +:+ pad_int 2 d +:+ "T"
  +:+ pad_int 2 (tod / 3600) +:+ ":" +:+ pad_int 2 (tod / 60 mod 60) +:+ ":"
  +:+ pad_int 2 (tod mod 60) +:+ fraction ns +:+ "Z".

Example FormatRFC3339Nano_example :
  FormatRFC3339Nano 1709210096789000000 = "2024-02-29T12:34:56.789Z"%string.
Proof. vm_compute. reflexivity. Qed.

(** ** [time.ParseDuration]

    A sign, then one or more decimal numbers with a unit. The integer part is
    64-bit arithmetic with overflow checks. The contribution of a fraction is
    computed by the source in [float64]: that expression is the parameter
    [frac f unit scale], an approximation of [f * unit / scale]. *)

Definition is_digit (c : ascii) : bool := (48 <=? bz c) && (bz c <=? 57).

(** [leadingInt]: [None] on overflow past [1<<63]. *)
Fixpoint leadingInt (x : Z) (s : string) : option (Z * string) :=
  match s with
  | EmptyString => Some (x, s)
  | String c s' =>
      if negb (is_digit c) then Some (x, s)
      else if 2 ^ 63 / 10 <? x then None
      else let x' := x * 10 + (bz c - 48) in
           if 2 ^ 63 <? x' then None else leadingInt x' s'
  end.

(** [leadingFraction]: digits past an overflow are read and ignored. *)
Fixpoint leadingFraction (x scale : Z) (overflow : bool) (s : string) : Z * Z * string :=
  match s with
  | EmptyString => (x, scale, s)
  | String c s' =>
      if negb (is_digit c) then (x, scale, s)
      else if overflow || ((2 ^ 63 - 1) / 10 <? x) then leadingFraction x scale true s'
      else let y := x * 10 + (bz c - 48) in
           if 2 ^ 63 <? y then leadingFraction x scale true s'
           else leadingFraction y (scale * 10) false s'
  end.

(** The unit: everything up to the next dot or digit. *)
Fixpoint span_unit (s : string) : string * string :=
  match s with
  | EmptyString => (EmptyString, EmptyString)
  | String c s' =>
      if (bz c =? 46) || is_digit c then (EmptyString, s)
      else let '(u, rest) := span_unit s' in (String c u, rest)
  end.

Definition Nanosecond : Z := 1.
Definition Microsecond : Z := 1000.
Definition Millisecond : Z := 1000 * Microsecond.
Definition Second : Z := 1000 * Millisecond.
Definition Minute : Z := 60 * Second.
Definition Hour : Z := 60 * Minute.

(** [t.Unix()], as an instant. *)
Definition whole_second (t : Z) : Z := t / Second * Second.

(** [t.UTC().Format(time.RFC3339)]: the fraction of the second is dropped. *)
Definition FormatRFC3339 (t : Z) : string := FormatRFC3339Nano (whole_second t).

Example FormatRFC3339_example :
  FormatRFC3339 1709210096789000000 = "2024-02-29T12:34:56Z"%string.
Proof. vm_compute. reflexivity. Qed.

(** The two spellings of the micro sign are U+00B5 and U+03BC in UTF-8. *)
Definition unitMap : list (string * Z) :=
  [("ns", Nanosecond); ("us", Microsecond); (String "194" (String "181" "s"), Microsecond);
   (String "206" (String "188" "s"), Microsecond); ("ms", Millisecond); ("s", Second);
   ("m", Minute); ("h", Hour)]%string.

Definition unit_of (u : string) : option Z :=
  snd <$> find (fun kv => bool_decide (fst kv = u)) unitMap.

Section ParseDuration.
Variable frac : Z -> Z -> Z -> Z.

(** One number and its unit, from a text that is not empty: its value and
    what follows it. *)
Definition duration_term (s : string) : option (Z * string) :=
  match s with
  | EmptyString => None
  | String c _ =>
      if negb ((bz c =? 46) || is_digit c) then None
      else match leadingInt 0 s with
      | None => None
      | Some (v, s1) =>
          let pre := negb (String.length s1 =? String.length s)%nat in
          let '(f, scale, post, s2) :=
            match s1 with
            | String d t =>
                if bz d =? 46
                then let '(f, scale, s2) := leadingFraction 0 1 false t in
                     (f, scale, negb (String.length s2 =? String.length t)%nat, s2)
                else (0, 1, false, s1)
            | EmptyString => (0, 1, false, s1)
            end in
          if negb pre && negb post then None
          else let '(u, s3) := span_unit s2 in
          match unit_of u with
          | None => None
          | Some unit =>
              if 2 ^ 63 / unit <? v then None
              else let v := v * unit in
              let v := if 0 <? f then v + frac f unit scale else v in
              if 2 ^ 63 <? v then None else Some (v, s3)
          end
      end
  end.

(** The loop over the terms; each one consumes at least a byte, so the length
    of the text is fuel enough. *)
Fixpoint duration_loop (fuel : nat) (d : Z) (s : string) : option Z :=
  match s, fuel with
  | EmptyString, _ => Some d
  | _, O => None
  | _, S fuel =>
      match duration_term s with
      | None => None
      | Some (v, rest) => if 2 ^ 63 <? d + v then None else duration_loop fuel (d + v) rest
      end
  end.

Definition ParseDuration (s : string) : option Z :=
  let '(neg, s) :=
    match s with
    | String c s' =>
        if bz c =? 45 then (true, s') else if bz c =? 43 then (false, s') else (false, s)
    | EmptyString => (false, s)
    end in
  if bool_decide (s = "0"%string) then Some 0
  else if bool_decide (s = ""%string) then None
  else match duration_loop (String.length s) 0 s with
  | None => None
  | Some d => if neg then Some (- d) else if 2 ^ 63 - 1 <? d then None else Some d
  end.
End ParseDuration.

(** *** The fuel suffices *)

Lemma leadingInt_length x s v rest :
  leadingInt x s = Some (v, rest) -> (String.length rest <= String.length s)%nat.
Proof.
  revert x. induction s as [|c s IH]; intros x; simpl; [by intros [= _ <-] |].
  repeat case_match; intros H'; simplify_eq/=; try lia. apply IH in H'. lia.
Qed.

Lemma leadingFraction_length x scale o s f sc rest :
  leadingFraction x scale o s = (f, sc, rest) -> (String.length rest <= String.length s)%nat.
Proof.
  revert x scale o. induction s as [|c s IH]; intros x scale o; simpl; [by intros [= _ _ <-] |].
  repeat case_match; intros H'; simplify_eq/=; try lia; apply IH in H'; lia.
Qed.

Lemma span_unit_length s u rest :
  span_unit s = (u, rest) -> String.length s = (String.length u + String.length rest)%nat.
Proof.
  revert u rest. induction s as [|c s IH]; intros u rest; simpl; [by intros [= <- <-] |].
  case_match; [by intros [= <- <-] |]. destruct (span_unit s) as [u' r'] eqn:E.
  intros [= <- <-]. simpl. by rewrite (IH _ _ eq_refl).
Qed.

Lemma duration_term_length frac s v rest :
  duration_term frac s = Some (v, rest) -> (String.length rest < String.length s)%nat.
Proof.
  unfold duration_term. destruct s as [|c s0]; [done |]. set (s := String c s0).
  case_match; [done |]. destruct (leadingInt 0 s) as [[v0 s1]|] eqn:E1; [|done].
  apply leadingInt_length in E1.
  destruct (match s1 with EmptyString => _ | String _ _ => _ end) as [[[f sc] post] s2] eqn:E2.
  assert (String.length s2 <= String.length s1)%nat.
  { destruct s1 as [|d t]; [by simplify_eq |]. simpl. case_match; [|by simplify_eq].
    destruct (leadingFraction 0 1 false t) as [[? ?] ?] eqn:E3. simplify_eq.
    apply leadingFraction_length in E3. lia. }
  destruct (negb _ && negb post); [done |]. destruct (span_unit s2) as [u s3] eqn:E4. apply span_unit_length in E4.
  destruct u as [|uc u]; [by change (unit_of EmptyString) with (@None Z) |]. simpl in E4.
  repeat case_match; intros; simplify_eq; lia.
Qed.

(** More fuel than bytes changes nothing: the loop ends by itself. *)
Lemma duration_loop_fuel frac n s d :
  (String.length s <= n)%nat ->
  duration_loop frac n d s = duration_loop frac (String.length s) d s.
Proof.
  revert s d. induction (lt_wf n) as [n _ IH]. intros s d Hn.
  destruct s as [|c s]; [by destruct n |]. destruct n as [|n]; [simpl in Hn; lia |].
  cbn [String.length duration_loop].
  destruct (duration_term frac (String c s)) as [[v rest]|] eqn:E; [|done].
  apply duration_term_length in E. simpl in E, Hn. case_match; [done |].
  rewrite (IH n) by lia. destruct (decide (String.length s = n)) as [->|]; [|symmetry; apply IH; lia].
  symmetry. apply IH; lia.
Qed.

Definition exact_frac (f unit scale : Z) : Z := f * unit / scale.

Example ParseDuration_examples :
  ParseDuration exact_frac "1h15m30.5s" = Some (4530 * Second + 500 * Millisecond)
  /\ ParseDuration exact_frac "-30s" = Some (- 30 * Second)
  /\ ParseDuration exact_frac "0" = Some 0
  /\ ParseDuration exact_frac "5" = None
  /\ ParseDuration exact_frac ".s" = None
  /\ ParseDuration exact_frac "3000000h" = None.
Proof. vm_compute. done. Qed.

(** ** The characters of a timestamp *)

Section chars.
Variable p : Z -> bool.
Hypothesis Hdigits : forall z, 45 <= z <= 57 -> p z = true.
Hypothesis Hcolon : p 58 = true.
Hypothesis HT : p 84 = true.
Hypothesis HZ : p 90 = true.

Lemma all_bytes_app s t : all_bytes p (s +:+ t) = all_bytes p s && all_bytes p t.
Proof. unfold all_bytes. by rewrite bytes_of_app, forallb_app. Qed.

Lemma pad_int_chars w n : all_bytes p (pad_int w n) = true.
Proof.
  unfold all_bytes, pad_int. rewrite bytes_of_string_of, forallb_app, andb_true_iff.
  split.
  - apply forallb_forall. intros b Hb%list_elem_of_In%elem_of_replicate. 
    destruct Hb as [-> _]. by apply Hdigits.
  - apply forallb_forall. intros b Hb. apply Hdigits.
    pose proof (FormatInt_bytes n) as Hf. rewrite List.Forall_forall in Hf. by apply Hf.
Qed.

Lemma trim_zeros_chars l :
  forallb (fun b => p (bz b)) l = true -> forallb (fun b => p (bz b)) (trim_zeros l) = true.
Proof.
  induction l as [|c l IH]; simpl; [done |]. rewrite andb_true_iff. intros [Hc Hl].
  specialize (IH Hl). destruct (trim_zeros l) as [|x r].
  - destruct (bz c =? 48); simpl; [done | by rewrite Hc].
  - cbn [forallb] in *. by rewrite Hc, IH.
Qed.

Lemma FormatRFC3339Nano_chars t : all_bytes p (FormatRFC3339Nano t) = true.
Proof.
  assert (Hf : forall ns, all_bytes p (fraction ns) = true).
  { intros ns. unfold fraction, all_bytes.
    pose proof (trim_zeros_chars _ (pad_int_chars 9 ns)) as H.
    destruct (trim_zeros _) as [|x r]; [done |].
    cbn [bytes_of]. rewrite bytes_of_string_of. cbn [forallb] in *.
    rewrite H. by rewrite Hdigits. }
  unfold FormatRFC3339Nano. destruct (civil_from_days _) as [[y m] d].
  rewrite !all_bytes_app, !pad_int_chars, Hf. unfold all_bytes. cbn [bytes_of forallb].
  change (bz "T") with 84. change (bz "Z") with 90. change (bz ":") with 58.
  rewrite HT, HZ, Hcolon, !(Hdigits (bz "-")) by done. done.
Qed.
End chars.
