(* ===== verification/GoJson.v ===== *)
(** * [encoding/json]

    The JSON the program reads and writes: [json.Marshal] and
    [json.Encoder.Encode] (with and without [SetIndent]) on the way out, the
    grammar and the string unquoting of [json.Unmarshal] on the way in. A number
    is its literal, as in [json.Number]. What is encoded decodes to the same
    value, with ill-formed UTF-8 replaced: [parse_encode]. *)
From stdpp Require Import base gmap fin_maps strings list sorting.
From Stdlib Require Import ZArith Lia Ascii.
From S2P Require Import Prelude.
From S2P Require Import GoStd.
From S2P Require Import GoStrings.

Open Scope Z_scope.

Abbreviation quo := ("034"%char) (only parsing).
Abbreviation bsl := ("\"%char) (only parsing).

(** ** Strings *)

(** [htmlSafeSet]: the ASCII characters written as they are. *)
Definition html_safe (z : Z) : bool :=
  (32 <=? z) && negb ((z =? 34) || (z =? 92) || (z =? 60) || (z =? 62) || (z =? 38)).

(** [\u00XX]. *)
Definition u00 (z : Z) : string :=
  String bsl (String "u" (String "0" (String "0"
    (String (hex_digit (z / 16)) (String (hex_digit (z mod 16)) ""))))).

(** An ASCII character in a JSON string. *)
Definition escape_byte (c : ascii) : string :=
  let z := bz c in
  if html_safe z then String c ""
  else if (z =? 34) || (z =? 92) then String bsl (String c "")
  else if z =? 8 then String bsl "b"
  else if z =? 12 then String bsl "f"
  else if z =? 10 then String bsl "n"
  else if z =? 13 then String bsl "r"
  else if z =? 9 then String bsl "t"
  else u00 z.

(** The bytes of U+FFFD. *)
Definition replacement : string :=
  Eval vm_compute in String (byte_of_Z 239) (String (byte_of_Z 191) (String (byte_of_Z 189) "")).

(** A decoded rune that stands for one ill-formed byte. *)
Definition ill (rw : Z * nat) : bool := (rw.1 =? RuneError) && (rw.2 =? 1)%nat.

(** [appendString] with [escapeHTML]; [skip] counts the bytes of the current
    rune still to be copied. *)
Fixpoint escape_from (skip : nat) (s : string) : string :=
  match s with
  | EmptyString => EmptyString
  | String c s' =>
      match skip with
      | S k => String c (escape_from k s')
      | O =>
          if bz c <? 128 then escape_byte c +:+ escape_from 0 s'
          else
            let rw := decode_rune c s' in
            if ill rw then String bsl "ufffd" +:+ escape_from 0 s'
            else if (rw.1 =? 8232) || (rw.1 =? 8233) then
              match s' with
              | String _ (String _ s'') =>
                  String bsl (String "u" (String "2" (String "0" (String "2"
                    (String (hex_digit (rw.1 mod 16)) (escape_from 0 s''))))))
              | _ => EmptyString   (* such a rune takes three bytes *)
              end
            else String c (escape_from (rw.2 - 1) s')
      end
  end.

Definition quote (s : string) : string := String quo (escape_from 0 s +:+ String quo "").

(** What a reader gets of a string: every ill-formed byte as U+FFFD. *)
Fixpoint valid_from (skip : nat) (s : string) : string :=
  match s with
  | EmptyString => EmptyString
  | String c s' =>
      match skip with
      | S k => String c (valid_from k s')
      | O =>
          let rw := decode_rune c s' in
          if ill rw then replacement +:+ valid_from 0 s' else String c (valid_from (rw.2 - 1) s')
      end
  end.

Definition to_valid (s : string) : string := valid_from 0 s.

(** [getu4]: four hexadecimal digits. *)
Definition hex4 (a b c d : ascii) : option Z :=
  a ← from_hex_char a; b ← from_hex_char b; c ← from_hex_char c; d ← from_hex_char d;
  Some (((a * 16 + b) * 16 + c) * 16 + d).

(** [utf8.AppendRune] of a rune that is not a surrogate. *)
Definition utf8_encode (r : Z) : string :=
  if r <? 128 then String (byte_of_Z r) ""
  else if r <? 2048 then
    String (byte_of_Z (192 + r / 64)) (String (byte_of_Z (128 + r mod 64)) "")
  else if r <? 65536 then
    String (byte_of_Z (224 + r / 4096)) (String (byte_of_Z (128 + r / 64 mod 64))
      (String (byte_of_Z (128 + r mod 64)) ""))
  else
    String (byte_of_Z (240 + r / 262144)) (String (byte_of_Z (128 + r / 4096 mod 64))
      (String (byte_of_Z (128 + r / 64 mod 64)) (String (byte_of_Z (128 + r mod 64)) ""))).

Definition is_surrogate (r : Z) : bool := (55296 <=? r) && (r <? 57344).

(** [utf16.DecodeRune] of a surrogate and the [\uXXXX] that may follow it. *)
Definition surrogate_pair (r : Z) (x y a b c d : ascii) : option Z :=
  if bool_decide (x = bsl) && bool_decide (y = "u"%char) then
    r2 ← hex4 a b c d;
    if (r <? 56320) && (56320 <=? r2) && (r2 <? 57344)
    then Some ((r - 55296) * 1024 + (r2 - 56320) + 65536) else None
  else None.

(** The character of a one-letter escape. *)
Definition simple_escape (c : ascii) : option ascii :=
  let z := bz c in
  if (z =? 34) || (z =? 92) || (z =? 47) then Some c
  else if z =? 98 then Some "008"%char
  else if z =? 102 then Some "012"%char
  else if z =? 110 then Some "010"%char
  else if z =? 114 then Some "013"%char
  else if z =? 116 then Some "009"%char
  else None.

Definition push (p : string) (r : option (string * string)) : option (string * string) :=
  match r with Some (s, rest) => Some (p +:+ s, rest) | None => None end.

(** A string literal after its opening quote: its value, as [unquoteBytes]
    computes it, and what follows the closing quote. *)
Fixpoint unquote_from (skip : nat) (s : string) : option (string * string) :=
  match s with
  | EmptyString => None
  | String c s' =>
      match skip with
      | S k => push (String c "") (unquote_from k s')
      | O =>
          if bz c =? 34 then Some (""%string, s')
          else if bz c =? 92 then
            match s' with
            | EmptyString => None
            | String e t =>
                if bz e =? 117 then
                  match t with
                  | String x1 (String x2 (String x3 (String x4 t))) =>
                      match hex4 x1 x2 x3 x4 with
                      | None => None
                      | Some r =>
                          if is_surrogate r then
                            match t with
                            | String y1 (String y2 (String y3 (String y4 (String y5 (String y6 t'))))) =>
                                match surrogate_pair r y1 y2 y3 y4 y5 y6 with
                                | Some r => push (utf8_encode r) (unquote_from 0 t')
                                | None => push replacement (unquote_from 0 t)
                                end
                            | _ => push replacement (unquote_from 0 t)
                            end
                          else push (utf8_encode r) (unquote_from 0 t)
                      end
                  | _ => None
                  end
                else
                  match simple_escape e with
                  | Some x => push (String x "") (unquote_from 0 t)
                  | None => None
                  end
            end
          else if bz c <? 32 then None
          else
            let rw := decode_rune c s' in
            if ill rw then push replacement (unquote_from 0 s')
            else push (String c "") (unquote_from (rw.2 - 1) s')
      end
  end.

Definition unquote (s : string) : option (string * string) := unquote_from 0 s.

(** ** Numbers *)

Definition digit (c : ascii) : bool := (48 <=? bz c) && (bz c <=? 57).

Fixpoint drop_digits (s : string) : string :=
  match s with
  | String c s' => if digit c then drop_digits s' else s
  | EmptyString => s
  end.

(** At least one digit, and then the rest. *)
Definition some_digits (s : string) : option string :=
  match s with
  | String c s' => if digit c then Some (drop_digits s') else None
  | EmptyString => None
  end.

Definition valid_exponent (s : string) : bool :=
  match s with
  | EmptyString => true
  | String c s' =>
      if (bz c =? 101) || (bz c =? 69) then
        let s' := match s' with
                  | String g t => if (bz g =? 43) || (bz g =? 45) then t else s'
                  | EmptyString => s'
                  end in
        bool_decide (some_digits s' = Some EmptyString)
      else false
  end.

Definition valid_fraction (s : string) : bool :=
  match s with
  | String c s' =>
      if bz c =? 46 then
        match some_digits s' with Some t => valid_exponent t | None => false end
      else valid_exponent s
  | EmptyString => true
  end.

Definition valid_magnitude (s : string) : bool :=
  match s with
  | EmptyString => false
  | String c s' =>
      if bz c =? 48 then valid_fraction s'
      else if digit c then valid_fraction (drop_digits s')
      else false
  end.

(** [isValidNumber]. *)
Definition valid_number (s : string) : bool :=
  match s with
  | String c s' => if bz c =? 45 then valid_magnitude s' else valid_magnitude s
  | EmptyString => false
  end.

Definition number_char (c : ascii) : bool :=
  digit c || (bz c =? 43) || (bz c =? 45) || (bz c =? 46) || (bz c =? 69) || (bz c =? 101).

(** The characters of a number: what follows one that is well-formed is never
    such a character in a valid text. *)
Fixpoint span_number (s : string) : string * string :=
  match s with
  | String c s' =>
      if number_char c then let '(n, rest) := span_number s' in (String c n, rest)
      else (""%string, s)
  | EmptyString => (""%string, s)
  end.

(** ** Values *)

#[local] Unset Elimination Schemes.
Inductive json :=
  | JNull
  | JBool (b : bool)
  | JNum (literal : string)
  | JStr (s : string)
  | JArr (l : list json)
  | JObj (ms : list (string * json)).
#[local] Set Elimination Schemes.

Section json_induction.
Variable P : json -> Prop.
Hypotheses (Hnull : P JNull) (Hbool : forall b, P (JBool b)) (Hnum : forall n, P (JNum n))
  (Hstr : forall s, P (JStr s)) (Harr : forall l, Forall P l -> P (JArr l))
  (Hobj : forall ms, Forall (fun kv => P kv.2) ms -> P (JObj ms)).

Fixpoint json_induct (v : json) : P v :=
  match v with
  | JNull => Hnull
  | JBool b => Hbool b
  | JNum n => Hnum n
  | JStr s => Hstr s
  | JArr l =>
      Harr l ((fix go l := match l return Forall P l with
                           | [] => Forall_nil_2 _
                           | v :: l' => Forall_cons_2 _ _ _ (json_induct v) (go l')
                           end) l)
  | JObj ms =>
      Hobj ms ((fix go ms := match ms return Forall (fun kv => P kv.2) ms with
                             | [] => Forall_nil_2 _
                             | kv :: ms' => Forall_cons_2 _ _ _ (json_induct kv.2) (go ms')
                             end) ms)
  end.
End json_induction.

(** Every number is well-formed. *)
Fixpoint json_ok (v : json) : bool :=
  match v with
  | JNull | JBool _ | JStr _ => true
  | JNum n => valid_number n
  | JArr l => forallb json_ok l
  | JObj ms => forallb (fun kv => json_ok kv.2) ms
  end.

(** How deep arrays and objects are nested. *)
Fixpoint json_depth (v : json) : Z :=
  match v with
  | JNull | JBool _ | JNum _ | JStr _ => 0
  | JArr l => 1 + foldr (fun v m => Z.max (json_depth v) m) 0 l
  | JObj ms => 1 + foldr (fun kv m => Z.max (json_depth kv.2) m) 0 ms
  end.

(** The value with every string well-formed. *)
Fixpoint json_valid (v : json) : json :=
  match v with
  | JNull | JBool _ | JNum _ => v
  | JStr s => JStr (to_valid s)
  | JArr l => JArr (json_valid <$> l)
  | JObj ms => JObj ((fun kv => (to_valid kv.1, json_valid kv.2)) <$> ms)
  end.

(** ** Encoding *)

(** What separates the tokens: what goes before an element or a closing bracket
    at a nesting depth, and what goes after a name. *)
Record layout := mkLayout { ly_line : nat -> string; ly_colon : string }.

Definition compact : layout := mkLayout (fun _ => ""%string) ":".

Fixpoint repeat_string (n : nat) (s : string) : string :=
  match n with O => ""%string | S n' => s +:+ repeat_string n' s end.

(** [SetIndent(prefix, indent)]. *)
Definition SetIndent (prefix indent : string) : layout :=
  mkLayout (fun d => String "010" (prefix +:+ repeat_string d indent)) ": ".

Section encode.
Variable ly : layout.

(** Parts, each on its line, separated by commas. *)
Fixpoint separated (d : nat) (parts : list string) : string :=
  match parts with
  | [] => ""
  | [p] => ly_line ly d +:+ p
  | p :: ps => ly_line ly d +:+ p +:+ String "," (separated d ps)
  end.

Definition bracketed (open close : ascii) (d : nat) (parts : list string) : string :=
  match parts with
  | [] => String open (String close "")
  | _ => String open (separated (S d) parts +:+ ly_line ly d +:+ String close "")
  end.

Fixpoint encode (d : nat) (v : json) : string :=
  match v with
  | JNull => "null"
  | JBool b => if b then "true" else "false"
  | JNum n => n
  | JStr s => quote s
  | JArr l => bracketed "[" "]" d (encode (S d) <$> l)
  | JObj ms =>
      bracketed "{" "}" d ((fun kv => quote kv.1 +:+ ly_colon ly +:+ encode (S d) kv.2) <$> ms)
  end.
End encode.

(** [json.Marshal]. *)
Definition Marshal_json (v : json) : string := encode compact 0 v.

(** [Encoder.Encode]: a newline follows the value. *)
Definition Encode (ly : layout) (v : json) : string := encode ly 0 v +:+ String "010" "".

(** ** Decoding *)

Definition json_space (c : ascii) : bool :=
  (bz c =? 32) || (bz c =? 9) || (bz c =? 13) || (bz c =? 10).

Fixpoint skip_space (s : string) : string :=
  match s with
  | String c s' => if json_space c then skip_space s' else s
  | EmptyString => s
  end.

Fixpoint strip_prefix (p s : string) : option string :=
  match p, s with
  | EmptyString, _ => Some s
  | String a p', String b s' => if bool_decide (a = b) then strip_prefix p' s' else None
  | String _ _, EmptyString => None
  end.

(** [maxNestingDepth]. *)
Definition maxNestingDepth : Z := 10000.

(** A value in front of a text, and what follows it; [d] is the nesting depth.
    [n] is fuel: [parse_fuel] of the text is enough ([value_fuel]). *)
Fixpoint value (n : nat) (d : Z) (s : string) {struct n} : option (json * string) :=
  match n with
  | O => None
  | S n' =>
      match skip_space s with
      | EmptyString => None
      | String c t =>
          if bz c =? 123 then
            if maxNestingDepth <=? d then None
            else match skip_space t with
                 | EmptyString => None
                 | String c' t' =>
                     if bz c' =? 125 then Some (JObj [], t')
                     else '(ms, r) ← members n' (d + 1) t; Some (JObj ms, r)
                 end
          else if bz c =? 91 then
            if maxNestingDepth <=? d then None
            else match skip_space t with
                 | EmptyString => None
                 | String c' t' =>
                     if bz c' =? 93 then Some (JArr [], t')
                     else '(l, r) ← elements n' (d + 1) t; Some (JArr l, r)
                 end
          else if bz c =? 34 then '(x, r) ← unquote t; Some (JStr x, r)
          else if bz c =? 116 then r ← strip_prefix "rue" t; Some (JBool true, r)
          else if bz c =? 102 then r ← strip_prefix "alse" t; Some (JBool false, r)
          else if bz c =? 110 then r ← strip_prefix "ull" t; Some (JNull, r)
          else if digit c || (bz c =? 45) then
            let '(lit, r) := span_number (String c t) in
            if valid_number lit then Some (JNum lit, r) else None
          else None
      end
  end
with elements (n : nat) (d : Z) (s : string) {struct n} : option (list json * string) :=
  match n with
  | O => None
  | S n' =>
      '(v, r) ← value n' d s;
      match skip_space r with
      | EmptyString => None
      | String c r =>
          if bz c =? 44 then '(vs, r) ← elements n' d r; Some (v :: vs, r)
          else if bz c =? 93 then Some ([v], r)
          else None
      end
  end
with members (n : nat) (d : Z) (s : string) {struct n} : option (list (string * json) * string) :=
  match n with
  | O => None
  | S n' =>
      match skip_space s with
      | EmptyString => None
      | String c t =>
          if bz c =? 34 then
            '(k, r) ← unquote t;
            match skip_space r with
            | EmptyString => None
            | String c r =>
                if bz c =? 58 then
                  '(v, r) ← value n' d r;
                  match skip_space r with
                  | EmptyString => None
                  | String c r =>
                      if bz c =? 44 then '(ms, r) ← members n' d r; Some ((k, v) :: ms, r)
                      else if bz c =? 125 then Some ([(k, v)], r)
                      else None
                  end
                else None
            end
          else None
      end
  end.

Definition parse_fuel (s : string) : nat := (2 * String.length s + 2)%nat.

(** One JSON text: a value, and nothing but space after it. *)
Definition parse (s : string) : option json :=
  '(v, r) ← value (parse_fuel s) 0 s;
  if bool_decide (skip_space r = EmptyString) then Some v else None.

(** ** Building and reading values *)

Definition JInt (z : Z) : json := JNum (FormatInt z).

(** [omitempty] of a string. *)
Definition omitempty (name value : string) : list (string * json) :=
  match value with EmptyString => [] | _ => [(name, JStr value)] end.

(** Map keys are written in byte order. *)
Definition key_le (a b : string * json) : Prop := bytes_Compare (bytes_of a.1) (bytes_of b.1) <= 0.
#[global] Instance key_le_dec : RelDecision key_le.
Proof. intros a b. unfold key_le. apply _. Defined.

Definition JMap {A} (f : A -> json) (m : gmap string A) : json :=
  JObj (merge_sort key_le ((fun kv => (kv.1, f kv.2)) <$> map_to_list m)).

(** The member of an object under a name: a later one replaces an earlier one. *)
Definition member (name : string) (v : json) : option json :=
  match v with
  | JObj ms => snd <$> last (filter (fun kv => kv.1 = name) ms)
  | _ => None
  end.

(** [foldName]: the smallest rune that folds with each, where it matters to a
    comparison with ASCII names: the ASCII letters, and the long s and the
    Kelvin sign, which fold with S and K. *)
Definition fold_rune (r : Z) : Z :=
  if (97 <=? r) && (r <=? 122) then r - 32
  else if r =? 383 then 83
  else if r =? 8490 then 75
  else r.

Definition foldName (s : string) : list Z := fold_rune <$> (runes s).*1.

(** The field a member of an object goes to: an exact match, or else the first
    name that folds like it. *)
Definition find_field (names : list string) (key : string) : option string :=
  if bool_decide (key ∈ names) then Some key
  else List.find (fun n => bool_decide (foldName n = foldName key)) names.
