(* ===== verification/JsonSpec.v ===== *)
(** * Facts about [encoding/json]

    What is encoded is read back ([parse_encode]), for every layout, and the
    fuel of the reader never decides ([value_fuel]). *)
From stdpp Require Import base gmap fin_maps strings list sorting.
From Stdlib Require Import ZArith Lia Ascii.
From S2P Require Import Prelude.
From S2P Require Import GoStd.
From S2P Require Import GoStrings.
From S2P Require Import GoJson.

Open Scope Z_scope.

(** ** Appending *)

Lemma app_String c s t : String c s +:+ t = String c (s +:+ t).
Proof. done. Qed.

Lemma app_Empty t : "" +:+ t = t.
Proof. done. Qed.

Lemma app_Empty_r s : s +:+ "" = s.
Proof. induction s as [|c s IH]; [done |]. by rewrite app_String, IH. Qed.

Lemma length_append s t : String.length (s +:+ t) = (String.length s + String.length t)%nat.
Proof. induction s as [|c s IH]; [done |]. rewrite app_String. simpl. by rewrite IH. Qed.

(** Appends to the right, characters in front. *)
Ltac str_norm := repeat first [rewrite append_assoc | rewrite app_String | rewrite app_Empty].

Lemma push_push p q r : push p (push q r) = push (p +:+ q) r.
Proof. destruct r as [[s rest]|]; [|done]. simpl. by str_norm. Qed.

(** ** Runes *)

(** A well-formed rune outside ASCII is decided by its own bytes. *)
Lemma decode_rune_local c s :
  128 <= bz c -> ill (decode_rune c s) = false ->
  exists p t, s = p +:+ t /\ ((decode_rune c s).2 - 1)%nat = String.length p
    /\ forall t', decode_rune c (p +:+ t') = decode_rune c s.
Proof.
  intros Hc. unfold decode_rune. rewrite (proj2 (Z.ltb_ge (bz c) 128)) by done.
  destruct (Z.ltb_spec (bz c) 194); [done |].
  destruct (Z.ltb_spec (bz c) 224).
  { destruct s as [|c1 s]; [done |]. destruct (cont 128 191 c1) eqn:E1; [|done].
    intros _. exists (String c1 ""), s. split_and!; [done | done |]. intros t'. str_norm. by rewrite E1. }
  destruct (Z.ltb_spec (bz c) 240).
  { destruct s as [|c1 [|c2 s]]; try done. destruct (_ && _) eqn:E; [|done]. intros _.
    exists (String c1 (String c2 "")), s. split_and!; [done | done |]. intros t'. str_norm. by rewrite E. }
  destruct (Z.ltb_spec (bz c) 245); [|done].
  destruct s as [|c1 [|c2 [|c3 s]]]; try done. destruct (_ && _) eqn:E; [|done]. intros _.
  exists (String c1 (String c2 (String c3 ""))), s. split_and!; [done | done |].
  intros t'. str_norm. by rewrite E.
Qed.

(** A line separator: its three bytes. *)
Lemma decode_rune_separator c s :
  128 <= bz c -> ill (decode_rune c s) = false ->
  (decode_rune c s).1 = 8232 \/ (decode_rune c s).1 = 8233 ->
  (decode_rune c s).2 = 3%nat /\ exists t, String c s = utf8_encode (decode_rune c s).1 +:+ t.
Proof.
  intros Hc Hill Hr. destruct (decode_rune_local c s Hc Hill) as (p & t & -> & _ & _).
  revert Hill Hr. unfold decode_rune. rewrite (proj2 (Z.ltb_ge (bz c) 128)) by done.
  destruct (Z.ltb_spec (bz c) 194); [done |].
  destruct (Z.ltb_spec (bz c) 224).
  { destruct (p +:+ t) as [|c1 u]; [done |]. destruct (cont 128 191 c1) eqn:E1; [|done].
    apply cont_lo in E1. simpl. lia. }
  destruct (Z.ltb_spec (bz c) 240).
  { destruct (p +:+ t) as [|c1 [|c2 u]]; try done. destruct (_ && _) eqn:E; [|done].
    apply andb_true_iff in E as [E1 E2]. apply cont_lo in E1, E2. intros _ Hr. split; [done |]. exists u.
    assert (Hb : bz c = 226 /\ bz c1 = 128
      /\ ((bz c - 224) * 4096 + (bz c1 - 128) * 64 + (bz c2 - 128) = 8232 /\ bz c2 = 168
          \/ (bz c - 224) * 4096 + (bz c1 - 128) * 64 + (bz c2 - 128) = 8233 /\ bz c2 = 169)).
    { simpl in Hr. destruct (Z.eqb_spec (bz c) 224), (Z.eqb_spec (bz c) 237); lia. }
    destruct Hb as (B1 & B2 & [[B3 B4]|[B3 B4]]); simpl; rewrite B3;
      rewrite <- (byte_of_Z_bz c), <- (byte_of_Z_bz c1), <- (byte_of_Z_bz c2), B1, B2, B4;
      reflexivity. }
  destruct (Z.ltb_spec (bz c) 245); [|done].
  destruct (p +:+ t) as [|c1 [|c2 [|c3 u]]]; try done. destruct (_ && _) eqn:E; [|done].
  rewrite !andb_true_iff in E. destruct E as [[E1 E2] E3]. apply cont_lo in E1, E2, E3.
  simpl. destruct (Z.eqb_spec (bz c) 240); lia.
Qed.

(** Induction by runes: an ASCII character, an ill-formed byte, or a rune of
    several bytes. *)
Section rune_induction.
Variable P : string -> Prop.
Hypothesis Hnil : P "".
Hypothesis Hascii : forall c s, bz c < 128 -> P s -> P (String c s).
Hypothesis Hill : forall c s, 128 <= bz c -> ill (decode_rune c s) = true -> P s -> P (String c s).
Hypothesis Hrune : forall c p t,
  128 <= bz c -> ill (decode_rune c (p +:+ t)) = false ->
  ((decode_rune c (p +:+ t)).2 - 1)%nat = String.length p ->
  (forall t', decode_rune c (p +:+ t') = decode_rune c (p +:+ t)) -> P t -> P (String c (p +:+ t)).

Lemma rune_ind s : P s.
Proof.
  induction s as [s IH] using (induction_ltof1 _ String.length). unfold ltof in IH.
  destruct s as [|c s]; [done |]. destruct (Z.lt_ge_cases (bz c) 128) as [Hc|Hc].
  { apply Hascii; [done |]. apply IH. simpl. lia. }
  destruct (ill (decode_rune c s)) eqn:E.
  { apply Hill; [done | done |]. apply IH. simpl. lia. }
  destruct (decode_rune_local c s Hc E) as (p & t & -> & Hw & Hl).
  apply Hrune; [done.. |]. apply IH. simpl. rewrite length_append. lia.
Qed.
End rune_induction.

(** ** Strings *)

Lemma escape_from_copy p t : escape_from (String.length p) (p +:+ t) = p +:+ escape_from 0 t.
Proof. induction p as [|c p IH]; [done |]. rewrite !app_String. simpl. by rewrite IH. Qed.

Lemma valid_from_copy p t : valid_from (String.length p) (p +:+ t) = p +:+ valid_from 0 t.
Proof. induction p as [|c p IH]; [done |]. rewrite !app_String. simpl. by rewrite IH. Qed.

Lemma unquote_from_copy p t :
  unquote_from (String.length p) (p +:+ t) = push p (unquote_from 0 t).
Proof.
  induction p as [|c p IH].
  { rewrite app_Empty. cbn [String.length]. by destruct (unquote_from 0 t) as [[s r]|]. }
  rewrite !app_String. cbn [String.length unquote_from]. by rewrite IH, push_push.
Qed.

Lemma unquote_escape_byte c t :
  bz c < 128 -> unquote_from 0 (escape_byte c +:+ t) = push (String c "") (unquote_from 0 t).
Proof.
  intros Hc. destruct c as [[] [] [] [] [] [] [] []];
    first [exfalso; revert Hc; by vm_compute | reflexivity].
Qed.

Lemma unquote_high c s :
  128 <= bz c ->
  unquote_from 0 (String c s)
  = if ill (decode_rune c s) then push replacement (unquote_from 0 s)
    else push (String c "") (unquote_from ((decode_rune c s).2 - 1) s).
Proof.
  intros Hc. cbn [unquote_from]. rewrite (proj2 (Z.eqb_neq (bz c) 34)), (proj2 (Z.eqb_neq (bz c) 92)),
    (proj2 (Z.ltb_ge (bz c) 32)) by lia. done.
Qed.

Lemma escape_high c s :
  128 <= bz c -> ill (decode_rune c s) = false ->
  (exists t, String c s = utf8_encode (decode_rune c s).1 +:+ t
     /\ ((decode_rune c s).1 = 8232 \/ (decode_rune c s).1 = 8233) /\ (decode_rune c s).2 = 3%nat
     /\ escape_from 0 (String c s)
        = (String "\" "u202" +:+ String (hex_digit ((decode_rune c s).1 mod 16)) (escape_from 0 t)))
  \/ escape_from 0 (String c s) = String c (escape_from ((decode_rune c s).2 - 1) s).
Proof.
  intros Hc Hill. cbn [escape_from]. rewrite (proj2 (Z.ltb_ge (bz c) 128)) by done. rewrite Hill.
  destruct (_ || _) eqn:E; [|by right]. apply orb_true_iff in E. rewrite !Z.eqb_eq in E.
  destruct (decode_rune_separator c s Hc Hill E) as [Hw [t Ht]]. left. exists t. split_and!; [done.. |].
  assert (Hs : exists c1 c2, s = String c1 (String c2 t)).
  { destruct E as [E|E]; rewrite E in Ht; injection Ht as _ ->; by do 2 eexists. }
  destruct Hs as (c1 & c2 & ->). done.
Qed.

(** Reading what was written gives the well-formed string. *)
Lemma unquote_escape s rest :
  unquote_from 0 (escape_from 0 s +:+ String "034" rest) = Some (to_valid s, rest).
Proof.
  unfold to_valid. induction s as [|c s Hc IH|c s Hc E IH|c p t Hc E Hw Hl IH] using rune_ind.
  - done.
  - cbn [escape_from valid_from]. rewrite (proj2 (Z.ltb_lt (bz c) 128)), decode_rune_ascii by done.
    rewrite append_assoc, unquote_escape_byte, IH by done. simpl. unfold ill. simpl.
    by rewrite andb_comm, (proj2 (Z.eqb_neq (bz c) RuneError)) by (unfold RuneError; lia).
  - cbn [escape_from valid_from]. rewrite (proj2 (Z.ltb_ge (bz c) 128)), E by done.
    rewrite append_assoc. change (push replacement (unquote_from 0 (escape_from 0 s +:+ String "034" rest))
      = Some (replacement +:+ valid_from 0 s, rest)). by rewrite IH.
  - assert (Hv : valid_from 0 (String c (p +:+ t)) = String c (p +:+ valid_from 0 t)).
    { cbn [valid_from]. by rewrite E, Hw, valid_from_copy. }
    rewrite Hv. destruct (escape_high c (p +:+ t) Hc E) as [(t' & Ht & Hr & H3 & ->)| ->].
    + rewrite append_assoc, (app_String (hex_digit _)).
      set (r := (decode_rune c (p +:+ t)).1) in *.
      assert (Ht' : t' = t /\ String c p = utf8_encode r).
      { rewrite H3 in Hw. destruct p as [|c1 [|c2 [|? ?]]]; try done. rewrite !app_String, app_Empty in Ht.
        destruct Hr as [-> | ->]; injection Ht as -> -> -> ->; done. }
      destruct Ht' as [-> Hp].
      assert (Hu : forall u, unquote_from 0 (String "\" "u202" +:+ String (hex_digit (r mod 16)) u)
                   = push (utf8_encode r) (unquote_from 0 u))
        by (intros u; destruct Hr as [-> | ->]; reflexivity).
      rewrite Hu, IH, <- Hp. done.
    + rewrite Hw, escape_from_copy, app_String, append_assoc, unquote_high, Hl by done.
      by rewrite E, Hw, unquote_from_copy, IH.
Qed.

(** Runs of runes over a copied rune. *)
Lemma runes_from_copy p t : runes_from (String.length p) (p +:+ t) = runes t.
Proof. induction p as [|c p IH]; [done |]. exact IH. Qed.

(** A well-formed string is read back as it was. *)
Lemma to_valid_id s : ValidString s = true -> to_valid s = s.
Proof.
  unfold to_valid, ValidString, runes.
  assert (Hill : forall c s, (let '(r, w) := decode_rune c s in negb ((r =? RuneError) && (w =? 1)%nat))
                 = negb (ill (decode_rune c s))) by (intros c s'; by destruct (decode_rune c s')).
  induction s as [|c s Hc IH|c s Hc E IH|c p t Hc E Hw Hl IH] using rune_ind; [done | ..]; intros H.
  - cbn [runes_from valid_from] in *. rewrite decode_rune_ascii in * by done. simpl in *.
    apply andb_true_iff in H as [H1 H2]. unfold ill. simpl.
    rewrite (proj2 (Z.eqb_neq (bz c) RuneError)) by (unfold RuneError; lia). by rewrite IH.
  - exfalso. cbn [runes_from] in H. specialize (Hill c s). destruct (decode_rune c s) as [r w].
    cbn [forallb] in H. by rewrite Hill, E in H.
  - cbn [runes_from valid_from] in *. specialize (Hill c (p +:+ t)).
    destruct (decode_rune c (p +:+ t)) as [r w]. cbn [forallb] in H. rewrite Hill, E in H.
    cbn [fst snd negb andb] in *. rewrite Hw, runes_from_copy in H.
    by rewrite E, Hw, valid_from_copy, IH.
Qed.

Lemma ValidString_ascii s : all_bytes (fun z => z <? 128) s = true -> ValidString s = true.
Proof.
  unfold ValidString, runes, all_bytes. induction s as [|c s IH]; [done |].
  cbn [bytes_of forallb runes_from]. rewrite andb_true_iff, Z.ltb_lt. intros [Hc Hs].
  rewrite decode_rune_ascii by done. cbn [forallb]. rewrite (IH Hs : forallb _ (runes_from (1 - 1) s) = true).
  by rewrite (proj2 (Z.eqb_neq (bz c) RuneError)) by (unfold RuneError; lia).
Qed.

Lemma to_valid_ascii s : all_bytes (fun z => z <? 128) s = true -> to_valid s = s.
Proof. intros. by apply to_valid_id, ValidString_ascii. Qed.

(** ** Space *)

Definition spaces (s : string) : bool := forallb json_space (bytes_of s).

Lemma skip_space_app w s : spaces w = true -> skip_space (w +:+ s) = skip_space s.
Proof.
  induction w as [|c w IH]; [done |]. unfold spaces. cbn [bytes_of forallb].
  rewrite andb_true_iff. intros [Hc Hw]. rewrite app_String. cbn [skip_space]. rewrite Hc. by apply IH.
Qed.

Lemma skip_space_head c s : json_space c = false -> skip_space (String c s) = String c s.
Proof. intros H. cbn [skip_space]. by rewrite H. Qed.

Lemma skip_space_spaces w : spaces w = true -> skip_space w = ""%string.
Proof. intros H. rewrite <- (app_Empty_r w). by rewrite skip_space_app. Qed.

Lemma value_space n d w s : spaces w = true -> value n d (w +:+ s) = value n d s.
Proof. intros H. destruct n; [done |]. cbn [value]. by rewrite skip_space_app. Qed.

Lemma members_space n d w s : spaces w = true -> members n d (w +:+ s) = members n d s.
Proof. intros H. destruct n; [done |]. cbn [members]. by rewrite skip_space_app. Qed.

Lemma elements_space n d w s : spaces w = true -> elements n d (w +:+ s) = elements n d s.
Proof. intros H. destruct n; [done |]. cbn [elements]. by rewrite value_space. Qed.

(** ** Numbers *)

(** A number ends before such a text. *)
Definition stops (s : string) : bool :=
  match s with EmptyString => true | String c _ => negb (number_char c) end.

Lemma stops_space w s : spaces w = true -> stops s = true -> stops (w +:+ s) = true.
Proof.
  destruct w as [|c w]; [done |]. unfold spaces. cbn [bytes_of forallb]. rewrite andb_true_iff.
  intros [Hc _] _. rewrite app_String. simpl. revert Hc.
  destruct c as [[] [] [] [] [] [] [] []]; done.
Qed.

Lemma span_number_app n rest :
  forallb number_char (bytes_of n) = true -> stops rest = true -> span_number (n +:+ rest) = (n, rest).
Proof.
  intros Hn Hr. induction n as [|c n IH].
  - rewrite app_Empty. destruct rest as [|c r]; [done |]. cbn [span_number]. simpl in Hr.
    by destruct (number_char c).
  - cbn [bytes_of forallb] in Hn. apply andb_true_iff in Hn as [Hc Hn].
    rewrite app_String. cbn [span_number]. by rewrite Hc, IH.
Qed.

Lemma digit_number c : digit c = true -> number_char c = true.
Proof. intros H. unfold number_char. by rewrite H. Qed.

Abbreviation number_chars s := (forallb number_char (bytes_of s) = true) (only parsing).

Lemma number_chars_digits s : number_chars (drop_digits s) -> number_chars s.
Proof.
  induction s as [|c s IH]; [done |]. cbn [drop_digits]. destruct (digit c) eqn:E; [|done].
  intros H. cbn [bytes_of forallb]. by rewrite digit_number, IH.
Qed.

Lemma some_digits_number s t : some_digits s = Some t -> number_chars t -> number_chars s.
Proof.
  destruct s as [|c s]; [done |]. cbn [some_digits]. destruct (digit c) eqn:E; [|done].
  intros [= <-] H. cbn [bytes_of forallb]. by rewrite digit_number, number_chars_digits.
Qed.

Lemma valid_exponent_number s : valid_exponent s = true -> number_chars s.
Proof.
  destruct s as [|c s]; [done |]. cbn [valid_exponent]. destruct (_ || _) eqn:E; [|done].
  rewrite bool_decide_eq_true. intros H.
  assert (Hc : number_char c = true).
  { unfold number_char. apply orb_true_iff in E as [-> | ->]; by rewrite ?orb_true_r. }
  cbn [bytes_of forallb]. rewrite Hc. cbn [andb].
  destruct s as [|g t]; [done |]. destruct ((bz g =? 43) || (bz g =? 45)) eqn:Eg.
  - cbn [bytes_of forallb]. apply some_digits_number in H; [|done]. rewrite H, andb_true_r.
    unfold number_char. apply orb_true_iff in Eg as [-> | ->]; by rewrite ?orb_true_r.
  - by apply (some_digits_number _ _ H).
Qed.

Lemma valid_fraction_number s : valid_fraction s = true -> number_chars s.
Proof.
  destruct s as [|c s]; [done |]. cbn [valid_fraction]. destruct (bz c =? 46) eqn:E.
  - destruct (some_digits s) as [t|] eqn:Hs; [|done]. intros H%valid_exponent_number.
    cbn [bytes_of forallb]. rewrite (some_digits_number _ _ Hs H), andb_true_r.
    unfold number_char. by rewrite E, !orb_true_r.
  - apply valid_exponent_number.
Qed.

Lemma valid_magnitude_number s : valid_magnitude s = true -> number_chars s.
Proof.
  destruct s as [|c s]; [done |]. cbn [valid_magnitude]. destruct (bz c =? 48) eqn:E.
  - intros H%valid_fraction_number. cbn [bytes_of forallb]. rewrite H, andb_true_r.
    apply digit_number. unfold digit. apply Z.eqb_eq in E. rewrite E. done.
  - destruct (digit c) eqn:Ec; [|done]. intros H%valid_fraction_number.
    cbn [bytes_of forallb]. by rewrite digit_number, number_chars_digits.
Qed.

Lemma valid_number_chars s : valid_number s = true -> number_chars s.
Proof.
  destruct s as [|c s]; [done |]. cbn [valid_number]. destruct (bz c =? 45) eqn:E.
  - intros H%valid_magnitude_number. cbn [bytes_of forallb]. rewrite H, andb_true_r.
    unfold number_char. by rewrite E, !orb_true_r.
  - apply valid_magnitude_number.
Qed.

(** A number starts with a digit or a minus sign. *)
Lemma valid_number_head s :
  valid_number s = true -> exists c t, s = String c t /\ digit c || (bz c =? 45) = true.
Proof.
  destruct s as [|c s]; [done |]. cbn [valid_number]. intros H. exists c, s. split; [done |].
  destruct (bz c =? 45); [by rewrite orb_true_r |]. cbn [valid_magnitude] in H. rewrite orb_false_r.
  destruct (bz c =? 48) eqn:E; [|by destruct (digit c)]. apply Z.eqb_eq in E. unfold digit.
  by rewrite E.
Qed.

Lemma value_number n d lit rest :
  valid_number lit = true -> stops rest = true ->
  value (S n) d (lit +:+ rest) = Some (JNum lit, rest).
Proof.
  intros Hv Hr. pose proof (span_number_app lit rest (valid_number_chars _ Hv) Hr) as Hs.
  destruct (valid_number_head _ Hv) as (c & t & -> & Hc).
  rewrite app_String in *. cbn [value].
  assert (Hz : (48 <= bz c <= 57) \/ bz c = 45).
  { revert Hc. unfold digit. rewrite orb_true_iff, andb_true_iff, !Z.leb_le, Z.eqb_eq. done. }
  rewrite skip_space_head by (unfold json_space; rewrite !orb_false_iff, !Z.eqb_neq; lia).
  rewrite (proj2 (Z.eqb_neq (bz c) 123)), (proj2 (Z.eqb_neq (bz c) 91)), (proj2 (Z.eqb_neq (bz c) 34)),
    (proj2 (Z.eqb_neq (bz c) 116)), (proj2 (Z.eqb_neq (bz c) 102)), (proj2 (Z.eqb_neq (bz c) 110)) by lia.
  by rewrite Hc, Hs, Hv.
Qed.

(** ** Values *)

(** What separates tokens is space, and one colon after a name. *)
Definition layout_ok (ly : layout) : Prop :=
  (forall d, spaces (ly_line ly d) = true)
  /\ exists w, ly_colon ly = String ":" w /\ spaces w = true.

Lemma compact_ok : layout_ok compact.
Proof. split; [done |]. by exists ""%string. Qed.

Lemma spaces_app a b : spaces (a +:+ b) = spaces a && spaces b.
Proof. unfold spaces. rewrite bytes_of_app. by rewrite forallb_app. Qed.

Lemma SetIndent_ok prefix indent :
  spaces prefix = true -> spaces indent = true -> layout_ok (SetIndent prefix indent).
Proof.
  intros Hp Hi. split; [|by exists " "%string]. intros d. simpl.
  change (spaces (String "010" (prefix +:+ repeat_string d indent)))
    with (spaces (prefix +:+ repeat_string d indent)).
  rewrite spaces_app, Hp. cbn [andb]. induction d as [|d IH]; [done |].
  cbn [repeat_string]. by rewrite spaces_app, Hi, IH.
Qed.

Section roundtrip.
Variable ly : layout.
Hypothesis Hly : layout_ok ly.

Lemma encode_head k v :
  json_ok v = true ->
  exists c t, encode ly k v = String c t /\ json_space c = false /\ bz c <> 93 /\ bz c <> 125.
Proof.
  intros Hv.
  assert (Hb : forall open close d parts, exists t, bracketed ly open close d parts = String open t).
  { intros. unfold bracketed. destruct parts; by eexists. }
  destruct v as [|b|lit|s|l|ms]; cbn [encode].
  - by repeat eexists.
  - destruct b; by repeat eexists.
  - destruct (valid_number_head lit Hv) as (c & t & -> & Hc). exists c, t. split; [done |].
    revert Hc. unfold digit, json_space.
    rewrite orb_true_iff, andb_true_iff, !Z.leb_le, Z.eqb_eq, !orb_false_iff, !Z.eqb_neq. lia.
  - by repeat eexists.
  - edestruct Hb as [t ->]. by repeat eexists.
  - edestruct Hb as [t ->]. by repeat eexists.
Qed.

(** The value is read from its text, whatever follows it. *)
Definition reads (v : json) : Prop :=
  forall k d n rest,
    json_ok v = true -> d + json_depth v <= maxNestingDepth -> stops rest = true ->
    (2 * String.length (encode ly k v) + 1 <= n)%nat ->
    value n d (encode ly k v +:+ rest) = Some (json_valid v, rest).

Lemma separated_cons d p q ps :
  separated ly d (p :: q :: ps) = ly_line ly d +:+ p +:+ String "," (separated ly d (q :: ps)).
Proof. done. Qed.

Lemma elements_encode k d w rest l :
  Forall reads l -> l <> [] -> forallb json_ok l = true ->
  d + foldr (fun v m => Z.max (json_depth v) m) 0 l <= maxNestingDepth -> spaces w = true ->
  forall n, (2 * String.length (separated ly k (encode ly k <$> l)) + 2 <= n)%nat ->
  elements n d (separated ly k (encode ly k <$> l) +:+ w +:+ String "]" rest)
  = Some (json_valid <$> l, rest).
Proof.
  intros Hl Hne Hok Hd Hw. destruct Hly as [Hline _].
  induction Hl as [|v l Hv Hl IH]; [done |]. intros n Hn.
  cbn [forallb foldr] in *. apply andb_true_iff in Hok as [Hokv Hok].
  destruct n as [|n]; [lia |]. cbn [elements]. destruct l as [|v' l].
  - cbn [fmap list_fmap separated] in *. rewrite append_assoc, value_space by done.
    rewrite length_append in Hn. rewrite Hv; [|done | lia | by apply stops_space | lia].
    cbn [mbind option_bind]. by rewrite skip_space_app.
  - rewrite !fmap_cons in *. rewrite separated_cons in *.
    rewrite !length_append in Hn. cbn [String.length] in Hn.
    rewrite !append_assoc, value_space, app_String by done.
    rewrite Hv; [|done | lia | done | lia]. cbn [mbind option_bind]. rewrite skip_space_head by done.
    rewrite <- fmap_cons in *. rewrite IH; [done | done | done | lia |]. lia.
Qed.

Abbreviation encode_member k kv := (quote kv.1 +:+ ly_colon ly +:+ encode ly k kv.2) (only parsing).

Lemma quote_app s t : quote s +:+ t = String "034" (escape_from 0 s +:+ String "034" t).
Proof. unfold quote. by str_norm. Qed.

Lemma members_encode k d w rest ms :
  Forall (fun kv => reads kv.2) ms -> ms <> [] -> forallb (fun kv => json_ok kv.2) ms = true ->
  d + foldr (fun kv m => Z.max (json_depth kv.2) m) 0 ms <= maxNestingDepth -> spaces w = true ->
  forall n, (2 * String.length (separated ly k ((fun kv => encode_member k kv) <$> ms)) + 2 <= n)%nat ->
  members n d (separated ly k ((fun kv => encode_member k kv) <$> ms) +:+ w +:+ String "}" rest)
  = Some ((fun kv => (to_valid kv.1, json_valid kv.2)) <$> ms, rest).
Proof.
  intros Hl Hne Hok Hd Hw. destruct Hly as [Hline (wc & Hcolon & Hwc)]. rewrite Hcolon.
  set (f := fun kv : string * json => quote kv.1 +:+ String ":" wc +:+ encode ly k kv.2).
  induction Hl as [|[x v] ms Hv Hl IH]; [done |]. intros n Hn.
  cbn [forallb foldr fst snd] in *. apply andb_true_iff in Hok as [Hokv Hok].
  destruct n as [|n]; [lia |].
  assert (Hstep : forall tail, stops tail = true -> (2 * String.length (encode ly k v) + 1 <= n)%nat ->
    members (S n) d (ly_line ly k +:+ quote x +:+ String ":" wc +:+ encode ly k v +:+ tail)
    = match skip_space tail with
      | EmptyString => None
      | String c r =>
          if bz c =? 44 then '(ms, r) ← members n d r; Some ((to_valid x, json_valid v) :: ms, r)
          else if bz c =? 125 then Some ([(to_valid x, json_valid v)], r) else None
      end).
  { intros tail Ht Hf. rewrite members_space by done. cbn [members]. rewrite quote_app.
    rewrite skip_space_head by done. change (bz "034" =? 34) with true. cbn iota.
    unfold unquote. rewrite unquote_escape. cbn [mbind option_bind]. rewrite app_String.
    rewrite skip_space_head by done. change (bz ":" =? 58) with true. cbn iota.
    rewrite value_space by done. rewrite Hv; [done | done | lia | done | done]. }
  destruct ms as [|kv ms].
  - cbn [fmap list_fmap separated] in *. unfold f in *. cbn [fst snd] in *. rewrite !length_append in Hn.
    rewrite !append_assoc, Hstep; [|by apply stops_space | cbn [String.length] in Hn; lia].
    by rewrite skip_space_app.
  - rewrite !(fmap_cons f) in *. rewrite separated_cons in *.
    rewrite <- (fmap_cons f) in *. unfold f at 1. unfold f at 1 in Hn. cbn [fst snd] in *.
    rewrite !length_append in Hn. cbn [String.length] in Hn.
    rewrite !append_assoc, (app_String ","), Hstep; [|done | lia].
    rewrite skip_space_head by done. change (bz "," =? 44) with true. cbn iota.
    rewrite IH; [done | done | done | lia |]. lia.
Qed.

Lemma separated_head d c p' ps t :
  json_space c = false ->
  exists u, skip_space (separated ly d (String c p' :: ps) +:+ t) = String c u.
Proof.
  intros Hc. destruct Hly as [Hline _]. destruct ps as [|q ps].
  - cbn [separated]. rewrite append_assoc, skip_space_app, app_String, skip_space_head by done. by eexists.
  - rewrite separated_cons, !append_assoc, skip_space_app, app_String, skip_space_head by done. by eexists.
Qed.

Lemma depth_nonneg v : 0 <= json_depth v.
Proof.
  induction v as [| | | |l IH|ms IH] using json_induct; simpl; try lia.
  - induction IH; simpl; lia.
  - induction IH; simpl; lia.
Qed.

Lemma reads_arr l : Forall reads l -> reads (JArr l).
Proof.
  intros Hl k d n rest Hok Hd Hr Hn. cbn [json_ok json_depth encode json_valid] in *.
  destruct n as [|n]; [lia |].
  assert (Hdp : (maxNestingDepth <=? d) = false).
  { apply Z.leb_gt. pose proof (depth_nonneg (JArr l)) as H. simpl in H.
    assert (0 <= foldr (fun v m => Z.max (json_depth v) m) 0 l)
      by (clear; induction l as [|v l IH]; simpl; lia). lia. }
  destruct l as [|v l].
  { cbn [fmap list_fmap bracketed]. rewrite !app_String, app_Empty. cbn [value].
    rewrite skip_space_head by done. cbn -[Z.leb maxNestingDepth]. by rewrite Hdp. }
  pose proof Hok as Hv. cbn [forallb] in Hv. apply andb_true_iff in Hv as [Hv _].
  destruct (encode_head (S k) v Hv) as (c & t & Hc & Hsp & H93 & _).
  rewrite fmap_cons in *. cbn [bracketed] in *. rewrite <- fmap_cons in *.
  rewrite app_String, !append_assoc, app_String, app_Empty. cbn [value].
  rewrite skip_space_head by done. change (bz "[" =? 123) with false. change (bz "[" =? 91) with true.
  cbn iota. rewrite Hdp.
  destruct (separated_head (S k) c t (encode ly (S k) <$> l) (ly_line ly k +:+ String "]" rest) Hsp) as [u Hu].
  rewrite <- Hc, <- fmap_cons in Hu. rewrite Hu. rewrite (proj2 (Z.eqb_neq (bz c) 93)) by done.
  rewrite elements_encode; [done | done | done | done | lia | apply Hly |].
  cbn [String.length] in Hn. rewrite length_append in Hn. lia.
Qed.

Lemma reads_obj ms : Forall (fun kv => reads kv.2) ms -> reads (JObj ms).
Proof.
  intros Hl k d n rest Hok Hd Hr Hn. cbn [json_ok json_depth encode json_valid] in *.
  destruct n as [|n]; [lia |].
  assert (Hdp : (maxNestingDepth <=? d) = false).
  { apply Z.leb_gt.
    assert (0 <= foldr (fun kv m => Z.max (json_depth kv.2) m) 0 ms)
      by (clear; induction ms as [|v l IH]; simpl; lia). lia. }
  destruct ms as [|[x v] ms].
  { cbn [fmap list_fmap bracketed]. rewrite !app_String, app_Empty. cbn [value].
    rewrite skip_space_head by done. cbn -[Z.leb maxNestingDepth]. by rewrite Hdp. }
  set (f := fun kv : string * json => quote kv.1 +:+ ly_colon ly +:+ encode ly (S k) kv.2) in *.
  rewrite (fmap_cons f) in *. cbn [bracketed] in *.
  rewrite <- (fmap_cons f) in *.
  rewrite app_String, !append_assoc, app_String, app_Empty. cbn [value].
  rewrite skip_space_head by done. change (bz "{" =? 123) with true. cbn iota. rewrite Hdp.
  destruct (separated_head (S k) "034" (escape_from 0 x +:+ String "034" (ly_colon ly +:+ encode ly (S k) v))
    (f <$> ms) (ly_line ly k +:+ String "}" rest)) as [u Hu]; [done |].
  assert (Hx : f (x, v) = String "034" (escape_from 0 x +:+ String "034" (ly_colon ly +:+ encode ly (S k) v)))
    by (unfold f; apply quote_app).
  rewrite <- Hx, <- fmap_cons in Hu. rewrite Hu. change (bz "034" =? 125) with false. cbn iota.
  unfold f in *. rewrite members_encode; [done | done | done | done | lia | apply Hly |].
  cbn [String.length] in Hn. rewrite length_append in Hn. lia.
Qed.

Lemma value_encode v : reads v.
Proof.
  induction v as [|b|lit|s|l IH|ms IH] using json_induct;
    [.. | by apply reads_arr | by apply reads_obj]; intros k d n rest Hok _ Hr Hn;
    (destruct n as [|n]; [simpl in Hn; lia |]).
  - done.
  - by destruct b.
  - by apply value_number.
  - cbn [encode json_valid]. rewrite quote_app. cbn [value]. rewrite skip_space_head by done.
    cbn -[unquote]. unfold unquote. by rewrite unquote_escape.
Qed.

(** Decoding what was encoded gives the value back, whatever the layout and
    whatever space follows. *)
Lemma parse_encode v w :
  json_ok v = true -> json_depth v <= maxNestingDepth -> spaces w = true ->
  parse (encode ly 0 v +:+ w) = Some (json_valid v).
Proof.
  intros Hok Hd Hw. unfold parse. rewrite value_encode; [ | done | lia | |].
  - cbn [mbind option_bind]. by rewrite bool_decide_eq_true_2 by (by apply skip_space_spaces).
  - rewrite <- (app_Empty_r w). by apply stops_space.
  - unfold parse_fuel. rewrite length_append. lia.
Qed.

Lemma parse_Encode v :
  json_ok v = true -> json_depth v <= maxNestingDepth -> parse (Encode ly v) = Some (json_valid v).
Proof. intros. by apply parse_encode. Qed.
End roundtrip.

Lemma parse_Marshal v :
  json_ok v = true -> json_depth v <= maxNestingDepth -> parse (Marshal_json v) = Some (json_valid v).
Proof.
  intros Hok Hd. unfold Marshal_json. rewrite <- (app_Empty_r (encode _ _ _)).
  by apply parse_encode; [apply compact_ok | ..].
Qed.

(** ** Fuel *)

Lemma push_Some p o x r : push p o = Some (x, r) -> exists y, o = Some (y, r).
Proof. destruct o as [[y r']|]; [|done]. intros [= _ ->]. by exists y. Qed.

Lemma unquote_from_length s k x r :
  unquote_from k s = Some (x, r) -> (String.length r < String.length s)%nat.
Proof.
  revert k x r. induction s as [s IH] using (induction_ltof1 _ String.length). unfold ltof in IH.
  intros k x r.
  assert (Hstep : forall p k t, (String.length t < String.length s)%nat ->
    push p (unquote_from k t) = Some (x, r) -> (String.length r < String.length s)%nat).
  { intros p k' t Ht (y & Hy)%push_Some. specialize (IH t Ht _ _ _ Hy). lia. }
  destruct s as [|c s]; [done |]. cbn [unquote_from String.length] in *. destruct k as [|k].
  2: { apply Hstep. lia. }
  destruct (bz c =? 34); [intros [= _ <-]; lia |]. destruct (bz c =? 92).
  - destruct s as [|e t]; [done |]. destruct (bz e =? 117).
    + destruct t as [|x1 [|x2 [|x3 [|x4 t]]]]; try done.
      destruct (hex4 x1 x2 x3 x4) as [z|]; [|done].
      destruct (is_surrogate z); [|apply Hstep; simpl; lia].
      destruct t as [|y1 [|y2 [|y3 [|y4 [|y5 [|y6 t]]]]]]; try (apply Hstep; simpl; lia).
      destruct (surrogate_pair _ _ _ _ _ _ _); apply Hstep; simpl; lia.
    + destruct (simple_escape e); [|done]. apply Hstep; simpl; lia.
  - destruct (bz c <? 32); [done |]. cbn zeta. destruct (ill _); apply Hstep; lia.
Qed.

Lemma skip_space_length s : (String.length (skip_space s) <= String.length s)%nat.
Proof. induction s as [|c s IH]; [done |]. cbn [skip_space]. destruct (json_space c); simpl; lia. Qed.

Lemma strip_prefix_length p s r :
  strip_prefix p s = Some r -> (String.length r <= String.length s)%nat.
Proof.
  revert s. induction p as [|a p IH]; intros [|b s] H; simpl in *; simplify_eq; [simpl; lia.. |].
  case_bool_decide; [|done]. apply IH in H. lia.
Qed.

Lemma span_number_length s n r :
  span_number s = (n, r) -> (String.length r + String.length n = String.length s)%nat.
Proof.
  revert n. induction s as [|c s IH]; intros n; cbn [span_number]; [by intros [= <- <-] |].
  destruct (number_char c); [|by intros [= <- <-]]. destruct (span_number s) as [n' r'].
  intros [= <- <-]. specialize (IH n' eq_refl). simpl. lia.
Qed.

(** Opens the binds, matches and tests of a reader that returned. *)
Ltac open_reader :=
  repeat match goal with
  | H : mbind _ _ = Some _ |- _ => apply bind_Some in H as ([? ?] & ? & H)
  | H : mbind _ _ = Some _ |- _ => apply bind_Some in H as (? & ? & H)
  | H : match skip_space ?s with _ => _ end = Some _ |- _ =>
      pose proof (skip_space_length s); destruct (skip_space s); [done |]
  | H : match span_number ?s with _ => _ end = Some _ |- _ => destruct (span_number s) as [? ?] eqn:?
  | H : (if valid_number ?l then _ else _) = Some _ |- _ => destruct (valid_number l) eqn:?; [|done]
  | H : (if ?b then _ else _) = Some _ |- _ => destruct b
  | H : None = Some _ |- _ => done
  | H : Some _ = Some _ |- _ => injection H as H; subst
  end.

(** What a reader leaves is shorter than what it got. *)
Lemma readers_length n :
  (forall d s v r, value n d s = Some (v, r) -> (String.length r < String.length s)%nat)
  /\ (forall d s l r, elements n d s = Some (l, r) -> (String.length r < String.length s)%nat)
  /\ (forall d s ms r, members n d s = Some (ms, r) -> (String.length r < String.length s)%nat).
Proof.
  induction n as [|n (IHv & IHe & IHm)]; [done |]. split_and!; intros d s v r H.
  - cbn [value] in H. open_reader.
    all: try match goal with
    | H : members _ _ _ = Some _ |- _ => apply IHm in H
    | H : elements _ _ _ = Some _ |- _ => apply IHe in H
    | H : unquote _ = Some _ |- _ => apply unquote_from_length in H
    | H : strip_prefix _ _ = Some _ |- _ => apply strip_prefix_length in H
    | H : span_number _ = (?l, _), Hv : valid_number ?l = true |- _ =>
        apply span_number_length in H; destruct (valid_number_head l Hv) as (? & ? & -> & _)
    end; simpl in *; lia.
  - cbn [elements] in H. open_reader.
    all: repeat match goal with
    | H : value _ _ _ = Some _ |- _ => apply IHv in H
    | H : elements _ _ _ = Some _ |- _ => apply IHe in H
    end; simpl in *; lia.
  - cbn [members] in H. open_reader.
    all: repeat match goal with
    | H : value _ _ _ = Some _ |- _ => apply IHv in H
    | H : members _ _ _ = Some _ |- _ => apply IHm in H
    | H : unquote _ = Some _ |- _ => apply unquote_from_length in H
    end; simpl in *; lia.
Qed.

(** Enough fuel is as good as more. *)
Lemma value_fuel n :
  (forall d s m, (2 * String.length s + 1 <= n <= m)%nat -> value n d s = value m d s)
  /\ (forall d s m, (2 * String.length s + 2 <= n <= m)%nat -> elements n d s = elements m d s)
  /\ (forall d s m, (2 * String.length s + 2 <= n <= m)%nat -> members n d s = members m d s).
Proof.
  induction n as [|n (IHv & IHe & IHm)]; [split_and!; lia |].
  split_and!; intros d s m Hm; (destruct m as [|m]; [lia |]).
  - cbn [value]. pose proof (skip_space_length s). destruct (skip_space s) as [|c t]; [done |].
    simpl in *. rewrite (IHm (d + 1) t m), (IHe (d + 1) t m) by lia. done.
  - cbn [elements]. rewrite (IHv d s m) by lia. destruct (value m d s) as [[v r]|] eqn:E; [|done].
    apply (readers_length m) in E. cbn [mbind option_bind].
    pose proof (skip_space_length r). destruct (skip_space r) as [|c t]; [done |].
    simpl in *. by rewrite (IHe d t m) by lia.
  - cbn [members]. pose proof (skip_space_length s). destruct (skip_space s) as [|c t]; [done |].
    destruct (bz c =? 34); [|done]. destruct (unquote t) as [[x r]|] eqn:E; [|done].
    apply unquote_from_length in E. cbn [mbind option_bind].
    pose proof (skip_space_length r). destruct (skip_space r) as [|c1 t1]; [done |]. simpl in *.
    rewrite (IHv d t1 m) by lia. destruct (bz c1 =? 58); [|done].
    destruct (value m d t1) as [[v r2]|] eqn:E2; [|done]. apply (readers_length m) in E2.
    cbn [mbind option_bind].
    pose proof (skip_space_length r2). destruct (skip_space r2) as [|c2 t2]; [done |].
    simpl in *. by rewrite (IHm d t2 m) by lia.
Qed.

(** The fuel of [parse] decides nothing. *)
Lemma parse_fuel_enough n s :
  (parse_fuel s <= n)%nat -> value (parse_fuel s) 0 s = value n 0 s.
Proof. intros. apply value_fuel. unfold parse_fuel in *. lia. Qed.

(** ** Integers *)

Lemma valid_magnitude_digits f n acc :
  1 <= n < 10 ^ Z.of_nat f -> forallb digit (bytes_of acc) = true ->
  exists c t, dec_digits f n acc = String c t /\ digit c = true /\ bz c <> 48
    /\ forallb digit (bytes_of t) = true.
Proof.
  revert n acc. induction f as [|f IH]; intros n acc Hn Ha; [simpl in Hn; lia |].
  cbn [dec_digits]. pose proof (bz_dec_digit n) as Hb. pose proof (Z.mod_pos_bound n 10).
  assert (Hd : digit (byte_of_Z (48 + n mod 10)) = true).
  { unfold digit. rewrite Hb, andb_true_iff, !Z.leb_le. lia. }
  destruct (Z.ltb_spec n 10) as [Hl|Hl].
  - exists (byte_of_Z (48 + n mod 10)), acc. rewrite Hb. split_and!; [done | done | | done].
    rewrite Z.mod_small by lia. lia.
  - apply IH; [|cbn [bytes_of forallb]; by rewrite Hd, Ha].
    rewrite Nat2Z.inj_succ, Z.pow_succ_r in Hn by lia.
    split; [apply Z.div_le_lower_bound; lia | apply Z.div_lt_upper_bound; lia].
Qed.

Lemma drop_digits_all s : forallb digit (bytes_of s) = true -> drop_digits s = ""%string.
Proof.
  induction s as [|c s IH]; [done |]. cbn [bytes_of forallb drop_digits]. rewrite andb_true_iff.
  intros [-> Hs]. by apply IH.
Qed.

Lemma FormatInt_number z : valid_number (FormatInt z) = true.
Proof.
  assert (Hpos : forall n, 1 <= n -> valid_magnitude (dec_digits (dec_fuel n) n "") = true
            /\ exists c t, dec_digits (dec_fuel n) n "" = String c t /\ digit c = true).
  { intros n Hn. destruct (valid_magnitude_digits (dec_fuel n) n "") as (c & t & -> & Hc & Hz & Ht);
      [split; [done |]; apply dec_fuel_enough; lia | done |].
    split; [|by exists c, t]. cbn [valid_magnitude]. rewrite (proj2 (Z.eqb_neq (bz c) 48)), Hc by done.
    by rewrite drop_digits_all. }
  unfold FormatInt. destruct (Z.ltb_spec z 0) as [Hz|Hz].
  - apply (Hpos (- z)). lia.
  - destruct (decide (z = 0)) as [->|]; [done |]. destruct (Hpos z) as [Hm (c & t & E & Hc)]; [lia |].
    rewrite E in *. cbn [valid_number]. rewrite (proj2 (Z.eqb_neq (bz c) 45)); [done |].
    revert Hc. unfold digit. rewrite andb_true_iff, !Z.leb_le. lia.
Qed.

Lemma JInt_ok z : json_ok (JInt z) = true.
Proof. apply FormatInt_number. Qed.

(** Well-formed, and nested at most [n] deep. *)
Definition fits (n : Z) (v : json) : Prop := json_ok v = true /\ json_depth v <= n.

Lemma fits_JInt n z : 0 <= n -> fits n (JInt z).
Proof. intros. split; [apply JInt_ok | done]. Qed.

Lemma fits_leaf n v : json_ok v = true -> json_depth v = 0 -> 0 <= n -> fits n v.
Proof. intros. split; [done | lia]. Qed.

(** The members of a literal list, one by one. *)
Ltac each_member :=
  cbn [app];
  repeat match goal with
  | |- Forall _ (_ :: _) => apply Forall_cons; split
  | |- Forall _ [] => apply Forall_nil_2
  end.

Lemma fits_JObj n ms : 0 <= n -> Forall (fun kv => fits n kv.2) ms -> fits (1 + n) (JObj ms).
Proof.
  intros Hn H. split; cbn [json_ok json_depth].
  - induction H as [|kv ms [Hok _] _ IH]; [done |]. cbn [forallb]. by rewrite Hok, IH.
  - induction H as [|kv ms [_ Hd] _ IH]; cbn [foldr]; lia.
Qed.

Lemma fits_JArr n l : 0 <= n -> Forall (fits n) l -> fits (1 + n) (JArr l).
Proof.
  intros Hn H. split; cbn [json_ok json_depth].
  - induction H as [|v l [Hok _] _ IH]; [done |]. cbn [forallb]. by rewrite Hok, IH.
  - induction H as [|v l [_ Hd] _ IH]; cbn [foldr]; lia.
Qed.

(** ** Members *)

Lemma filter_absent name (ms : list (string * json)) :
  name ∉ ms.*1 -> filter (fun kv => kv.1 = name) ms = [].
Proof.
  induction ms as [|kv ms IH]; [done |]. rewrite fmap_cons, not_elem_of_cons. intros [Hk H].
  rewrite filter_cons_False by congruence. by apply IH.
Qed.

Lemma member_unique name v ms : NoDup ms.*1 -> (name, v) ∈ ms -> member name (JObj ms) = Some v.
Proof.
  intros Hnd Hin. unfold member.
  assert (Hf : filter (fun kv : string * json => kv.1 = name) ms = [(name, v)]); [|by rewrite Hf].
  induction ms as [|[k x] ms IH]; [by apply not_elem_of_nil in Hin |].
  rewrite fmap_cons in Hnd. apply NoDup_cons in Hnd as [Hk Hnd]. cbn [fst] in Hk.
  apply elem_of_cons in Hin as [[= <- <-]|Hin].
  - rewrite filter_cons_True by done. f_equal. by apply filter_absent.
  - rewrite filter_cons_False; [by apply IH |]. cbn [fst]. intros ->.
    apply Hk, list_elem_of_fmap. by exists (name, v).
Qed.

Lemma member_absent name ms : name ∉ ms.*1 -> member name (JObj ms) = None.
Proof. intros H. unfold member. by rewrite filter_absent. Qed.

Lemma Permutation_refl' {A} (l k : list A) : l = k -> l ≡ₚ k.
Proof. by intros ->. Qed.

Section maps.
Context {A : Type} (f : A -> json).

Lemma JMap_perm m :
  exists ms, JMap f m = JObj ms /\ ms ≡ₚ (fun kv => (kv.1, f kv.2)) <$> map_to_list m.
Proof. eexists. split; [reflexivity |]. apply merge_sort_Permutation. Qed.

Lemma fits_JMap m n :
  0 <= n -> (forall k x, m !! k = Some x -> fits n (f x)) -> fits (1 + n) (JMap f m).
Proof.
  intros Hn Hf. destruct (JMap_perm m) as (ms & -> & Hp). apply fits_JObj; [done |].
  apply Forall_forall. intros kv Hkv. rewrite Hp in Hkv.
  apply list_elem_of_fmap in Hkv as ([k x] & -> & Hin). apply elem_of_map_to_list in Hin.
  by apply (Hf k).
Qed.

(** A map whose keys are well-formed is read back under each key. *)
Lemma member_JMap m name :
  (forall k x, m !! k = Some x -> to_valid k = k) ->
  member name (json_valid (JMap f m)) = (fun x => json_valid (f x)) <$> m !! name.
Proof.
  intros Hv. destruct (JMap_perm m) as (ms & -> & Hp). cbn [json_valid].
  set (g := fun kv : string * json => (to_valid kv.1, json_valid kv.2)).
  assert (Hk : (g <$> ms).*1 ≡ₚ (map_to_list m).*1).
  { rewrite Hp. rewrite <- !list_fmap_compose. apply Permutation_refl', list_fmap_ext.
    intros i [k x] Hi%list_elem_of_lookup_2. simpl. apply elem_of_map_to_list in Hi. by eapply Hv. }
  destruct (m !! name) as [x|] eqn:E.
  - apply member_unique.
    + rewrite Hk. apply NoDup_fst_map_to_list.
    + rewrite Hp. apply list_elem_of_fmap. exists (name, f x). split.
      * unfold g. simpl. by rewrite (Hv _ _ E).
      * apply list_elem_of_fmap. exists (name, x). split; [done |]. by apply elem_of_map_to_list.
  - apply member_absent. rewrite Hk. intros ([k x] & -> & Hin)%list_elem_of_fmap.
    apply elem_of_map_to_list in Hin. simpl in E. congruence.
Qed.
End maps.
