(* ===== verification/Uuid.v ===== *)
(** * Identifiers: [uuid.UUID]

    A UUID is Go's [[16]byte]. The type and its byte order are the source's;
    the textual form belongs to the third-party package [google/uuid], so
    [String] and [Parse] are members of the class [UuidLib], with the
    documented behaviour the ledger relies on as laws, and [google_uuid] is an
    instance that shows the laws can hold. *)
From stdpp Require Import base gmap fin_maps strings list.
From Stdlib Require Import ZArith Lia Ascii.
From S2P Require Import Prelude.
From S2P Require Import GoStd.

Open Scope Z_scope.

Inductive UUID := mkUUID (b0 b1 b2 b3 b4 b5 b6 b7 b8 b9 b10 b11 b12 b13 b14 b15 : ascii).

(** The sixteen bytes, [u[:]]. *)
Definition ubytes (u : UUID) : list ascii :=
  let 'mkUUID a b c d e f g h i j k l m n o p := u in
  [a; b; c; d; e; f; g; h; i; j; k; l; m; n; o; p].

Definition uuid_of_bytes (l : list ascii) : option UUID :=
  match l with
  | [a; b; c; d; e; f; g; h; i; j; k; l; m; n; o; p] =>
      Some (mkUUID a b c d e f g h i j k l m n o p)
  | _ => None
  end.

(** The UUID whose big-endian value is [n] modulo 2^128: a way to write one. *)
Definition uuid_of_Z (n : Z) : UUID :=
  let b i := byte_of_Z ((n / 2 ^ (8 * i)) mod 256) in
  mkUUID (b 15) (b 14) (b 13) (b 12) (b 11) (b 10) (b 9) (b 8)
         (b 7) (b 6) (b 5) (b 4) (b 3) (b 2) (b 1) (b 0).

Lemma uuid_of_Z_mod a b : uuid_of_Z a = uuid_of_Z b -> a mod 256 = b mod 256.
Proof.
  unfold uuid_of_Z. intros [= _ _ _ _ _ _ _ _ _ _ _ _ _ _ _ E]. apply (f_equal bz) in E.
  rewrite !bz_byte_of_Z in E by (apply Z.mod_pos_bound; lia).
  by rewrite Z.mul_0_r, Z.pow_0_r, !Z.div_1_r in E.
Qed.

(** [uuid.Nil], the all-zero UUID. *)
Definition uuid_Nil : UUID := uuid_of_Z 0.

Lemma uuid_of_bytes_ubytes u : uuid_of_bytes (ubytes u) = Some u.
Proof. by destruct u. Qed.

Lemma ubytes_inj u v : ubytes u = ubytes v -> u = v.
Proof.
  intros E. apply (f_equal uuid_of_bytes) in E.
  rewrite !uuid_of_bytes_ubytes in E. by simplify_eq.
Qed.

#[global] Instance UUID_eq_dec : EqDecision UUID.
Proof.
  refine (fun u v => cast_if (decide (ubytes u = ubytes v))).
  - by apply ubytes_inj.
  - by intros ->.
Defined.

#[global] Instance UUID_countable : Countable UUID :=
  inj_countable (fun u => string_of_bytes (ubytes u)) (fun s => uuid_of_bytes (bytes_of s))
    (fun u => eq_trans (f_equal uuid_of_bytes (bytes_of_string_of _)) (uuid_of_bytes_ubytes u)).

#[global] Instance UUID_inhabited : Inhabited UUID := populate uuid_Nil.

(** Go's [==] on UUIDs. *)
Definition uuid_eqb (u v : UUID) : bool := bool_decide (u = v).

Lemma uuid_eqb_refl u : uuid_eqb u u = true.
Proof. by apply bool_decide_eq_true. Qed.

Lemma uuid_eqb_ne u v : u <> v -> uuid_eqb u v = false.
Proof. intros. by apply bool_decide_eq_false. Qed.

(** [bytes.Compare(u[:], v[:])]. *)
Definition ucompare (u v : UUID) : Z := bytes_Compare (ubytes u) (ubytes v).

Lemma ucompare_refl u : ucompare u u = 0.
Proof. apply bytes_Compare_refl. Qed.

Lemma ucompare_antisym u v : ucompare v u = - ucompare u v.
Proof. apply bytes_Compare_antisym. Qed.

Lemma ucompare_eq u v : ucompare u v = 0 -> u = v.
Proof. intros ?%bytes_Compare_eq. by apply ubytes_inj. Qed.

(** The strict byte order on UUIDs, in which row locks are requested. *)
Definition ult (u v : UUID) : Prop := ucompare u v < 0.

#[global] Instance ult_dec : RelDecision ult.
Proof. intros u v. unfold ult. apply _. Defined.

#[global] Instance ult_strict : StrictOrder ult.
Proof.
  split.
  - intros u Hu. unfold ult in Hu. rewrite ucompare_refl in Hu. lia.
  - intros u v w. apply bytes_Compare_trans.
Qed.

Lemma ult_total u v : ult u v \/ u = v \/ ult v u.
Proof.
  unfold ult. rewrite (ucompare_antisym u v).
  destruct (Z.lt_trichotomy (ucompare u v) 0) as [|[|]]; [by left | | right; right; lia].
  right; left. by apply ucompare_eq.
Qed.

(** ** The textual form *)

(** [8-4-4-4-12] lower-case hexadecimal digits. *)
Definition is_uuid_char (z : Z) : bool :=
  ((48 <=? z) && (z <=? 57)) || ((97 <=? z) && (z <=? 102)) || (z =? 45).

(** What the ledger relies on of [google/uuid]: the canonical form has a fixed
    length and only hexadecimal digits and dashes, and parsing it gives the
    identifier back. *)
Class UuidLib := {
  uuid_String : UUID -> string;
  uuid_Parse : string -> option UUID;
  uuid_String_length : forall u, String.length (uuid_String u) = 36%nat;
  uuid_String_chars : forall u, all_bytes is_uuid_char (uuid_String u) = true;
  uuid_Parse_String : forall u, uuid_Parse (uuid_String u) = Some u
}.

Lemma uuid_String_inj `{UuidLib} u v : uuid_String u = uuid_String v -> u = v.
Proof.
  intros E. apply (f_equal uuid_Parse) in E.
  rewrite !uuid_Parse_String in E. by simplify_eq.
Qed.

(** ** A library that satisfies the laws *)

Module GoogleUuid.
Definition dash : ascii := "-".

(** The canonical form of sixteen bytes. *)
Definition to_string (u : UUID) : string :=
  let h l := hex_EncodeToString l in
  let b := ubytes u in
  string_of_bytes
    (bytes_of (h (take 4 b)) ++ dash :: bytes_of (h (take 2 (drop 4 b)))
     ++ dash :: bytes_of (h (take 2 (drop 6 b))) ++ dash :: bytes_of (h (take 2 (drop 8 b)))
     ++ dash :: bytes_of (h (drop 10 b)))%list.

(** The canonical form, read back: dashes at 8, 13, 18 and 23. *)
Definition of_string (s : string) : option UUID :=
  let l := bytes_of s in
  if bool_decide (length l = 36%nat)
     && forallb (fun i => bool_decide (l !! i = Some dash)) [8; 13; 18; 23]%nat
  then
    hex_DecodeString (string_of_bytes
      (take 8 l ++ take 4 (drop 9 l) ++ take 4 (drop 14 l)
       ++ take 4 (drop 19 l) ++ drop 24 l)%list)
    ≫= uuid_of_bytes
  else None.

Lemma to_string_length u : String.length (to_string u) = 36%nat.
Proof. destruct u. reflexivity. Qed.

Lemma hex_digit_char n : 0 <= n < 16 -> is_uuid_char (bz (hex_digit n)) = true.
Proof.
  intros Hn.
  assert (H : forallb (fun k => is_uuid_char (bz (hex_digit k))) (seqZ 0 16) = true)
    by reflexivity.
  rewrite forallb_forall in H. apply H, list_elem_of_In, elem_of_seqZ. lia.
Qed.

Lemma hex_chars l :
  forallb (fun b => is_uuid_char (bz b)) (bytes_of (hex_EncodeToString l)) = true.
Proof.
  induction l as [|b l IH]; [done |]. cbn [hex_EncodeToString bytes_of forallb].
  pose proof (bz_range b).
  rewrite !hex_digit_char, IH; [done | apply Z.mod_pos_bound; lia |].
  split; [apply Z.div_pos | apply Z.div_lt_upper_bound]; lia.
Qed.

Lemma to_string_chars u : all_bytes is_uuid_char (to_string u) = true.
Proof.
  unfold all_bytes, to_string. rewrite bytes_of_string_of.
  rewrite !forallb_app. cbn [forallb]. rewrite !forallb_app. cbn [forallb].
  rewrite !forallb_app. cbn [forallb]. rewrite !forallb_app. cbn [forallb].
  by rewrite !hex_chars.
Qed.

Lemma of_to_string u : of_string (to_string u) = Some u.
Proof.
  unfold of_string, to_string. rewrite bytes_of_string_of.
  transitivity (hex_DecodeString (hex_EncodeToString (ubytes u)) ≫= uuid_of_bytes).
  - by destruct u.
  - rewrite hex_decode_encode. apply uuid_of_bytes_ubytes.
Qed.
End GoogleUuid.

Definition google_uuid : UuidLib := {|
  uuid_String := GoogleUuid.to_string;
  uuid_Parse := GoogleUuid.of_string;
  uuid_String_length := GoogleUuid.to_string_length;
  uuid_String_chars := GoogleUuid.to_string_chars;
  uuid_Parse_String := GoogleUuid.of_to_string
|}.
