(* ===== verification/Errors.v ===== *)
(** * Go errors

    An [error] value is a tree: a sentinel ([errors.New] at package level), a
    [*pgconn.PgError], an opaque error of a driver or of the runtime, a gRPC
    status, or [fmt.Errorf]/[errors.Join] around other errors. [errors.Is] and
    [errors.As] search that tree depth first, as the standard library does.

    A message is a list of fragments: literal text and formatted arguments
    ([%q], [%d], [%s]) keep apart what a message says of the request and of the
    system. *)
From stdpp Require Import base gmap fin_maps strings list.
From Stdlib Require Import ZArith Lia Ascii.
From S2P Require Import Prelude.
From S2P Require Import GoStd.
From S2P Require Import Uuid.

Open Scope Z_scope.

(** The package-level sentinels, with the package that declares each one. *)
Inductive sentinel :=
  (* money *)
  | ErrInvalidCurrency
  (* account *)
  | account_ErrNotFound
  (* transfer *)
  | transfer_ErrNotFound
  | ErrSourceAccountNotFound
  | ErrDestinationAccountNotFound
  | ErrSameAccount
  | ErrInvalidAmount
  | ErrCurrencyMismatch
  | ErrInsufficientFunds
  | ErrNotBalanced
  | ErrRetriesExhausted
  | ErrIdempotencyConflict
  | ErrIdempotencyInProgress
  (* idempotency *)
  | ErrInvalidKey
  | ErrConflict
  | ErrInProgress
  | ErrUnavailable
  (* auth *)
  | ErrNoCredentials
  | ErrMalformedCredentials
  | ErrInvalidToken
  | ErrMissingScope
  (* grpcapi *)
  | ErrInvalidRequest
  (* pgx, context *)
  | pgx_ErrNoRows
  | context_Canceled
  | context_DeadlineExceeded
  (* net/http, grpc, golang-migrate *)
  | http_ErrServerClosed
  | grpc_ErrServerStopped
  | migrate_ErrNoChange
  | migrate_ErrNilVersion.

#[global] Instance sentinel_eq_dec : EqDecision sentinel.
Proof. solve_decision. Defined.

(** The text of a sentinel: the argument of its [errors.New]. *)
Definition sentinel_text (s : sentinel) : string :=
  match s with
  | ErrInvalidCurrency => "money: invalid currency code"
  | account_ErrNotFound => "account: not found"
  | transfer_ErrNotFound => "transfer: not found"
  | ErrSourceAccountNotFound => "transfer: source account not found"
  | ErrDestinationAccountNotFound => "transfer: destination account not found"
  | ErrSameAccount => "transfer: source and destination must differ"
  | ErrInvalidAmount => "transfer: amount must be greater than zero"
  | ErrCurrencyMismatch => "transfer: currency mismatch"
  | ErrInsufficientFunds => "transfer: insufficient funds"
  | ErrNotBalanced => "transfer: ledger entries do not balance"
  | ErrRetriesExhausted => "transfer: retries exhausted"
  | ErrIdempotencyConflict => "transfer: idempotency key reused for a different request"
  | ErrIdempotencyInProgress =>
      "transfer: request with this idempotency key is already in progress"
  | ErrInvalidKey => "idempotency: invalid key"
  | ErrConflict => "idempotency: key reused for a different request"
  | ErrInProgress => "idempotency: request already in progress"
  | ErrUnavailable => "idempotency: coordination store unavailable"
  | ErrNoCredentials => "auth: no credentials supplied"
  | ErrMalformedCredentials => "auth: malformed credentials"
  | ErrInvalidToken => "auth: token is not valid"
  | ErrMissingScope => "auth: token does not carry the required scope"
  | ErrInvalidRequest => "invalid request"
  | pgx_ErrNoRows => "no rows in result set"
  | context_Canceled => "context canceled"
  | context_DeadlineExceeded => "context deadline exceeded"
  | http_ErrServerClosed => "http: Server closed"
  | grpc_ErrServerStopped => "grpc: the server has been stopped"
  | migrate_ErrNoChange => "no change"
  | migrate_ErrNilVersion => "no migration"
  end.

(** The two fields of [pgconn.PgError] the ledger looks at. *)
Record PgError := mkPgError { Code : string; ConstraintName : string }.

#[global] Instance PgError_eq_dec : EqDecision PgError.
Proof. solve_decision. Defined.

(** A fragment of a formatted message. *)
Inductive piece :=
  | Txt (s : string)      (* literal text of the format *)
  | Str (s : string)      (* %s of a string *)
  | Quo (s : string)      (* %q of a string *)
  | Num (z : Z)           (* %d *)
  | Uid (u : UUID)        (* %s of a UUID *)
  | Dur (d : Z)           (* %s of a time.Duration *)
  | Pg (e : PgError)      (* the driver's text for a server error *)
  | Ext (s : string).     (* the text of an error from outside the program *)

#[global] Instance piece_eq_dec : EqDecision piece.
Proof. solve_decision. Defined.

Abbreviation msg := (list piece).

(** The codes of [google.golang.org/grpc/codes] that occur. *)
Inductive code :=
  | OK | Canceled | InvalidArgument | DeadlineExceeded | NotFound | AlreadyExists
  | PermissionDenied | FailedPrecondition | Aborted | Internal | Unavailable
  | Unauthenticated | Unknown.

#[global] Instance code_eq_dec : EqDecision code.
Proof. solve_decision. Defined.

Inductive goerr :=
  | Sentinel (s : sentinel)
  | PgErr (e : PgError)
  | External (text : string)              (* a driver, network or runtime error *)
  | StatusErr (c : code) (m : msg)        (* status.Error *)
  | Plain (m : msg)                       (* fmt.Errorf without %w, errors.New *)
  | Wrap (pre : msg) (e : goerr) (post : msg)   (* one %w *)
  | Wrap2 (e1 : goerr) (mid : msg) (e2 : goerr) (* two %w *)
  | Join (e1 e2 : goerr).                 (* errors.Join *)

#[global] Instance goerr_eq_dec : EqDecision goerr.
Proof. solve_decision. Defined.

Coercion Sentinel : sentinel >-> goerr.

(** [err.Error()]. *)
Fixpoint Error (e : goerr) : msg :=
  match e with
  | Sentinel s => [Txt (sentinel_text s)]
  | PgErr p => [Pg p]
  | External s => [Ext s]
  | StatusErr _ m => m
  | Plain m => m
  | Wrap pre e post => (pre ++ Error e ++ post)%list
  | Wrap2 e1 mid e2 => (Error e1 ++ mid ++ Error e2)%list
  | Join e1 e2 => (Error e1 ++ [Txt (String "010" "")] ++ Error e2)%list
  end.

(** [errors.Is(err, target)] for a sentinel target. *)
Fixpoint errors_Is (e : goerr) (t : sentinel) : bool :=
  match e with
  | Sentinel s => bool_decide (s = t)
  | PgErr _ | External _ | StatusErr _ _ | Plain _ => false
  | Wrap _ e _ => errors_Is e t
  | Wrap2 e1 _ e2 | Join e1 e2 => errors_Is e1 t || errors_Is e2 t
  end.

(** [errors.As(err, &pgErr)]: the first server error, depth first. *)
Fixpoint errors_As_Pg (e : goerr) : option PgError :=
  match e with
  | PgErr p => Some p
  | Sentinel _ | External _ | StatusErr _ _ | Plain _ => None
  | Wrap _ e _ => errors_As_Pg e
  | Wrap2 e1 _ e2 | Join e1 e2 =>
      match errors_As_Pg e1 with
      | Some p => Some p
      | None => errors_As_Pg e2
      end
  end.

(** [errors.As(err, new(interface{ GRPCStatus() ... }))]. *)
Fixpoint errors_As_Status (e : goerr) : option (code * msg) :=
  match e with
  | StatusErr c m => Some (c, m)
  | Sentinel _ | External _ | PgErr _ | Plain _ => None
  | Wrap _ e _ => errors_As_Status e
  | Wrap2 e1 _ e2 | Join e1 e2 =>
      match errors_As_Status e1 with
      | Some p => Some p
      | None => errors_As_Status e2
      end
  end.

(** ** Fallible results *)

Inductive result (A : Type) :=
  | Ok (a : A)
  | Err (e : goerr).
Arguments Ok {A} a.
Arguments Err {A} e.

Definition is_Ok {A} (r : result A) : bool :=
  match r with Ok _ => true | Err _ => false end.

Declare Scope go_scope.
Delimit Scope go_scope with go.

Notation "'let?' x := c1 'in' c2" :=
  (match c1 with Ok x => c2 | Err e => Err e end)
    (at level 60, x name, c1 at level 200, c2 at level 200, right associativity) : go_scope.

(** A recurring pattern of the source: [fmt.Errorf("%w: <post>", sentinel, ...)]. *)
Definition wrapping (s : sentinel) (post : msg) : goerr := Wrap [] s post.

(** ... and [fmt.Errorf("<pre>: %w", err)]. *)
Definition prefixed (pre : string) (e : goerr) : goerr := Wrap [Txt pre] e [].

