(* ===== verification/GoFmt.v ===== *)
(** * [fmt]: the text of a message

    A message is a list of pieces ([Errors]); here is the string it prints as:
    [%d] of an integer, [%s] of a string, an identifier or a [time.Duration],
    [%q] of a string. What the text of a server error is, and which runes
    outside ASCII are printable, is the driver's and the Unicode tables'. *)
From stdpp Require Import base gmap fin_maps strings list.
From Stdlib Require Import ZArith Lia Ascii.
From S2P Require Import Prelude.
From S2P Require Import GoStd.
From S2P Require Import GoStrings.
From S2P Require Import GoTime.
From S2P Require Import Uuid.
From S2P Require Import Errors.

Open Scope Z_scope.

(** ** [time.Duration.String] *)

(** [fmtFrac]: the last [prec] decimal digits as a fraction, without trailing
    zeros and without a point when nothing is left. *)
Definition fmtFrac (v : Z) (prec : nat) : string :=
  match trim_zeros (bytes_of (pad_int prec (v mod 10 ^ Z.of_nat prec))) with
  | [] => ""
  | l => String "." (string_of_bytes l)
  end.

Definition micro_sign : string := Eval vm_compute in
  String (byte_of_Z 194) (String (byte_of_Z 181) "").

(** A magnitude in nanoseconds. *)
Definition format_duration (u : Z) : string :=
  if u <? Second then
    if u =? 0 then "0s"
    else if u <? Microsecond then FormatInt u +:+ "ns"
    else if u <? Millisecond then
      FormatInt (u / Microsecond) +:+ fmtFrac u 3 +:+ micro_sign +:+ "s"
    else FormatInt (u / Millisecond) +:+ fmtFrac u 6 +:+ "ms"
  else
    let secs := u / Second in
    let mins := secs / 60 in
    let hours := mins / 60 in
    (if 0 <? mins then
       (if 0 <? hours then FormatInt hours +:+ "h" else "") +:+ FormatInt (mins mod 60) +:+ "m"
     else "")
    +:+ FormatInt (secs mod 60) +:+ fmtFrac u 9 +:+ "s".

Definition Duration_String (d : Z) : string :=
  if d <? 0 then "-" +:+ format_duration (- d) else format_duration d.

Example Duration_String_examples :
  Duration_String 0 = "0s"%string
  /\ Duration_String (90 * Minute + 1500 * Millisecond) = "1h30m1.5s"%string
  /\ Duration_String (2 * Second) = "2s"%string
  /\ Duration_String (- 30 * Minute) = "-30m0s"%string
  /\ Duration_String 1100000 = "1.1ms"%string
  /\ Duration_String 7 = "7ns"%string.
Proof. vm_compute. done. Qed.

(** ** [strconv.Quote] *)

(** The lower [n] hexadecimal digits. *)
Fixpoint hex_digits (n : nat) (z : Z) : string :=
  match n with
  | O => ""
  | S n' => hex_digits n' (z / 16) +:+ String (hex_digit (z mod 16)) ""
  end.

Section text.
Variable IsPrint : Z -> bool.              (* unicode/strconv.IsPrint outside ASCII *)
Variable PgError_Error : PgError -> string. (* the driver's text for a server error *)
Context {UL : UuidLib}.

Definition printable (r : Z) : bool :=
  if r <? 128 then (32 <=? r) && (r <=? 126) else IsPrint r.

(** [appendEscapedRune] of a rune that is not a quote, a backslash or printable. *)
Definition escape_rune (r : Z) : string :=
  if r =? 7 then String "\" "a"
  else if r =? 8 then String "\" "b"
  else if r =? 12 then String "\" "f"
  else if r =? 10 then String "\" "n"
  else if r =? 13 then String "\" "r"
  else if r =? 9 then String "\" "t"
  else if r =? 11 then String "\" "v"
  else if (r <? 32) || (r =? 127) then String "\" (String "x" (hex_digits 2 r))
  else if r <? 65536 then String "\" (String "u" (hex_digits 4 r))
  else String "\" (String "U" (hex_digits 8 r)).

(** The rune at [c], over the [w - 1] bytes that follow: copied, or written out.
    [copy] says what becomes of the bytes still to be passed over. *)
Fixpoint quote_from (skip : nat) (copy : bool) (s : string) : string :=
  match s with
  | EmptyString => EmptyString
  | String c s' =>
      match skip with
      | S k => if copy then String c (quote_from k copy s') else quote_from k copy s'
      | O =>
          let '(r, w) := decode_rune c s' in
          if (r =? RuneError) && (w =? 1)%nat && (128 <=? bz c) then
            String "\" (String "x" (hex_digits 2 (bz c) +:+ quote_from 0 true s'))
          else if (r =? 34) || (r =? 92) then String "\" (String c (quote_from 0 true s'))
          else if printable r then String c (quote_from (w - 1) true s')
          else escape_rune r +:+ quote_from (w - 1) false s'
      end
  end.

Definition strconv_Quote (s : string) : string :=
  String "034" (quote_from 0 true s +:+ String "034" "").

Definition piece_text (p : piece) : string :=
  match p with
  | Txt s | Str s | Ext s => s
  | Quo s => strconv_Quote s
  | Num z => FormatInt z
  | Uid u => uuid_String u
  | Dur d => Duration_String d
  | Pg e => PgError_Error e
  end.

Fixpoint msg_text (m : msg) : string :=
  match m with
  | [] => ""
  | p :: m' => piece_text p +:+ msg_text m'
  end.
End text.
