(* ===== verification/GoFlag.v ===== *)
(** * [flag] and [strconv.ParseInt]

    Parsing a command line as [flag.Parse] does on the package's own
    [CommandLine]: one or two minus signs, a value after an equals sign or in the
    next argument, flags of type bool without one, "--" or the first argument
    that is no flag ends the flags. [Set] of a flag is strconv's or time's. *)
From stdpp Require Import base gmap fin_maps strings list.
From Stdlib Require Import ZArith Lia Ascii.
From S2P Require Import Prelude.
From S2P Require Import GoStd.
From S2P Require Import GoStrings.
From S2P Require Import GoTime.
From S2P Require Import GoJson.
From S2P Require Import JsonSpec.
From S2P Require Import Uuid.
From S2P Require Import Errors.
From S2P Require Import GoFmt.

Open Scope Z_scope.

(** ** [strconv.ParseInt(s, 0, 64)] *)

Inductive num_error := ErrSyntax | ErrRange.

(** [c | 0x20]. *)
Definition lower_bit (c : ascii) : Z := Z.lor (bz c) 32.

Definition digit_value (c : ascii) : option Z :=
  if (48 <=? bz c) && (bz c <=? 57) then Some (bz c - 48)
  else if (97 <=? lower_bit c) && (lower_bit c <=? 122) then Some (lower_bit c - 97 + 10)
  else None.

(** The loop of [ParseUint]: the first character that is wrong decides. *)
Fixpoint uint_loop (base : Z) (n : Z) (s : string) : num_error + Z :=
  match s with
  | EmptyString => inr n
  | String c s' =>
      if bz c =? 95 then uint_loop base n s'
      else match digit_value c with
      | None => inl ErrSyntax
      | Some d =>
          if base <=? d then inl ErrSyntax
          else if 2 ^ 64 - 1 <? n * base + d then inl ErrRange
          else uint_loop base (n * base + d) s'
      end
  end.

(** The base that a prefix announces, and the rest. *)
Definition base_prefix (s : string) : Z * string :=
  match s with
  | String z s' =>
      if bz z =? 48 then
        match s' with
        | String b (String _ _ as s'') =>
            if lower_bit b =? 98 then (2, s'')
            else if lower_bit b =? 111 then (8, s'')
            else if lower_bit b =? 120 then (16, s'')
            else (8, s')
        | _ => (8, s')
        end
      else (10, s)
  | EmptyString => (10, s)
  end.

Inductive seen := SawStart | SawDigit | SawUnderscore | SawOther.

Fixpoint underscore_loop (hex : bool) (saw : seen) (s : string) : bool :=
  match s with
  | EmptyString => match saw with SawUnderscore => false | _ => true end
  | String c s' =>
      if ((48 <=? bz c) && (bz c <=? 57)) || (hex && (97 <=? lower_bit c) && (lower_bit c <=? 102))
      then underscore_loop hex SawDigit s'
      else if bz c =? 95 then
        match saw with SawDigit => underscore_loop hex SawUnderscore s' | _ => false end
      else match saw with SawUnderscore => false | _ => underscore_loop hex SawOther s' end
  end.

(** [underscoreOK], of a text without its sign. *)
Definition underscoreOK (s : string) : bool :=
  match s with
  | String z (String b s') =>
      if (bz z =? 48) && ((lower_bit b =? 98) || (lower_bit b =? 111) || (lower_bit b =? 120))
      then underscore_loop (lower_bit b =? 120) SawDigit s'
      else underscore_loop false SawStart s
  | _ => underscore_loop false SawStart s
  end.

Definition has_underscore (s : string) : bool := existsb (fun c => bz c =? 95) (bytes_of s).

Definition ParseUint (s : string) : num_error + Z :=
  match s with
  | EmptyString => inl ErrSyntax
  | _ =>
      let '(base, digits) := base_prefix s in
      match uint_loop base 0 digits with
      | inl e => inl e
      | inr n => if has_underscore digits && negb (underscoreOK s) then inl ErrSyntax else inr n
      end
  end.

Definition ParseInt (s : string) : num_error + Z :=
  let '(neg, u) :=
    match s with
    | String c s' => if bz c =? 43 then (false, s') else if bz c =? 45 then (true, s') else (false, s)
    | EmptyString => (false, s)
    end in
  match ParseUint u with
  | inl e => inl e
  | inr n =>
      if neg then if 2 ^ 63 <? n then inl ErrRange else inr (- n)
      else if 2 ^ 63 <=? n then inl ErrRange else inr n
  end.

Example ParseInt_examples :
  ParseInt "0x1F" = inr 31 /\ ParseInt "-1_000" = inr (-1000) /\ ParseInt "010" = inr 8
  /\ ParseInt "0" = inr 0 /\ ParseInt "1__0" = inl ErrSyntax /\ ParseInt "" = inl ErrSyntax
  /\ ParseInt "9223372036854775808" = inl ErrRange /\ ParseInt "08" = inl ErrSyntax.
Proof. vm_compute. done. Qed.

(** ** Flags *)

(** [numError], [errParse]: what a failed [Set] says. *)
Definition num_text (e : num_error) : string :=
  match e with ErrSyntax => "parse error" | ErrRange => "value out of range" end.

(** The types of flags the commands use; [TypeName] and [Zero] are what
    [UnquoteUsage] and [isZeroValue] make of them. No usage text of the program
    names its argument in back quotes. *)
Inductive flag_kind := FString | FInt | FBool | FDuration.

Definition TypeName (k : flag_kind) : string :=
  match k with FString => "string" | FInt => "int" | FBool => "" | FDuration => "duration" end.

Definition Zero (k : flag_kind) : string :=
  match k with FString => "" | FInt => "0" | FBool => "false" | FDuration => "0s" end.

(** A flag over a record of variables: what [Var] stores when it is registered,
    and [Set], which fails with a text. *)
Record Flag (V : Type) := mkFlag {
  fl_name : string;
  fl_kind : flag_kind;
  fl_usage : string;
  fl_DefValue : string;
  fl_init : V -> V;
  fl_Set : string -> V -> string + V
}.
Arguments mkFlag {V}.
Arguments fl_name {V}.
Arguments fl_kind {V}.
Arguments fl_usage {V}.
Arguments fl_DefValue {V}.
Arguments fl_init {V}.
Arguments fl_Set {V}.

Definition fl_bool {V} (f : Flag V) : bool :=
  match fl_kind f with FBool => true | _ => false end.

Definition bool_text (b : bool) : string := if b then "true" else "false".

Section kinds.
Context {V : Type}.

Definition StringVar (put : string -> V -> V) (name value usage : string) : Flag V :=
  mkFlag name FString usage value (put value) (fun s v => inr (put s v)).

(** [IntVar] and [Int64Var]: an [int] has 64 bits. *)
Definition IntVar (put : Z -> V -> V) (name : string) (value : Z) (usage : string) : Flag V :=
  mkFlag name FInt usage (FormatInt value) (put value) (fun s v =>
    match ParseInt s with inl e => inl (num_text e) | inr z => inr (put z v) end).

Definition BoolVar (put : bool -> V -> V) (name : string) (value : bool) (usage : string) : Flag V :=
  mkFlag name FBool usage (bool_text value) (put value) (fun s v =>
    match ParseBool s with None => inl "parse error"%string | Some b => inr (put b v) end).

Definition DurationVar (frac : Z -> Z -> Z -> Z) (put : Z -> V -> V) (name : string) (value : Z)
    (usage : string) : Flag V :=
  mkFlag name FDuration usage (Duration_String value) (put value) (fun s v =>
    match ParseDuration frac s with None => inl "parse error"%string | Some d => inr (put d v) end).

(** The variables once every flag is registered. *)
Definition registered (formal : list (Flag V)) (v : V) : V := foldl (fun v f => fl_init f v) v formal.

(** *** [PrintDefaults] *)

(** [VisitAll]: in lexicographical order. *)
Fixpoint insert_flag (f : Flag V) (l : list (Flag V)) : list (Flag V) :=
  match l with
  | [] => [f]
  | g :: l' => if String.ltb (fl_name f) (fl_name g) then f :: l else g :: insert_flag f l'
  end.

Definition sort_flags (formal : list (Flag V)) : list (Flag V) := foldr insert_flag [] formal.

Definition tab : string := String "009" "".
Definition line_feed : string := String "010" "".

Definition print_flag (f : Flag V) : msg :=
  let ty := TypeName (fl_kind f) in
  let head := "  -" +:+ fl_name f +:+ (if bool_decide (ty = "") then "" else " " +:+ ty) in
  ([Txt head; Txt (if (String.length head <=? 4)%nat then tab else line_feed +:+ "    " +:+ tab);
    Txt (fl_usage f)]
   ++ (if bool_decide (fl_DefValue f = Zero (fl_kind f)) then []
       else match fl_kind f with
            | FString => [Txt " (default "; Quo (fl_DefValue f); Txt ")"]
            | _ => [Txt " (default "; Txt (fl_DefValue f); Txt ")"]
            end)
   ++ [Txt line_feed])%list.

Definition PrintDefaults (formal : list (Flag V)) : list msg := print_flag <$> sort_flags formal.

(** [flag.Usage], unless the program replaces it. *)
Definition default_usage (program : string) (formal : list (Flag V)) : list msg :=
  [Txt "Usage of "; Str program; Txt ":"; Txt line_feed] :: PrintDefaults formal.

(** *** [Parse] *)

Definition find_flag (formal : list (Flag V)) (name : string) : option (Flag V) :=
  List.find (fun f => bool_decide (fl_name f = name)) formal.

(** The name and the value of [name=value]; the first character is never
    taken for the equals sign. *)
Fixpoint split_equals (s : string) : string * option string :=
  match s with
  | EmptyString => (EmptyString, None)
  | String c s' =>
      if bz c =? 61 then (EmptyString, Some s')
      else let '(n, v) := split_equals s' in (String c n, v)
  end.

Definition split_flag (s : string) : string * option string :=
  match s with
  | EmptyString => (EmptyString, None)
  | String c s' => let '(n, v) := split_equals s' in (String c n, v)
  end.

(** What an argument is to the parser. *)
Inductive argument :=
  | Positional
  | Terminator
  | BadSyntax
  | Named (name : string) (value : option string).

Definition classify (s : string) : argument :=
  match s with
  | String m (String c t) =>
      if negb (bz m =? 45) then Positional
      else
        let body := if bz c =? 45 then t else String c t in
        match body with
        | EmptyString => Terminator
        | String d _ => if (bz d =? 45) || (bz d =? 61) then BadSyntax
                        else let '(n, v) := split_flag body in Named n v
        end
  | _ => Positional
  end.

(** [Parse]: the variables and [flag.Args()], a request for help, or an error. *)
Inductive Parsed :=
  | ParsedOk (v : V) (args : list string)
  | ParsedHelp
  | ParsedBad (m : msg).

Fixpoint Parse (formal : list (Flag V)) (v : V) (args : list string) : Parsed :=
  match args with
  | [] => ParsedOk v []
  | s :: rest =>
      match classify s with
      | Positional => ParsedOk v args
      | Terminator => ParsedOk v rest
      | BadSyntax => ParsedBad [Txt "bad flag syntax: "; Str s]
      | Named name value =>
          match find_flag formal name with
          | None =>
              if bool_decide (name = "help") || bool_decide (name = "h") then ParsedHelp
              else ParsedBad [Txt "flag provided but not defined: -"; Str name]
          | Some f =>
              if fl_bool f then
                match value with
                | Some x =>
                    match fl_Set f x v with
                    | inl e => ParsedBad [Txt "invalid boolean value "; Quo x; Txt " for -"; Str name;
                                          Txt ": "; Txt e]
                    | inr v' => Parse formal v' rest
                    end
                | None =>
                    match fl_Set f "true" v with
                    | inl e => ParsedBad [Txt "invalid boolean flag "; Str name; Txt ": "; Txt e]
                    | inr v' => Parse formal v' rest
                    end
                end
              else
                match value, rest with
                | None, [] => ParsedBad [Txt "flag needs an argument: -"; Str name]
                | Some x, _ =>
                    match fl_Set f x v with
                    | inl e => ParsedBad [Txt "invalid value "; Quo x; Txt " for flag -"; Str name;
                                          Txt ": "; Txt e]
                    | inr v' => Parse formal v' rest
                    end
                | None, x :: rest' =>
                    match fl_Set f x v with
                    | inl e => ParsedBad [Txt "invalid value "; Quo x; Txt " for flag -"; Str name;
                                          Txt ": "; Txt e]
                    | inr v' => Parse formal v' rest'
                    end
                end
          end
      end
  end.
End kinds.
Arguments Parsed V : clear implicits.
Arguments ParsedOk {V}.
Arguments ParsedHelp {V}.
Arguments ParsedBad {V}.

(** How a process ends: by a panic, or with a status and what it wrote to
    standard error. *)
Inductive exit := Crashed | Exited (status : Z) (stderr : list msg).

(** [flag.Parse] with [ExitOnError]: the usage is written after an error; a
    request for help is answered by it alone. *)
Definition parse_exit {V} (usage : list msg) (p : Parsed V) : option exit :=
  match p with
  | ParsedOk _ _ => None
  | ParsedHelp => Some (Exited 0 usage)
  | ParsedBad m => Some (Exited 2 ((m ++ [Txt line_feed])%list :: usage))
  end.

(** The end of [main]: an error of [run] goes to standard error, status 1. *)
Definition exit_of (prefix : string) (err : option goerr) : exit :=
  match err with
  | None => Exited 0 []
  | Some e => Exited 1 [([Txt prefix] ++ Error e ++ [Txt line_feed])%list]
  end.

(** ** What is written down is read back *)

Lemma parse_dec_le s acc v : 0 <= acc -> parse_dec s acc = Some v -> acc <= v.
Proof.
  revert acc. induction s as [|c s IH]; cbn [parse_dec]; intros acc Ha; [intros [= <-]; lia |].
  destruct ((48 <=? bz c) && (bz c <=? 57)) eqn:E; [|done]. rewrite andb_true_iff, !Z.leb_le in E.
  intros H%IH; lia.
Qed.

Lemma digit_value_digit c : 48 <= bz c <= 57 -> digit_value c = Some (bz c - 48).
Proof. intros H. unfold digit_value. by rewrite (proj2 (Z.leb_le _ _)), (proj2 (Z.leb_le _ _)) by lia. Qed.

Lemma uint_loop_dec s acc v :
  0 <= acc -> parse_dec s acc = Some v -> v < 2 ^ 64 -> uint_loop 10 acc s = inr v.
Proof.
  revert acc. induction s as [|c s IH]; cbn [parse_dec uint_loop]; intros acc Ha; [by intros [= <-] |].
  destruct ((48 <=? bz c) && (bz c <=? 57)) eqn:E; [|done]. rewrite andb_true_iff, !Z.leb_le in E.
  intros H Hv. assert (Hle : acc * 10 + (bz c - 48) <= v) by (eapply parse_dec_le; [|exact H]; lia).
  rewrite (proj2 (Z.eqb_neq (bz c) 95)), digit_value_digit by lia.
  rewrite (proj2 (Z.leb_gt 10 _)), (proj2 (Z.ltb_ge (2 ^ 64 - 1) _)) by lia.
  apply IH; [lia | done | done].
Qed.

Lemma no_underscore s : forallb digit (bytes_of s) = true -> has_underscore s = false.
Proof.
  unfold has_underscore. induction s as [|c s IH]; [done |]. cbn [bytes_of forallb existsb].
  unfold digit at 1. rewrite !andb_true_iff, !Z.leb_le. intros [Hc Hs].
  rewrite (proj2 (Z.eqb_neq (bz c) 95)) by lia. by apply IH.
Qed.

Lemma parse_dec_magnitude n : 0 <= n -> parse_dec (dec_digits (dec_fuel n) n "") 0 = Some n.
Proof. intros Hn. rewrite parse_dec_digits; [done | | done]. split; [lia |]. by apply dec_fuel_enough. Qed.

Lemma ParseUint_digits n :
  0 <= n < 2 ^ 64 -> ParseUint (dec_digits (dec_fuel n) n "") = inr n.
Proof.
  intros Hn. destruct (decide (n = 0)) as [->|Hne]; [done |].
  pose proof (dec_fuel_enough n ltac:(lia)) as Hf.
  destruct (valid_magnitude_digits (dec_fuel n) n "") as (c & t & E & Hc & Hz & Ht); [lia | done |].
  unfold ParseUint. rewrite E. cbn [base_prefix]. rewrite (proj2 (Z.eqb_neq (bz c) 48)) by done.
  rewrite <- E, (uint_loop_dec _ 0 n); [|lia | by apply parse_dec_magnitude; lia | lia].
  rewrite no_underscore; [done |]. rewrite E. cbn [bytes_of forallb]. by rewrite Hc, Ht.
Qed.

(** The first byte of a magnitude is no sign. *)
Lemma magnitude_head n :
  0 <= n -> exists c t, dec_digits (dec_fuel n) n "" = String c t /\ 48 <= bz c <= 57.
Proof. intros. by apply dec_digits_head. Qed.

Lemma ParseInt_FormatInt z : in_int64 z = true -> ParseInt (FormatInt z) = inr z.
Proof.
  rewrite in_int64_spec. unfold int64_min, int64_max. intros Hz. unfold ParseInt, FormatInt.
  destruct (Z.ltb_spec z 0) as [Hn|Hp].
  - change (bz "-" =? 43) with false. change (bz "-" =? 45) with true. cbn iota.
    rewrite ParseUint_digits by lia. rewrite (proj2 (Z.ltb_ge (2 ^ 63) _)) by lia. f_equal. lia.
  - destruct (magnitude_head z Hp) as (c & t & E & Hc). rewrite E.
    rewrite (proj2 (Z.eqb_neq (bz c) 43)), (proj2 (Z.eqb_neq (bz c) 45)) by lia.
    rewrite <- E, ParseUint_digits by lia. by rewrite (proj2 (Z.leb_gt (2 ^ 63) _)) by lia.
Qed.

Lemma ParseBool_text b : ParseBool (bool_text b) = Some b.
Proof. by destruct b. Qed.

(** *** Durations in nanoseconds *)

Lemma leadingInt_dec s acc v :
  0 <= acc -> parse_dec s acc = Some v -> v <= 2 ^ 63 ->
  leadingInt acc (s +:+ "ns") = Some (v, "ns"%string).
Proof.
  revert acc. induction s as [|c s IH]; intros acc Ha; [by intros [= <-] |].
  rewrite app_String. cbn [parse_dec leadingInt]. unfold is_digit.
  destruct ((48 <=? bz c) && (bz c <=? 57)) eqn:E; [|done]. rewrite andb_true_iff, !Z.leb_le in E.
  cbn [negb]. intros H Hv.
  assert (Hle : acc * 10 + (bz c - 48) <= v) by (eapply parse_dec_le; [|exact H]; lia).
  rewrite (proj2 (Z.ltb_ge (2 ^ 63 / 10) acc)) by (apply Z.div_le_lower_bound; lia).
  rewrite (proj2 (Z.ltb_ge (2 ^ 63) _)) by lia. apply IH; [lia | done | done].
Qed.

Definition nanoseconds (d : Z) : string := FormatInt d +:+ "ns".

Lemma duration_loop_ns frac n :
  0 <= n <= 2 ^ 63 ->
  let s := dec_digits (dec_fuel n) n "" +:+ "ns" in
  duration_loop frac (String.length s) 0 s = Some n.
Proof.
  intros Hn s. pose proof (leadingInt_dec (dec_digits (dec_fuel n) n "") 0) as Hl.
  destruct (magnitude_head n ltac:(lia)) as (c & t & E & Hc).
  rewrite parse_dec_magnitude in Hl by lia. specialize (Hl n ltac:(lia) eq_refl ltac:(lia)). fold s in Hl.
  assert (Hs : s = String c (t +:+ "ns")) by (unfold s; by rewrite E, app_String).
  assert (Hlen : (2 < String.length s)%nat).
  { unfold s. rewrite E, <- length_bytes_of, bytes_of_app, length_app. simpl. lia. }
  assert (Hterm : duration_term frac s = Some (n, ""%string)).
  { unfold duration_term. rewrite Hs at 1. rewrite Hl. unfold is_digit at 1.
    rewrite (proj2 (Z.leb_le 48 (bz c))), (proj2 (Z.leb_le (bz c) 57)), orb_true_r by lia. cbn [negb].
    change (bz "n" =? 46) with false. cbn iota.
    change (String.length "ns") with 2%nat. rewrite (proj2 (Nat.eqb_neq 2 _)) by lia. cbn [negb andb].
    change (span_unit "ns") with ("ns"%string, ""%string). cbn iota.
    change (unit_of "ns") with (Some 1). cbn iota. rewrite Z.div_1_r, Z.mul_1_r.
    change (0 <? 0) with false. cbn iota. by rewrite (proj2 (Z.ltb_ge (2 ^ 63) n)) by lia. }
  rewrite Hs in Hterm |- *. cbn [String.length duration_loop]. rewrite Hterm, Z.add_0_l.
  rewrite (proj2 (Z.ltb_ge (2 ^ 63) n)) by lia. clear. generalize (String.length (t +:+ "ns")). by intros [].
Qed.

Lemma ParseDuration_nanoseconds frac d :
  in_int64 d = true -> ParseDuration frac (nanoseconds d) = Some d.
Proof.
  rewrite in_int64_spec. unfold int64_min, int64_max. intros Hd.
  assert (Hne : forall n t, 0 <= n -> t = dec_digits (dec_fuel n) n "" +:+ "ns" ->
            bool_decide (t = "0"%string) = false /\ bool_decide (t = ""%string) = false).
  { intros n t Hn ->. destruct (magnitude_head n Hn) as (c & u & -> & _). rewrite app_String.
    split; apply bool_decide_eq_false_2; [|done]. intros [= _ H]. by destruct u. }
  unfold nanoseconds, FormatInt, ParseDuration. destruct (Z.ltb_spec d 0) as [Hn|Hp].
  - rewrite app_String. change (bz "-" =? 45) with true. cbn iota.
    destruct (Hne (- d) _ ltac:(lia) eq_refl) as [-> ->]. rewrite duration_loop_ns by lia.
    f_equal. lia.
  - destruct (magnitude_head d Hp) as (c & t & E & Hc).
    destruct (Hne d _ ltac:(lia) eq_refl) as [H1 H2]. pose proof (duration_loop_ns frac d ltac:(lia)) as Hl.
    cbn zeta in Hl. rewrite E, app_String in *.
    rewrite (proj2 (Z.eqb_neq (bz c) 43)), (proj2 (Z.eqb_neq (bz c) 45)), H1, H2, Hl by lia.
    by rewrite (proj2 (Z.ltb_ge (2 ^ 63 - 1) d)) by lia.
Qed.

(** *** A flag given as -name=value *)

Definition render (name value : string) : string := "-" +:+ name +:+ "=" +:+ value.

(** A name that can be written after one minus sign. *)
Definition flag_name (name : string) : bool :=
  match name with
  | EmptyString => false
  | String c s => negb (bz c =? 45) && forallb (fun b => negb (bz b =? 61)) (bytes_of name)
  end.

Lemma split_equals_app s value :
  forallb (fun b => negb (bz b =? 61)) (bytes_of s) = true ->
  split_equals (s +:+ "=" +:+ value) = (s, Some value).
Proof.
  induction s as [|c s IH]; [done |]. rewrite app_String. cbn [bytes_of forallb split_equals].
  rewrite andb_true_iff, negb_true_iff. intros [-> Hs]. by rewrite IH.
Qed.

Lemma classify_render name value :
  flag_name name = true -> classify (render name value) = Named name (Some value).
Proof.
  destruct name as [|c s]; [done |]. unfold render, flag_name. cbn [bytes_of forallb].
  rewrite !andb_true_iff, !negb_true_iff. intros (Hd & He & Hs).
  rewrite app_String. change ("" +:+ ?t) with t. rewrite app_String.
  unfold classify. change (bz "-" =? 45) with true. cbn [negb]. rewrite Hd, Hd, He. cbn [orb].
  unfold split_flag. by rewrite split_equals_app.
Qed.

Lemma Parse_render {V} (formal : list (Flag V)) v name value rest f v' :
  flag_name name = true -> find_flag formal name = Some f -> fl_Set f value v = inr v' ->
  Parse formal v (render name value :: rest) = Parse formal v' rest.
Proof.
  intros Hn Hf Hs. cbn [Parse]. rewrite classify_render, Hf by done.
  destruct (fl_bool f); [by rewrite Hs |]. destruct rest; by rewrite Hs.
Qed.
