(* ===== verification/GrpcErrors.v ===== *)
(** * [internal/grpcapi/errors.go]: domain errors as gRPC statuses *)
From stdpp Require Import base gmap fin_maps strings list.
From Stdlib Require Import ZArith Lia Ascii.
From S2P Require Import Prelude.
From S2P Require Import GoStd.
From S2P Require Import Uuid.
From S2P Require Import Errors.

Open Scope Z_scope.

(** [publicMessage]. *)
Definition publicMessage (err : goerr) : msg := Error err.

(** The sentinels whose text goes to the client, the first case of [toStatus]. *)
Definition client_mistakes : list sentinel :=
  [ErrInvalidRequest; ErrInvalidAmount; ErrSameAccount; ErrInvalidCurrency; ErrInvalidKey].

Definition is_client_mistake (err : goerr) : bool := existsb (errors_Is err) client_mistakes.

Definition status (c : code) (m : string) : goerr := StatusErr c [Txt m].

(** [toStatus] of an error that is not nil. What it logs is not modelled. *)
Definition toStatus (err : goerr) : goerr :=
  match errors_As_Status err with
  | Some _ => err
  | None =>
      if is_client_mistake err then StatusErr InvalidArgument (publicMessage err)
      else if errors_Is err account_ErrNotFound then status NotFound "account not found"
      else if errors_Is err transfer_ErrNotFound then status NotFound "transfer not found"
      else if errors_Is err ErrSourceAccountNotFound then status NotFound "source account not found"
      else if errors_Is err ErrDestinationAccountNotFound then
        status NotFound "destination account not found"
      else if errors_Is err ErrInsufficientFunds then status FailedPrecondition "insufficient funds"
      else if errors_Is err ErrCurrencyMismatch then
        status FailedPrecondition "currency mismatch between transfer and accounts"
      else if errors_Is err ErrIdempotencyConflict then
        status AlreadyExists "idempotency key was already used for a different payment"
      else if errors_Is err ErrIdempotencyInProgress then
        status Aborted "a request with this idempotency key is already in progress; retry shortly"
      else if errors_Is err ErrRetriesExhausted then
        status Unavailable "the ledger is busy; retry shortly"
      else if errors_Is err ErrNoCredentials || errors_Is err ErrMalformedCredentials
              || errors_Is err ErrInvalidToken then
        status Unauthenticated "invalid or missing credentials"
      else if errors_Is err ErrMissingScope then
        status PermissionDenied "the token does not carry the required scope"
      else if errors_Is err context_Canceled then status Canceled "request cancelled"
      else if errors_Is err context_DeadlineExceeded then
        status DeadlineExceeded "request deadline exceeded"
      else status Internal "internal error"
  end.

(** ** What a client may read *)

(** A fragment about the request, as opposed to the text of a driver, of the
    server or of the runtime. *)
Definition public_piece (p : piece) : bool :=
  match p with Pg _ | Ext _ => false | _ => true end.

Definition public (m : msg) : bool := forallb public_piece m.

(** An error whose text [toStatus] replaces by a fixed one. *)
Definition opaque (e : goerr) : bool :=
  match errors_As_Status e with Some _ => false | None => negb (is_client_mistake e) end.

(** An error that can be shown: its text is not used, or harmless. *)
Definition presentable (e : goerr) : bool :=
  opaque e || (match errors_As_Status e with Some _ => false | None => true end && public (Error e)).

(** A status with a code other than OK and nothing internal in its message. *)
Definition public_status (e : goerr) : Prop :=
  exists c m, e = StatusErr c m /\ c <> OK /\ public m = true.

Lemma toStatus_presentable e : presentable e = true -> public_status (toStatus e).
Proof.
  unfold presentable, opaque, toStatus. destruct (errors_As_Status e); [done |].
  destruct (is_client_mistake e) eqn:Hc; simpl.
  - intros Hp. by exists InvalidArgument, (Error e).
  - intros _. repeat match goal with |- context [if ?b then _ else _] => destruct b end;
      by repeat eexists.
Qed.

Lemma opaque_presentable e : opaque e = true -> presentable e = true.
Proof. unfold presentable. by intros ->. Qed.

Lemma is_client_mistake_Wrap2 e1 mid e2 :
  is_client_mistake (Wrap2 e1 mid e2) = is_client_mistake e1 || is_client_mistake e2.
Proof.
  unfold is_client_mistake. generalize client_mistakes as l. intros l.
  induction l as [|t l IH]; [done |]. cbn [existsb]. rewrite IH.
  change (errors_Is (Wrap2 e1 mid e2) t) with (errors_Is e1 t || errors_Is e2 t).
  destruct (errors_Is e1 t), (errors_Is e2 t), (existsb (errors_Is e1) l); done.
Qed.

Lemma opaque_Wrap2 e1 mid e2 :
  opaque e1 = true -> opaque e2 = true -> opaque (Wrap2 e1 mid e2) = true.
Proof.
  unfold opaque. rewrite is_client_mistake_Wrap2. simpl.
  destruct (errors_As_Status e1); [done |]. destruct (errors_As_Status e2); [done |].
  by destruct (is_client_mistake e1).
Qed.
