(* ===== verification/Config.v ===== *)
(** * [internal/config]: loading and validating the configuration

    [load] reads the process environment through a lookup function, applies
    defaults, collects every malformed variable and every violated rule, and
    returns either a configuration or all the problems at once. *)
From stdpp Require Import base gmap fin_maps strings list.
From Stdlib Require Import ZArith Lia Ascii.
From S2P Require Import Prelude.
From S2P Require Import GoStd.
From S2P Require Import GoStrings.
From S2P Require Import GoTime.
From S2P Require Import Uuid.
From S2P Require Import Errors.

Open Scope Z_scope.

(** ** Data *)

Definition EnvDevelopment : string := "development".
Definition EnvStaging : string := "staging".
Definition EnvProduction : string := "production".
Definition EnvTest : string := "test".

Definition IsProduction (e : string) : bool := bool_decide (e = EnvProduction).

Definition redacted : string := "[REDACTED]".

Record App := mkApp {
  app_Name : string; app_Environment : string; app_LogLevel : string; app_LogFormat : string
}.

Record HTTP := mkHTTP {
  http_Host : string; http_Port : Z; http_ReadTimeout : Z; http_WriteTimeout : Z;
  http_IdleTimeout : Z; http_ShutdownTimeout : Z
}.

Record GRPC := mkGRPC {
  grpc_Host : string; grpc_Port : Z; grpc_ShutdownTimeout : Z; grpc_Reflection : bool
}.

Record JWT := mkJWT {
  jwt_PublicKeyPEM : string; jwt_PublicKeyFile : string; jwt_Issuer : string;
  jwt_Audience : string; jwt_Leeway : Z
}.

Record Postgres := mkPostgres {
  pg_Host : string; pg_Port : Z; pg_User : string; pg_Password : string; pg_Database : string;
  pg_SSLMode : string; pg_MaxOpenConns : Z; pg_MaxIdleConns : Z; pg_ConnMaxLifetime : Z;
  pg_ConnectTimeout : Z
}.

Record Redis := mkRedis {
  redis_Addr : string; redis_Password : string; redis_DB : Z; redis_DialTimeout : Z;
  redis_CommandTimeout : Z
}.

Record Idempotency := mkIdempotency { idem_TTL : Z; idem_ProcessingTTL : Z }.

Record Kafka := mkKafka { kafka_Brokers : list string; kafka_AuditTopic : string }.

Record Config := mkConfig {
  cfg_App : App; cfg_HTTP : HTTP; cfg_GRPC : GRPC; cfg_JWT : JWT; cfg_Postgres : Postgres;
  cfg_Redis : Redis; cfg_Kafka : Kafka; cfg_Idempotency : Idempotency
}.

(** [net.JoinHostPort]: a host with a colon is bracketed. *)
Definition JoinHostPort (host port : string) : string :=
  if Contains host ":" then "[" +:+ host +:+ "]:" +:+ port else host +:+ ":" +:+ port.

Definition HTTP_Addr (h : HTTP) : string := JoinHostPort (http_Host h) (FormatInt (http_Port h)).
Definition GRPC_Addr (g : GRPC) : string := JoinHostPort (grpc_Host g) (FormatInt (grpc_Port g)).

Definition JWT_Configured (j : JWT) : bool :=
  negb (bool_decide (jwt_PublicKeyPEM j = "")) && negb (bool_decide (jwt_Issuer j = ""))
  && negb (bool_decide (jwt_Audience j = "")).

Definition dsn (p : Postgres) (password : string) : string :=
  "postgres://" +:+ pg_User p +:+ ":" +:+ password +:+ "@"
  +:+ JoinHostPort (pg_Host p) (FormatInt (pg_Port p))
  +:+ "/" +:+ pg_Database p +:+ "?sslmode=" +:+ pg_SSLMode p.

Definition DSN (p : Postgres) : string := dsn p (pg_Password p).
Definition RedactedDSN (p : Postgres) : string := dsn p redacted.

(** A secret is masked unless it is empty. *)
Definition mask (secret : string) : string :=
  if bool_decide (secret = "") then secret else redacted.

Definition Redacted (c : Config) : Config :=
  let p := cfg_Postgres c in
  let r := cfg_Redis c in
  let j := cfg_JWT c in
  mkConfig (cfg_App c) (cfg_HTTP c) (cfg_GRPC c)
    (mkJWT (mask (jwt_PublicKeyPEM j)) (jwt_PublicKeyFile j) (jwt_Issuer j) (jwt_Audience j)
       (jwt_Leeway j))
    (mkPostgres (pg_Host p) (pg_Port p) (pg_User p) (mask (pg_Password p)) (pg_Database p)
       (pg_SSLMode p) (pg_MaxOpenConns p) (pg_MaxIdleConns p) (pg_ConnMaxLifetime p)
       (pg_ConnectTimeout p))
    (mkRedis (redis_Addr r) (mask (redis_Password r)) (redis_DB r) (redis_DialTimeout r)
       (redis_CommandTimeout r))
    (cfg_Kafka c) (cfg_Idempotency c).

Definition validSSLModes : list string :=
  ["disable"; "allow"; "prefer"; "require"; "verify-ca"; "verify-full"]%string.
Definition validLogLevels : list string := ["debug"; "info"; "warn"; "error"]%string.
Definition validLogFormats : list string := ["json"; "text"]%string.
Definition validEnvironments : list string := [EnvDevelopment; EnvStaging; EnvProduction; EnvTest].

(** ** [validate] *)

Definition fail (m : msg) : list goerr := [Plain m].

(** [if cond { fail(...) }]. *)
Definition fail_if (cond : bool) (m : msg) : list goerr := if cond then fail m else [].

Definition is_empty (s : string) : bool := bool_decide (s = "").
Definition one_of (s : string) (l : list string) : bool := bool_decide (s ∈ l).

Definition positive_timeout (name : string) (d : Z) : list goerr :=
  fail_if (d <=? 0) [Str name; Txt " must be greater than zero, got "; Dur d].

Definition validate_app (a : App) : list goerr :=
  (fail_if (is_empty (TrimSpace (app_Name a))) [Txt "APP_NAME must not be empty"]
   ++ fail_if (negb (one_of (app_Environment a) validEnvironments))
        [Txt "APP_ENV "; Quo (app_Environment a);
         Txt " must be one of development, staging, production, test"]
   ++ fail_if (negb (one_of (app_LogLevel a) validLogLevels))
        [Txt "LOG_LEVEL "; Quo (app_LogLevel a); Txt " must be one of debug, info, warn, error"]
   ++ fail_if (negb (one_of (app_LogFormat a) validLogFormats))
        [Txt "LOG_FORMAT "; Quo (app_LogFormat a); Txt " must be one of json, text"])%list.

Definition validate_http (h : HTTP) : list goerr :=
  (fail_if (is_empty (http_Host h)) [Txt "HTTP_HOST must not be empty"]
   ++ fail_if ((http_Port h <? 0) || (65535 <? http_Port h))
        [Txt "HTTP_PORT "; Num (http_Port h); Txt " must be between 0 and 65535"]
   ++ positive_timeout "HTTP_READ_TIMEOUT" (http_ReadTimeout h)
   ++ positive_timeout "HTTP_WRITE_TIMEOUT" (http_WriteTimeout h)
   ++ positive_timeout "HTTP_IDLE_TIMEOUT" (http_IdleTimeout h)
   ++ positive_timeout "HTTP_SHUTDOWN_TIMEOUT" (http_ShutdownTimeout h))%list.

Definition validate_postgres (production : bool) (p : Postgres) : list goerr :=
  (fail_if (is_empty (pg_Host p)) [Txt "POSTGRES_HOST must not be empty"]
   ++ fail_if ((pg_Port p <? 1) || (65535 <? pg_Port p))
        [Txt "POSTGRES_PORT "; Num (pg_Port p); Txt " must be between 1 and 65535"]
   ++ fail_if (is_empty (pg_User p)) [Txt "POSTGRES_USER must not be empty"]
   ++ fail_if (is_empty (pg_Database p)) [Txt "POSTGRES_DB must not be empty"]
   ++ fail_if (negb (one_of (pg_SSLMode p) validSSLModes))
        [Txt "POSTGRES_SSLMODE "; Quo (pg_SSLMode p); Txt " is not a valid libpq sslmode"]
   ++ fail_if (pg_MaxOpenConns p <? 1)
        [Txt "POSTGRES_MAX_OPEN_CONNS "; Num (pg_MaxOpenConns p); Txt " must be at least 1"]
   ++ fail_if (pg_MaxIdleConns p <? 0)
        [Txt "POSTGRES_MAX_IDLE_CONNS "; Num (pg_MaxIdleConns p); Txt " must not be negative"]
   ++ fail_if (pg_MaxOpenConns p <? pg_MaxIdleConns p)
        [Txt "POSTGRES_MAX_IDLE_CONNS "; Num (pg_MaxIdleConns p);
         Txt " must not exceed POSTGRES_MAX_OPEN_CONNS "; Num (pg_MaxOpenConns p)]
   ++ fail_if (pg_ConnMaxLifetime p <? 0)
        [Txt "POSTGRES_CONN_MAX_LIFETIME must not be negative, got "; Dur (pg_ConnMaxLifetime p)]
   ++ positive_timeout "POSTGRES_CONNECT_TIMEOUT" (pg_ConnectTimeout p)
   ++ fail_if (production && bool_decide (pg_SSLMode p = "disable"))
        [Txt "POSTGRES_SSLMODE must not be 'disable' when APP_ENV is production"])%list.

Definition validate_grpc (g : GRPC) (h : HTTP) : list goerr :=
  (fail_if (is_empty (grpc_Host g)) [Txt "GRPC_HOST must not be empty"]
   ++ fail_if ((grpc_Port g <? 0) || (65535 <? grpc_Port g))
        [Txt "GRPC_PORT "; Num (grpc_Port g); Txt " must be between 0 and 65535"]
   ++ fail_if (negb (grpc_Port g =? 0) && (grpc_Port g =? http_Port h))
        [Txt "GRPC_PORT and HTTP_PORT are both "; Num (grpc_Port g);
         Txt "; the two servers cannot share a port"]
   ++ positive_timeout "GRPC_SHUTDOWN_TIMEOUT" (grpc_ShutdownTimeout g))%list.

Definition validate_jwt (production : bool) (j : JWT) (g : GRPC) : list goerr :=
  (fail_if (jwt_Leeway j <? 0) [Txt "JWT_LEEWAY must not be negative, got "; Dur (jwt_Leeway j)]
   ++ fail_if (5 * Minute <? jwt_Leeway j)
        [Txt "JWT_LEEWAY "; Dur (jwt_Leeway j);
         Txt " is too generous; it is a window in which expired tokens are accepted"]
   ++ fail_if (negb (is_empty (jwt_PublicKeyPEM j)) && negb (is_empty (jwt_PublicKeyFile j)))
        [Txt "set JWT_PUBLIC_KEY or JWT_PUBLIC_KEY_FILE, not both"]
   ++ if production then
        fail_if (is_empty (jwt_Issuer j)) [Txt "JWT_ISSUER is required when APP_ENV is production"]
        ++ fail_if (is_empty (jwt_Audience j))
             [Txt "JWT_AUDIENCE is required when APP_ENV is production"]
        ++ fail_if (is_empty (jwt_PublicKeyPEM j) && is_empty (jwt_PublicKeyFile j))
             [Txt "JWT_PUBLIC_KEY or JWT_PUBLIC_KEY_FILE is required when APP_ENV is production"]
        ++ fail_if (grpc_Reflection g)
             [Txt "GRPC_REFLECTION must not be enabled when APP_ENV is production"]
      else [])%list.

Definition validate_redis (r : Redis) : list goerr :=
  (fail_if (is_empty (redis_Addr r)) [Txt "REDIS_ADDR must not be empty"]
   ++ fail_if (redis_DB r <? 0) [Txt "REDIS_DB "; Num (redis_DB r); Txt " must not be negative"]
   ++ positive_timeout "REDIS_DIAL_TIMEOUT" (redis_DialTimeout r)
   ++ positive_timeout "REDIS_COMMAND_TIMEOUT" (redis_CommandTimeout r))%list.

Definition validate_idempotency (i : Idempotency) : list goerr :=
  (positive_timeout "IDEMPOTENCY_TTL" (idem_TTL i)
   ++ positive_timeout "IDEMPOTENCY_PROCESSING_TTL" (idem_ProcessingTTL i)
   ++ fail_if (idem_TTL i <? idem_ProcessingTTL i)
        [Txt "IDEMPOTENCY_PROCESSING_TTL "; Dur (idem_ProcessingTTL i);
         Txt " must not exceed IDEMPOTENCY_TTL "; Dur (idem_TTL i)])%list.

Definition validate_kafka (k : Kafka) : list goerr :=
  (fail_if (bool_decide (length (kafka_Brokers k) = 0%nat))
     [Txt "KAFKA_BROKERS must list at least one broker"]
   ++ fail_if (is_empty (kafka_AuditTopic k)) [Txt "KAFKA_AUDIT_TOPIC must not be empty"])%list.

(** [Config.validate], its checks in the order of the source. *)
Definition validate (c : Config) : list goerr :=
  let production := IsProduction (app_Environment (cfg_App c)) in
  (validate_app (cfg_App c) ++ validate_http (cfg_HTTP c)
   ++ validate_postgres production (cfg_Postgres c)
   ++ validate_grpc (cfg_GRPC c) (cfg_HTTP c)
   ++ validate_jwt production (cfg_JWT c) (cfg_GRPC c)
   ++ validate_redis (cfg_Redis c) ++ validate_idempotency (cfg_Idempotency c)
   ++ validate_kafka (cfg_Kafka c))%list.

(** ** Reading the environment

    [env] accumulates parse errors: a computation takes the errors so far. *)
Definition env (A : Type) : Type := list goerr -> A * list goerr.

Definition env_bind {A B} (m : env A) (f : A -> env B) : env B :=
  fun errs => let '(a, errs') := m errs in f a errs'.
Definition env_ret {A} (a : A) : env A := fun errs => (a, errs).

Declare Scope env_scope.
Delimit Scope env_scope with env.
Notation "x <- c1 ;; c2" := (env_bind c1 (fun x => c2))
  (at level 20, c1 at level 99, c2 at level 200, only parsing) : env_scope.

Section load.
Variable frac : Z -> Z -> Z -> Z.            (* the float64 part of ParseDuration *)
Variable lookup : string -> option string.   (* os.LookupEnv *)

Definition str (key def : string) : env string :=
  env_ret (match lookup key with Some v => v | None => def end).

(** The shape of [intVal], [boolVal] and [duration]: unset or empty is the
    default, malformed is an error and the default. *)
Definition typed {A} (parse : string -> option A) (what : string) (key : string) (def : A)
    : env A :=
  fun errs =>
    match lookup key with
    | None => (def, errs)
    | Some raw =>
        if is_empty raw then (def, errs)
        else match parse raw with
        | Some v => (v, errs)
        | None => (def, (errs ++ [Plain [Str key; Txt ": "; Quo raw; Txt what]])%list)
        end
    end.

Definition intVal (key : string) (def : Z) : env Z := typed Atoi " is not an integer" key def.
Definition boolVal (key : string) (def : bool) : env bool :=
  typed ParseBool " is not a boolean (true/false)" key def.
Definition duration (key : string) (def : Z) : env Z :=
  typed (ParseDuration frac) " is not a duration (e.g. 5s, 30m)" key def.

Definition env_list (key : string) (def : list string) : env (list string) :=
  env_ret
    match lookup key with
    | None => def
    | Some raw =>
        if is_empty (TrimSpace raw) then def
        else
          let out := filter (fun p => is_empty p = false) (TrimSpace <$> Split raw ",") in
          if bool_decide (length out = 0%nat) then def else out
    end.

Definition load_app : env App :=
  (name <- str "APP_NAME" "payments-ledger" ;;
   environment <- str "APP_ENV" EnvDevelopment ;;
   level <- str "LOG_LEVEL" "info" ;;
   format <- str "LOG_FORMAT" "json" ;;
   env_ret (mkApp name environment (ToLower level) (ToLower format)))%env.

Definition load_http : env HTTP :=
  (host <- str "HTTP_HOST" "0.0.0.0" ;;
   port <- intVal "HTTP_PORT" 8080 ;;
   read <- duration "HTTP_READ_TIMEOUT" (5 * Second) ;;
   write <- duration "HTTP_WRITE_TIMEOUT" (10 * Second) ;;
   idle <- duration "HTTP_IDLE_TIMEOUT" (60 * Second) ;;
   shutdown <- duration "HTTP_SHUTDOWN_TIMEOUT" (15 * Second) ;;
   env_ret (mkHTTP host port read write idle shutdown))%env.

Definition load_grpc (isProduction : bool) : env GRPC :=
  (host <- str "GRPC_HOST" "0.0.0.0" ;;
   port <- intVal "GRPC_PORT" 9090 ;;
   shutdown <- duration "GRPC_SHUTDOWN_TIMEOUT" (15 * Second) ;;
   reflection <- boolVal "GRPC_REFLECTION" (negb isProduction) ;;
   env_ret (mkGRPC host port shutdown reflection))%env.

Definition load_jwt : env JWT :=
  (pem <- str "JWT_PUBLIC_KEY" "" ;;
   file <- str "JWT_PUBLIC_KEY_FILE" "" ;;
   issuer <- str "JWT_ISSUER" "" ;;
   audience <- str "JWT_AUDIENCE" "" ;;
   leeway <- duration "JWT_LEEWAY" (30 * Second) ;;
   env_ret (mkJWT pem file issuer audience leeway))%env.

Definition load_postgres : env Postgres :=
  (host <- str "POSTGRES_HOST" "localhost" ;;
   port <- intVal "POSTGRES_PORT" 5432 ;;
   user <- str "POSTGRES_USER" "ledger" ;;
   password <- str "POSTGRES_PASSWORD" "ledger" ;;
   database <- str "POSTGRES_DB" "ledger" ;;
   sslmode <- str "POSTGRES_SSLMODE" "disable" ;;
   open <- intVal "POSTGRES_MAX_OPEN_CONNS" 25 ;;
   idle <- intVal "POSTGRES_MAX_IDLE_CONNS" 25 ;;
   lifetime <- duration "POSTGRES_CONN_MAX_LIFETIME" (30 * Minute) ;;
   connect <- duration "POSTGRES_CONNECT_TIMEOUT" (10 * Second) ;;
   env_ret (mkPostgres host port user password database sslmode open idle lifetime connect))%env.

Definition load_redis : env Redis :=
  (addr <- str "REDIS_ADDR" "localhost:6379" ;;
   password <- str "REDIS_PASSWORD" "" ;;
   db <- intVal "REDIS_DB" 0 ;;
   dial <- duration "REDIS_DIAL_TIMEOUT" (3 * Second) ;;
   command <- duration "REDIS_COMMAND_TIMEOUT" Second ;;
   env_ret (mkRedis addr password db dial command))%env.

Definition load_idempotency : env Idempotency :=
  (ttl <- duration "IDEMPOTENCY_TTL" (24 * Hour) ;;
   processing <- duration "IDEMPOTENCY_PROCESSING_TTL" (30 * Second) ;;
   env_ret (mkIdempotency ttl processing))%env.

Definition load_kafka : env Kafka :=
  (brokers <- env_list "KAFKA_BROKERS" ["localhost:29092"%string] ;;
   topic <- str "KAFKA_AUDIT_TOPIC" "ledger.audit.v1" ;;
   env_ret (mkKafka brokers topic))%env.

(** The configuration literal of [load], its fields read in order. *)
Definition read_config : env Config :=
  (app_env <- str "APP_ENV" EnvDevelopment ;;
   app <- load_app ;;
   http <- load_http ;;
   grpc <- load_grpc (IsProduction app_env) ;;
   jwt <- load_jwt ;;
   postgres <- load_postgres ;;
   redis <- load_redis ;;
   idempotency <- load_idempotency ;;
   kafka <- load_kafka ;;
   env_ret (mkConfig app http grpc jwt postgres redis kafka idempotency))%env.

(** [errors.Join] of a list that is not empty. *)
Fixpoint errors_Join (e : goerr) (es : list goerr) : goerr :=
  match es with
  | [] => e
  | e' :: es' => Join e (errors_Join e' es')
  end.

Definition load : result Config :=
  let '(cfg, errs) := read_config [] in
  match (errs ++ validate cfg)%list with
  | [] => Ok cfg
  | e :: es => Err (prefixed "invalid configuration: " (errors_Join e es))
  end.
End load.

(** ** What a loaded configuration satisfies *)

Record Config_ok (c : Config) : Prop := {
  ok_name : TrimSpace (app_Name (cfg_App c)) <> "";
  ok_environment : app_Environment (cfg_App c) ∈ validEnvironments;
  ok_log : app_LogLevel (cfg_App c) ∈ validLogLevels /\ app_LogFormat (cfg_App c) ∈ validLogFormats;
  ok_hosts : http_Host (cfg_HTTP c) <> "" /\ grpc_Host (cfg_GRPC c) <> "";
  ok_ports : 0 <= http_Port (cfg_HTTP c) <= 65535 /\ 0 <= grpc_Port (cfg_GRPC c) <= 65535
             /\ (grpc_Port (cfg_GRPC c) = http_Port (cfg_HTTP c) -> grpc_Port (cfg_GRPC c) = 0);
  ok_timeouts : 0 < http_ReadTimeout (cfg_HTTP c) /\ 0 < http_WriteTimeout (cfg_HTTP c)
                /\ 0 < http_IdleTimeout (cfg_HTTP c) /\ 0 < http_ShutdownTimeout (cfg_HTTP c)
                /\ 0 < grpc_ShutdownTimeout (cfg_GRPC c);
  ok_postgres : let p := cfg_Postgres c in
                pg_Host p <> "" /\ 1 <= pg_Port p <= 65535 /\ pg_User p <> ""
                /\ pg_Database p <> "" /\ pg_SSLMode p ∈ validSSLModes
                /\ 1 <= pg_MaxOpenConns p /\ 0 <= pg_MaxIdleConns p <= pg_MaxOpenConns p
                /\ 0 <= pg_ConnMaxLifetime p /\ 0 < pg_ConnectTimeout p;
  ok_jwt : 0 <= jwt_Leeway (cfg_JWT c) <= 5 * Minute
           /\ (jwt_PublicKeyPEM (cfg_JWT c) = "" \/ jwt_PublicKeyFile (cfg_JWT c) = "");
  ok_redis : let r := cfg_Redis c in
             redis_Addr r <> "" /\ 0 <= redis_DB r /\ 0 < redis_DialTimeout r
             /\ 0 < redis_CommandTimeout r;
  ok_idempotency : 0 < idem_ProcessingTTL (cfg_Idempotency c) <= idem_TTL (cfg_Idempotency c);
  ok_kafka : kafka_Brokers (cfg_Kafka c) <> [] /\ kafka_AuditTopic (cfg_Kafka c) <> "";
  (** The safeguards of production. *)
  ok_production : app_Environment (cfg_App c) = EnvProduction ->
    pg_SSLMode (cfg_Postgres c) <> "disable" /\ jwt_Issuer (cfg_JWT c) <> ""
    /\ jwt_Audience (cfg_JWT c) <> ""
    /\ (jwt_PublicKeyPEM (cfg_JWT c) <> "" \/ jwt_PublicKeyFile (cfg_JWT c) <> "")
    /\ grpc_Reflection (cfg_GRPC c) = false
}.

Lemma fail_if_nil cond m : fail_if cond m = [] <-> cond = false.
Proof. by destruct cond. Qed.

Lemma positive_timeout_nil name d : positive_timeout name d = [] <-> 0 < d.
Proof. unfold positive_timeout. by rewrite fail_if_nil, Z.leb_gt. Qed.

Lemma is_empty_false s : is_empty s = false <-> s <> "".
Proof. unfold is_empty. by rewrite bool_decide_eq_false. Qed.

Lemma one_of_true s l : negb (one_of s l) = false <-> s ∈ l.
Proof. unfold one_of. by rewrite negb_false_iff, bool_decide_eq_true. Qed.

Lemma length_zero_nil {A} (l : list A) : bool_decide (length l = 0%nat) = false <-> l <> [].
Proof. rewrite bool_decide_eq_false. by destruct l. Qed.

(** Each group of rules, as a proposition. *)
Ltac rules :=
  rewrite ?app_nil, ?fail_if_nil, ?positive_timeout_nil, ?one_of_true, ?length_zero_nil,
    ?orb_false_iff, ?andb_false_iff, ?negb_false_iff, ?Z.ltb_ge, ?Z.eqb_eq, ?Z.eqb_neq;
  unfold is_empty, IsProduction; rewrite ?bool_decide_eq_false, ?bool_decide_eq_true.

Lemma validate_app_nil a :
  validate_app a = [] <->
  TrimSpace (app_Name a) <> "" /\ app_Environment a ∈ validEnvironments
  /\ app_LogLevel a ∈ validLogLevels /\ app_LogFormat a ∈ validLogFormats.
Proof. unfold validate_app. by rules. Qed.

Lemma validate_http_nil h :
  validate_http h = [] <->
  http_Host h <> "" /\ 0 <= http_Port h <= 65535 /\ 0 < http_ReadTimeout h
  /\ 0 < http_WriteTimeout h /\ 0 < http_IdleTimeout h /\ 0 < http_ShutdownTimeout h.
Proof. unfold validate_http. by rules. Qed.

Lemma validate_postgres_nil b p :
  validate_postgres b p = [] <->
  pg_Host p <> "" /\ 1 <= pg_Port p <= 65535 /\ pg_User p <> "" /\ pg_Database p <> ""
  /\ pg_SSLMode p ∈ validSSLModes /\ 1 <= pg_MaxOpenConns p /\ 0 <= pg_MaxIdleConns p
  /\ pg_MaxIdleConns p <= pg_MaxOpenConns p /\ 0 <= pg_ConnMaxLifetime p
  /\ 0 < pg_ConnectTimeout p /\ (b = false \/ pg_SSLMode p <> "disable").
Proof. unfold validate_postgres. by rules. Qed.

Lemma validate_grpc_nil g h :
  validate_grpc g h = [] <->
  grpc_Host g <> "" /\ 0 <= grpc_Port g <= 65535
  /\ (grpc_Port g = 0 \/ grpc_Port g <> http_Port h) /\ 0 < grpc_ShutdownTimeout g.
Proof. unfold validate_grpc. by rules. Qed.

Lemma validate_jwt_nil b j g :
  validate_jwt b j g = [] <->
  0 <= jwt_Leeway j /\ jwt_Leeway j <= 5 * Minute
  /\ (jwt_PublicKeyPEM j = "" \/ jwt_PublicKeyFile j = "")
  /\ (b = true -> jwt_Issuer j <> "" /\ jwt_Audience j <> ""
       /\ (jwt_PublicKeyPEM j <> "" \/ jwt_PublicKeyFile j <> "")
       /\ grpc_Reflection g = false).
Proof. unfold validate_jwt. destruct b; rules; intuition (try done). Qed.

Lemma validate_redis_nil r :
  validate_redis r = [] <->
  redis_Addr r <> "" /\ 0 <= redis_DB r /\ 0 < redis_DialTimeout r /\ 0 < redis_CommandTimeout r.
Proof. unfold validate_redis. by rules. Qed.

Lemma validate_idempotency_nil i :
  validate_idempotency i = [] <->
  0 < idem_TTL i /\ 0 < idem_ProcessingTTL i /\ idem_ProcessingTTL i <= idem_TTL i.
Proof. unfold validate_idempotency. by rules. Qed.

Lemma validate_kafka_nil k :
  validate_kafka k = [] <-> kafka_Brokers k <> [] /\ kafka_AuditTopic k <> "".
Proof. unfold validate_kafka. by rules. Qed.

Lemma validate_nil c : validate c = [] <-> Config_ok c.
Proof.
  unfold validate. cbn zeta. rewrite !app_nil.
  rewrite validate_app_nil, validate_http_nil, validate_postgres_nil, validate_grpc_nil,
    validate_jwt_nil, validate_redis_nil, validate_idempotency_nil, validate_kafka_nil.
  unfold IsProduction. rewrite bool_decide_eq_true, bool_decide_eq_false. split.
  - intros (? & ? & ? & ? & ? & ? & ? & ?). destruct_and!.
    split; cbn zeta; try (split_and!; (done || lia)); try tauto; naive_solver.
  - intros Hc. destruct Hc as [? ? ? ? (? & ? & Hports) ? ? ? ? ? ? Hprod]. cbn zeta in *.
    destruct_and!. split_and!; try (done || lia || tauto).
    destruct (decide (app_Environment (cfg_App c) = EnvProduction)); tauto.
Qed.

(** ** Malformed variables *)

(** [quiet_if m P]: the computation adds no error exactly when [P] holds. *)
Definition quiet_if {A} (m : env A) (P : Prop) : Prop :=
  forall errs, snd (m errs) = [] <-> errs = [] /\ P.

Lemma quiet_ret {A} (a : A) : quiet_if (env_ret a) True.
Proof. intros errs. simpl. tauto. Qed.

Lemma quiet_bind {A B} (m : env A) (f : A -> env B) P Q :
  quiet_if m P -> (forall a, quiet_if (f a) Q) -> quiet_if (env_bind m f) (P /\ Q).
Proof.
  intros Hm Hf errs. unfold env_bind. specialize (Hm errs).
  destruct (m errs) as [a errs']. rewrite (Hf a errs'). simpl in Hm. tauto.
Qed.

(** A variable that is unset, empty or well formed. *)
Definition var_ok {A} (lookup : string -> option string) (parse : string -> option A)
    (key : string) : Prop :=
  forall raw, lookup key = Some raw -> raw <> "" -> is_Some (parse raw).

Lemma quiet_typed {A} lookup (parse : string -> option A) what key def :
  quiet_if (typed lookup parse what key def) (var_ok lookup parse key).
Proof.
  intros errs. unfold typed, var_ok. destruct (lookup key) as [raw|]; [|simpl; by intuition].
  unfold is_empty. case_bool_decide as E; [simpl; by intuition congruence |].
  destruct (parse raw) as [v|] eqn:Ep; simpl.
  - split; [|tauto]. intros ->. split; [done |]. intros raw' [= <-] _. rewrite Ep. eauto.
  - split; [by intros [_ ?]%app_nil |]. intros [_ H]. destruct (H raw eq_refl E). congruence.
Qed.

Definition int_vars : list string :=
  ["HTTP_PORT"; "GRPC_PORT"; "POSTGRES_PORT"; "POSTGRES_MAX_OPEN_CONNS";
   "POSTGRES_MAX_IDLE_CONNS"; "REDIS_DB"]%string.
Definition duration_vars : list string :=
  ["HTTP_READ_TIMEOUT"; "HTTP_WRITE_TIMEOUT"; "HTTP_IDLE_TIMEOUT"; "HTTP_SHUTDOWN_TIMEOUT";
   "GRPC_SHUTDOWN_TIMEOUT"; "JWT_LEEWAY"; "POSTGRES_CONN_MAX_LIFETIME"; "POSTGRES_CONNECT_TIMEOUT";
   "REDIS_DIAL_TIMEOUT"; "REDIS_COMMAND_TIMEOUT"; "IDEMPOTENCY_TTL";
   "IDEMPOTENCY_PROCESSING_TTL"]%string.

Section load_spec.
Variable frac : Z -> Z -> Z -> Z.
Variable lookup : string -> option string.

Definition well_formed : Prop :=
  Forall (var_ok lookup Atoi) int_vars /\ Forall (var_ok lookup (ParseDuration frac)) duration_vars
  /\ var_ok lookup ParseBool "GRPC_REFLECTION".

Ltac quiet :=
  repeat first [apply quiet_ret | apply quiet_typed
               | eapply quiet_bind; [|intros ?]].

Lemma read_config_quiet : quiet_if (read_config frac lookup) well_formed.
Proof.
  assert (H : exists P, quiet_if (read_config frac lookup) P /\ (P <-> well_formed)).
  { eexists. split.
    - unfold read_config, load_app, load_http, load_grpc, load_jwt, load_postgres, load_redis,
        load_idempotency, load_kafka, str, env_list, intVal, boolVal, duration. quiet.
    - unfold well_formed, int_vars, duration_vars. rewrite !Forall_cons, !Forall_nil. tauto. }
  destruct H as (P & HP & Heq). intros errs. by rewrite (HP errs), Heq.
Qed.

Lemma load_Ok_rules cfg : load frac lookup = Ok cfg -> Config_ok cfg.
Proof.
  unfold load. destruct (read_config frac lookup []) as [c errs].
  destruct (errs ++ validate c)%list eqn:E; [|done]. intros [= <-].
  apply app_nil in E as [_ Hv]. by apply validate_nil.
Qed.

(** C29. [load] accepts exactly the environments in which every variable that is
    read as a number, a flag or a duration is unset, empty or well formed and
    every rule of the configuration holds, the safeguards of production
    included (TLS to the database, token verification fully configured, no
    reflection); a configuration it returns is the one it read. *)
Theorem load_accepts_exactly cfg :
  load frac lookup = Ok cfg <->
  cfg = fst (read_config frac lookup []) /\ well_formed /\ Config_ok cfg.
Proof.
  pose proof (read_config_quiet []) as Hq. unfold load.
  destruct (read_config frac lookup []) as [c errs]. simpl in *. rewrite <- validate_nil.
  destruct (errs ++ validate c)%list eqn:E.
  - apply app_nil in E as [-> Hv]. destruct (proj1 Hq eq_refl) as [_ Hw].
    split; [intros [= <-] | intros (-> & _)]; done.
  - split; [done |]. intros (-> & Hw & Hv). rewrite Hv, app_nil_r in E.
    rewrite (proj2 Hq (conj eq_refl Hw)) in E. done.
Qed.
End load_spec.

(** ** Secrets *)

(** A configuration with its three secrets replaced. *)
Definition with_secrets (c : Config) (pg_password redis_password pem : string) : Config :=
  let p := cfg_Postgres c in
  let r := cfg_Redis c in
  let j := cfg_JWT c in
  mkConfig (cfg_App c) (cfg_HTTP c) (cfg_GRPC c)
    (mkJWT pem (jwt_PublicKeyFile j) (jwt_Issuer j) (jwt_Audience j) (jwt_Leeway j))
    (mkPostgres (pg_Host p) (pg_Port p) (pg_User p) pg_password (pg_Database p)
       (pg_SSLMode p) (pg_MaxOpenConns p) (pg_MaxIdleConns p) (pg_ConnMaxLifetime p)
       (pg_ConnectTimeout p))
    (mkRedis (redis_Addr r) redis_password (redis_DB r) (redis_DialTimeout r)
       (redis_CommandTimeout r))
    (cfg_Kafka c) (cfg_Idempotency c).

Lemma mask_blind a b : (a = "" <-> b = "") -> mask a = mask b.
Proof. intros H. unfold mask. repeat case_bool_decide; tauto || congruence. Qed.

(** What is logged of a configuration does not depend on its secrets: two
    configurations that differ only in the database password, the Redis
    password and the key text have the same redacted form when the same ones
    are set, and the same redacted connection string in any case. *)
Lemma Redacted_hides_secrets c p1 r1 k1 p2 r2 k2 :
  (p1 = "" <-> p2 = "") -> (r1 = "" <-> r2 = "") -> (k1 = "" <-> k2 = "") ->
  Redacted (with_secrets c p1 r1 k1) = Redacted (with_secrets c p2 r2 k2)
  /\ RedactedDSN (cfg_Postgres (with_secrets c p1 r1 k1))
     = RedactedDSN (cfg_Postgres (with_secrets c p2 r2 k2)).
Proof.
  intros Hp Hr Hk. split; [|done]. unfold Redacted, with_secrets. simpl.
  by rewrite (mask_blind _ _ Hp), (mask_blind _ _ Hr), (mask_blind _ _ Hk).
Qed.

Definition no_env : string -> option string := fun _ => None.
Definition default_config : Config := fst (read_config exact_frac no_env []).

(** An empty environment is a valid development configuration. *)
Example load_defaults : load exact_frac no_env = Ok default_config.
Proof. vm_compute. reflexivity. Qed.

(** [APP_ENV=production] alone is refused. *)
Example load_production_refused :
  is_Ok (load exact_frac (fun k => if bool_decide (k = "APP_ENV") then Some EnvProduction else None))
  = false.
Proof. vm_compute. reflexivity. Qed.

(** The list of brokers is never empty, so the check for it cannot fire: a
    variable with no entries falls back to the default. *)
Lemma kafka_check_unreachable lookup errs :
  kafka_Brokers (fst (load_kafka lookup errs)) <> [].
Proof.
  unfold load_kafka, env_list, env_bind, str, env_ret. simpl.
  destruct (lookup "KAFKA_BROKERS"%string); [|done]. case_match; [done |].
  case_bool_decide as E; [done |]. by intros Hnil%(f_equal length).
Qed.

(** The password is written into the connection string as it is: two valid
    production configurations that name different hosts and databases and
    have different passwords can have the same connection string, so nothing
    that parses it can tell them apart. *)
Lemma DSN_ambiguous :
  exists p q, validate_postgres true p = [] /\ validate_postgres true q = []
    /\ pg_Host p <> pg_Host q /\ pg_Password p <> pg_Password q /\ DSN p = DSN q.
Proof.
  exists (mkPostgres "db" 5432 "ledger" "pw" "x@evil:1/y" "require" 25 25 0 Second),
    (mkPostgres "evil" 1 "ledger" "pw@db:5432/x" "y" "require" 25 25 0 Second).
  split_and!; [reflexivity | reflexivity | done | done | vm_compute; reflexivity].
Qed.
