(* ===== verification/Migrate.v ===== *)
(** * [cmd/migrate]: the migration command

    [run], [open] and [report] over golang-migrate and [database/sql], which are
    parameters: the migrator is an arbitrary state machine and the steps of
    [open] answer what they like. The model keeps the trace of what the command
    does with its database handle, of its calls and of its output. *)
From stdpp Require Import base gmap fin_maps strings list.
From Stdlib Require Import ZArith Lia Ascii.
From S2P Require Import Prelude.
From S2P Require Import GoStd.
From S2P Require Import GoStrings.
From S2P Require Import GoTime.
From S2P Require Import Uuid.
From S2P Require Import Errors.
From S2P Require Import Config.

Open Scope Z_scope.

(** [migrate.Migrate]. *)
Class MigrateLib (M : Type) := {
  m_Up : M -> M * option goerr;
  m_Down : M -> M * option goerr;
  m_Steps : M -> Z -> M * option goerr;
  m_Force : M -> Z -> M * option goerr;
  m_Version : M -> result (Z * bool)
}.

(** What the four fallible steps of [open] answer. *)
Record OpenEnv := mkOpenEnv {
  oe_Open : option goerr;                    (* sql.Open *)
  oe_Ping : option goerr;
  oe_WithInstance : option goerr;
  oe_NewWithDatabaseInstance : option goerr
}.

Inductive MigCall := CUp | CDown | CSteps (n : Z) | CForce (v : Z) | CVersion.

Inductive MigEvent :=
  | EvOpen (dsn : string)
  | EvSettings (maxOpen maxIdle lifetime : Z)
  | EvCall (c : MigCall)
  | EvPrint (m : msg)
  | EvUsage
  | EvClose.

#[global] Instance MigCall_eq_dec : EqDecision MigCall.
Proof. solve_decision. Defined.

Section migrate.
Context {M : Type} {ML : MigrateLib M}.

(** The migrator and the trace so far. *)
Record MigState := mkMigState { ms_lib : M; ms_trace : list MigEvent }.

Definition mig (A : Type) : Type := MigState -> MigState * A.
Definition mig_ret {A} (a : A) : mig A := fun s => (s, a).
Definition mig_bind {A B} (m : mig A) (f : A -> mig B) : mig B :=
  fun s => let '(s', a) := m s in f a s'.

Declare Scope mig_scope.
Delimit Scope mig_scope with mig.
Notation "x <- c1 ;; c2" := (mig_bind c1 (fun x => c2))
  (at level 20, c1 at level 99, c2 at level 200, only parsing) : mig_scope.

Definition emit_event (e : MigEvent) : mig unit :=
  fun s => (mkMigState (ms_lib s) (ms_trace s ++ [e])%list, tt).

Definition printf (m : msg) : mig unit := emit_event (EvPrint m).

(** A call of the migrator. *)
Definition call_lib (c : MigCall) (f : M -> M * option goerr) : mig (option goerr) := fun s =>
  let '(lib, err) := f (ms_lib s) in (mkMigState lib (ms_trace s ++ [EvCall c])%list, err).

Definition call_Version : mig (result (Z * bool)) := fun s =>
  (mkMigState (ms_lib s) (ms_trace s ++ [EvCall CVersion])%list, m_Version (ms_lib s)).

(** ** [report] *)

Definition report (action : string) (err : option goerr) : mig (option goerr) :=
  (let version :=
     (v <- call_Version ;;
      match v with
      | Err verr =>
          if errors_Is verr migrate_ErrNilVersion then
            _ <- printf [Txt "schema version: none"] ;; mig_ret None
          else mig_ret (Some (Wrap [Txt "read version after "; Str action; Txt ": "] verr []))
      | Ok (version, dirty) =>
          _ <- printf [Txt "schema version: "; Num version; Txt " (dirty: ";
                       Str (if dirty : bool then "true" else "false"); Txt ")"] ;;
          mig_ret None
      end)%mig in
   match err with
   | Some e =>
       if errors_Is e migrate_ErrNoChange then
         _ <- printf [Str action; Txt ": no change"] ;; version
       else mig_ret (Some (Wrap [Str action; Txt ": "] e []))
   | None => _ <- printf [Str action; Txt ": applied"] ;; version
   end)%mig.

(** ** [open] *)

(** [None] is the migrator; the handle is closed on every failure after it was
    opened. *)
Definition open (oe : OpenEnv) (cfg : Config) (path : string) : mig (option goerr) :=
  (let p := cfg_Postgres cfg in
   match oe_Open oe with
   | Some err => mig_ret (Some (Wrap [Txt "open "; Str (RedactedDSN p); Txt ": "] err []))
   | None =>
       _ <- emit_event (EvOpen (DSN p)) ;;
       _ <- emit_event (EvSettings (pg_MaxOpenConns p) (pg_MaxIdleConns p) (pg_ConnMaxLifetime p)) ;;
       match oe_Ping oe with
       | Some err =>
           _ <- emit_event EvClose ;;
           mig_ret (Some (Wrap [Txt "connect to "; Str (RedactedDSN p); Txt ": "] err []))
       | None =>
           match oe_WithInstance oe with
           | Some err =>
               _ <- emit_event EvClose ;;
               mig_ret (Some (prefixed "build migration driver: " err))
           | None =>
               match oe_NewWithDatabaseInstance oe with
               | Some err =>
                   _ <- emit_event EvClose ;;
                   mig_ret (Some (Wrap [Txt "load migrations from "; Str path; Txt ": "] err []))
               | None => mig_ret None
               end
           end
       end
   end)%mig.

(** ** [run] *)

(** The switch on the command. *)
Definition dispatch_command (args : list string) : mig (option goerr) :=
  match args with
  | [] => mig_ret None
  | cmd :: rest =>
      (if bool_decide (cmd = "up") then
         err <- call_lib CUp m_Up ;; report "up" err
       else if bool_decide (cmd = "down") then
         err <- call_lib (CSteps (-1)) (fun m => m_Steps m (-1)) ;; report "down 1" err
       else if bool_decide (cmd = "down-all") then
         err <- call_lib CDown m_Down ;; report "down-all" err
       else if bool_decide (cmd = "version") then
         v <- call_Version ;;
         match v with
         | Err err =>
             if errors_Is err migrate_ErrNilVersion then
               _ <- printf [Txt "no migrations applied"] ;; mig_ret None
             else mig_ret (Some (prefixed "read version: " err))
         | Ok (version, dirty) =>
             _ <- printf [Txt "version "; Num version; Txt " (dirty: ";
                          Str (if dirty : bool then "true" else "false"); Txt ")"] ;;
             mig_ret None
         end
       else if bool_decide (cmd = "force") then
         match rest with
         | [] => mig_ret (Some (Plain [Txt "force requires a version, e.g. 'migrate force 3'"]))
         | arg :: _ =>
             match Atoi arg with
             | None => mig_ret (Some (Plain [Txt "force: "; Quo arg; Txt " is not a version number"]))
             | Some version =>
                 err <- call_lib (CForce version) (fun m => m_Force m version) ;;
                 match err with
                 | Some e => mig_ret (Some (Wrap [Txt "force "; Num version; Txt ": "] e []))
                 | None =>
                     _ <- printf [Txt "schema forced to version "; Num version] ;; mig_ret None
                 end
             end
         end
       else
         _ <- emit_event EvUsage ;; mig_ret (Some (Plain [Txt "unknown command "; Quo cmd])))%mig
  end.

Definition migrate_run (loaded : result Config) (oe : OpenEnv) (path : string) (args : list string)
    : mig (option goerr) :=
  (if bool_decide (args = []) then
     _ <- emit_event EvUsage ;; mig_ret (Some (Plain [Txt "no command given"]))
   else match loaded with
   | Err err => mig_ret (Some err)
   | Ok cfg =>
       opened <- open oe cfg path ;;
       match opened with
       | Some err => mig_ret (Some err)
       | None =>
           err <- dispatch_command args ;;
           _ <- emit_event EvClose ;;            (* defer closeFn() *)
           mig_ret err
       end
   end)%mig.

(** ** What a command does *)

(** [does m lib lib' evs a]: from any trace, with the migrator in state [lib],
    [m] leaves [lib'], appends [evs] and answers [a]. *)
Definition does {A} (m : mig A) (lib lib' : M) (evs : list MigEvent) (a : A) : Prop :=
  forall tr, m (mkMigState lib tr) = (mkMigState lib' (tr ++ evs)%list, a).

Lemma does_ret {A} (a : A) lib : does (mig_ret a) lib lib [] a.
Proof. intros tr. by rewrite app_nil_r. Qed.

Lemma does_bind {A B} (m : mig A) (f : A -> mig B) lib1 lib2 lib3 e1 e2 a b :
  does m lib1 lib2 e1 a -> does (f a) lib2 lib3 e2 b -> does (mig_bind m f) lib1 lib3 (e1 ++ e2)%list b.
Proof. intros Hm Hf tr. unfold mig_bind. rewrite Hm, Hf. by rewrite app_assoc. Qed.

Lemma does_event e lib : does (emit_event e) lib lib [e] tt.
Proof. done. Qed.

Lemma does_call c f lib : does (call_lib c f) lib (fst (f lib)) [EvCall c] (snd (f lib)).
Proof. intros tr. unfold call_lib. simpl. by destruct (f lib). Qed.

(** The calls of a trace, and its handling of the database. *)
Definition calls (tr : list MigEvent) : list MigCall :=
  omap (fun e => match e with EvCall c => Some c | _ => None end) tr.

(** The database handle along a trace: opened when there is none, used and
    closed only while open; the answer says whether it is open at the end. *)
Fixpoint handle_use (is_open : bool) (tr : list MigEvent) : option bool :=
  match tr with
  | [] => Some is_open
  | EvOpen _ :: tr' => if is_open then None else handle_use true tr'
  | (EvSettings _ _ _ | EvCall _) :: tr' => if is_open then handle_use true tr' else None
  | EvClose :: tr' => if is_open then handle_use false tr' else None
  | (EvPrint _ | EvUsage) :: tr' => handle_use is_open tr'
  end.

Lemma handle_use_app b tr1 tr2 :
  handle_use b (tr1 ++ tr2) = match handle_use b tr1 with Some b' => handle_use b' tr2 | None => None end.
Proof.
  revert b. induction tr1 as [|[] tr1 IH]; intros b; simpl; [done | ..]; try (by destruct b); apply IH.
Qed.

Lemma calls_app tr1 tr2 : calls (tr1 ++ tr2) = (calls tr1 ++ calls tr2)%list.
Proof. apply omap_app. Qed.

(** A piece of the command that runs with the handle open and keeps it so:
    the migrator it leaves, the calls it makes, what it returns. *)
Definition works {A} (m : mig A) (lib lib' : M) (cs : list MigCall) (P : A -> Prop) : Prop :=
  exists evs a, does m lib lib' evs a /\ handle_use true evs = Some true /\ calls evs = cs /\ P a.

Lemma works_bind {A B} (m : mig A) (f : A -> mig B) lib1 lib2 lib3 c1 c2 P Q :
  works m lib1 lib2 c1 P -> (forall a, P a -> works (f a) lib2 lib3 c2 Q) ->
  works (mig_bind m f) lib1 lib3 (c1 ++ c2)%list Q.
Proof.
  intros (e1 & a & Hm & Hh1 & <- & HP) Hf. destruct (Hf a HP) as (e2 & b & Hb & Hh2 & <- & HQ).
  exists (e1 ++ e2)%list, b. split_and!; [by eapply does_bind | | by rewrite calls_app | done].
  by rewrite handle_use_app, Hh1.
Qed.

Lemma works_ret {A} (a : A) lib (P : A -> Prop) : P a -> works (mig_ret a) lib lib [] P.
Proof. intros HP. exists [], a. split_and!; try done. apply does_ret. Qed.

Lemma works_print m lib : works (printf m) lib lib [] (fun _ => True).
Proof. by exists [EvPrint m], tt. Qed.

Lemma works_usage lib : works (emit_event EvUsage) lib lib [] (fun _ => True).
Proof. by exists [EvUsage], tt. Qed.

Lemma works_call c f lib :
  works (call_lib c f) lib (fst (f lib)) [c] (fun r => r = snd (f lib)).
Proof. exists [EvCall c], (snd (f lib)). split_and!; try done. apply does_call. Qed.

Lemma works_Version lib :
  works call_Version lib lib [CVersion] (fun r => r = m_Version lib).
Proof. by exists [EvCall CVersion], (m_Version lib). Qed.

(** ** The reference: what each command may do *)

(** A migration that changed nothing is a success. *)
Definition fine (err : option goerr) : bool :=
  match err with None => true | Some e => errors_Is e migrate_ErrNoChange end.

Definition version_readable (lib : M) : bool :=
  match m_Version lib with Ok _ => true | Err e => errors_Is e migrate_ErrNilVersion end.

(** A migration followed by a reading of the version it reached. *)
Definition spec_migration (c : MigCall) (r : M * option goerr) : M * list MigCall * bool :=
  (fst r, c :: (if fine (snd r) then [CVersion] else []), fine (snd r) && version_readable (fst r)).

(** The migrator afterwards, the calls made and whether the command succeeds. *)
Definition spec_command (args : list string) (lib : M) : M * list MigCall * bool :=
  match args with
  | cmd :: rest =>
      if bool_decide (cmd = "up") then spec_migration CUp (m_Up lib)
      else if bool_decide (cmd = "down") then spec_migration (CSteps (-1)) (m_Steps lib (-1))
      else if bool_decide (cmd = "down-all") then spec_migration CDown (m_Down lib)
      else if bool_decide (cmd = "version") then (lib, [CVersion], version_readable lib)
      else if bool_decide (cmd = "force") then
        match rest with
        | arg :: _ =>
            match Atoi arg with
            | Some v => (fst (m_Force lib v), [CForce v], bool_decide (snd (m_Force lib v) = None))
            | None => (lib, [], false)
            end
        | [] => (lib, [], false)
        end
      else (lib, [], false)
  | [] => (lib, [], false)
  end.

Definition opens_fine (oe : OpenEnv) : bool :=
  bool_decide (oe_Open oe = None) && bool_decide (oe_Ping oe = None)
  && bool_decide (oe_WithInstance oe = None) && bool_decide (oe_NewWithDatabaseInstance oe = None).

Definition spec_run (loaded : result Config) (oe : OpenEnv) (args : list string) (lib : M)
    : M * list MigCall * bool :=
  if bool_decide (args <> []) && is_Ok loaded && opens_fine oe then spec_command args lib
  else (lib, [], false).

Definition succeeds_if (b : bool) (err : option goerr) : Prop := err = None <-> b = true.

Lemma works_report action err lib :
  works (report action err) lib lib (if fine err then [CVersion] else [])
    (succeeds_if (fine err && version_readable lib)).
Proof.
  assert (Hv : forall m, works (mig_bind (printf m) (fun _ =>
    mig_bind call_Version (fun v =>
      match v with
      | Err verr =>
          if errors_Is verr migrate_ErrNilVersion then
            mig_bind (printf [Txt "schema version: none"]) (fun _ => mig_ret None)
          else mig_ret (Some (Wrap [Txt "read version after "; Str action; Txt ": "] verr []))
      | Ok (version, dirty) =>
          mig_bind (printf [Txt "schema version: "; Num version; Txt " (dirty: ";
                            Str (if dirty : bool then "true" else "false"); Txt ")"])
            (fun _ => mig_ret None)
      end))) lib lib [CVersion] (succeeds_if (version_readable lib))).
  { intros m. apply (works_bind _ _ _ lib _ [] _ _ _ (works_print _ _)). intros _ _.
    apply (works_bind _ _ _ lib _ [CVersion] [] _ _ (works_Version _)). intros v ->.
    unfold version_readable. destruct (m_Version lib) as [[version dirty]|e].
    - apply (works_bind _ _ _ lib _ [] [] _ _ (works_print _ _)). intros _ _. by apply works_ret.
    - destruct (errors_Is e migrate_ErrNilVersion); [|by apply works_ret].
      apply (works_bind _ _ _ lib _ [] [] _ _ (works_print _ _)). intros _ _. by apply works_ret. }
  unfold report. destruct err as [e|]; cbn [fine]; [|apply Hv].
  destruct (errors_Is e migrate_ErrNoChange); [apply Hv | by apply works_ret].
Qed.

Lemma works_migration c f action lib :
  works (mig_bind (call_lib c f) (report action)) lib (fst (f lib))
    (c :: if fine (snd (f lib)) then [CVersion] else [])
    (succeeds_if (fine (snd (f lib)) && version_readable (fst (f lib)))).
Proof.
  apply (works_bind _ _ _ (fst (f lib)) _ [c] _ _ _ (works_call _ _ _)). intros r ->. apply works_report.
Qed.

Lemma works_dispatch args lib :
  args <> [] ->
  let '(lib', cs, ok) := spec_command args lib in
  works (dispatch_command args) lib lib' cs (succeeds_if ok).
Proof.
  intros Hne. destruct args as [|cmd rest]; [done |]. unfold dispatch_command, spec_command.
  case_bool_decide; [apply works_migration |]. case_bool_decide; [apply works_migration |].
  case_bool_decide; [apply works_migration |]. case_bool_decide.
  { apply (works_bind _ _ _ lib _ [CVersion] [] _ _ (works_Version _)). intros v ->.
    unfold version_readable. destruct (m_Version lib) as [[version dirty]|e].
    - apply (works_bind _ _ _ lib _ [] [] _ _ (works_print _ _)). intros _ _. by apply works_ret.
    - destruct (errors_Is e migrate_ErrNilVersion); [|by apply works_ret].
      apply (works_bind _ _ _ lib _ [] [] _ _ (works_print _ _)). intros _ _. by apply works_ret. }
  case_bool_decide.
  { destruct rest as [|arg rest]; [by apply works_ret |]. destruct (Atoi arg) as [v|]; [|by apply works_ret].
    apply (works_bind _ _ _ (fst (m_Force lib v)) _ [CForce v] [] _ _ (works_call _ _ _)). intros r ->.
    destruct (snd (m_Force lib v)) as [e|]; [by apply works_ret |].
    apply (works_bind _ _ _ _ _ [] [] _ _ (works_print _ _)). intros _ _. by apply works_ret. }
  apply (works_bind _ _ _ lib _ [] [] _ _ (works_usage _)). intros _ _. by apply works_ret.
Qed.

(** What [open] does: a handle in use, or an error and no handle left. *)
Lemma does_open oe cfg path lib :
  exists evs r, does (open oe cfg path) lib lib evs r /\ calls evs = []
    /\ if opens_fine oe then r = None /\ handle_use false evs = Some true
       else is_Some r /\ handle_use false evs = Some false.
Proof.
  unfold open, opens_fine.
  destruct (oe_Open oe) as [e|]; [by do 2 eexists; split; [apply does_ret | split; [|split; [eexists |]]] |].
  set (p := cfg_Postgres cfg).
  set (opening := [EvOpen (DSN p); EvSettings (pg_MaxOpenConns p) (pg_MaxIdleConns p) (pg_ConnMaxLifetime p)]).
  assert (Hc : forall (m : mig (option goerr)) evs r,
    does m lib lib evs r -> does (mig_bind (emit_event (EvOpen (DSN p))) (fun _ =>
      mig_bind (emit_event (EvSettings (pg_MaxOpenConns p) (pg_MaxIdleConns p) (pg_ConnMaxLifetime p)))
        (fun _ => m))) lib lib (opening ++ evs)%list r).
  { intros m evs r Hm. apply (does_bind _ _ _ lib _ [EvOpen (DSN p)] _ tt); [apply does_event |].
    by apply (does_bind _ _ _ lib _ [_] evs tt); [apply does_event |]. }
  assert (Hf : forall e : goerr, does (mig_bind (emit_event EvClose) (fun _ => mig_ret (Some e))) lib lib [EvClose] (Some e)).
  { intros e. apply (does_bind _ _ _ lib _ [EvClose] [] tt); [apply does_event | apply does_ret]. }
  destruct (oe_Ping oe) as [e|]; [by do 2 eexists; split; [apply Hc, Hf |]; split; [|split; [eexists |]] |].
  destruct (oe_WithInstance oe) as [e|]; [by do 2 eexists; split; [apply Hc, Hf |]; split; [|split; [eexists |]] |].
  destruct (oe_NewWithDatabaseInstance oe) as [e|];
    [by do 2 eexists; split; [apply Hc, Hf |]; split; [|split; [eexists |]] |].
  by do 2 eexists; split; [apply Hc, does_ret |].
Qed.

(** The migration command does exactly what was asked: "up" applies, "down"
    takes one step back, only "down-all" takes everything down, "force" sets the
    version it was given, and with no command, an unknown one, a configuration
    that is refused or a database that cannot be opened the migrator is not
    touched and an error is returned; a migration that changes nothing is a
    success; and on every path the database handle is opened at most once, used
    only while open, and closed. *)
Lemma migrate_run_exact loaded oe path args lib tr :
  let '(lib', cs, ok) := spec_run loaded oe args lib in
  exists evs err,
    migrate_run loaded oe path args (mkMigState lib tr) = (mkMigState lib' (tr ++ evs)%list, err)
    /\ calls evs = cs /\ handle_use false evs = Some false /\ (err = None <-> ok = true).
Proof.
  unfold spec_run, migrate_run. destruct args as [|cmd rest]; [by exists [EvUsage]; eexists |].
  rewrite (bool_decide_eq_false_2 (cmd :: rest = [])) by done.
  rewrite (bool_decide_eq_true_2 (cmd :: rest <> [])) by done.
  destruct loaded as [cfg|e]; cbn [is_Ok andb]; [|exists [], (Some e); rewrite app_nil_r; done].
  destruct (does_open oe cfg path lib) as (evs1 & r & Ho & Hc1 & Hr).
  destruct (opens_fine oe).
  - destruct Hr as [-> Hh1]. pose proof (works_dispatch (cmd :: rest) lib) as Hd.
    destruct (spec_command (cmd :: rest) lib) as [[lib' cs] ok].
    destruct (Hd ltac:(done)) as (evs2 & err & Hm & Hh2 & <- & Hok).
    exists (evs1 ++ evs2 ++ [EvClose])%list, err. split_and!; [| | |exact Hok].
    + assert (Hall : does (mig_bind (open oe cfg path) (fun opened =>
        match opened with
        | Some err => mig_ret (Some err)
        | None => mig_bind (dispatch_command (cmd :: rest)) (fun err =>
            mig_bind (emit_event EvClose) (fun _ => mig_ret err))
        end)) lib lib' (evs1 ++ evs2 ++ [EvClose])%list err); [|exact (Hall tr)].
      eapply does_bind; [exact Ho |]. eapply does_bind; [exact Hm |].
      apply (does_bind _ _ _ lib' _ [EvClose] [] tt); [apply does_event | apply does_ret].
    + by rewrite !calls_app, Hc1, app_nil_r.
    + by rewrite handle_use_app, Hh1, handle_use_app, Hh2.
  - destruct Hr as [[e ->] Hh1]. exists evs1, (Some e).
    unfold mig_bind. rewrite Ho. by split_and!.
Qed.
End migrate.
