(* ===== verification/Money.v ===== *)
(** * [internal/money]: currency codes

    A [Currency] is a string; [Validate] and [ParseCurrency] accept exactly the
    codes that the [CHECK] constraints of the schema accept. *)
From stdpp Require Import base gmap fin_maps strings list.
From Stdlib Require Import ZArith Lia Ascii.
From S2P Require Import Prelude.
From S2P Require Import GoStd.
From S2P Require Import Uuid.
From S2P Require Import Errors.

Open Scope Z_scope.

Abbreviation Currency := string (only parsing).

(** The loop of [Validate] over the runes of the code: [nil] or an error. *)
Definition upper_rune (r : Z) : bool := negb ((r <? 65) || (90 <? r)).

Definition Currency_Validate (c : string) : option goerr :=
  if negb (len c =? 3) then
    Some (wrapping ErrInvalidCurrency [Txt ": "; Quo c; Txt " must be exactly 3 characters"])
  else if negb (all_runes upper_rune c) then
    Some (wrapping ErrInvalidCurrency [Txt ": "; Quo c; Txt " must be upper-case ASCII letters"])
  else None.

Definition ParseCurrency (s : string) : result string :=
  match Currency_Validate s with
  | Some err => Err err
  | None => Ok s
  end.

(** The constraint [currency ~ '^[A-Z]{3}$'] of the schema, on bytes. *)
Definition currency_format (c : string) : bool :=
  (String.length c =? 3)%nat && all_bytes upper_rune c.

Lemma Currency_Validate_format c :
  Currency_Validate c = None <-> currency_format c = true.
Proof.
  unfold Currency_Validate, currency_format, len.
  rewrite (all_runes_bytes upper_rune false).
  - destruct (Z.eqb_spec (Z.of_nat (String.length c)) 3) as [E|E],
      (Nat.eqb_spec (String.length c) 3) as [E'|E']; simpl; try lia; try done.
    by destruct (all_bytes upper_rune c).
  - intros z Hz. unfold upper_rune. rewrite (proj2 (Z.ltb_ge z 65)), (proj2 (Z.ltb_lt 90 z)) by lia.
    done.
Qed.

Lemma Currency_Validate_Is c e :
  Currency_Validate c = Some e -> errors_Is e ErrInvalidCurrency = true /\ errors_As_Pg e = None.
Proof. unfold Currency_Validate. by repeat case_match; intros; simplify_eq/=. Qed.

(** [ParseCurrency] accepts exactly the codes the [CHECK] constraints of
    the schema accept, three upper-case ASCII letters, and returns them
    unchanged; it refuses everything else with [ErrInvalidCurrency]. *)
Lemma ParseCurrency_spec c :
  (ParseCurrency c = Ok c <-> currency_format c = true)
  /\ (ParseCurrency c = Ok c \/ exists e, ParseCurrency c = Err e
                                /\ errors_Is e ErrInvalidCurrency = true).
Proof.
  unfold ParseCurrency. rewrite <- Currency_Validate_format.
  destruct (Currency_Validate c) as [e|] eqn:E; [|by split; [|left]].
  split; [done |]. right. exists e. split; [done |]. apply (Currency_Validate_Is _ _ E).
Qed.
