(* ===== verification/Schema.v ===== *)
(** * The PostgreSQL schema of [migrations/]

    The three tables as finite maps keyed by their primary key, the [CHECK],
    [UNIQUE] and foreign-key constraints, and the triggers, as the migrations
    declare them. A statement that violates a constraint yields the server
    error ([SQLSTATE] and constraint name) and leaves no trace; the deferred
    constraint triggers run at [COMMIT] (see [Tx]). *)
From stdpp Require Import base gmap fin_maps strings list.
From Stdlib Require Import ZArith Lia Ascii.
From S2P Require Import Prelude.
From S2P Require Import GoStd.
From S2P Require Import Uuid.
From S2P Require Import Errors.
From S2P Require Import Money.

Open Scope Z_scope.

(** ** Tables *)

Record AccountRow := mkAccount {
  a_id : UUID;
  a_currency : string;
  a_balance_minor : Z;
  a_created_at : Z;
  a_updated_at : Z
}.

Record TransferRow := mkTransferRow {
  t_id : UUID;
  t_source_account_id : UUID;
  t_destination_account_id : UUID;
  t_amount_minor : Z;
  t_currency : string;
  t_status : string;
  t_created_at : Z;
  t_completed_at : option Z;
  t_idempotency_key : option string;
  t_request_fingerprint : option (list ascii)
}.

Record EntryRow := mkEntry {
  e_id : UUID;
  e_transfer_id : UUID;
  e_account_id : UUID;
  e_amount_minor : Z;
  e_currency : string;
  e_created_at : Z
}.

#[global] Instance AccountRow_eq_dec : EqDecision AccountRow.
Proof. solve_decision. Defined.
#[global] Instance TransferRow_eq_dec : EqDecision TransferRow.
Proof. solve_decision. Defined.
#[global] Instance EntryRow_eq_dec : EqDecision EntryRow.
Proof. solve_decision. Defined.

Record Db := mkDb {
  accounts : gmap UUID AccountRow;
  transfers : gmap UUID TransferRow;
  ledger_entries : gmap UUID EntryRow
}.

Definition empty_db : Db := mkDb ∅ ∅ ∅.

(** ** Server errors *)

Definition check_violation (c : string) : PgError := mkPgError "23514" c.
Definition unique_violation (c : string) : PgError := mkPgError "23505" c.
Definition foreign_key_violation (c : string) : PgError := mkPgError "23503" c.
Definition restrict_violation : PgError := mkPgError "23001" "".
Definition integrity_constraint_violation : PgError := mkPgError "23000" "".
Definition numeric_value_out_of_range : PgError := mkPgError "22003" "".
Definition string_data_right_truncation : PgError := mkPgError "22001" "".
Definition character_not_in_repertoire : PgError := mkPgError "22021" "".

(** The outcome of a statement: a server error, or a value. *)
Abbreviation sql A := (PgError + A)%type.

Notation "'let!' x := c1 'in' c2" :=
  (match c1 with inl e => inl e | inr x => c2 end)
    (at level 60, x pattern, c1 at level 200, c2 at level 200, right associativity).

(** [ensure b e]: the server raises [e] unless [b]. *)
Definition ensure (b : bool) (e : PgError) : sql unit := if b then inr tt else inl e.

(** The first violated constraint of a list, in the order the server tests them. *)
Fixpoint first_violation (cs : list (string * bool)) : option string :=
  match cs with
  | [] => None
  | (name, ok) :: cs' => if ok then first_violation cs' else Some name
  end.

Definition check_constraints (cs : list (string * bool)) : sql unit :=
  match first_violation cs with
  | Some c => inl (check_violation c)
  | None => inr tt
  end.

(** [VARCHAR(3)]: a longer value is refused before any constraint is tested.
    [character_length] is SQL's [length] on text. *)
Definition character_length (s : string) : Z := Z.of_nat (length (runes s)).
Definition varchar3 (s : string) : bool := character_length s <=? 3.

(** A UTF-8 database refuses text that is not UTF-8 or holds a NUL. *)
Definition text_ok (s : string) : bool :=
  ValidString s && all_bytes (fun b => negb (b =? 0)) s.

(** ** [accounts] (migration 000001) *)

Definition accounts_checks (r : AccountRow) : list (string * bool) :=
  [ ("accounts_balance_non_negative", 0 <=? a_balance_minor r);
    ("accounts_currency_format", currency_format (a_currency r)) ].

Definition insert_account (r : AccountRow) (db : Db) : sql Db :=
  let! _ := ensure (in_int64 (a_balance_minor r)) numeric_value_out_of_range in
  let! _ := ensure (varchar3 (a_currency r)) string_data_right_truncation in
  let! _ := check_constraints (accounts_checks r) in
  let! _ := ensure (bool_decide (accounts db !! a_id r = None))
              (unique_violation "accounts_pkey") in
  inr (mkDb (<[a_id r := r]> (accounts db)) (transfers db) (ledger_entries db)).

(** The trigger [accounts_set_updated_at] runs before every update. *)
Definition set_updated_at (now : Z) (r : AccountRow) : AccountRow :=
  mkAccount (a_id r) (a_currency r) (a_balance_minor r) (a_created_at r) now.

Definition with_balance (r : AccountRow) (b : Z) : AccountRow :=
  mkAccount (a_id r) (a_currency r) b (a_created_at r) (a_updated_at r).

(** [UPDATE accounts SET balance_minor = <b> WHERE id = <id> AND <guard>]: the
    number of rows affected. [balance_minor] is a [BIGINT]: a value out of its
    range is an error, never a wrap-around. *)
Definition update_balance (now : Z) (id : UUID) (guard : AccountRow -> bool)
    (b : AccountRow -> Z) (db : Db) : sql (Db * Z) :=
  match accounts db !! id with
  | Some r =>
      if guard r then
        let! _ := ensure (in_int64 (b r)) numeric_value_out_of_range in
        let r' := set_updated_at now (with_balance r (b r)) in
        let! _ := check_constraints (accounts_checks r') in
        inr (mkDb (<[id := r']> (accounts db)) (transfers db) (ledger_entries db), 1)
      else inr (db, 0)
  | None => inr (db, 0)
  end.

(** ** [transfers] (migrations 000002 and 000005) *)

Definition transfers_checks (r : TransferRow) : list (string * bool) :=
  let completed := bool_decide (t_status r = "completed") in
  let has_at := bool_decide (is_Some (t_completed_at r)) in
  [ ("transfers_amount_positive", 0 <? t_amount_minor r);
    ("transfers_completed_at_matches_status",
       (completed && has_at) || (negb completed && negb has_at));
    ("transfers_currency_format", currency_format (t_currency r));
    ("transfers_distinct_accounts",
       negb (uuid_eqb (t_source_account_id r) (t_destination_account_id r)));
    ("transfers_idempotency_key_length",
       match t_idempotency_key r with
       | None => true
       | Some k => (1 <=? character_length k) && (character_length k <=? 255)
       end);
    ("transfers_idempotency_pairing",
       Bool.eqb (bool_decide (t_idempotency_key r = None))
           (bool_decide (t_request_fingerprint r = None)));
    ("transfers_request_fingerprint_length",
       match t_request_fingerprint r with
       | None => true
       | Some f => (length f =? 32)%nat
       end);
    ("transfers_status_valid",
       bool_decide (t_status r ∈ ["pending"; "completed"; "failed"])) ].

(** The rows whose [idempotency_key] is [k]: at most one, by the constraint
    [transfers_idempotency_key_unique]. *)
Definition has_key (k : string) (r : TransferRow) : bool :=
  bool_decide (t_idempotency_key r = Some k).

Definition rows_with_key (k : string) (db : Db) : list TransferRow :=
  List.filter (has_key k) ((map_to_list (transfers db)).*2).

(** [SELECT ... FROM transfers WHERE idempotency_key = $1]. *)
Definition select_by_key (k : string) (db : Db) : option TransferRow :=
  head (rows_with_key k db).

Definition key_free (k : option string) (db : Db) : bool :=
  match k with
  | None => true
  | Some k => bool_decide (select_by_key k db = None)
  end.

Definition insert_transfer (r : TransferRow) (db : Db) : sql Db :=
  let! _ := ensure (in_int64 (t_amount_minor r)) numeric_value_out_of_range in
  let! _ := ensure (varchar3 (t_currency r)) string_data_right_truncation in
  let! _ := ensure (from_option text_ok true (t_idempotency_key r))
              character_not_in_repertoire in
  let! _ := check_constraints (transfers_checks r) in
  let! _ := ensure (bool_decide (transfers db !! t_id r = None))
              (unique_violation "transfers_pkey") in
  let! _ := ensure (key_free (t_idempotency_key r) db)
              (unique_violation "transfers_idempotency_key_unique") in
  let! _ := ensure (bool_decide (is_Some (accounts db !! t_source_account_id r)))
              (foreign_key_violation "transfers_source_account_id_fkey") in
  let! _ := ensure (bool_decide (is_Some (accounts db !! t_destination_account_id r)))
              (foreign_key_violation "transfers_destination_account_id_fkey") in
  inr (mkDb (accounts db) (<[t_id r := r]> (transfers db)) (ledger_entries db)).

(** An update of one transfer row. The trigger
    [transfers_completed_are_immutable] refuses to touch a completed row. *)
Definition update_transfer (id : UUID) (guard : TransferRow -> bool)
    (f : TransferRow -> TransferRow) (db : Db) : sql (Db * list TransferRow) :=
  match transfers db !! id with
  | Some r =>
      if guard r then
        let! _ := ensure (negb (bool_decide (t_status r = "completed"))) restrict_violation in
        let! _ := check_constraints (transfers_checks (f r)) in
        inr (mkDb (accounts db) (<[id := f r]> (transfers db)) (ledger_entries db), [f r])
      else inr (db, [])
  | None => inr (db, [])
  end.

(** ** [ledger_entries] (migration 000003) *)

Definition ledger_entries_checks (r : EntryRow) : list (string * bool) :=
  [ ("ledger_entries_amount_non_zero", negb (e_amount_minor r =? 0));
    ("ledger_entries_currency_format", currency_format (e_currency r)) ].

Definition same_leg (t a : UUID) (e : EntryRow) : bool :=
  uuid_eqb (e_transfer_id e) t && uuid_eqb (e_account_id e) a.

(** One row of an [INSERT], up to its unique indexes. *)
Definition insert_entry_row (r : EntryRow) (db : Db) : sql Db :=
  let! _ := ensure (in_int64 (e_amount_minor r)) numeric_value_out_of_range in
  let! _ := ensure (varchar3 (e_currency r)) string_data_right_truncation in
  let! _ := check_constraints (ledger_entries_checks r) in
  let! _ := ensure (bool_decide (ledger_entries db !! e_id r = None))
              (unique_violation "ledger_entries_pkey") in
  let! _ := ensure (countZ (same_leg (e_transfer_id r) (e_account_id r)) (ledger_entries db) =? 0)
              (unique_violation "ledger_entries_one_leg_per_account") in
  inr (mkDb (accounts db) (transfers db) (<[e_id r := r]> (ledger_entries db))).

Fixpoint insert_entry_rows (rs : list EntryRow) (db : Db) : sql Db :=
  match rs with
  | [] => inr db
  | r :: rs' => let! db' := insert_entry_row r db in insert_entry_rows rs' db'
  end.

(** Foreign keys are tested once the statement has inserted all its rows. *)
Fixpoint entry_foreign_keys (rs : list EntryRow) (db : Db) : sql unit :=
  match rs with
  | [] => inr tt
  | r :: rs' =>
      let! _ := ensure (bool_decide (is_Some (transfers db !! e_transfer_id r)))
                  (foreign_key_violation "ledger_entries_transfer_id_fkey") in
      let! _ := ensure (bool_decide (is_Some (accounts db !! e_account_id r)))
                  (foreign_key_violation "ledger_entries_account_id_fkey") in
      entry_foreign_keys rs' db
  end.

Definition insert_entries (rs : list EntryRow) (db : Db) : sql Db :=
  let! db' := insert_entry_rows rs db in
  let! _ := entry_foreign_keys rs db' in
  inr db'.

(** ** The deferred assertion of migration 000004 *)

Definition of_transfer (t : UUID) (e : EntryRow) : bool := uuid_eqb (e_transfer_id e) t.

Definition entry_sum (t : UUID) (db : Db) : Z :=
  sumZ (fun e => if of_transfer t e then e_amount_minor e else 0) (ledger_entries db).

Definition entry_count (t : UUID) (db : Db) : Z := countZ (of_transfer t) (ledger_entries db).

Definition wrong_currency_count (t : UUID) (c : string) (db : Db) : Z :=
  countZ (fun e => of_transfer t e && negb (bool_decide (e_currency e = c)))
    (ledger_entries db).

(** [assert_transfer_balanced]: raises unless the entries of the transfer sum
    to zero and share its currency. [v_imbalance] is a [BIGINT]. *)
Definition assert_transfer_balanced (id : UUID) (db : Db) : sql unit :=
  match transfers db !! id with
  | None => inr tt
  | Some t =>
      let! _ := ensure (in_int64 (entry_sum id db)) numeric_value_out_of_range in
      if bool_decide (t_status t = "completed") && (entry_count id db =? 0)
      then inl integrity_constraint_violation
      else if entry_count id db =? 0 then inr tt
      else if negb (entry_sum id db =? 0) then inl integrity_constraint_violation
      else if 0 <? wrong_currency_count id (t_currency t) db
      then inl integrity_constraint_violation
      else inr tt
  end.

(** A deferred trigger event: what fires it and the row it fired for. *)
Inductive deferred :=
  | LedgerEntryInserted (transfer_id : UUID)
  | TransferWritten (id : UUID) (new_status : string).

(** [ledger_entries_assert_balanced] and [transfers_assert_balanced]. *)
Definition run_deferred (d : deferred) (db : Db) : sql unit :=
  match d with
  | LedgerEntryInserted t => assert_transfer_balanced t db
  | TransferWritten t st =>
      if bool_decide (st = "completed") then assert_transfer_balanced t db else inr tt
  end.

Fixpoint run_all_deferred (ds : list deferred) (db : Db) : sql unit :=
  match ds with
  | [] => inr tt
  | d :: ds' => let! _ := run_deferred d db in run_all_deferred ds' db
  end.

(** Scanning a [numeric] aggregate into an [int64]. *)
Definition scan_int64 (z : Z) : result Z :=
  if in_int64 z then Ok z else Err (External "cannot scan numeric into int64").

(** ** What a successful statement did *)

Lemma first_violation_None cs :
  first_violation cs = None <-> Forall (fun c => snd c = true) cs.
Proof.
  induction cs as [|[n b] cs IH]; simpl.
  - split; [constructor | done].
  - rewrite Forall_cons; simpl. destruct b; [rewrite IH; intuition | intuition discriminate].
Qed.

Lemma check_constraints_inr cs u :
  check_constraints cs = inr u <-> Forall (fun c => snd c = true) cs.
Proof.
  unfold check_constraints. rewrite <- first_violation_None.
  destruct (first_violation cs), u; naive_solver.
Qed.

Lemma ensure_inr b e u : ensure b e = inr u <-> b = true.
Proof. unfold ensure. destruct b, u; naive_solver. Qed.

Lemma select_by_key_Some k db r :
  select_by_key k db = Some r ->
  exists id, transfers db !! id = Some r /\ t_idempotency_key r = Some k.
Proof.
  unfold select_by_key, rows_with_key. intros H.
  assert (Hin : r ∈ List.filter (has_key k) ((map_to_list (transfers db)).*2)).
  { destruct (List.filter _ _); simplify_eq/=. by left. }
  apply list_elem_of_In, filter_In in Hin as [Hin Hk].
  apply list_elem_of_In, list_elem_of_fmap in Hin as ([id r'] & -> & Hin).
  apply elem_of_map_to_list in Hin. exists id. split; [done |].
  unfold has_key in Hk. by apply bool_decide_eq_true in Hk.
Qed.

Lemma select_by_key_None k db :
  select_by_key k db = None <->
  forall id r, transfers db !! id = Some r -> t_idempotency_key r <> Some k.
Proof.
  split.
  - intros H id r Hr Hk. unfold select_by_key, rows_with_key in H.
    assert (Hin : In r (List.filter (has_key k) ((map_to_list (transfers db)).*2))).
    { apply filter_In. split; [|unfold has_key; by apply bool_decide_eq_true].
      apply list_elem_of_In, list_elem_of_fmap. exists (id, r).
      by rewrite elem_of_map_to_list. }
    destruct (List.filter _ _); [done | simplify_eq/=].
  - intros H. destruct (select_by_key k db) as [r|] eqn:E; [|done].
    apply select_by_key_Some in E as (id & Hr & Hk). by destruct (H id r Hr).
Qed.

(** Turns [H : let! x := c in k = inr v] into its successful steps. *)
Ltac sql_inv H :=
  repeat match type of H with
  | (match ?c with inl _ => _ | inr _ => _ end) = inr _ =>
      let E := fresh "Hs" in destruct c as [?|?] eqn:E; [discriminate H |];
      first [apply ensure_inr in E | apply check_constraints_inr in E | idtac]
  | (match ?p with (_, _) => _ end) = inr _ => destruct p
  end.

Lemma update_balance_inr now id guard b db db' n :
  update_balance now id guard b db = inr (db', n) -> n = 1 ->
  exists r, accounts db !! id = Some r /\ guard r = true
    /\ in_int64 (b r) = true /\ 0 <= b r /\ currency_format (a_currency r) = true
    /\ db' = mkDb (<[id := set_updated_at now (with_balance r (b r))]> (accounts db))
               (transfers db) (ledger_entries db).
Proof.
  unfold update_balance. intros H ->. destruct (accounts db !! id) as [r|]; [|by simplify_eq].
  destruct (guard r) eqn:Hg; [|by simplify_eq]. sql_inv H. simplify_eq.
  exists r. unfold accounts_checks in Hs0. rewrite !Forall_cons in Hs0. simpl in Hs0.
  destruct Hs0 as (Hb & Hc & _). apply Z.leb_le in Hb. done.
Qed.

Lemma insert_transfer_inr r db db' :
  insert_transfer r db = inr db' ->
  in_int64 (t_amount_minor r) = true
  /\ Forall (fun c => snd c = true) (transfers_checks r)
  /\ from_option text_ok true (t_idempotency_key r) = true
  /\ transfers db !! t_id r = None /\ key_free (t_idempotency_key r) db = true
  /\ is_Some (accounts db !! t_source_account_id r)
  /\ is_Some (accounts db !! t_destination_account_id r)
  /\ db' = mkDb (accounts db) (<[t_id r := r]> (transfers db)) (ledger_entries db).
Proof.
  unfold insert_transfer. intros H. sql_inv H. simplify_eq.
  repeat match goal with H : bool_decide _ = true |- _ => apply bool_decide_eq_true in H end.
  done.
Qed.

Lemma insert_entry_row_inr r db db' :
  insert_entry_row r db = inr db' ->
  in_int64 (e_amount_minor r) = true /\ e_amount_minor r <> 0
  /\ currency_format (e_currency r) = true
  /\ ledger_entries db !! e_id r = None
  /\ countZ (same_leg (e_transfer_id r) (e_account_id r)) (ledger_entries db) = 0
  /\ db' = mkDb (accounts db) (transfers db) (<[e_id r := r]> (ledger_entries db)).
Proof.
  unfold insert_entry_row. intros H. sql_inv H. simplify_eq.
  unfold ledger_entries_checks in Hs1. rewrite !Forall_cons in Hs1. simpl in Hs1.
  destruct Hs1 as (Ha & Hc & _).
  apply negb_true_iff, Z.eqb_neq in Ha. apply bool_decide_eq_true in Hs2.
  apply Z.eqb_eq in Hs3. done.
Qed.

Lemma update_transfer_inr id guard f db db' r' rs :
  update_transfer id guard f db = inr (db', r' :: rs) ->
  exists r, transfers db !! id = Some r /\ guard r = true /\ t_status r <> "completed"
    /\ Forall (fun c => snd c = true) (transfers_checks (f r)) /\ r' = f r /\ rs = []
    /\ db' = mkDb (accounts db) (<[id := f r]> (transfers db)) (ledger_entries db).
Proof.
  unfold update_transfer. intros H. destruct (transfers db !! id) as [r|]; [|by simplify_eq].
  destruct (guard r) eqn:Hg; [|by simplify_eq]. sql_inv H. simplify_eq.
  apply negb_true_iff, bool_decide_eq_false in Hs. eauto 10.
Qed.
