(* ===== verification/Tx.v ===== *)
(** * Transactions

    The work inside one [SERIALIZABLE] transaction is a computation over the
    transaction's private view of the database. What the program does not
    control is a parameter, the environment [TxEnv] of the attempt: the
    identifiers [uuid.New] draws, the server's clock, which statement fails
    and how, and the fate of [COMMIT]. Nothing restricts an environment: any
    statement may fail with any error, and a [COMMIT] may be applied although
    its acknowledgement is lost. *)
From stdpp Require Import base gmap fin_maps strings list.
From Stdlib Require Import ZArith Lia Ascii.
From S2P Require Import Prelude.
From S2P Require Import GoStd.
From S2P Require Import Uuid.
From S2P Require Import Errors.
From S2P Require Import Money.
From S2P Require Import Schema.

Open Scope Z_scope.

(** What becomes of a [COMMIT] whose deferred triggers pass. *)
Inductive CommitOutcome :=
  | Commits
  | CommitRejected (e : goerr)   (* rolled back, with an error *)
  | CommitLost (e : goerr).      (* durable, but the client sees an error *)

Record TxEnv := mkTxEnv {
  tx_begin : option goerr;          (* an error of BEGIN *)
  tx_fault : nat -> option goerr;   (* an error of the n-th statement *)
  tx_uuid : nat -> UUID;            (* the n-th uuid.New() *)
  tx_now : Z;                       (* now(), constant in a transaction *)
  tx_commit : CommitOutcome
}.

(** An environment in which nothing outside the program goes wrong. *)
Definition calm (env : TxEnv) : Prop :=
  tx_begin env = None /\ (forall n, tx_fault env n = None) /\ tx_commit env = Commits.

Record TxState := mkTx {
  tx_db : Db;
  tx_deferred : list deferred;
  tx_stmts : nat;
  tx_uuids : nat
}.

Definition tx_start (db : Db) : TxState := mkTx db [] 0 0.

Definition tx (A : Type) : Type := TxEnv -> TxState -> TxState * result A.

Definition tx_ret {A} (a : A) : tx A := fun _ st => (st, Ok a).
Definition throw {A} (e : goerr) : tx A := fun _ st => (st, Err e).

Definition tx_bind {A B} (m : tx A) (k : A -> tx B) : tx B := fun env st =>
  match m env st with
  | (st', Ok a) => k a env st'
  | (st', Err e) => (st', Err e)
  end.

(** [if err != nil { return ..., f(err) }]. *)
Definition on_err {A} (f : goerr -> goerr) (m : tx A) : tx A := fun env st =>
  match m env st with
  | (st', Ok a) => (st', Ok a)
  | (st', Err e) => (st', Err (f e))
  end.

Declare Scope tx_scope.
Delimit Scope tx_scope with tx.
Notation "x <- c1 ;; c2" := (tx_bind c1 (fun x => c2))
  (at level 20, c1 at level 99, c2 at level 200, only parsing) : tx_scope.
Notation "' pat <- c1 ;; c2" := (tx_bind c1 (fun x => match x with pat => c2 end))
  (at level 20, pat pattern, c1 at level 99, c2 at level 200, only parsing) : tx_scope.

(** A statement that may write: it fails with the environment's fault, or with
    the server's error, or applies. *)
Definition exec {A} (f : Z -> Db -> sql (Db * list deferred * A)) : tx A := fun env st =>
  let st1 := mkTx (tx_db st) (tx_deferred st) (S (tx_stmts st)) (tx_uuids st) in
  match tx_fault env (tx_stmts st) with
  | Some e => (st1, Err e)
  | None =>
      match f (tx_now env) (tx_db st) with
      | inl e => (st1, Err (PgErr e))
      | inr (db', ds, a) =>
          (mkTx db' (tx_deferred st ++ ds) (S (tx_stmts st)) (tx_uuids st), Ok a)
      end
  end.

(** [QueryRow(...).Scan(...)] of a query that returns at most one row. *)
Definition query_row {A} (f : Db -> option A) : tx A := fun env st =>
  let st1 := mkTx (tx_db st) (tx_deferred st) (S (tx_stmts st)) (tx_uuids st) in
  match tx_fault env (tx_stmts st) with
  | Some e => (st1, Err e)
  | None =>
      match f (tx_db st) with
      | Some a => (st1, Ok a)
      | None => (st1, Err pgx_ErrNoRows)
      end
  end.

Definition lift_result {A} (r : result A) : tx A := fun _ st => (st, r).

Definition new_uuid : tx UUID := fun env st =>
  (mkTx (tx_db st) (tx_deferred st) (tx_stmts st) (S (tx_uuids st)),
   Ok (tx_uuid env (tx_uuids st))).

(** [BEGIN], the body, and [COMMIT] or the deferred [ROLLBACK]: the database
    afterwards and what the caller sees. *)
Definition run_tx {A} (begin_err commit_err : goerr -> goerr) (body : tx A)
    (env : TxEnv) (db : Db) : Db * result A :=
  match tx_begin env with
  | Some e => (db, Err (begin_err e))
  | None =>
      match body env (tx_start db) with
      | (_, Err e) => (db, Err e)
      | (st, Ok a) =>
          match run_all_deferred (tx_deferred st) (tx_db st) with
          | inl e => (db, Err (commit_err (PgErr e)))
          | inr _ =>
              match tx_commit env with
              | Commits => (tx_db st, Ok a)
              | CommitRejected e => (db, Err (commit_err e))
              | CommitLost e => (tx_db st, Err (commit_err e))
              end
          end
      end
  end.

(** A statement outside any explicit transaction ([pool.QueryRow], [pool.Exec])
    is a transaction of its own. *)
Definition autocommit {A} (body : tx A) (env : TxEnv) (db : Db) : Db * result A :=
  match body env (tx_start db) with
  | (_, Err e) => (db, Err e)
  | (st, Ok a) =>
      match run_all_deferred (tx_deferred st) (tx_db st) with
      | inl e => (db, Err (PgErr e))
      | inr _ =>
          match tx_commit env with
          | Commits => (tx_db st, Ok a)
          | CommitRejected e => (db, Err e)
          | CommitLost e => (tx_db st, Err e)
          end
      end
  end.

(** ** Inversion lemmas *)

Lemma tx_bind_Ok {A B} (m : tx A) (k : A -> tx B) env st st' b :
  tx_bind m k env st = (st', Ok b) ->
  exists st1 a, m env st = (st1, Ok a) /\ k a env st1 = (st', Ok b).
Proof. unfold tx_bind. repeat case_match; intros; simplify_eq/=; eauto. Qed.

Lemma on_err_Ok {A} f (m : tx A) env st st' a :
  on_err f m env st = (st', Ok a) -> m env st = (st', Ok a).
Proof. unfold on_err. repeat case_match; intros; simplify_eq/=; eauto. Qed.

Lemma exec_Ok {A} (f : Z -> Db -> sql (Db * list deferred * A)) env st st' a :
  exec f env st = (st', Ok a) ->
  exists db' ds, f (tx_now env) (tx_db st) = inr (db', ds, a)
    /\ st' = mkTx db' (tx_deferred st ++ ds) (S (tx_stmts st)) (tx_uuids st).
Proof. unfold exec. repeat case_match; intros; simplify_eq/=; eauto. Qed.

Lemma query_row_Ok {A} (f : Db -> option A) env st st' a :
  query_row f env st = (st', Ok a) ->
  f (tx_db st) = Some a
  /\ st' = mkTx (tx_db st) (tx_deferred st) (S (tx_stmts st)) (tx_uuids st).
Proof. unfold query_row. repeat case_match; intros; simplify_eq/=; eauto. Qed.

(** A transaction leaves the database either as it was or as its body left it;
    it reports success only in the second case. *)
Lemma run_tx_cases {A} be ce (body : tx A) env db db' r :
  run_tx be ce body env db = (db', r) ->
  (db' = db /\ exists e, r = Err e)
  \/ (exists st a, body env (tx_start db) = (st, Ok a) /\ db' = tx_db st
        /\ run_all_deferred (tx_deferred st) (tx_db st) = inr tt
        /\ (r = Ok a \/ exists e, r = Err (ce e) /\ tx_commit env = CommitLost e)).
Proof.
  unfold run_tx. intros E.
  repeat case_match; simplify_eq/=; eauto 10;
    right; repeat eexists; eauto; destruct u; eauto.
Qed.
