(* ===== verification/Transfer.v ===== *)
(** * [internal/transfer]: the posting operation

    [Command.Validate], the canonical lock order, and [post]/[postOnce]: one
    attempt at moving money, from [BEGIN] to [COMMIT], statement by statement. *)
From stdpp Require Import base gmap fin_maps strings list.
From Stdlib Require Import ZArith Lia Ascii.
From S2P Require Import Prelude.
From S2P Require Import GoStd.
From S2P Require Import GoTime.
From S2P Require Import Uuid.
From S2P Require Import Errors.
From S2P Require Import Money.
From S2P Require Import Schema.
From S2P Require Import Tx.

Open Scope Z_scope.

(** ** Data *)

Definition StatusPending : string := "pending".
Definition StatusCompleted : string := "completed".
Definition StatusFailed : string := "failed".

Record Transfer := mkTransfer {
  ID : UUID;
  SourceAccountID : UUID;
  DestinationAccountID : UUID;
  AmountMinor : Z;
  TCurrency : string;
  Status : string;
  CreatedAt : Z;
  CompletedAt : option Z
}.

Record Command := mkCommand {
  c_SourceAccountID : UUID;
  c_DestinationAccountID : UUID;
  c_AmountMinor : Z;
  c_Currency : string
}.

#[global] Instance Transfer_eq_dec : EqDecision Transfer.
Proof. solve_decision. Defined.
#[global] Instance Command_eq_dec : EqDecision Command.
Proof. solve_decision. Defined.

(** The idempotency key and fingerprint written with a transfer row. *)
Record idempotencyStamp := mkStamp { stamp_key : string; stamp_fingerprint : list ascii }.

Definition keyOrNil (s : option idempotencyStamp) : option string :=
  match s with None => None | Some s => Some (stamp_key s) end.
Definition fingerprintOrNil (s : option idempotencyStamp) : option (list ascii) :=
  match s with None => None | Some s => Some (stamp_fingerprint s) end.

(** ** [Command.Validate] *)

Definition Command_Validate (c : Command) : option goerr :=
  if c_AmountMinor c <=? 0 then
    Some (wrapping ErrInvalidAmount [Txt ": got "; Num (c_AmountMinor c)])
  else match Currency_Validate (c_Currency c) with
  | Some err => Some err
  | None =>
      if uuid_eqb (c_SourceAccountID c) (c_DestinationAccountID c) then
        Some (wrapping ErrSameAccount [Txt ": both are "; Uid (c_SourceAccountID c)])
      else if uuid_eqb (c_SourceAccountID c) uuid_Nil
              || uuid_eqb (c_DestinationAccountID c) uuid_Nil then
        Some (wrapping ErrSourceAccountNotFound
                [Txt ": account id must not be the zero uuid"])
      else None
  end.

(** ** Locking *)

(** The projection of an account row the posting reads. *)
Record account := mkLocked { acc_id : UUID; acc_currency : string; acc_balanceMinor : Z }.

Definition lockOrder (a b : UUID) : UUID * UUID :=
  if ucompare a b <=? 0 then (a, b) else (b, a).

Definition missingAccountError (err : goerr) (lockedID sourceID : UUID) : goerr :=
  if negb (errors_Is err pgx_ErrNoRows) then err
  else if uuid_eqb lockedID sourceID then
    wrapping ErrSourceAccountNotFound [Txt ": "; Uid lockedID]
  else wrapping ErrDestinationAccountNotFound [Txt ": "; Uid lockedID].

(** [SELECT id, currency, balance_minor FROM accounts WHERE id = $1 FOR UPDATE]. *)
Definition select_for_update (id : UUID) (db : Db) : option account :=
  match accounts db !! id with
  | Some r => Some (mkLocked (a_id r) (a_currency r) (a_balance_minor r))
  | None => None
  end.

Definition lockAccount (id : UUID) : tx account :=
  on_err (fun err =>
      if errors_Is err pgx_ErrNoRows then err
      else Wrap [Txt "transfer: lock account "; Uid id; Txt ": "] err [])
    (query_row (select_for_update id)).

Definition lockAccounts (sourceID destinationID : UUID) : tx (account * account) :=
  (let '(first, second) := lockOrder sourceID destinationID in
   lockedFirst <- on_err (fun err => missingAccountError err first sourceID)
                    (lockAccount first) ;;
   lockedSecond <- on_err (fun err => missingAccountError err second sourceID)
                     (lockAccount second) ;;
   if uuid_eqb (acc_id lockedFirst) sourceID
   then tx_ret (lockedFirst, lockedSecond)
   else tx_ret (lockedSecond, lockedFirst))%tx.

(** ** The statements of [post] *)

(** [INSERT INTO transfers ... VALUES (..., 'pending', ...) RETURNING created_at]. *)
Definition sql_insertTransfer (t : Transfer) (stamp : option idempotencyStamp)
    (now : Z) (db : Db) : sql (Db * list deferred * Z) :=
  let row := mkTransferRow (ID t) (SourceAccountID t) (DestinationAccountID t)
               (AmountMinor t) (TCurrency t) "pending" now None
               (keyOrNil stamp) (fingerprintOrNil stamp) in
  let! db' := insert_transfer row db in
  inr (db', [TransferWritten (ID t) "pending"], now).

(** [UPDATE accounts SET balance_minor = balance_minor - $2
     WHERE id = $1 AND balance_minor >= $2]. *)
Definition sql_debit (id : UUID) (amount : Z) (now : Z) (db : Db)
    : sql (Db * list deferred * Z) :=
  let! (db', n) := update_balance now id (fun r => amount <=? a_balance_minor r)
                     (fun r => a_balance_minor r - amount) db in
  inr (db', [], n).

(** [UPDATE accounts SET balance_minor = balance_minor + $2 WHERE id = $1]. *)
Definition sql_credit (id : UUID) (amount : Z) (now : Z) (db : Db)
    : sql (Db * list deferred * Z) :=
  let! (db', n) := update_balance now id (fun _ => true)
                     (fun r => a_balance_minor r + amount) db in
  inr (db', [], n).

(** [INSERT INTO ledger_entries ... VALUES (debit), (credit)]. *)
Definition sql_insertEntries (e1 e2 transferID : UUID) (cmd : Command) (now : Z) (db : Db)
    : sql (Db * list deferred * unit) :=
  let rows :=
    [ mkEntry e1 transferID (c_SourceAccountID cmd) (wrap64 (- c_AmountMinor cmd))
        (c_Currency cmd) now;
      mkEntry e2 transferID (c_DestinationAccountID cmd) (c_AmountMinor cmd)
        (c_Currency cmd) now ] in
  let! db' := insert_entries rows db in
  inr (db', [LedgerEntryInserted transferID; LedgerEntryInserted transferID], tt).

(** [UPDATE transfers SET status = 'completed', completed_at = now()
     WHERE id = $1 AND status = 'pending' RETURNING status, completed_at]. *)
Definition sql_complete (id : UUID) (now : Z) (db : Db)
    : sql (Db * list deferred * list (string * Z)) :=
  let! (db', rows) := update_transfer id (fun r => bool_decide (t_status r = "pending"))
      (fun r => mkTransferRow (t_id r) (t_source_account_id r) (t_destination_account_id r)
                  (t_amount_minor r) (t_currency r) "completed" (t_created_at r) (Some now)
                  (t_idempotency_key r) (t_request_fingerprint r)) db in
  inr (db', (fun r => TransferWritten (t_id r) (t_status r)) <$> rows,
       (fun r => (t_status r, now)) <$> rows).

(** [Scan] of the one row an [UPDATE ... RETURNING] yields, or [pgx.ErrNoRows]. *)
Definition scan_one {A} (rows : list A) : tx A :=
  match rows with
  | a :: _ => tx_ret a
  | [] => throw pgx_ErrNoRows
  end.

Definition assertBalanced (transferID : UUID) : tx unit :=
  ('(sum, count) <- on_err (prefixed "transfer: verify invariant: ")
      ('(s, n) <- query_row (fun db => Some (entry_sum transferID db, entry_count transferID db)) ;;
       sum <- lift_result (scan_int64 s) ;;
       tx_ret (sum, n)) ;;
   if negb (count =? 2) then
     throw (wrapping ErrNotBalanced [Txt ": transfer "; Uid transferID; Txt " has ";
                                     Num count; Txt " entries, want 2"])
   else if negb (sum =? 0) then
     throw (wrapping ErrNotBalanced [Txt ": transfer "; Uid transferID;
                                     Txt " entries sum to "; Num sum; Txt ", want 0"])
   else tx_ret tt)%tx.

(** ** [post] and [postOnce] *)

Definition post (cmd : Command) (stamp : option idempotencyStamp) : tx Transfer :=
  ('(source, destination) <-
     lockAccounts (c_SourceAccountID cmd) (c_DestinationAccountID cmd) ;;

   if negb (bool_decide (acc_currency source = c_Currency cmd)) then
     throw (wrapping ErrCurrencyMismatch
              [Txt ": source account is "; Str (acc_currency source);
               Txt ", transfer is "; Str (c_Currency cmd)]) else
   if negb (bool_decide (acc_currency destination = c_Currency cmd)) then
     throw (wrapping ErrCurrencyMismatch
              [Txt ": destination account is "; Str (acc_currency destination);
               Txt ", transfer is "; Str (c_Currency cmd)]) else
   if acc_balanceMinor source <? c_AmountMinor cmd then
     throw (wrapping ErrInsufficientFunds
              [Txt ": account "; Uid (acc_id source); Txt " holds ";
               Num (acc_balanceMinor source); Txt ", needs "; Num (c_AmountMinor cmd)]) else

   transferID <- new_uuid ;;
   let created := mkTransfer transferID (c_SourceAccountID cmd) (c_DestinationAccountID cmd)
                    (c_AmountMinor cmd) (c_Currency cmd) StatusPending zero_time None in
   createdAt <- on_err (prefixed "transfer: insert: ")
                  (exec (sql_insertTransfer created stamp)) ;;

   affected <- on_err (prefixed "transfer: debit source: ")
                 (exec (sql_debit (c_SourceAccountID cmd) (c_AmountMinor cmd))) ;;
   if negb (affected =? 1) then
     throw (wrapping ErrInsufficientFunds
              [Txt ": account "; Uid (c_SourceAccountID cmd);
               Txt " no longer holds "; Num (c_AmountMinor cmd)]) else

   affected <- on_err (prefixed "transfer: credit destination: ")
                 (exec (sql_credit (c_DestinationAccountID cmd) (c_AmountMinor cmd))) ;;
   if negb (affected =? 1) then
     throw (Plain [Txt "transfer: credit destination "; Uid (c_DestinationAccountID cmd);
                   Txt " affected "; Num affected; Txt " rows, want 1"]) else

   e1 <- new_uuid ;;
   e2 <- new_uuid ;;
   _ <- on_err (prefixed "transfer: insert ledger entries: ")
          (exec (sql_insertEntries e1 e2 transferID cmd)) ;;

   _ <- assertBalanced transferID ;;

   '(status, completedAt) <- on_err (prefixed "transfer: mark completed: ")
      (rows <- exec (sql_complete transferID) ;; scan_one rows) ;;

   tx_ret (mkTransfer (ID created) (SourceAccountID created) (DestinationAccountID created)
             (AmountMinor created) (TCurrency created) status createdAt (Some completedAt)))%tx.

Definition postOnce (cmd : Command) (stamp : option idempotencyStamp) (env : TxEnv) (db : Db)
    : Db * result Transfer :=
  run_tx (prefixed "transfer: begin: ") (prefixed "transfer: commit: ") (post cmd stamp) env db.

(** The columns [Get] and the recovery query read, as a [Transfer]. *)
Definition transfer_of_row (r : TransferRow) : Transfer :=
  mkTransfer (t_id r) (t_source_account_id r) (t_destination_account_id r)
    (t_amount_minor r) (t_currency r) (t_status r) (t_created_at r) (t_completed_at r).
