(* ===== verification/Posting.v ===== *)
(** * What posting a transfer means

    The abstract specification of one posting, [apply_posting]: the debit, the
    credit, the completed transfer row and its two entries, as one update of
    the database; [can_post] says when it is allowed. [post_sound] and
    [post_complete] show that the statement-by-statement [post] implements it. *)
From stdpp Require Import base gmap fin_maps strings list.
From Stdlib Require Import ZArith Lia Ascii.
From S2P Require Import Prelude.
From S2P Require Import GoStd.
From S2P Require Import GoTime.
From S2P Require Import Uuid.
From S2P Require Import Errors.
From S2P Require Import Money.
From S2P Require Import Schema.
From S2P Require Import Tx.
From S2P Require Import Transfer.

Open Scope Z_scope.

(** Rows are stored under their primary key. *)
Record well_keyed (db : Db) : Prop := {
  wk_accounts : forall id r, accounts db !! id = Some r -> a_id r = id;
  wk_transfers : forall id r, transfers db !! id = Some r -> t_id r = id;
  wk_entries : forall id r, ledger_entries db !! id = Some r -> e_id r = id
}.

Section posting.
Variables (cmd : Command) (stamp : option idempotencyStamp).
(** The identifiers drawn for the transfer and its entries, and the time. *)
Variables (tid e1 e2 : UUID) (now : Z).

Let src := c_SourceAccountID cmd.
Let dst := c_DestinationAccountID cmd.
Let amt := c_AmountMinor cmd.
Let cur := c_Currency cmd.

Definition debited (r : AccountRow) : AccountRow :=
  set_updated_at now (with_balance r (a_balance_minor r - amt)).
Definition credited (r : AccountRow) : AccountRow :=
  set_updated_at now (with_balance r (a_balance_minor r + amt)).

Definition pending_row : TransferRow :=
  mkTransferRow tid src dst amt cur "pending" now None
    (keyOrNil stamp) (fingerprintOrNil stamp).
Definition completed_row : TransferRow :=
  mkTransferRow tid src dst amt cur "completed" now (Some now)
    (keyOrNil stamp) (fingerprintOrNil stamp).
Definition debit_entry : EntryRow := mkEntry e1 tid src (- amt) cur now.
Definition credit_entry : EntryRow := mkEntry e2 tid dst amt cur now.

(** The posting as a single update. *)
Definition apply_posting (s d : AccountRow) (db : Db) : Db :=
  mkDb (<[dst := credited d]> (<[src := debited s]> (accounts db)))
       (<[tid := completed_row]> (transfers db))
       (<[e2 := credit_entry]> (<[e1 := debit_entry]> (ledger_entries db))).

Definition posted_transfer : Transfer :=
  mkTransfer tid src dst amt cur StatusCompleted now (Some now).

(** When the posting is allowed. *)
Record can_post (s d : AccountRow) (db : Db) : Prop := {
  cp_amount : 0 < amt <= int64_max;
  cp_distinct : src <> dst;
  cp_currency : currency_format cur = true;
  cp_source : accounts db !! src = Some s;
  cp_destination : accounts db !! dst = Some d;
  cp_source_currency : a_currency s = cur;
  cp_destination_currency : a_currency d = cur;
  cp_funds : amt <= a_balance_minor s;
  cp_source_bound : a_balance_minor s - amt <= int64_max;
  cp_destination_bound : 0 <= a_balance_minor d + amt <= int64_max;
  cp_transfer_fresh : transfers db !! tid = None;
  cp_entries_distinct : e1 <> e2;
  cp_debit_fresh : ledger_entries db !! e1 = None;
  cp_credit_fresh : ledger_entries db !! e2 = None;
  cp_no_entries : entry_count tid db = 0 /\ entry_sum tid db = 0;
  cp_key_free : key_free (keyOrNil stamp) db = true;
  cp_stamp : forall st, stamp = Some st ->
    text_ok (stamp_key st) = true /\ 1 <= character_length (stamp_key st) <= 255
    /\ length (stamp_fingerprint st) = 32%nat
}.
End posting.

(** Takes a successful transaction apart into its successful statements. *)
Ltac tx_inv :=
  repeat match goal with
  | H : tx_bind _ _ _ _ = (_, Ok _) |- _ => apply tx_bind_Ok in H as (? & ? & ? & H)
  | H : on_err _ _ _ _ = (_, Ok _) |- _ => apply on_err_Ok in H
  | H : exec _ _ _ = (_, Ok _) |- _ => apply exec_Ok in H as (? & ? & H & ->)
  | H : query_row _ _ _ = (_, Ok _) |- _ => apply query_row_Ok in H as (H & ->)
  | H : throw _ _ _ = (_, Ok _) |- _ => discriminate H
  | H : tx_ret _ _ _ = (_, Ok _) |- _ => injection H as <- <-
  | H : new_uuid _ _ = (_, Ok _) |- _ => injection H as <- <-
  | H : lift_result _ _ _ = (_, Ok _) |- _ => injection H as <- H
  | H : (if ?b then _ else _) _ _ = (_, Ok _) |- _ => destruct b eqn:?
  | H : (match ?p with (_, _) => _ end) _ _ = (_, Ok _) |- _ => destruct p
  end.

Lemma lockAccount_Ok id env st st' a :
  lockAccount id env st = (st', Ok a) ->
  exists r, accounts (tx_db st) !! id = Some r
    /\ a = mkLocked (a_id r) (a_currency r) (a_balance_minor r)
    /\ tx_db st' = tx_db st /\ tx_deferred st' = tx_deferred st /\ tx_uuids st' = tx_uuids st.
Proof.
  unfold lockAccount. intros H. tx_inv. unfold select_for_update in H.
  destruct (accounts _ !! id) as [r|]; [|done]. simplify_eq. exists r. done.
Qed.

Lemma lockOrder_cases a b : lockOrder a b = (a, b) \/ lockOrder a b = (b, a).
Proof. unfold lockOrder. destruct (_ <=? _); auto. Qed.

(** The rows come back in their business roles whatever the lock order was. *)
Lemma lockAccounts_Ok src dst env st st' s d :
  well_keyed (tx_db st) -> src <> dst ->
  lockAccounts src dst env st = (st', Ok (s, d)) ->
  exists rs rd, accounts (tx_db st) !! src = Some rs /\ accounts (tx_db st) !! dst = Some rd
    /\ s = mkLocked src (a_currency rs) (a_balance_minor rs)
    /\ d = mkLocked dst (a_currency rd) (a_balance_minor rd)
    /\ tx_db st' = tx_db st /\ tx_deferred st' = tx_deferred st /\ tx_uuids st' = tx_uuids st.
Proof.
  intros Hwk Hne H. unfold lockAccounts in H.
  destruct (lockOrder_cases src dst) as [E|E]; rewrite E in H; tx_inv;
  repeat match goal with
  | H : lockAccount _ _ _ = _ |- _ => apply lockAccount_Ok in H as (? & ? & ? & ? & ? & ?)
  end; simplify_eq/=;
  repeat match goal with
  | H : tx_db ?a = tx_db ?b |- _ => rewrite H in *; clear H
  | H : accounts _ !! _ = Some ?r |- _ => 
      first [ match goal with H' : a_id r = _ |- _ => idtac end; fail 1
            | pose proof (wk_accounts _ Hwk _ _ H) ]
  | H : uuid_eqb _ _ = true |- _ => apply bool_decide_eq_true in H
  | H : uuid_eqb _ _ = false |- _ => apply bool_decide_eq_false in H
  end; simplify_eq/=.
  all: eauto 12 with congruence.
Qed.

(** ** Entry aggregates of one transfer after an insertion *)

Lemma wrap64_neg_pos a (H : 0 < a <= int64_max) : wrap64 (- a) = - a.
Proof. apply wrap64_id; int64. Qed.

Section sound.
Variables (cmd : Command) (stamp : option idempotencyStamp).
Let src := c_SourceAccountID cmd.
Let dst := c_DestinationAccountID cmd.

(** What the row-level checks say of a pending row. *)
Lemma pending_row_checks tid now :
  Forall (fun c => snd c = true) (transfers_checks (pending_row cmd stamp tid now)) ->
  0 < c_AmountMinor cmd /\ src <> dst /\ currency_format (c_Currency cmd) = true
  /\ forall st, stamp = Some st ->
       1 <= character_length (stamp_key st) <= 255
       /\ length (stamp_fingerprint st) = 32%nat.
Proof.
  unfold transfers_checks. rewrite !Forall_cons. simpl.
  intros (Ha & _ & Hc & Hd & Hk & _ & Hf & _).
  apply Z.ltb_lt in Ha. apply negb_true_iff, bool_decide_eq_false in Hd.
  split; [done |]. split; [done |]. split; [done |]. intros st ->. simpl in *.
  apply andb_true_iff in Hk as [H1%Z.leb_le H2%Z.leb_le]. apply Nat.eqb_eq in Hf. done.
Qed.

Lemma sql_insertTransfer_inr tid now db db' ds at0 :
  let t := mkTransfer tid src dst (c_AmountMinor cmd) (c_Currency cmd) StatusPending zero_time None in
  sql_insertTransfer t stamp now db = inr (db', ds, at0) ->
  at0 = now /\ insert_transfer (pending_row cmd stamp tid now) db = inr db'.
Proof. unfold sql_insertTransfer. simpl. intros H. sql_inv H. by simplify_eq. Qed.

Lemma sql_debit_inr now db db' ds n :
  sql_debit src (c_AmountMinor cmd) now db = inr (db', ds, n) -> n = 1 ->
  exists r, accounts db !! src = Some r /\ c_AmountMinor cmd <= a_balance_minor r
    /\ in_int64 (a_balance_minor r - c_AmountMinor cmd) = true
    /\ db' = mkDb (<[src := debited cmd now r]> (accounts db)) (transfers db) (ledger_entries db).
Proof.
  unfold sql_debit. intros H Hn. sql_inv H. simplify_eq.
  apply update_balance_inr in Hs as (r & Hr & Hg & Hb & _ & _ & ->); [|done].
  apply Z.leb_le in Hg. exists r. done.
Qed.

Lemma sql_credit_inr now db db' ds n :
  sql_credit dst (c_AmountMinor cmd) now db = inr (db', ds, n) -> n = 1 ->
  exists r, accounts db !! dst = Some r
    /\ 0 <= a_balance_minor r + c_AmountMinor cmd <= int64_max
    /\ db' = mkDb (<[dst := credited cmd now r]> (accounts db)) (transfers db) (ledger_entries db).
Proof.
  unfold sql_credit. intros H Hn. sql_inv H. simplify_eq.
  apply update_balance_inr in Hs as (r & Hr & _ & Hb & Hp & _ & ->); [|done].
  apply in_int64_spec in Hb. exists r. split; [done |]. split; [lia | done].
Qed.

Lemma sql_insertEntries_inr e1 e2 tid now db db' ds u :
  0 < c_AmountMinor cmd <= int64_max ->
  sql_insertEntries e1 e2 tid cmd now db = inr (db', ds, u) ->
  ledger_entries db !! e1 = None /\ e1 <> e2 /\ ledger_entries db !! e2 = None
  /\ db' = mkDb (accounts db) (transfers db)
       (<[e2 := credit_entry cmd tid e2 now]>
          (<[e1 := debit_entry cmd tid e1 now]> (ledger_entries db))).
Proof.
  intros Hamt. unfold sql_insertEntries, insert_entries, insert_entry_rows.
  rewrite (wrap64_neg_pos _ Hamt). intros H. sql_inv H. sql_inv Hs. sql_inv Hs0. simplify_eq.
  repeat match goal with
  | E : insert_entry_row _ _ = inr _ |- _ =>
      apply insert_entry_row_inr in E as (_ & _ & _ & ? & _ & ->)
  end. simpl in *.
  repeat match goal with
  | E : <[_ := _]> _ !! _ = None |- _ => rewrite lookup_insert_None in E; destruct E
  end. done.
Qed.

Lemma assertBalanced_Ok tid env st st' u :
  assertBalanced tid env st = (st', Ok u) ->
  entry_count tid (tx_db st) = 2 /\ entry_sum tid (tx_db st) = 0
  /\ tx_db st' = tx_db st /\ tx_deferred st' = tx_deferred st /\ tx_uuids st' = tx_uuids st.
Proof.
  unfold assertBalanced. intros H. tx_inv. simplify_eq/=.
  unfold scan_int64 in *. case_match; simplify_eq.
  rewrite !negb_false_iff, !Z.eqb_eq in *. done.
Qed.

Lemma sql_complete_inr tid now db db' ds st' at0 rest :
  transfers db !! tid = Some (pending_row cmd stamp tid now) ->
  sql_complete tid now db = inr (db', ds, (st', at0) :: rest) ->
  st' = StatusCompleted /\ at0 = now
  /\ db' = mkDb (accounts db) (<[tid := completed_row cmd stamp tid now]> (transfers db))
             (ledger_entries db).
Proof.
  intros Hp. unfold sql_complete. intros H. sql_inv H. simplify_eq.
  destruct l as [|r' rs]; simplify_eq/=.
  apply update_transfer_inr in Hs as (r & Hr & _ & _ & _ & -> & -> & ->).
  rewrite Hp in Hr. by simplify_eq.
Qed.
End sound.

Lemma can_post_no_entries tid e1 e2 cmd now m :
  m !! e1 = None -> e1 <> e2 -> m !! e2 = None ->
  let m' := <[e2 := credit_entry cmd tid e2 now]> (<[e1 := debit_entry cmd tid e1 now]> m) in
  countZ (of_transfer tid) m' = 2 + countZ (of_transfer tid) m
  /\ sumZ (fun e => if of_transfer tid e then e_amount_minor e else 0) m'
     = sumZ (fun e => if of_transfer tid e then e_amount_minor e else 0) m.
Proof.
  intros H1 Hne H2 m'. unfold m', countZ.
  rewrite !sumZ_insert by (rewrite ?lookup_insert_ne; done).
  unfold of_transfer; simpl. rewrite !uuid_eqb_refl. lia.
Qed.

(** Every successful [post] performs exactly the abstract posting. *)
Lemma post_sound cmd stamp env db st t :
  well_keyed db ->
  post cmd stamp env (tx_start db) = (st, Ok t) ->
  exists s d,
    can_post cmd stamp (tx_uuid env 0) (tx_uuid env 1) (tx_uuid env 2) s d db
    /\ tx_db st = apply_posting cmd stamp (tx_uuid env 0) (tx_uuid env 1) (tx_uuid env 2)
                    (tx_now env) s d db
    /\ t = posted_transfer cmd (tx_uuid env 0) (tx_now env).
Proof.
  intros Hwk H. unfold post in H. tx_inv. simpl in *.
  match goal with H : sql_insertTransfer _ _ _ _ = _ |- _ =>
    apply sql_insertTransfer_inr in H as [-> (Hi & Hck & Htx & Hfresh & Hkey & _ & _ & ->)%insert_transfer_inr]
  end.
  apply pending_row_checks in Hck as (Hpos & Hne & Hcur & Hst). simpl in *.
  apply in_int64_spec in Hi.
  match goal with H : lockAccounts _ _ _ _ = _ |- _ =>
    apply lockAccounts_Ok in H as (s0 & d0 & Hs & Hd & -> & -> & Edb & _ & Eu); [|done..]
  end. simpl in *.
  rewrite Edb, Eu in *. rewrite !negb_false_iff, ?bool_decide_eq_true, ?Z.eqb_eq in *.
  match goal with H : sql_debit _ _ _ _ = _ |- _ =>
    apply sql_debit_inr in H as (s' & Hs' & Hf & Hsb & ->); [|done]
  end. simpl in *. rewrite Hs in Hs'. injection Hs' as <-.
  match goal with H : sql_credit _ _ _ _ = _ |- _ =>
    apply sql_credit_inr in H as (d' & Hd' & Hb & ->); [|done]
  end. simpl in *. rewrite lookup_insert_ne, Hd in Hd' by done. injection Hd' as <-.
  match goal with H : sql_insertEntries _ _ _ _ _ _ = _ |- _ =>
    apply sql_insertEntries_inr in H as (He1 & He12 & He2 & ->); [|lia]
  end.
  match goal with H : assertBalanced _ _ _ = _ |- _ =>
    apply assertBalanced_Ok in H as (Hcnt & Hsum & Edb2 & _ & _)
  end. simpl in *. rewrite Edb2 in *.
  match goal with H : scan_one ?rs _ _ = _ |- _ =>
    destruct rs as [|[? ?] rest]; simpl in H; tx_inv; simplify_eq/=
  end.
  match goal with H : sql_complete _ _ _ = _ |- _ =>
    apply (sql_complete_inr cmd stamp) in H as (-> & -> & ->); [|apply lookup_insert_eq]
  end.
  unfold entry_count, entry_sum in Hcnt, Hsum. simpl in *.
  destruct (can_post_no_entries (tx_uuid env 0) _ _ cmd (tx_now env) _ He1 He12 He2) as [Ec Es].
  rewrite Ec in Hcnt. rewrite Es in Hsum.
  exists s0, d0. split; [|split; [|done]].
  - apply in_int64_spec in Hsb.
    constructor; try done; unfold int64_max in *; try lia.
    + split; unfold entry_count, entry_sum; lia.
    + intros stp ->. destruct (Hst stp eq_refl). done.
  - unfold apply_posting. by rewrite insert_insert_eq.
Qed.

(** ** Completeness: an allowed posting goes through *)

Lemma currency_format_length c : currency_format c = true -> varchar3 c = true.
Proof.
  unfold currency_format. rewrite andb_true_iff, Nat.eqb_eq. intros [Hl Hb].
  destruct c as [|x [|y [|z [|? ?]]]]; try discriminate Hl.
  unfold all_bytes in Hb. simpl in Hb. rewrite !andb_true_iff in Hb.
  destruct Hb as (Hx & Hy & Hz & _).
  assert (Hup : forall b, upper_rune (bz b) = true -> bz b < 128).
  { intros b. unfold upper_rune. rewrite negb_true_iff, orb_false_iff, !Z.ltb_ge. lia. }
  unfold varchar3, character_length, runes. simpl.
  rewrite !decode_rune_ascii by auto. done.
Qed.

Lemma exec_step {A} (f : Z -> Db -> sql (Db * list deferred * A)) env st db' ds a :
  (forall n, tx_fault env n = None) -> f (tx_now env) (tx_db st) = inr (db', ds, a) ->
  exec f env st = (mkTx db' (tx_deferred st ++ ds) (S (tx_stmts st)) (tx_uuids st), Ok a).
Proof. intros Hc Hf. unfold exec. by rewrite Hc, Hf. Qed.

Lemma query_row_step {A} (f : Db -> option A) env st a :
  (forall n, tx_fault env n = None) -> f (tx_db st) = Some a ->
  query_row f env st =
    (mkTx (tx_db st) (tx_deferred st) (S (tx_stmts st)) (tx_uuids st), Ok a).
Proof. intros Hc Hf. unfold query_row. by rewrite Hc, Hf. Qed.

Lemma tx_bind_step {A B} (m : tx A) (k : A -> tx B) env st st1 a :
  m env st = (st1, Ok a) -> tx_bind m k env st = k a env st1.
Proof. unfold tx_bind. by intros ->. Qed.

Lemma on_err_step {A} f (m : tx A) env st st1 a :
  m env st = (st1, Ok a) -> on_err f m env st = (st1, Ok a).
Proof. unfold on_err. by intros ->. Qed.

Section complete.
Variables (cmd : Command) (stamp : option idempotencyStamp) (env : TxEnv).
Let src := c_SourceAccountID cmd.
Let dst := c_DestinationAccountID cmd.
Let tid := tx_uuid env 0.
Let e1 := tx_uuid env 1.
Let e2 := tx_uuid env 2.
Let now := tx_now env.
Hypothesis Hcalm : forall n, tx_fault env n = None.

Lemma lockAccount_step id r st :
  accounts (tx_db st) !! id = Some r ->
  lockAccount id env st =
    (mkTx (tx_db st) (tx_deferred st) (S (tx_stmts st)) (tx_uuids st),
     Ok (mkLocked (a_id r) (a_currency r) (a_balance_minor r))).
Proof.
  intros Hr. unfold lockAccount. apply on_err_step, query_row_step; [done |].
  unfold select_for_update. by rewrite Hr.
Qed.

Lemma lockAccounts_step s d st :
  well_keyed (tx_db st) -> src <> dst ->
  accounts (tx_db st) !! src = Some s -> accounts (tx_db st) !! dst = Some d ->
  lockAccounts src dst env st =
    (mkTx (tx_db st) (tx_deferred st) (S (S (tx_stmts st))) (tx_uuids st),
     Ok (mkLocked src (a_currency s) (a_balance_minor s),
         mkLocked dst (a_currency d) (a_balance_minor d))).
Proof.
  intros Hwk Hne Hs Hd. unfold lockAccounts.
  pose proof (wk_accounts _ Hwk _ _ Hs) as Is. pose proof (wk_accounts _ Hwk _ _ Hd) as Id.
  destruct (lockOrder_cases src dst) as [E|E]; rewrite E.
  - erewrite tx_bind_step by (apply on_err_step, lockAccount_step; done).
    erewrite tx_bind_step by (apply on_err_step, lockAccount_step; done). simpl.
    by rewrite Is, Id, uuid_eqb_refl.
  - erewrite tx_bind_step by (apply on_err_step, lockAccount_step; done).
    erewrite tx_bind_step by (apply on_err_step, lockAccount_step; done). simpl.
    by rewrite Is, Id, uuid_eqb_ne.
Qed.

(** A well-formed row for existing accounts is refused only for its key. *)
Lemma insert_transfer_eval db :
  0 < c_AmountMinor cmd <= int64_max -> src <> dst -> currency_format (c_Currency cmd) = true ->
  (forall st, stamp = Some st ->
     text_ok (stamp_key st) = true /\ 1 <= character_length (stamp_key st) <= 255
     /\ length (stamp_fingerprint st) = 32%nat) ->
  transfers db !! tid = None -> is_Some (accounts db !! src) -> is_Some (accounts db !! dst) ->
  insert_transfer (pending_row cmd stamp tid now) db
  = if key_free (keyOrNil stamp) db
    then inr (mkDb (accounts db) (<[tid := pending_row cmd stamp tid now]> (transfers db))
                (ledger_entries db))
    else inl (unique_violation "transfers_idempotency_key_unique").
Proof.
  intros Hamt Hne Hcur Hstamp Hf Hs Hd. unfold insert_transfer. simpl.
  assert (Hst : from_option text_ok true (keyOrNil stamp) = true)
    by (destruct stamp as [st|]; [by destruct (Hstamp st) | done]).
  assert (Hck : check_constraints (transfers_checks (pending_row cmd stamp tid now)) = inr tt).
  { apply check_constraints_inr. unfold transfers_checks. rewrite !Forall_cons. simpl.
    rewrite (proj2 (Z.ltb_lt _ _)) by lia. rewrite uuid_eqb_ne by done.
    destruct stamp as [st|]; simpl; [|done].
    destruct (Hstamp st eq_refl) as (_ & Hl & Hfp).
    rewrite (proj2 (Z.leb_le _ _)), (proj2 (Z.leb_le _ _)), Hfp by lia. done. }
  rewrite (proj2 (in_int64_spec _)) by (unfold int64_min, int64_max in *; lia).
  rewrite (currency_format_length _ Hcur), Hst, Hck. simpl.
  rewrite !bool_decide_eq_true_2 by eauto. simpl.
  by destruct (key_free (keyOrNil stamp) db).
Qed.

Lemma insert_transfer_fwd s d db :
  can_post cmd stamp tid e1 e2 s d db ->
  insert_transfer (pending_row cmd stamp tid now) db
  = inr (mkDb (accounts db) (<[tid := pending_row cmd stamp tid now]> (transfers db))
           (ledger_entries db)).
Proof.
  intros []. rewrite insert_transfer_eval by eauto. by rewrite cp_key_free0.
Qed.

Lemma update_balance_fwd guard b db id r :
  accounts db !! id = Some r -> guard r = true -> in_int64 (b r) = true -> 0 <= b r ->
  currency_format (a_currency r) = true ->
  update_balance now id guard b db
  = inr (mkDb (<[id := set_updated_at now (with_balance r (b r))]> (accounts db))
           (transfers db) (ledger_entries db), 1).
Proof.
  intros Hr Hg Hb Hp Hc. unfold update_balance. rewrite Hr, Hg, Hb. simpl.
  rewrite (proj2 (check_constraints_inr _ tt)); [done |].
  unfold accounts_checks. rewrite !Forall_cons. simpl.
  by rewrite Hc, (proj2 (Z.leb_le _ _)).
Qed.

(** The two balance updates of an allowed posting, on a database in which the
    account still is as it was. *)
Lemma debit_fwd s d db db1 :
  can_post cmd stamp tid e1 e2 s d db -> accounts db1 !! src = Some s ->
  sql_debit src (c_AmountMinor cmd) now db1
  = inr (mkDb (<[src := debited cmd now s]> (accounts db1)) (transfers db1) (ledger_entries db1), [], 1).
Proof.
  intros [] Hs. unfold sql_debit. rewrite (update_balance_fwd _ _ _ _ s); simpl; try done.
  - by apply Z.leb_le.
  - int64.
  - lia.
  - by rewrite cp_source_currency0.
Qed.

Lemma credit_fwd s d db db1 :
  can_post cmd stamp tid e1 e2 s d db -> accounts db1 !! dst = Some d ->
  sql_credit dst (c_AmountMinor cmd) now db1
  = inr (mkDb (<[dst := credited cmd now d]> (accounts db1)) (transfers db1) (ledger_entries db1), [], 1).
Proof.
  intros [] Hd. unfold sql_credit. rewrite (update_balance_fwd _ _ _ _ d); simpl; try done.
  - int64.
  - lia.
  - by rewrite cp_destination_currency0.
Qed.

Lemma insert_entry_row_fwd r db :
  in_int64 (e_amount_minor r) = true -> e_amount_minor r <> 0 ->
  currency_format (e_currency r) = true -> ledger_entries db !! e_id r = None ->
  countZ (same_leg (e_transfer_id r) (e_account_id r)) (ledger_entries db) = 0 ->
  insert_entry_row r db
  = inr (mkDb (accounts db) (transfers db) (<[e_id r := r]> (ledger_entries db))).
Proof.
  intros Hi Hz Hc Hf Hl. unfold insert_entry_row.
  rewrite Hi, (currency_format_length _ Hc), Hl. simpl.
  rewrite (proj2 (check_constraints_inr _ tt)).
  - by rewrite bool_decide_eq_true_2.
  - unfold ledger_entries_checks. rewrite !Forall_cons. simpl.
    by rewrite (proj2 (Z.eqb_neq _ _)).
Qed.

Lemma insertEntries_fwd s d db db1 :
  can_post cmd stamp tid e1 e2 s d db ->
  ledger_entries db1 = ledger_entries db -> is_Some (transfers db1 !! tid) ->
  is_Some (accounts db1 !! src) -> is_Some (accounts db1 !! dst) ->
  sql_insertEntries e1 e2 tid cmd now db1
  = inr (mkDb (accounts db1) (transfers db1)
           (<[e2 := credit_entry cmd tid e2 now]>
              (<[e1 := debit_entry cmd tid e1 now]> (ledger_entries db))),
         [LedgerEntryInserted tid; LedgerEntryInserted tid], tt).
Proof.
  intros [] El Ht Hs Hd. destruct cp_no_entries0 as [Hcnt _].
  assert (Hleg : forall a, countZ (same_leg tid a) (ledger_entries db) = 0).
  { intros a. apply countZ_zero. intros k v Hk. unfold same_leg.
    pose proof (proj1 (countZ_zero _ _) Hcnt k v Hk) as Hf. unfold of_transfer in Hf.
    by rewrite Hf. }
  unfold sql_insertEntries, insert_entries, insert_entry_rows.
  rewrite wrap64_neg_pos by done.
  rewrite insert_entry_row_fwd; simpl; rewrite ?El; auto; try lia;
    [|int64].
  rewrite insert_entry_row_fwd; simpl; rewrite ?El; auto; try lia.
  - rewrite !bool_decide_eq_true_2 by done. done.
  - int64.
  - by rewrite lookup_insert_ne.
  - rewrite countZ_insert, Hleg by done. unfold same_leg. simpl.
    fold src dst. rewrite (uuid_eqb_ne src dst) by done. by rewrite andb_false_r.
Qed.

Lemma complete_fwd db :
  transfers db !! tid = Some (pending_row cmd stamp tid now) ->
  Forall (fun c => snd c = true) (transfers_checks (completed_row cmd stamp tid now)) ->
  sql_complete tid now db
  = inr (mkDb (accounts db) (<[tid := completed_row cmd stamp tid now]> (transfers db))
           (ledger_entries db),
         [TransferWritten tid "completed"], [(StatusCompleted, now)]).
Proof.
  intros Hp Hck. unfold sql_complete, update_transfer. rewrite Hp. simpl.
  by rewrite (proj2 (check_constraints_inr _ tt)) by done.
Qed.

Lemma completed_row_checks s d db :
  can_post cmd stamp tid e1 e2 s d db ->
  Forall (fun c => snd c = true) (transfers_checks (completed_row cmd stamp tid now)).
Proof.
  intros []. unfold transfers_checks. rewrite !Forall_cons. simpl.
  rewrite (proj2 (Z.ltb_lt _ _)) by lia. rewrite uuid_eqb_ne by done.
  destruct stamp as [st|]; simpl; [|done].
  destruct (cp_stamp0 st eq_refl) as (_ & Hl & Hf).
  rewrite (proj2 (Z.leb_le _ _)), (proj2 (Z.leb_le _ _)), Hf by lia. done.
Qed.

Lemma assertBalanced_step st :
  entry_count tid (tx_db st) = 2 -> entry_sum tid (tx_db st) = 0 ->
  assertBalanced tid env st =
    (mkTx (tx_db st) (tx_deferred st) (S (tx_stmts st)) (tx_uuids st), Ok tt).
Proof.
  intros Hc Hs. unfold assertBalanced. erewrite tx_bind_step.
  2: { apply on_err_step. erewrite tx_bind_step by (apply query_row_step; done).
       unfold tx_bind, lift_result. rewrite Hs, Hc. reflexivity. }
  reflexivity.
Qed.

(** The deferred assertion accepts the posting. *)
Lemma apply_posting_balanced s d db :
  can_post cmd stamp tid e1 e2 s d db ->
  let db' := apply_posting cmd stamp tid e1 e2 now s d db in
  entry_count tid db' = 2 /\ entry_sum tid db' = 0
  /\ assert_transfer_balanced tid db' = inr tt.
Proof.
  intros Hp db'. pose proof Hp as []. destruct cp_no_entries0 as [Hcnt Hsum].
  destruct (can_post_no_entries tid e1 e2 cmd now (ledger_entries db)) as [Ec Es]; [done..|].
  assert (Hc : entry_count tid db' = 2)
    by (unfold entry_count in *; simpl; rewrite Ec; lia).
  assert (Hs : entry_sum tid db' = 0)
    by (unfold entry_sum in *; simpl; rewrite Es; lia).
  split; [done |]. split; [done |].
  unfold assert_transfer_balanced. simpl. rewrite lookup_insert_eq, Hc, Hs. simpl.
  assert (Hw : wrong_currency_count tid (c_Currency cmd) db' = 0).
  { apply countZ_zero. intros k v Hk.
    destruct (of_transfer tid v) eqn:Eo; [|done]. simpl.
    simpl in Hk. rewrite !lookup_insert in Hk.
    repeat case_decide; simplify_eq/=; try done.
    by rewrite (proj1 (countZ_zero _ _) Hcnt k v Hk) in Eo. }
  by rewrite Hw.
Qed.

Lemma post_complete s d db :
  well_keyed db -> can_post cmd stamp tid e1 e2 s d db ->
  exists st, post cmd stamp env (tx_start db) = (st, Ok (posted_transfer cmd tid now))
    /\ tx_db st = apply_posting cmd stamp tid e1 e2 now s d db
    /\ run_all_deferred (tx_deferred st) (tx_db st) = inr tt.
Proof.
  intros Hwk Hp. pose proof Hp as [].
  destruct (apply_posting_balanced _ _ _ Hp) as (Hcnt & Hsum & Hassert).
  unfold post.
  erewrite tx_bind_step by (apply lockAccounts_step; done). simpl.
  rewrite cp_source_currency0, cp_destination_currency0, !bool_decide_eq_true_2 by done. simpl.
  rewrite (proj2 (Z.ltb_ge _ _)) by done.
  erewrite tx_bind_step by reflexivity. simpl.
  erewrite tx_bind_step.
  2: { apply on_err_step, exec_step; [done |]. unfold sql_insertTransfer. simpl.
       fold tid now src dst. change (mkTransferRow _ _ _ _ _ _ _ _ _ _)
         with (pending_row cmd stamp tid now).
       rewrite (insert_transfer_fwd s d) by done. reflexivity. }
  simpl. erewrite tx_bind_step.
  2: { apply on_err_step, exec_step; [done |]. by apply (debit_fwd s d db). }
  simpl. erewrite tx_bind_step.
  2: { apply on_err_step, exec_step; [done |]. apply (credit_fwd s d db); [done |].
       simpl. by rewrite lookup_insert_ne. }
  simpl. do 2 (erewrite tx_bind_step by reflexivity). simpl.
  erewrite tx_bind_step.
  2: { apply on_err_step, exec_step; [done |].
       apply (insertEntries_fwd s d db); simpl; try done.
       - rewrite lookup_insert_eq. eauto.
       - rewrite lookup_insert_ne by done. rewrite lookup_insert_eq. eauto.
       - rewrite lookup_insert_eq. eauto. }
  simpl. erewrite tx_bind_step by (by apply assertBalanced_step). simpl.
  erewrite tx_bind_step.
  2: { apply on_err_step. erewrite tx_bind_step.
       2: { apply exec_step; [done |]. apply complete_fwd; [by apply lookup_insert_eq |].
            by apply (completed_row_checks s d db). }
       reflexivity. }
  simpl. eexists. split; [reflexivity |]. simpl. rewrite insert_insert_eq.
  split; [reflexivity |].
  change (mkDb _ _ _) with (apply_posting cmd stamp tid e1 e2 now s d db).
  fold tid. by rewrite Hassert.
Qed.
End complete.
