(* ===== verification/LedgerInv.v ===== *)
(** * The ledger invariant

    [db_inv base db] is what the committed database satisfies at all times:
    the schema's constraints, exactly one debit and one credit per transfer,
    and every stored balance explained by [base] (money that was there before)
    plus the entries. [db_le] orders databases by what is never lost: accounts,
    completed transfers and entries. One posting preserves the invariant, moves
    up in the order and conserves the total. *)
From stdpp Require Import base gmap fin_maps strings list.
From Stdlib Require Import ZArith Lia Ascii.
From S2P Require Import Prelude.
From S2P Require Import GoStd.
From S2P Require Import Uuid.
From S2P Require Import Errors.
From S2P Require Import Money.
From S2P Require Import Schema.
From S2P Require Import Tx.
From S2P Require Import Transfer.
From S2P Require Import Posting.

Open Scope Z_scope.

(** [map[uuid.UUID]int64] read with Go's zero default. *)
Definition base_of (b : gmap UUID Z) (id : UUID) : Z := default 0 (b !! id).

Definition of_account (id : UUID) (e : EntryRow) : bool := uuid_eqb (e_account_id e) id.

(** The sum of the entries against one account. *)
Definition account_ledger (id : UUID) (db : Db) : Z :=
  sumZ (fun e => if of_account id e then e_amount_minor e else 0) (ledger_entries db).

Definition total_balance (db : Db) : Z := sumZ a_balance_minor (accounts db).
Definition total_ledger (db : Db) : Z := sumZ e_amount_minor (ledger_entries db).

Definition debit_leg (t : TransferRow) (e : EntryRow) : Prop :=
  e_transfer_id e = t_id t /\ e_account_id e = t_source_account_id t
  /\ e_amount_minor e = - t_amount_minor t /\ e_currency e = t_currency t.
Definition credit_leg (t : TransferRow) (e : EntryRow) : Prop :=
  e_transfer_id e = t_id t /\ e_account_id e = t_destination_account_id t
  /\ e_amount_minor e = t_amount_minor t /\ e_currency e = t_currency t.

(** The entries of a transfer are one debit and one credit, and nothing else. *)
Definition two_legs (db : Db) (t : TransferRow) : Prop :=
  exists k1 k2 e1 e2,
    k1 <> k2 /\ ledger_entries db !! k1 = Some e1 /\ ledger_entries db !! k2 = Some e2
    /\ debit_leg t e1 /\ credit_leg t e2
    /\ forall k e, ledger_entries db !! k = Some e -> e_transfer_id e = t_id t -> k = k1 \/ k = k2.

(** A transfer and its two entries describe each other. *)
Record transfer_ok (db : Db) (t : TransferRow) : Prop := {
  tok_checks : Forall (fun c => snd c = true) (transfers_checks t);
  tok_completed : t_status t = StatusCompleted;
  tok_range : 0 < t_amount_minor t <= int64_max;
  tok_distinct : t_source_account_id t <> t_destination_account_id t;
  tok_source : exists a, accounts db !! t_source_account_id t = Some a
                 /\ a_currency a = t_currency t;
  tok_destination : exists a, accounts db !! t_destination_account_id t = Some a
                 /\ a_currency a = t_currency t;
  tok_legs : two_legs db t
}.

Record account_ok (r : AccountRow) : Prop := {
  aok_currency : currency_format (a_currency r) = true;
  aok_balance : 0 <= a_balance_minor r <= int64_max
}.

Record db_inv (base : gmap UUID Z) (db : Db) : Prop := {
  inv_keyed : well_keyed db;
  inv_accounts : forall id r, accounts db !! id = Some r -> account_ok r;
  inv_transfers : forall id t, transfers db !! id = Some t -> transfer_ok db t;
  inv_entries : forall k e, ledger_entries db !! k = Some e ->
    exists t, transfers db !! e_transfer_id e = Some t /\ (debit_leg t e \/ credit_leg t e);
  inv_unique_key : forall i j t u k, transfers db !! i = Some t -> transfers db !! j = Some u ->
    t_idempotency_key t = Some k -> t_idempotency_key u = Some k -> i = j;
  inv_books : forall id r, accounts db !! id = Some r ->
    a_balance_minor r = base_of base id + account_ledger id db;
  inv_base : forall id, is_Some (base !! id) -> is_Some (accounts db !! id)
}.

(** What survives: accounts keep their currency, transfers and entries are
    never changed or removed. *)
Record db_le (db db' : Db) : Prop := {
  le_accounts : forall id r, accounts db !! id = Some r ->
    exists r', accounts db' !! id = Some r' /\ a_currency r' = a_currency r
               /\ a_created_at r' = a_created_at r;
  le_transfers : transfers db ⊆ transfers db';
  le_entries : ledger_entries db ⊆ ledger_entries db'
}.

#[global] Instance db_le_preorder : PreOrder db_le.
Proof.
  split.
  - intros db. split; [eauto | done | done].
  - intros db1 db2 db3 [A1 T1 E1] [A2 T2 E2]. split; [|by etrans|by etrans].
    intros id r (r' & Hr' & Hc & Ha)%A1. apply A2 in Hr' as (r'' & Hr'' & Hc' & Ha').
    exists r''. split; [done |]. split; congruence.
Qed.

Lemma db_inv_empty : db_inv ∅ empty_db.
Proof. by split; [split|..]; intros *; rewrite ?lookup_empty. Qed.

Section preserve.
Variables (base : gmap UUID Z) (cmd : Command) (stamp : option idempotencyStamp).
Variables (tid e1 e2 : UUID) (now : Z) (s d : AccountRow) (db : Db).
Hypothesis Hinv : db_inv base db.
Hypothesis Hcan : can_post cmd stamp tid e1 e2 s d db.
Let src := c_SourceAccountID cmd.
Let dst := c_DestinationAccountID cmd.
Let db' := apply_posting cmd stamp tid e1 e2 now s d db.

(** The rows of the accounts afterwards, by cases. *)
Lemma posted_account id r :
  accounts db' !! id = Some r ->
  (id = src /\ r = debited cmd now s) \/ (id = dst /\ r = credited cmd now d)
  \/ (id <> src /\ id <> dst /\ accounts db !! id = Some r).
Proof.
  simpl. rewrite !lookup_insert. repeat case_decide; intros; simplify_eq; auto.
Qed.

Lemma posted_entry k e :
  ledger_entries db' !! k = Some e ->
  (k = e1 /\ e = debit_entry cmd tid e1 now) \/ (k = e2 /\ e = credit_entry cmd tid e2 now)
  \/ ledger_entries db !! k = Some e.
Proof.
  simpl. rewrite !lookup_insert. repeat case_decide; intros; simplify_eq; auto.
Qed.

Lemma posted_entries_subseteq : ledger_entries db ⊆ ledger_entries db'.
Proof.
  destruct Hcan. simpl. etrans; apply insert_subseteq; [done |].
  by rewrite lookup_insert_ne.
Qed.

Lemma posted_account_ledger id :
  account_ledger id db' =
    account_ledger id db + (if uuid_eqb dst id then c_AmountMinor cmd else 0)
    - (if uuid_eqb src id then c_AmountMinor cmd else 0).
Proof.
  destruct Hcan. unfold account_ledger. simpl.
  rewrite !sumZ_insert by (rewrite ?lookup_insert_ne; done).
  unfold of_account. simpl. fold src dst.
  destruct (uuid_eqb dst id), (uuid_eqb src id); lia.
Qed.

Lemma posting_le : db_le db db'.
Proof.
  destruct Hcan. split.
  - intros id r Hr. simpl. fold src dst. rewrite !lookup_insert.
    repeat case_decide; subst; eauto.
    + exists (credited cmd now d). fold dst in cp_destination. rewrite cp_destination in Hr.
      by simplify_eq.
    + exists (debited cmd now s). fold src in cp_source. rewrite cp_source in Hr.
      by simplify_eq.
  - by apply insert_subseteq.
  - apply posted_entries_subseteq.
Qed.

(** An account of the old database is still there, with its currency. *)
Lemma posted_currency id c :
  (exists a, accounts db !! id = Some a /\ a_currency a = c) ->
  exists a, accounts db' !! id = Some a /\ a_currency a = c.
Proof.
  intros (a & Ha & <-). destruct (le_accounts _ _ posting_le id a Ha) as (a' & ? & ? & _).
  eauto.
Qed.

Lemma posted_old_transfer t :
  t_id t <> tid -> transfer_ok db t -> transfer_ok db' t.
Proof.
  intros Hid [Hck Hst Hr Hne Hs Hd (k1 & k2 & x1 & x2 & Hk & H1 & H2 & L1 & L2 & Hall)].
  pose proof posted_entries_subseteq as Hsub.
  split; auto using posted_currency. exists k1, k2, x1, x2. split_and!; auto.
  - by eapply lookup_weaken.
  - by eapply lookup_weaken.
  - intros k e Hke Ht. apply posted_entry in Hke as [[-> ->]|[[-> ->]|Hke]];
      [by simpl in Ht; congruence .. | eauto].
Qed.

Lemma posted_new_transfer : transfer_ok db' (completed_row cmd stamp tid now).
Proof.
  pose proof Hcan as []. split; simpl; auto.
  - unfold transfers_checks. rewrite !Forall_cons. simpl.
    rewrite (proj2 (Z.ltb_lt _ _)), uuid_eqb_ne by (done || lia).
    destruct stamp as [st|]; simpl; [|done].
    destruct (cp_stamp st eq_refl) as (_ & Hl & Hf).
    rewrite (proj2 (Z.leb_le _ _)), (proj2 (Z.leb_le _ _)), Hf by lia. done.
  - apply posted_currency. eauto.
  - apply posted_currency. eauto.
  - unfold two_legs. simpl. exists e1, e2, (debit_entry cmd tid e1 now), (credit_entry cmd tid e2 now).
    split_and!; try done.
    + rewrite lookup_insert_ne by done. apply lookup_insert_eq.
    + apply lookup_insert_eq.
    + intros k e Hke Ht. apply posted_entry in Hke as [[-> ->]|[[-> ->]|Hke]]; auto.
      destruct cp_no_entries as [Hc _].
      apply (proj1 (countZ_zero _ _) Hc) in Hke. unfold of_transfer in Hke.
      rewrite Ht, uuid_eqb_refl in Hke. done.
Qed.

Lemma posted_keyed : well_keyed db'.
Proof.
  destruct Hinv as [[Ka Kt Ke] _ _ _ _ _ _]. destruct Hcan.
  split; intros id r Hr.
  - apply posted_account in Hr as [[-> ->]|[[-> ->]|(_ & _ & Hr)]]; simpl; eauto.
  - simpl in Hr. rewrite lookup_insert in Hr. case_decide; simplify_eq; eauto.
  - apply posted_entry in Hr as [[-> ->]|[[-> ->]|Hr]]; eauto.
Qed.

Lemma posted_unique_key i j t u k :
  transfers db' !! i = Some t -> transfers db' !! j = Some u ->
  t_idempotency_key t = Some k -> t_idempotency_key u = Some k -> i = j.
Proof.
  pose proof (cp_key_free _ _ _ _ _ _ _ _ Hcan) as Hfree.
  assert (Hnew : forall j u, transfers db !! j = Some u -> keyOrNil stamp = Some k ->
            t_idempotency_key u = Some k -> False).
  { intros j' u' Hu Hk. rewrite Hk in Hfree. simpl in Hfree.
    apply bool_decide_eq_true in Hfree.
    by apply (proj1 (select_by_key_None _ _) Hfree) with (1 := Hu). }
  simpl. rewrite !lookup_insert. repeat case_decide; intros; simplify_eq; try done.
  - exfalso. eauto.
  - exfalso. eauto.
  - by eapply (inv_unique_key _ _ Hinv).
Qed.

(** One posting preserves the invariant, with the same baseline. *)
Lemma posting_inv : db_inv base db'.
Proof.
  pose proof Hcan as []. destruct Hinv as [Hk Ha Ht He Hu Hb Hbase].
  assert (Hne : src <> dst) by done. assert (Hne' : dst <> src) by (by apply not_eq_sym).
  split; [apply posted_keyed | | | | apply posted_unique_key | |].
  - intros id r Hr. apply posted_account in Hr as [[-> ->]|[[-> ->]|(_ & _ & Hr)]]; eauto.
    + destruct (Ha _ _ cp_source). split; simpl; [done | unfold int64_max in *; lia].
    + destruct (Ha _ _ cp_destination). split; simpl; [done | unfold int64_max in *; lia].
  - intros id t Hid. simpl in Hid. rewrite lookup_insert in Hid.
    destruct (decide (tid = id)); [injection Hid as <- |].
    + apply posted_new_transfer.
    + apply posted_old_transfer; [|eauto].
      rewrite (wk_transfers _ Hk _ _ Hid). congruence.
  - intros k e Hke. apply posted_entry in Hke as [[-> ->]|[[-> ->]|Hke]].
    + exists (completed_row cmd stamp tid now). simpl. rewrite lookup_insert_eq. by split; [|left].
    + exists (completed_row cmd stamp tid now). simpl. rewrite lookup_insert_eq. by split; [|right].
    + destruct (He _ _ Hke) as (t & Htr & Hl). exists t. split; [|done].
      simpl. rewrite lookup_insert_ne; [done | congruence].
  - intros id r Hr. rewrite posted_account_ledger.
    apply posted_account in Hr as [[-> ->]|[[-> ->]|(Hn1 & Hn2 & Hr)]]; simpl.
    + rewrite (Hb _ _ cp_source), uuid_eqb_refl, (uuid_eqb_ne dst src) by done.
      unfold src. lia.
    + rewrite (Hb _ _ cp_destination), uuid_eqb_refl, (uuid_eqb_ne src dst) by done.
      unfold dst. lia.
    + rewrite (Hb _ _ Hr), (uuid_eqb_ne dst id), (uuid_eqb_ne src id) by congruence. lia.
  - intros id [r Hr]%Hbase. destruct (le_accounts _ _ posting_le id r Hr) as (r' & ? & _).
    eauto.
Qed.

End preserve.

(** ** Opening an account *)

Lemma entry_account_exists base db k e :
  db_inv base db -> ledger_entries db !! k = Some e -> is_Some (accounts db !! e_account_id e).
Proof.
  intros Hinv Hk. destruct (inv_entries _ _ Hinv _ _ Hk) as (t & Ht & Hl).
  destruct (inv_transfers _ _ Hinv _ _ Ht) as [_ _ _ _ (a & Ha & _) (b & Hb & _) _].
  destruct Hl as [(_ & -> & _)|(_ & -> & _)]; eauto.
Qed.

(** A new account with a zero balance keeps the invariant and loses nothing. *)
Lemma open_account_inv base db r :
  db_inv base db -> accounts db !! a_id r = None ->
  a_balance_minor r = 0 -> currency_format (a_currency r) = true ->
  let db' := mkDb (<[a_id r := r]> (accounts db)) (transfers db) (ledger_entries db) in
  db_inv base db' /\ db_le db db' /\ total_balance db' = total_balance db.
Proof.
  intros Hinv Hf Hz Hc db'. pose proof Hinv as [[Ka Kt Ke] Ha Ht He Hu Hb Hbase].
  assert (Hacc : forall id a, accounts db !! id = Some a -> accounts db' !! id = Some a).
  { intros id a Hid. simpl. rewrite lookup_insert_ne; [done | congruence]. }
  split; [|split].
  - split; simpl; eauto.
    + split; simpl; eauto. intros id a. rewrite lookup_insert. case_decide; naive_solver.
    + intros id a. rewrite lookup_insert. case_decide; [|eauto].
      intros [= <-]. split; [done |]. rewrite Hz. unfold int64_max. lia.
    + intros id t Hid. destruct (Ht _ _ Hid) as [? ? ? ? (a & ? & ?) (b & ? & ?) ?].
      split; eauto.
    + intros id a. rewrite lookup_insert. case_decide as E; [|eauto]. intros [= <-]. subst id.
      rewrite Hz. unfold base_of. destruct (base !! a_id r) eqn:Eb.
      { destruct (Hbase (a_id r)) as [x Hx]; [by rewrite Eb; eauto | congruence]. }
      unfold account_ledger. rewrite sumZ_zero; [done |]. simpl.
      intros k e Hk. unfold of_account. rewrite uuid_eqb_ne; [done |]. intros E.
      destruct (entry_account_exists _ _ _ _ Hinv Hk) as [x Hx]. congruence.
    + intros id [a Hid]%Hbase. apply Hacc in Hid. simpl in Hid. eauto.
  - split; simpl; [|done..]. eauto.
  - unfold total_balance. simpl. rewrite sumZ_insert by done. lia.
Qed.

(** ** Sums over the entries *)

(** Aggregating over the entries of a transfer with two legs. *)
Lemma two_legs_sum db t :
  two_legs db t -> exists e1 e2, debit_leg t e1 /\ credit_leg t e2
  /\ forall f, sumZ (fun e => if of_transfer (t_id t) e then f e else 0) (ledger_entries db)
                = f e1 + f e2.
Proof.
  intros (k1 & k2 & e1 & e2 & Hk & H1 & H2 & L1 & L2 & Hall).
  exists e1, e2. split_and!; [done | done |]. intros f.
  assert (H2' : delete k1 (ledger_entries db) !! k2 = Some e2) by (by rewrite lookup_delete_ne).
  rewrite (sumZ_delete _ _ _ _ H1), (sumZ_delete _ _ _ _ H2'), sumZ_zero.
  - unfold of_transfer. destruct L1 as (-> & _), L2 as (-> & _). rewrite uuid_eqb_refl. lia.
  - intros k e Hke. apply lookup_delete_Some in Hke as [Hn2 Hke].
    apply lookup_delete_Some in Hke as [Hn1 Hke]. unfold of_transfer.
    rewrite uuid_eqb_ne; [done |]. intros Ht. by destruct (Hall _ _ Hke Ht).
Qed.

Lemma two_legs_entry_sum db t : two_legs db t -> entry_sum (t_id t) db = 0.
Proof.
  intros (e1 & e2 & (_ & _ & A1 & _) & (_ & _ & A2 & _) & Hs)%two_legs_sum.
  unfold entry_sum. rewrite Hs. lia.
Qed.

(** Aggregating over the entries of a set of transfers, transfer by transfer. *)
Lemma entries_by_transfer db (f : EntryRow -> Z) (g : TransferRow -> Z) (m : gmap UUID TransferRow) :
  (forall id t, m !! id = Some t ->
     sumZ (fun e => if of_transfer id e then f e else 0) (ledger_entries db) = g t) ->
  sumZ (fun e => if bool_decide (is_Some (m !! e_transfer_id e)) then f e else 0)
    (ledger_entries db) = sumZ g m.
Proof.
  induction m as [|id t m Hid IH] using map_ind; intros Hg.
  - rewrite sumZ_empty. apply sumZ_zero. intros k e _. rewrite lookup_empty.
    rewrite bool_decide_eq_false_2; [done | by intros [? ?]].
  - rewrite sumZ_insert, <- (Hg id t (lookup_insert_eq _ _ _)), <- IH, <- sumZ_add by
      first [done | intros i u Hu; apply Hg; rewrite lookup_insert_ne; [done | congruence]].
    apply sumZ_ext. intros k e _. unfold of_transfer. destruct (decide (e_transfer_id e = id)) as [->|Hne].
    + rewrite uuid_eqb_refl, Hid, lookup_insert_eq.
      rewrite bool_decide_eq_true_2, bool_decide_eq_false_2; [lia | by intros [? ?] | eauto].
    + rewrite uuid_eqb_ne, lookup_insert_ne by congruence. lia.
Qed.

(** Every entry belongs to a transfer, so this covers the whole ledger. *)
Lemma entries_of_transfers base db (f : EntryRow -> Z) (g : TransferRow -> Z) :
  db_inv base db ->
  (forall id t, transfers db !! id = Some t ->
     sumZ (fun e => if of_transfer id e then f e else 0) (ledger_entries db) = g t) ->
  sumZ f (ledger_entries db) = sumZ g (transfers db).
Proof.
  intros Hinv Hg. rewrite <- (entries_by_transfer db f g) by done.
  apply sumZ_ext. intros k e Hk. destruct (inv_entries _ _ Hinv _ _ Hk) as (t & Ht & _).
  by rewrite Ht, bool_decide_eq_true_2 by eauto.
Qed.

(** The whole ledger sums to zero, and holds two entries for each transfer. *)
Lemma total_ledger_zero base db : db_inv base db -> total_ledger db = 0.
Proof.
  intros Hinv. unfold total_ledger. rewrite (entries_of_transfers base db _ (fun _ => 0)); [by apply sumZ_zero | done |].
  intros id t Ht. rewrite <- (wk_transfers _ (inv_keyed _ _ Hinv) _ _ Ht).
  apply (two_legs_entry_sum _ _ (tok_legs _ _ (inv_transfers _ _ Hinv _ _ Ht))).
Qed.

Lemma entries_twice base db :
  db_inv base db -> countZ (fun _ => true) (ledger_entries db) = 2 * countZ (fun _ => true) (transfers db).
Proof.
  intros Hinv. unfold countZ. rewrite (entries_of_transfers base db _ (fun _ => 1 + 1)); [|done |].
  - rewrite sumZ_add. lia.
  - intros id t Ht. destruct (two_legs_sum _ _ (tok_legs _ _ (inv_transfers _ _ Hinv _ _ Ht)))
      as (e1 & e2 & _ & _ & Hs). rewrite (wk_transfers _ (inv_keyed _ _ Hinv) _ _ Ht) in Hs. apply Hs.
Qed.


(** ** The money supply *)

(** The ledger sums of a set of accounts add up to the entries against them. *)
Lemma account_ledgers_sum db (m : gmap UUID AccountRow) :
  well_keyed db -> m ⊆ accounts db ->
  sumZ (fun r => account_ledger (a_id r) db) m =
  sumZ (fun e => if bool_decide (is_Some (m !! e_account_id e)) then e_amount_minor e else 0)
    (ledger_entries db).
Proof.
  intros Hwk. induction m as [|id r m Hid IH] using map_ind; intros Hsub.
  - rewrite sumZ_empty, sumZ_zero; [done |]. intros k e _. by rewrite lookup_empty.
  - assert (Hr : accounts db !! id = Some r).
    { apply (lookup_weaken _ _ _ _ (lookup_insert_eq m id r) Hsub). }
    rewrite sumZ_insert, (wk_accounts _ Hwk _ _ Hr), IH by
      first [done | etrans; [|exact Hsub]; by apply insert_subseteq].
    unfold account_ledger. rewrite <- sumZ_add. apply sumZ_ext. intros k e _. unfold of_account.
    destruct (decide (e_account_id e = id)) as [->|Hne].
    + rewrite uuid_eqb_refl, Hid, lookup_insert_eq.
      rewrite bool_decide_eq_false_2, bool_decide_eq_true_2; [lia | eauto | by intros [? ?]].
    + rewrite uuid_eqb_ne, lookup_insert_ne by congruence. lia.
Qed.

Lemma base_sum (base : gmap UUID Z) (m : gmap UUID AccountRow) :
  (forall id r, m !! id = Some r -> a_id r = id) ->
  (forall id, is_Some (base !! id) -> is_Some (m !! id)) ->
  sumZ (fun r => base_of base (a_id r)) m = sumZ id base.
Proof.
  intros Hk. induction base as [|k v b Hb IH] using map_ind; intros Hdom.
  - rewrite sumZ_empty. apply sumZ_zero. intros id r _. unfold base_of. by rewrite lookup_empty.
  - rewrite sumZ_insert, <- IH by
      (done || (intros i [x Hx]; apply Hdom; destruct (decide (i = k)); [congruence |];
                rewrite lookup_insert_ne; eauto)).
    destruct (Hdom k) as [r Hr]; [rewrite lookup_insert_eq; eauto |].
    assert (Hv : v = sumZ (fun r' => if uuid_eqb (a_id r') k then v else 0) m).
    { rewrite (sumZ_delete _ _ _ _ Hr), (Hk _ _ Hr), uuid_eqb_refl, sumZ_zero; [lia |].
      intros i r' [Hne Hi]%lookup_delete_Some. rewrite uuid_eqb_ne; [done |].
      rewrite (Hk _ _ Hi). congruence. }
    unfold id at 1. rewrite Hv at 1. rewrite <- sumZ_add. apply sumZ_ext. intros i r' Hi.
    unfold base_of. rewrite (Hk _ _ Hi). destruct (decide (i = k)) as [->|Hne].
    + rewrite lookup_insert_eq, Hb, uuid_eqb_refl. simpl. lia.
    + rewrite lookup_insert_ne, uuid_eqb_ne by congruence. lia.
Qed.

(** The balances add up to the baseline: money is never created or destroyed. *)
Lemma total_balance_base base db : db_inv base db -> total_balance db = sumZ id base.
Proof.
  intros Hinv. pose proof (inv_keyed _ _ Hinv) as Hwk. unfold total_balance.
  rewrite (sumZ_ext _ (fun r => base_of base (a_id r) + account_ledger (a_id r) db)).
  - rewrite sumZ_add, base_sum, account_ledgers_sum; [| done | done | apply Hwk | apply (inv_base _ _ Hinv)].
    rewrite (sumZ_ext _ e_amount_minor (ledger_entries db)).
    + pose proof (total_ledger_zero _ _ Hinv) as Hz. unfold total_ledger in Hz. lia.
    + intros k e Hk. by rewrite bool_decide_eq_true_2 by (by eapply entry_account_exists).
  - intros i r Hr. rewrite (inv_books _ _ Hinv _ _ Hr), (wk_accounts _ Hwk _ _ Hr). done.
Qed.

(** Funded accounts without history: the baseline is what they hold. *)
Lemma funded_inv (m : gmap UUID AccountRow) :
  (forall id r, m !! id = Some r -> a_id r = id /\ account_ok r) ->
  db_inv (a_balance_minor <$> m) (mkDb m ∅ ∅).
Proof.
  intros Hm. split; [split|..]; simpl; intros *; rewrite ?lookup_empty; try done.
  - by intros [? _]%Hm.
  - by intros [_ ?]%Hm.
  - intros Hr. unfold base_of, account_ledger. simpl. rewrite sumZ_empty, lookup_fmap, Hr. simpl. lia.
  - rewrite lookup_fmap. intros [b (r & -> & _)%fmap_Some]. eauto.
Qed.
