(* ===== verification/Sha256.v ===== *)
(** * [crypto/sha256]

    [sha256.Sum256] as FIPS 180-4 defines it, executable, on 32-bit words
    written as integers reduced modulo 2^32. The two examples are the
    standard's test vectors. *)
From stdpp Require Import base gmap fin_maps strings list.
From Stdlib Require Import ZArith Lia Ascii.
From S2P Require Import Prelude.
From S2P Require Import GoStd.

Open Scope Z_scope.

Module Sha256.
Definition w32 (z : Z) : Z := Z.land z 4294967295.
Definition rotr (n x : Z) : Z := w32 (Z.lor (Z.shiftr x n) (Z.shiftl x (32 - n))).
Definition not32 (x : Z) : Z := Z.lxor x 4294967295.

Definition Ch (x y z : Z) : Z := Z.lxor (Z.land x y) (Z.land (not32 x) z).
Definition Maj (x y z : Z) : Z := Z.lxor (Z.land x y) (Z.lxor (Z.land x z) (Z.land y z)).
Definition Sigma0 (x : Z) : Z := Z.lxor (rotr 2 x) (Z.lxor (rotr 13 x) (rotr 22 x)).
Definition Sigma1 (x : Z) : Z := Z.lxor (rotr 6 x) (Z.lxor (rotr 11 x) (rotr 25 x)).
Definition sigma0 (x : Z) : Z := Z.lxor (rotr 7 x) (Z.lxor (rotr 18 x) (Z.shiftr x 3)).
Definition sigma1 (x : Z) : Z := Z.lxor (rotr 17 x) (Z.lxor (rotr 19 x) (Z.shiftr x 10)).

(** The round constants are the first 32 bits of the fractional parts of the
    cube roots of the first 64 primes, the initial state those of the square
    roots of the first 8. *)
Definition is_prime (n : nat) : bool :=
  (2 <=? n)%nat && forallb (fun m => negb (n mod m =? 0)%nat) (seq 2 (n - 2)).

Definition primes : list Z := Eval vm_compute in Z.of_nat <$> List.filter is_prime (seq 0 312).

(** The integer cube root, bit by bit from bit [n - 1] down. *)
Fixpoint cube_root (n : nat) (acc x : Z) : Z :=
  match n with
  | O => acc
  | S n' =>
      let t := acc + 2 ^ Z.of_nat n' in
      cube_root n' (if t * t * t <=? x then t else acc) x
  end.

Definition K : list Z := Eval vm_compute in (fun p => w32 (cube_root 36 0 (p * 2 ^ 96))) <$> primes.

Record state := mkState { a : Z; b : Z; c : Z; d : Z; e : Z; f : Z; g : Z; h : Z }.

Definition H0 : state :=
  Eval vm_compute in
    let r i := w32 (Z.sqrt (nth i primes 0 * 2 ^ 64)) in
    mkState (r 0%nat) (r 1%nat) (r 2%nat) (r 3%nat) (r 4%nat) (r 5%nat) (r 6%nat) (r 7%nat).

(** One round with its constant and schedule word. *)
Definition round (s : state) (kw : Z * Z) : state :=
  let t1 := h s + Sigma1 (e s) + Ch (e s) (f s) (g s) + fst kw + snd kw in
  let t2 := Sigma0 (a s) + Maj (a s) (b s) (c s) in
  mkState (w32 (t1 + t2)) (a s) (b s) (c s) (w32 (d s + t1)) (e s) (f s) (g s).

(** The message schedule, latest word first. *)
Fixpoint extend (n : nat) (ws : list Z) : list Z :=
  match n with
  | O => ws
  | S n' =>
      let w i := nth i ws 0 in
      extend n' (w32 (sigma1 (w 1%nat) + w 6%nat + sigma0 (w 14%nat) + w 15%nat) :: ws)
  end.

Fixpoint words (l : list Z) : list Z :=
  match l with
  | x :: y :: z :: t :: l' => (x * 16777216 + y * 65536 + z * 256 + t) :: words l'
  | _ => []
  end.

Definition compress (s : state) (block : list Z) : state :=
  let ws := rev (extend 48 (rev (words block))) in
  let r := fold_left round (combine K ws) s in
  mkState (w32 (a s + a r)) (w32 (b s + b r)) (w32 (c s + c r)) (w32 (d s + d r))
          (w32 (e s + e r)) (w32 (f s + f r)) (w32 (g s + g r)) (w32 (h s + h r)).

(** The 64-byte blocks of a padded message; the fuel is its length. *)
Fixpoint blocks (fuel : nat) (l : list Z) (s : state) : state :=
  match fuel, l with
  | O, _ | _, [] => s
  | S n, _ => blocks n (drop 64 l) (compress s (take 64 l))
  end.

Definition be_bytes (n : nat) (x : Z) : list Z :=
  (fun i => Z.land (Z.shiftr x (8 * (Z.of_nat n - 1 - i))) 255) <$> seqZ 0 (Z.of_nat n).

Definition pad (l : list Z) : list Z :=
  let n := Z.of_nat (length l) in
  let zeros := Z.to_nat ((55 - n) mod 64) in
  (l ++ [128] ++ replicate zeros 0 ++ be_bytes 8 (8 * n))%list.

Definition digest (s : state) : list Z :=
  (be_bytes 4 (a s) ++ be_bytes 4 (b s) ++ be_bytes 4 (c s) ++ be_bytes 4 (d s)
   ++ be_bytes 4 (e s) ++ be_bytes 4 (f s) ++ be_bytes 4 (g s) ++ be_bytes 4 (h s))%list.

(** [sha256.Sum256]. *)
Definition Sum256 (s : string) : list ascii :=
  let m := pad (bz <$> bytes_of s) in
  byte_of_Z <$> digest (blocks (length m) m H0).

(** The digest is [sha256.Size] bytes, whatever the message. *)
Lemma length_Sum256 s : length (Sum256 s) = 32%nat.
Proof. unfold Sum256. rewrite length_fmap. reflexivity. Qed.

Example Sum256_empty :
  hex_EncodeToString (Sum256 "")
  = "e3b0c44298fc1c149afbf4c8996fb92427ae41e4649b934ca495991b7852b855"%string.
Proof. vm_compute. reflexivity. Qed.

Example Sum256_two_blocks :
  hex_EncodeToString (Sum256 "abcdbcdecdefdefgefghfghighijhijkijkljklmklmnlmnomnopnopq")
  = "248d6a61d20638b8e5c026930c3e6039a33ce45964ff2167f6ecedd419db06c1"%string.
Proof. vm_compute. reflexivity. Qed.
End Sha256.
