(* ===== verification/Idempotency.v ===== *)
(** * [internal/idempotency]: keys and request fingerprints

    [ParseKey] and the Redis key of an idempotency key ([key.go]); the
    canonical form of a request and its SHA-256 fingerprint, in the raw and
    hexadecimal encodings ([fingerprint.go]). *)
From stdpp Require Import base gmap fin_maps strings list.
From Stdlib Require Import ZArith Lia Ascii.
From S2P Require Import Prelude.
From S2P Require Import GoStd.
From S2P Require Import Uuid.
From S2P Require Import Errors.
From S2P Require Import Money.
From S2P Require Import Schema.
From S2P Require Import Sha256.

Open Scope Z_scope.

(** ** Keys *)

Definition MinKeyLength : Z := 1.
Definition MaxKeyLength : Z := 255.

(** The test of [ParseKey]'s loop, on one rune. *)
Definition key_rune_ok (r : Z) : bool := negb ((r <=? 32) || (r =? 127)).

Definition ParseKey (s : string) : result string :=
  if len s <? MinKeyLength then
    Err (wrapping ErrInvalidKey [Txt ": key must not be empty"])
  else if MaxKeyLength <? len s then
    Err (wrapping ErrInvalidKey [Txt ": key is "; Num (len s);
                                 Txt " bytes, the maximum is "; Num MaxKeyLength])
  else if negb (ValidString s) then
    Err (wrapping ErrInvalidKey [Txt ": key is not valid UTF-8"])
  else if negb (all_runes key_rune_ok s) then
    Err (wrapping ErrInvalidKey [Txt ": key must not contain whitespace or control characters"])
  else Ok s.

Definition redisKeyPrefix : string := "idempotency:transfer:".

Definition RedisKey (k : string) : string := redisKeyPrefix +:+ k.

Lemma app_inj_l (p a b : string) : p +:+ a = p +:+ b -> a = b.
Proof.
  intros E. apply bytes_of_inj. apply (f_equal bytes_of) in E.
  rewrite !bytes_of_app in E. by apply app_inv_head in E.
Qed.

(** ** Fingerprints *)

Record Request := mkRequest {
  r_SourceAccountID : UUID;
  r_DestinationAccountID : UUID;
  r_AmountMinor : Z;
  r_Currency : string
}.

#[global] Instance Request_eq_dec : EqDecision Request.
Proof. solve_decision. Defined.

Definition nl : string := String "010" "".

Definition fingerprintVersion : string := "v1".

(** [sha256.Size]: a [Fingerprint] is an array of this many bytes. *)
Definition fingerprint_size : nat := 32.

Section fingerprint.
Context {UL : UuidLib}.

Definition Canonical (r : Request) : string :=
  fingerprintVersion +:+ nl
  +:+ "source=" +:+ uuid_String (r_SourceAccountID r) +:+ nl
  +:+ "destination=" +:+ uuid_String (r_DestinationAccountID r) +:+ nl
  +:+ "amount_minor=" +:+ FormatInt (r_AmountMinor r) +:+ nl
  +:+ "currency=" +:+ r_Currency r +:+ nl.

Definition Fingerprint (r : Request) : list ascii := Sha256.Sum256 (Canonical r).
End fingerprint.

Definition Fingerprint_String (f : list ascii) : string := hex_EncodeToString f.
Definition Fingerprint_Bytes (f : list ascii) : list ascii := f.

Definition size_error (n : nat) : goerr :=
  Plain [Txt "idempotency: fingerprint is "; Num (Z.of_nat n); Txt " bytes, want ";
         Num (Z.of_nat fingerprint_size)].

Definition ParseFingerprint (s : string) : result (list ascii) :=
  match hex_DecodeString s with
  | None => Err (Wrap [Txt "idempotency: fingerprint is not hex: "]
                   (External "encoding/hex: invalid input") [])
  | Some raw =>
      if negb (length raw =? fingerprint_size)%nat then Err (size_error (length raw)) else Ok raw
  end.

Definition FingerprintFromBytes (raw : list ascii) : result (list ascii) :=
  if negb (length raw =? fingerprint_size)%nat then Err (size_error (length raw)) else Ok raw.

(** ** Facts *)

(** A valid key, byte by byte. *)
Lemma ParseKey_Ok_iff s :
  ParseKey s = Ok s <->
  1 <= len s <= 255 /\ ValidString s = true
  /\ Forall (fun b => 32 < bz b /\ bz b <> 127) (bytes_of s).
Proof.
  unfold ParseKey, MinKeyLength, MaxKeyLength.
  rewrite (all_runes_bytes key_rune_ok true).
  2: { intros z Hz. unfold key_rune_ok. rewrite (proj2 (Z.leb_gt z 32)) by lia.
       by rewrite (proj2 (Z.eqb_neq z 127)) by lia. }
  assert (Hall : all_bytes key_rune_ok s = true
                 <-> Forall (fun b => 32 < bz b /\ bz b <> 127) (bytes_of s)).
  { unfold all_bytes. rewrite forallb_forall, List.Forall_forall.
    apply forall_proper; intros b. unfold key_rune_ok.
    rewrite negb_true_iff, orb_false_iff, Z.leb_gt, Z.eqb_neq. done. }
  rewrite <- Hall.
  destruct (Z.ltb_spec (len s) 1), (Z.ltb_spec 255 (len s)), (ValidString s),
    (all_bytes key_rune_ok s); simpl; intuition (try congruence; try lia).
Qed.

Lemma ParseKey_cases s :
  ParseKey s = Ok s
  \/ exists e, ParseKey s = Err e /\ errors_Is e ErrInvalidKey = true /\ errors_As_Pg e = None.
Proof. unfold ParseKey. repeat case_match; eauto. Qed.

Lemma ParseKey_Ok_eq s k : ParseKey s = Ok k -> k = s.
Proof. unfold ParseKey. by repeat case_match; intros; simplify_eq. Qed.

Section canonical_inj.
Context {UL : UuidLib}.

Lemma split_at_newline (l1 l2 r1 r2 : list ascii) c :
  Forall (fun b => b <> c) l1 -> Forall (fun b => b <> c) l2 ->
  (l1 ++ c :: r1 = l2 ++ c :: r2)%list -> l1 = l2 /\ r1 = r2.
Proof.
  intros H1. revert l2. induction H1 as [|x l1 Hx H1 IH]; intros l2 H2 E.
  - by destruct H2; simplify_eq/=.
  - destruct H2 as [|y l2 Hy H2]; simplify_eq/=.
    destruct (IH l2 H2) as [-> ->]; done.
Qed.

Lemma FormatInt_no_newline z : Forall (fun b => b <> "010"%char) (bytes_of (FormatInt z)).
Proof.
  eapply Forall_impl; [apply FormatInt_bytes |]. simpl. intros b Hb ->.
  unfold bz in Hb. simpl in Hb. lia.
Qed.

(** Different requests have different canonical forms. *)
Lemma Canonical_inj r1 r2 : Canonical r1 = Canonical r2 -> r1 = r2.
Proof.
  destruct r1 as [s1 d1 a1 c1], r2 as [s2 d2 a2 c2]. unfold Canonical. simpl.
  intros E. apply (f_equal bytes_of) in E. rewrite !bytes_of_app in E.
  do 3 apply app_inv_head in E.
  apply app_inj_1 in E as [Es E]; [|by rewrite !length_bytes_of, !uuid_String_length].
  do 2 apply app_inv_head in E.
  apply app_inj_1 in E as [Ed E]; [|by rewrite !length_bytes_of, !uuid_String_length].
  do 2 apply app_inv_head in E.
  apply split_at_newline in E as [Ea E]; [|apply FormatInt_no_newline..].
  simplify_eq/=. apply app_inv_tail in E.
  apply bytes_of_inj, uuid_String_inj in Es, Ed. apply bytes_of_inj, FormatInt_inj in Ea.
  apply bytes_of_inj in E. by subst.
Qed.

Lemma length_Fingerprint r : length (Fingerprint r) = 32%nat.
Proof. apply Sha256.length_Sum256. Qed.
End canonical_inj.

Lemma FingerprintFromBytes_inv raw f : FingerprintFromBytes raw = Ok f -> f = raw.
Proof. unfold FingerprintFromBytes. destruct (_ =? _)%nat; simpl; congruence. Qed.

Lemma FingerprintFromBytes_Ok f :
  length f = fingerprint_size -> FingerprintFromBytes (Fingerprint_Bytes f) = Ok f.
Proof. unfold FingerprintFromBytes, Fingerprint_Bytes. by intros ->. Qed.

Lemma ParseFingerprint_String f :
  length f = fingerprint_size -> ParseFingerprint (Fingerprint_String f) = Ok f.
Proof.
  unfold ParseFingerprint, Fingerprint_String. intros Hf. by rewrite hex_decode_encode, Hf.
Qed.

Lemma length_runes_from k s : (length (runes_from k s) <= String.length s)%nat.
Proof.
  revert k. induction s as [|c s IH]; intros [|k]; simpl; try lia.
  - destruct (decode_rune c s) as [r w]. simpl. specialize (IH (w - 1)%nat). lia.
  - specialize (IH k). lia.
Qed.

(** An accepted key passes the [CHECK] constraints of its column. *)
Lemma ParseKey_column s :
  ParseKey s = Ok s -> text_ok s = true /\ 1 <= character_length s <= 255.
Proof.
  intros (Hl & Hv & Hb)%ParseKey_Ok_iff. unfold text_ok. rewrite Hv. split.
  - simpl. unfold all_bytes. apply forallb_forall. intros b Hin.
    pose proof (proj1 (List.Forall_forall _ _) Hb b Hin) as [H _].
    apply negb_true_iff, Z.eqb_neq. lia.
  - unfold character_length, runes, len in *. pose proof (length_runes_from 0 s).
    assert (1 <= Z.of_nat (length (runes_from 0 s))); [|lia].
    destruct s as [|c s]; [simpl in Hl; lia |]. simpl.
    destruct (decode_rune c s). simpl. lia.
Qed.

(** ** Claims *)

(** [ParseKey] accepts exactly the keys of 1 to 255 bytes of valid UTF-8
    without ASCII whitespace or control characters, and returns them unchanged;
    every other string is refused with [ErrInvalidKey]. An accepted key fits
    the column of the database that stores it, and two accepted keys never
    share a Redis key. *)
Lemma ParseKey_spec s :
  (ParseKey s = Ok s <->
     1 <= len s <= 255 /\ ValidString s = true
     /\ Forall (fun b => 32 < bz b /\ bz b <> 127) (bytes_of s))
  /\ (ParseKey s = Ok s /\ text_ok s = true /\ 1 <= character_length s <= 255
      \/ exists e, ParseKey s = Err e /\ errors_Is e ErrInvalidKey = true)
  /\ (forall s', RedisKey s = RedisKey s' <-> s = s').
Proof.
  split; [apply ParseKey_Ok_iff |]. split.
  - destruct (ParseKey_cases s) as [H|(e & H & He & _)]; [left | right; eauto].
    split; [done | by apply ParseKey_column].
  - intros s'. split; [apply app_inj_l | by intros ->].
Qed.

(** Whitespace outside ASCII is accepted: the no-break space U+00A0, the
    next-line control U+0085 and the em space U+2003 are valid keys. *)
Lemma ParseKey_accepts_unicode_space :
  Forall (fun k => ParseKey (string_of_bytes (map byte_of_Z k)) = Ok (string_of_bytes (map byte_of_Z k)))
    [[194; 160]; [194; 133]; [226; 128; 131]].
Proof. repeat constructor. Qed.

(** C34. Two requests have the same canonical text exactly when they agree on
    both parties, the amount and the currency: no field can run into the next
    one. A fingerprint is 32 bytes and survives both of its encodings, the
    hexadecimal one kept in Redis and the raw one kept in PostgreSQL. *)
Theorem fingerprint_faithful {UL : UuidLib} r1 r2 :
  (Canonical r1 = Canonical r2 <-> r1 = r2)
  /\ length (Fingerprint r1) = 32%nat
  /\ ParseFingerprint (Fingerprint_String (Fingerprint r1)) = Ok (Fingerprint r1)
  /\ FingerprintFromBytes (Fingerprint_Bytes (Fingerprint r1)) = Ok (Fingerprint r1).
Proof.
  split; [split; [apply Canonical_inj | intros E; exact (f_equal Canonical E)] |].
  split; [apply length_Fingerprint |].
  split; [apply ParseFingerprint_String | apply FingerprintFromBytes_Ok]; apply length_Fingerprint.
Qed.

Lemma fingerprint_faithful_witness :
  Canonical (UL := google_uuid) (mkRequest (uuid_of_Z 1) (uuid_of_Z 2) 25 "USD")
  <> Canonical (UL := google_uuid) (mkRequest (uuid_of_Z 1) (uuid_of_Z 2) 2 "5USD").
Proof.
  intros E. apply (proj1 (proj1 (@fingerprint_faithful google_uuid _ _))) in E. discriminate E.
Defined.
