(* ===== verification/Prog.v ===== *)
(** * Request handlers as programs

    A handler of the service is a [prog]: a tree of the operations it performs
    against the outside world (transactions and queries on PostgreSQL, Redis
    commands, the clock, randomness, waiting), each followed by what it does
    with the answer. Loops in the source are bounded, so the trees are finite.

    The same program is read in two ways: [run] executes it alone against a
    world, and [step] interleaves any number of programs, one operation at a
    time, with an environment that may do anything to Redis in between. *)
From stdpp Require Import base gmap fin_maps strings list relations.
From Stdlib Require Import ZArith Lia Ascii.
From S2P Require Import Prelude.
From S2P Require Import GoStd.
From S2P Require Import Uuid.
From S2P Require Import Errors.
From S2P Require Import Money.
From S2P Require Import Schema.
From S2P Require Import Tx.
From S2P Require Import Transfer.

Open Scope Z_scope.

(** ** The Redis client

    [redis.UniversalClient], an interface of the third-party package go-redis:
    an arbitrary state machine with the five commands the store issues.
    [Get] answers [None] for [redis.Nil]. *)
Class UniversalClient (R : Type) := {
  SetNX : R -> string -> string -> Z -> R * result bool;
  Get : R -> string -> R * result (option string);
  Set_ : R -> string -> string -> Z -> R * result unit;
  Del : R -> string -> R * result unit;
  Ping : R -> R * result unit
}.

(** ** Operations *)

(** [INSERT INTO accounts (id, currency, balance_minor) VALUES ($1, $2, 0)
     RETURNING ...], the one statement of [account.Repository.Create]. *)
Definition sql_createAccount (id : UUID) (currency : string) (now : Z) (db : Db)
    : sql (Db * list deferred * AccountRow) :=
  let row := mkAccount id currency 0 now now in
  let! db' := insert_account row db in
  inr (db', [], row).

Definition createAccount_tx (currency : string) : tx AccountRow :=
  (id <- new_uuid ;; exec (sql_createAccount id currency))%tx.

Inductive op : Type -> Type :=
  (* one attempt of transfer.Service.postOnce *)
  | OpPostOnce (cmd : Command) (stamp : option idempotencyStamp) : op (result Transfer)
  (* the INSERT of account.Repository.Create *)
  | OpCreateAccount (currency : string) : op (result AccountRow)
  (* a read-only query *)
  | OpQuery {A : Type} (q : Db -> A) : op (result A)
  (* Redis commands *)
  | OpSetNX (key value : string) (ttl : Z) : op (result bool)
  | OpGet (key : string) : op (result (option string))
  | OpSet (key value : string) (ttl : Z) : op (result unit)
  | OpDel (key : string) : op (result unit)
  | OpPing : op (result unit)
  (* time.Now() *)
  | OpNow : op Z
  (* the random source of math/rand/v2 *)
  | OpRand : op Z
  (* select on ctx.Done() and a timer, or on ctx.Done() alone: ctx.Err() *)
  | OpWait (d : Z) : op (option goerr).

(** [Crash] is a Go panic: the goroutine unwinds and nothing after it runs. *)
Inductive prog (A : Type) : Type :=
  | Ret (a : A)
  | Crash (why : string)
  | Vis {B : Type} (o : op B) (k : B -> prog A).
Arguments Ret {A} a.
Arguments Crash {A} why.
Arguments Vis {A B} o k.

Definition call {B} (o : op B) : prog B := Vis o Ret.

Fixpoint bind {A B} (p : prog A) (f : A -> prog B) : prog B :=
  match p with
  | Ret a => f a
  | Crash why => Crash why
  | Vis o k => Vis o (fun b => bind (k b) f)
  end.

Declare Scope prog_scope.
Delimit Scope prog_scope with prog.
Notation "x <- c1 ;; c2" := (bind c1 (fun x => c2))
  (at level 20, c1 at level 99, c2 at level 200, only parsing) : prog_scope.
Notation "' pat <- c1 ;; c2" := (bind c1 (fun x => match x with pat => c2 end))
  (at level 20, pat pattern, c1 at level 99, c2 at level 200, only parsing) : prog_scope.

(** [pool.QueryRow(...).Scan(...)]: no row is [pgx.ErrNoRows]. *)
Definition scan_row {A} (r : result (option A)) : result A :=
  match r with
  | Ok (Some a) => Ok a
  | Ok None => Err pgx_ErrNoRows
  | Err e => Err e
  end.

(** The rows of an answered query arrive as a stream, which can break: the rows
    that arrived, and [rows.Err()]. How many arrived is the environment's choice. *)
Definition read_stream {A} (rows : list A) : prog (list A * option goerr) :=
  (r <- call (OpQuery (fun _ => tt)) ;;
   match r with
   | Ok _ => Ret (rows, None)
   | Err e => n <- call OpRand ;; Ret (take (Z.to_nat n) rows, Some e)
   end)%prog.

(** Scanning rows one by one, up to the first failure. *)
Fixpoint scan_rows {A B} (scan : A -> result B) (rows : list A) : result (list B) :=
  match rows with
  | [] => Ok []
  | a :: rows' =>
      match scan a, scan_rows scan rows' with
      | Err e, _ => Err e
      | Ok _, Err e => Err e
      | Ok b, Ok bs => Ok (b :: bs)
      end
  end.

(** [pgx.CollectRows]. *)
Definition CollectRows {A B} (rows : list A) (scan : A -> result B) : prog (result (list B)) :=
  ('(arrived, broken) <- read_stream rows ;;
   match scan_rows scan arrived, broken with
   | Err e, _ => Ret (Err e)
   | Ok _, Some e => Ret (Err e)
   | Ok bs, None => Ret (Ok bs)
   end)%prog.

Lemma scan_rows_Ok {A B} (scan : A -> result B) rows bs :
  scan_rows scan rows = Ok bs <-> Forall2 (fun a b => scan a = Ok b) rows bs.
Proof.
  revert bs. induction rows as [|a rows IH]; intros bs; simpl.
  - split; [intros [= <-]; constructor | by inversion_clear 1].
  - split.
    + destruct (scan a) eqn:Ea, (scan_rows scan rows) eqn:Er; intros; simplify_eq/=.
      constructor; [done | by apply IH].
    + inversion 1 as [|? b ? bs' Hb Hbs]; simplify_eq. rewrite Hb.
      by rewrite (proj2 (IH _) Hbs).
Qed.

(** ** The world and the environment *)

Record World (R : Type) := mkWorld { w_db : Db; w_redis : R }.
Arguments mkWorld {R}.
Arguments w_db {R}.
Arguments w_redis {R}.

(** What the outside contributes to one operation. *)
Record Env := mkEnv {
  env_tx : TxEnv;
  env_query : option goerr;
  env_time : Z;
  env_rand : Z;
  env_wait : option goerr
}.

Section semantics.
Context {R : Type} {RC : UniversalClient R}.

Definition on_redis {A} (w : World R) (f : R -> R * A) : World R * A :=
  let '(r, a) := f (w_redis w) in (mkWorld (w_db w) r, a).

Definition on_db {A} (w : World R) (f : Db -> Db * A) : World R * A :=
  let '(db, a) := f (w_db w) in (mkWorld db (w_redis w), a).

(** One operation. *)
Definition handle (e : Env) (w : World R) {B} (o : op B) : World R * B :=
  match o in op B return World R * B with
  | OpPostOnce cmd stamp => on_db w (postOnce cmd stamp (env_tx e))
  | OpCreateAccount c => on_db w (autocommit (createAccount_tx c) (env_tx e))
  | OpQuery q =>
      (w, match env_query e with Some err => Err err | None => Ok (q (w_db w)) end)
  | OpSetNX k v ttl => on_redis w (fun r => SetNX r k v ttl)
  | OpGet k => on_redis w (fun r => Get r k)
  | OpSet k v ttl => on_redis w (fun r => Set_ r k v ttl)
  | OpDel k => on_redis w (fun r => Del r k)
  | OpPing => on_redis w Ping
  | OpNow => (w, env_time e)
  | OpRand => (w, env_rand e)
  | OpWait _ => (w, env_wait e)
  end.

(** A program alone: the [n]-th operation from now on meets [es n]. The
    answer is [None] when it panicked. *)
Fixpoint run {A} (p : prog A) (es : nat -> Env) (w : World R) : World R * option A :=
  match p with
  | Ret a => (w, Some a)
  | Crash _ => (w, None)
  | Vis o k =>
      let '(w', b) := handle (es O) w o in
      run (k b) (fun n => es (S n)) w'
  end.

(** Any number of programs, one operation at a time. Between operations the
    environment may put Redis in any state: expire a lease, evict or flush
    keys, corrupt a record, fail over. *)
Inductive step {A} : World R * list (prog A) -> World R * list (prog A) -> Prop :=
  | step_op w ps i B (o : op B) k e w' b :
      ps !! i = Some (Vis o k) ->
      handle e w o = (w', b) ->
      step (w, ps) (w', <[i := k b]> ps)
  | step_redis w ps r :
      step (w, ps) (mkWorld (w_db w) r, ps).

Definition steps {A} := rtc (@step A).
End semantics.

(** [leaves P p]: whatever the operations answer, the program returns without a
    panic, and what it returns satisfies [P]. *)
Fixpoint leaves {A} (P : A -> Prop) (p : prog A) : Prop :=
  match p with
  | Ret a => P a
  | Crash _ => False
  | Vis _ k => forall b, leaves P (k b)
  end.

Lemma leaves_bind {A B} (P : B -> Prop) (p : prog A) (f : A -> prog B) :
  leaves (fun a => leaves P (f a)) p -> leaves P (bind p f).
Proof. induction p as [a|why|X o k IH]; simpl; [done .. |]. intros H b. by apply IH. Qed.

Lemma leaves_mono {A} (P Q : A -> Prop) (p : prog A) :
  (forall a, P a -> Q a) -> leaves P p -> leaves Q p.
Proof.
  intros HPQ. induction p as [a|why|X o k IH]; simpl; [apply HPQ | done |].
  intros H b. by apply IH.
Qed.

Lemma leaves_run {R} {RC : UniversalClient R} {A} (P : A -> Prop) (p : prog A) es (w : World R) :
  leaves P p -> exists w' a, run p es w = (w', Some a) /\ P a.
Proof.
  revert es w. induction p as [a|why|X o k IH]; intros es w; simpl; [by eauto | done |].
  destruct (handle (es O) w o) as [w' b]. intros H. by apply IH.
Qed.

(** [leaves_if ans P p]: the same, when every answer satisfies [ans]. *)
Fixpoint leaves_if {A} (ans : forall B, op B -> B -> Prop) (P : A -> Prop) (p : prog A) : Prop :=
  match p with
  | Ret a => P a
  | Crash _ => False
  | Vis o k => forall b, ans _ o b -> leaves_if ans P (k b)
  end.

Lemma leaves_if_bind {A B} (ans : forall B, op B -> B -> Prop) (P : B -> Prop) (p : prog A)
    (f : A -> prog B) :
  leaves_if ans (fun a => leaves_if ans P (f a)) p -> leaves_if ans P (bind p f).
Proof. induction p as [a|why|X o k IH]; simpl; [done .. |]. intros H b Hb. by apply IH, H. Qed.

Lemma leaves_if_mono {A} (ans : forall B, op B -> B -> Prop) (P Q : A -> Prop) (p : prog A) :
  (forall a, P a -> Q a) -> leaves_if ans P p -> leaves_if ans Q p.
Proof.
  intros HPQ. induction p as [a|why|X o k IH]; simpl; [apply HPQ | done |].
  intros H b Hb. by apply IH, H.
Qed.

Lemma leaves_if_run {R} {RC : UniversalClient R} {A} (ans : forall B, op B -> B -> Prop)
    (P : A -> Prop) (p : prog A) es (w : World R) :
  (forall n w B (o : op B), ans B o (snd (handle (es n) w o))) ->
  leaves_if ans P p -> exists w' a, run p es w = (w', Some a) /\ P a.
Proof.
  revert es w. induction p as [a|why|X o k IH]; intros es w Hans; simpl; [by eauto | done |].
  pose proof (Hans O w _ o) as Hb. destruct (handle (es O) w o) as [w' b]. intros H.
  apply IH; [|by apply H]. intros n. apply (Hans (S n)).
Qed.

(** The number of operations a run performs. *)
Fixpoint ops_used {R} {RC : UniversalClient R} {A} (p : prog A) (es : nat -> Env) (w : World R)
    : nat :=
  match p with
  | Ret _ | Crash _ => O
  | Vis o k => let '(w', b) := handle (es O) w o in S (ops_used (k b) (fun n => es (S n)) w')
  end.

(** Running a sequence is running its parts one after the other. *)
Lemma run_bind {R} {RC : UniversalClient R} {A B} (p : prog A) (f : A -> prog B) es (w : World R) :
  run (bind p f) es w =
  match run p es w with
  | (w', Some a) => run (f a) (fun n => es (ops_used p es w + n)%nat) w'
  | (w', None) => (w', None)
  end.
Proof.
  revert es w. induction p as [a|why|X o k IH]; intros es w; simpl; [done .. |].
  destruct (handle (es O) w o) as [w' b]. rewrite IH.
  by destruct (run (k b) _ w') as [? [?|]].
Qed.

(** ** Accounting

    [tally cost P n p]: whatever the operations answer, the program returns,
    with [P m a] for its result [a] and [m] the sum of [n] and the costs of the
    operations it performed. *)
Fixpoint tally {A} (cost : forall B, op B -> Z) (P : Z -> A -> Prop) (n : Z) (p : prog A) : Prop :=
  match p with
  | Ret a => P n a
  | Crash _ => False
  | Vis o k => forall b, tally cost P (n + cost _ o) (k b)
  end.

(** What one run of a program costs. *)
Fixpoint run_cost {R} {RC : UniversalClient R} {A} (cost : forall B, op B -> Z)
    (p : prog A) (es : nat -> Env) (w : World R) : Z :=
  match p with
  | Ret _ | Crash _ => 0
  | Vis o k =>
      let '(w', b) := handle (es O) w o in
      cost _ o + run_cost cost (k b) (fun n => es (S n)) w'
  end.

Lemma tally_bind {A B} cost (P : Z -> B -> Prop) (p : prog A) (f : A -> prog B) n :
  tally cost (fun m a => tally cost P m (f a)) n p -> tally cost P n (bind p f).
Proof.
  revert n. induction p as [a|why|X o k IH]; intros n; simpl; [done .. |].
  intros H b. by apply IH.
Qed.

Lemma tally_mono {A} cost (P Q : Z -> A -> Prop) (p : prog A) n :
  (forall m a, P m a -> Q m a) -> tally cost P n p -> tally cost Q n p.
Proof.
  intros HPQ. revert n. induction p as [a|why|X o k IH]; intros n; simpl; [apply HPQ | done |].
  intros H b. by apply IH.
Qed.

Lemma tally_run {R} {RC : UniversalClient R} {A} cost (P : Z -> A -> Prop) (p : prog A) n es
    (w : World R) :
  tally cost P n p -> exists w' a, run p es w = (w', Some a) /\ P (n + run_cost cost p es w) a.
Proof.
  revert n es w. induction p as [a|why|X o k IH]; intros n es w; simpl.
  - rewrite Z.add_0_r. by eauto.
  - done.
  - intros H. destruct (handle (es O) w o) as [w' b].
    destruct (IH b _ (fun m => es (S m)) w' (H b)) as (w'' & a & Hr & HP).
    rewrite <- Z.add_assoc in HP. eauto.
Qed.

Lemma tally_leaves {A} cost (P : A -> Prop) (p : prog A) n :
  tally cost (fun _ a => P a) n p -> leaves P p.
Proof.
  revert n. induction p as [a|why|X o k IH]; intros n; simpl; [done .. |]. intros H b. eapply IH, H.
Qed.

(** ** Length

    [within n p]: whatever the operations answer, the program returns after [n]
    of them at most, without a panic. *)
Fixpoint within {A} (n : nat) (p : prog A) {struct p} : Prop :=
  match p with
  | Ret _ => True
  | Crash _ => False
  | Vis _ k => match n with O => False | S n' => forall b, within n' (k b) end
  end.

Lemma within_mono {A} (p : prog A) n m : (n <= m)%nat -> within n p -> within m p.
Proof.
  revert n m. induction p as [a|why|X o k IH]; intros n m Hle; simpl; [done .. |].
  destruct n as [|n]; [done |]. destruct m as [|m]; [lia |]. intros H b. eapply IH, H. lia.
Qed.

Lemma within_bind {A B} (p : prog A) (f : A -> prog B) n m :
  within n p -> (forall a, within m (f a)) -> within (n + m) (bind p f).
Proof.
  intros Hp Hf. revert n Hp. induction p as [a|why|X o k IH]; intros n; simpl.
  - intros _. eapply within_mono; [|apply Hf]. lia.
  - by intros.
  - destruct n as [|n]; [by intros |]. intros H b. by apply IH.
Qed.

(** A run is one of the interleavings. *)
Lemma run_steps {R} {RC : UniversalClient R} {A} (p : prog A) es (w w' : World R) a ps i :
  ps !! i = Some p -> run p es w = (w', Some a) -> steps (w, ps) (w', <[i := Ret a]> ps).
Proof.
  revert es w ps. induction p as [x|why|X o k IH]; intros es w ps Hi; simpl.
  - intros [= <- <-]. rewrite list_insert_id by done. constructor.
  - done.
  - destruct (handle (es O) w o) as [w1 b] eqn:Hh. intros Hr.
    eapply rtc_l; [by eapply step_op |].
    rewrite <- (list_insert_insert_eq ps i (Ret a) (k b)). eapply IH; [|done].
    apply list_lookup_insert_eq. by eapply lookup_lt_Some.
Qed.
