(* ===== verification/Auth.v ===== *)
(** * [internal/auth]: access tokens and the authenticated caller

    [principal.go], [verifier.go] and [loader.go]. The JWT parser
    (golang-jwt) and the decoding of keys ([encoding/pem], [crypto/x509]) are
    the class [JwtLib], with the documented behaviour of the parser's options
    as its law; reading a key file is a parameter. *)
From stdpp Require Import base gmap fin_maps strings list.
From Stdlib Require Import ZArith Lia Ascii.
From S2P Require Import Prelude.
From S2P Require Import GoStd.
From S2P Require Import GoStrings.
From S2P Require Import GoTime.
From S2P Require Import Uuid.
From S2P Require Import Errors.
From S2P Require Import Config.
From S2P Require Import Prog.

Open Scope Z_scope.

(** ** [principal.go] *)

Abbreviation Scope := string (only parsing).

Definition ScopeAccountsRead : Scope := "accounts:read".
Definition ScopeAccountsWrite : Scope := "accounts:write".
Definition ScopeTransfersRead : Scope := "transfers:read".
Definition ScopeTransfersWrite : Scope := "transfers:write".
Definition ScopeLedgerRead : Scope := "ledger:read".

Definition AllScopes : list Scope :=
  [ScopeAccountsRead; ScopeAccountsWrite; ScopeTransfersRead; ScopeTransfersWrite; ScopeLedgerRead].

Record Principal := mkPrincipal {
  p_Subject : string; p_Issuer : string; p_Audience : string; p_Scopes : list Scope
}.

Definition HasScope (p : Principal) (s : Scope) : bool := bool_decide (s ∈ p_Scopes p).
Definition ScopeStrings (p : Principal) : list string := p_Scopes p.

(** The values a request context carries: the incoming metadata, its keys in
    lower case, and the caller once authenticated. *)
Record Context_ := mkContext {
  ctx_metadata : option (list (string * list string));
  ctx_principal : option Principal
}.

Definition WithPrincipal (ctx : Context_) (p : Principal) : Context_ :=
  mkContext (ctx_metadata ctx) (Some p).
Definition PrincipalFrom (ctx : Context_) : option Principal := ctx_principal ctx.

Definition parseScopes (raw : string) : list Scope := Fields raw.

(** ** [verifier.go] *)

Definition bearerPrefix : string := "bearer ".
Definition RS256 : string := "RS256".

(** The claims the program reads. *)
Record registeredClaims := mkClaims {
  cl_Issuer : string; cl_Subject : string; cl_Audience : list string;
  cl_ExpiresAt : option Z; cl_NotBefore : option Z;
  cl_Scope : string; cl_Scopes : list string
}.

(** The options of [jwt.NewParser] the program sets. *)
Record ParserOptions := mkParser {
  opt_ValidMethods : list string; opt_Issuer : string; opt_Audience : string;
  opt_ExpirationRequired : bool; opt_Leeway : Z
}.

(** What [x509.ParsePKIXPublicKey] returns: an RSA key or one of another type. *)
Inductive PublicKey (K : Type) := RsaPublicKey (k : K) | OtherPublicKey (type_name : string).
Arguments RsaPublicKey {K} k.
Arguments OtherPublicKey {K} type_name.

Class JwtLib (K : Type) := {
  (* pem.Decode: the type and the bytes of the first block *)
  pem_Decode : string -> option (string * string);
  ParsePKIXPublicKey : string -> result (PublicKey K);
  ParsePKCS1PublicKey : string -> result K;
  (* the algorithm a token names, and whether its signature is the key's *)
  token_alg : string -> option string;
  token_signed : K -> string -> Prop;
  (* Parser.ParseWithClaims at a time, with the key the callback returns:
     the claims and token.Valid *)
  ParseWithClaims : ParserOptions -> K -> Z -> string -> result (registeredClaims * bool);
  (* what each option makes the parser check *)
  ParseWithClaims_sound : forall o k now raw c valid,
    ParseWithClaims o k now raw = Ok (c, valid) ->
    token_signed k raw
    /\ (opt_ValidMethods o <> [] -> exists a, token_alg raw = Some a /\ a ∈ opt_ValidMethods o)
    /\ (opt_Issuer o <> "" -> cl_Issuer c = opt_Issuer o)
    /\ (opt_Audience o <> "" -> opt_Audience o ∈ cl_Audience c)
    /\ (opt_ExpirationRequired o = true -> is_Some (cl_ExpiresAt c))
    /\ (forall t, cl_ExpiresAt c = Some t -> now < t + opt_Leeway o)
    /\ (forall t, cl_NotBefore c = Some t -> t - opt_Leeway o <= now)
}.

Record VerifierConfig := mkVerifierConfig {
  vc_PublicKeyPEM : string; vc_Issuer : string; vc_Audience : string; vc_Leeway : Z
}.

Record Verifier (K : Type) := mkVerifier {
  v_parser : ParserOptions; v_key : K; v_issuer : string; v_audience : string
}.
Arguments mkVerifier {K}.
Arguments v_parser {K}.
Arguments v_key {K}.
Arguments v_issuer {K}.
Arguments v_audience {K}.

(** [TokenFromAuthorization]. *)
Definition TokenFromAuthorization (header : string) : result string :=
  if is_empty (TrimSpace header) then Err ErrNoCredentials
  else if (len header <? len bearerPrefix)
          || negb (EqualFold (slice_to (String.length bearerPrefix) header) bearerPrefix) then
    Err (wrapping ErrMalformedCredentials [Txt ": expected a Bearer token"])
  else
    let token := TrimSpace (slice_from (String.length bearerPrefix) header) in
    if is_empty token then
      Err (wrapping ErrMalformedCredentials [Txt ": Bearer scheme with no token"])
    else if ContainsAny token (String " " (String "009" "")) then
      Err (wrapping ErrMalformedCredentials [Txt ": token contains whitespace"])
    else Ok token.

Section auth.
Context {K : Type} {JL : JwtLib K}.

Definition parseRSAPublicKey (pemData : string) : result K :=
  match pem_Decode pemData with
  | None => Err (Plain [Txt "auth: JWT verification key is not valid PEM"])
  | Some (ty, bytes) =>
      if Contains ty "PRIVATE" then
        Err (Plain [Txt "auth: JWT verification key is a private key; configure the public key"])
      else match ParsePKIXPublicKey bytes with
      | Err err =>
          match ParsePKCS1PublicKey bytes with
          | Ok pkcs1 => Ok pkcs1
          | Err _ => Err (prefixed "auth: parsing JWT verification key: " err)
          end
      | Ok (RsaPublicKey key) => Ok key
      | Ok (OtherPublicKey t) =>
          Err (Plain [Txt "auth: JWT verification key is "; Str t; Txt ", want an RSA public key"])
      end
  end.

Definition NewVerifier (cfg : VerifierConfig) : result (Verifier K) :=
  if is_empty (TrimSpace (vc_PublicKeyPEM cfg)) then
    Err (Plain [Txt "auth: no JWT verification key configured"])
  else if is_empty (vc_Issuer cfg) then Err (Plain [Txt "auth: no JWT issuer configured"])
  else if is_empty (vc_Audience cfg) then Err (Plain [Txt "auth: no JWT audience configured"])
  else match parseRSAPublicKey (vc_PublicKeyPEM cfg) with
  | Err err => Err err
  | Ok key =>
      let parser := mkParser [RS256] (vc_Issuer cfg) (vc_Audience cfg) true (vc_Leeway cfg) in
      Ok (mkVerifier parser key (vc_Issuer cfg) (vc_Audience cfg))
  end.

Definition Verify (v : Verifier K) (raw : string) : prog (result Principal) :=
  if is_empty raw then Ret (Err ErrNoCredentials)
  else
    (now <- call OpNow ;;
     Ret match ParseWithClaims (v_parser v) (v_key v) now raw with
     | Err err => Err (Wrap2 ErrInvalidToken [Txt ": "] err)
     | Ok (claims, valid) =>
         if negb valid then Err (wrapping ErrInvalidToken [Txt ": token reported invalid"])
         else
           let subject := TrimSpace (cl_Subject claims) in
           if is_empty subject then Err (wrapping ErrInvalidToken [Txt ": token has no subject"])
           else
             let scopes := (parseScopes (cl_Scope claims)
                            ++ filter (fun s => is_empty s = false) (TrimSpace <$> cl_Scopes claims))%list in
             Ok (mkPrincipal subject (v_issuer v) (v_audience v) scopes)
     end)%prog.

(** ** [loader.go] *)

(** [VerifierFromConfig]: [Ok None] is the nil verifier. *)
Definition VerifierFromConfig (ReadFile : string -> result string) (cfg : Config)
    : result (option (Verifier K)) :=
  let j := cfg_JWT cfg in
  let pem :=
    if negb (is_empty (jwt_PublicKeyFile j)) then
      match ReadFile (jwt_PublicKeyFile j) with
      | Err err =>
          Err (Wrap [Txt "auth: reading JWT_PUBLIC_KEY_FILE "; Str (jwt_PublicKeyFile j); Txt ": "]
                 err [])
      | Ok raw => Ok raw
      end
    else Ok (jwt_PublicKeyPEM j) in
  match pem with
  | Err err => Err err
  | Ok pem =>
      if is_empty (TrimSpace pem) && is_empty (jwt_Issuer j) && is_empty (jwt_Audience j) then Ok None
      else match NewVerifier (mkVerifierConfig pem (jwt_Issuer j) (jwt_Audience j) (jwt_Leeway j)) with
      | Err err => Err err
      | Ok v => Ok (Some v)
      end
  end.

(** ** What a verifier guarantees *)

(** A verifier that start-up can build: its parser demands RS256, the
    configured issuer and audience, and an expiry. *)
Record verifier_ok (v : Verifier K) : Prop := {
  vo_methods : opt_ValidMethods (v_parser v) = [RS256];
  vo_issuer : opt_Issuer (v_parser v) = v_issuer v /\ v_issuer v <> "";
  vo_audience : opt_Audience (v_parser v) = v_audience v /\ v_audience v <> "";
  vo_expiry : opt_ExpirationRequired (v_parser v) = true
}.

Lemma NewVerifier_ok cfg v :
  NewVerifier cfg = Ok v ->
  verifier_ok v /\ v_issuer v = vc_Issuer cfg /\ v_audience v = vc_Audience cfg
  /\ opt_Leeway (v_parser v) = vc_Leeway cfg
  /\ parseRSAPublicKey (vc_PublicKeyPEM cfg) = Ok (v_key v).
Proof.
  unfold NewVerifier. case_match; [done |].
  destruct (is_empty (vc_Issuer cfg)) eqn:Hi; [done |].
  destruct (is_empty (vc_Audience cfg)) eqn:Ha; [done |].
  apply is_empty_false in Hi, Ha. case_match; [|done]. intros [= <-]. by split.
Qed.

(** The permissions a token lists, in either of its two claims. *)
Definition granted (c : registeredClaims) : list Scope :=
  (parseScopes (cl_Scope c)
   ++ filter (fun s => is_empty s = false) (TrimSpace <$> cl_Scopes c))%list.

(** A token that is good at [now], and the caller it stands for. *)
Record token_ok (v : Verifier K) (raw : string) (now : Z) (p : Principal) : Prop := {
  to_present : raw <> "";
  to_alg : token_alg raw = Some RS256;
  to_signed : token_signed (v_key v) raw;
  to_claims : exists c, ParseWithClaims (v_parser v) (v_key v) now raw = Ok (c, true)
     /\ cl_Issuer c = v_issuer v /\ v_audience v ∈ cl_Audience c
     /\ (exists t, cl_ExpiresAt c = Some t /\ now < t + opt_Leeway (v_parser v))
     /\ (forall t, cl_NotBefore c = Some t -> t - opt_Leeway (v_parser v) <= now)
     /\ TrimSpace (cl_Subject c) <> ""
     /\ p = mkPrincipal (TrimSpace (cl_Subject c)) (v_issuer v) (v_audience v) (granted c)
}.

(** The PEM text the configuration names: the file's, or the variable's. *)
Definition configured_pem (ReadFile : string -> result string) (j : JWT) (pem : string) : Prop :=
  (jwt_PublicKeyFile j <> "" /\ ReadFile (jwt_PublicKeyFile j) = Ok pem)
  \/ (jwt_PublicKeyFile j = "" /\ pem = jwt_PublicKeyPEM j).

Lemma VerifierFromConfig_ok ReadFile cfg v :
  VerifierFromConfig ReadFile cfg = Ok (Some v) ->
  verifier_ok v /\ v_issuer v = jwt_Issuer (cfg_JWT cfg) /\ v_audience v = jwt_Audience (cfg_JWT cfg)
  /\ opt_Leeway (v_parser v) = jwt_Leeway (cfg_JWT cfg)
  /\ exists pem, configured_pem ReadFile (cfg_JWT cfg) pem /\ parseRSAPublicKey pem = Ok (v_key v).
Proof.
  unfold VerifierFromConfig. cbn zeta. set (j := cfg_JWT cfg).
  assert (Hpem : forall pem,
    (if negb (is_empty (jwt_PublicKeyFile j)) then
       match ReadFile (jwt_PublicKeyFile j) with
       | Err err => Err (Wrap [Txt "auth: reading JWT_PUBLIC_KEY_FILE "; Str (jwt_PublicKeyFile j); Txt ": "] err [])
       | Ok raw => Ok raw
       end
     else Ok (jwt_PublicKeyPEM j)) = Ok pem -> configured_pem ReadFile j pem).
  { intros pem. unfold configured_pem, is_empty. case_bool_decide as Hf; cbn [negb].
    - intros [= <-]. by right.
    - destruct (ReadFile _) eqn:Hr; [|done]. intros [= <-]. by left. }
  destruct (if negb _ then _ else _) as [pem|e]; [|done]. specialize (Hpem pem eq_refl).
  case_match; [done |]. destruct (NewVerifier _) as [v'|e] eqn:Hn; [|done].
  intros [= <-]. apply NewVerifier_ok in Hn as (? & ? & ? & ? & ?). split_and!; eauto; apply H0.
Qed.

(** What [Verify] answers when the clock says [now]. *)
Definition accepted_at (v : Verifier K) (raw : string) (now : Z) (r : result Principal) : Prop :=
  forall p, r = Ok p <-> token_ok v raw now p.

Lemma Verify_at {R} {RC : UniversalClient R} v raw es (w : World R) :
  verifier_ok v ->
  exists r, run (Verify v raw) es w = (w, Some r) /\ accepted_at v raw (env_time (es O)) r.
Proof.
  intros [Hm [Hi Hi'] [Ha Ha'] He]. unfold Verify. destruct (is_empty raw) eqn:Hraw.
  { eexists. split; [done |]. intros p. split; [done |]. intros [Hne _ _ _].
    by apply is_empty_false in Hne; rewrite Hne in Hraw. }
  apply is_empty_false in Hraw. cbn [bind call run handle]. eexists. split; [done |].
  generalize (env_time (es O)) as now. intros now p. split.
  - destruct (ParseWithClaims _ _ now raw) as [[c valid]|e] eqn:Hp; [|done].
    destruct valid; cbn [negb]; [|done].
    destruct (is_empty (TrimSpace (cl_Subject c))) eqn:Hs; [done |]. apply is_empty_false in Hs.
    intros [= <-].
    destruct (ParseWithClaims_sound _ _ _ _ _ _ Hp) as (Hsig & Halg & Hiss & Haud & Hexp & Hlt & Hnbf).
    rewrite Hm in Halg. rewrite Hi in Hiss. rewrite Ha in Haud.
    destruct Halg as (a & Halg & ->%list_elem_of_singleton); [done |].
    split; [done | done | done |]. exists c. destruct (Hexp He) as [t Ht]. split_and!; eauto.
  - intros [_ _ _ (c & -> & _ & _ & _ & _ & Hs & ->)]. cbn [negb].
    by rewrite (proj2 (is_empty_false _) Hs).
Qed.


(** In production, start-up never runs without token verification: with a
    configuration that [load] accepted, building the verifier gives a verifier
    or an error that stops the process, and never the nil verifier. *)
Lemma production_never_open ReadFile frac lookup cfg :
  load frac lookup = Ok cfg ->
  app_Environment (cfg_App cfg) = EnvProduction ->
  VerifierFromConfig ReadFile cfg <> Ok None.
Proof.
  intros Hok%load_Ok_rules Henv.
  destruct (ok_production _ Hok Henv) as (_ & Hi & _).
  unfold VerifierFromConfig. cbn zeta. destruct (if negb _ then _ else _) as [pem|e]; [|done].
  apply is_empty_false in Hi. rewrite Hi, andb_false_r. simpl. by destruct (NewVerifier _).
Qed.
End auth.

(** ** Bearer tokens *)

Lemma TokenFromAuthorization_token h raw : TokenFromAuthorization h = Ok raw -> is_empty raw = false.
Proof. unfold TokenFromAuthorization. cbv zeta. repeat case_match; intros; simplify_eq; done. Qed.

Definition visible (c : ascii) : Prop := 32 < bz c < 127.

Lemma visible_not_space c s : visible c -> decode_rune c s = (bz c, 1%nat) /\ IsSpace (bz c) = false.
Proof.
  unfold visible. intros Hc. rewrite decode_rune_ascii by lia. split; [done |].
  unfold IsSpace. rewrite !orb_false_iff, !andb_false_iff, !Z.leb_gt, !Z.eqb_neq. lia.
Qed.

Lemma TrimSpace_visible s : Forall visible (bytes_of s) -> TrimSpace s = s.
Proof.
  unfold TrimSpace. intros Hs. assert (Hl : trim_left 0 s = s).
  { destruct s as [|c s]; [done |]. inversion_clear Hs as [|? ? Hc Hr].
    destruct (visible_not_space c s Hc) as [Hd Hn]. cbn [trim_left]. by rewrite Hd, Hn. }
  rewrite Hl. clear Hl. induction s as [|c s IH]; [done |]. inversion_clear Hs as [|? ? Hc Hr].
  destruct (visible_not_space c s Hc) as [Hd Hn]. cbn [trim_right].
  rewrite all_runes_String, Hd. cbn [fst snd]. rewrite Hn. simpl. by rewrite (IH Hr).
Qed.

Lemma EqualFold_length s t : EqualFold s t = true -> String.length s = String.length t.
Proof.
  unfold EqualFold. rewrite bool_decide_eq_true. intros H%(f_equal length).
  by rewrite !length_fmap, !length_bytes_of in H.
Qed.

Lemma slice_app s t :
  slice_to (String.length s) (s +:+ t) = s /\ slice_from (String.length s) (s +:+ t) = t.
Proof.
  unfold slice_to, slice_from. rewrite bytes_of_app, <- length_bytes_of.
  rewrite take_app_length, drop_app_length. by rewrite !string_of_bytes_of.
Qed.

Lemma visible_not_blank t :
  t <> "" -> Forall visible (bytes_of t) -> ContainsAny t (String " " (String "009" "")) = false.
Proof.
  intros _ Ht. apply ContainsAny_false. eapply Forall_impl; [exact Ht |].
  intros c Hc. unfold visible in Hc. cbn [bytes_of]. rewrite !elem_of_cons, elem_of_nil.
  intros [-> |[-> |[]]]; vm_compute in Hc; destruct Hc; done.
Qed.

(** The scheme starts with a letter. *)
Lemma scheme_head scheme :
  EqualFold scheme bearerPrefix = true -> exists c s, scheme = String c s /\ visible c.
Proof.
  unfold EqualFold. rewrite bool_decide_eq_true. destruct scheme as [|c s]; [done |].
  cbn [bytes_of fmap list_fmap bearerPrefix]. intros [= H _]. exists c, s. split; [done |].
  change (lower_byte c = "b"%char) in H. unfold lower_byte in H.
  destruct ((65 <=? bz c) && (bz c <=? 90)) eqn:E.
  - apply andb_true_iff in E as [?%Z.leb_le ?%Z.leb_le]. unfold visible. lia.
  - by subst.
Qed.

(** Bearer credentials: a header made of the scheme in any letter case and
    a token of visible characters yields exactly that token; and whatever
    header is accepted, it starts with the scheme, and the token is not empty
    and holds no space or tab. *)
Lemma bearer_exact :
  (forall scheme token,
     EqualFold scheme bearerPrefix = true -> token <> "" -> Forall visible (bytes_of token) ->
     TokenFromAuthorization (scheme +:+ token) = Ok token)
  /\ (forall header token,
     TokenFromAuthorization header = Ok token ->
     EqualFold (slice_to 7 header) bearerPrefix = true
     /\ token = TrimSpace (slice_from 7 header) /\ token <> ""
     /\ Forall (fun c => c ∉ [" "; "009"]%char) (bytes_of token)).
Proof.
  split.
  - intros scheme token Hs Hne Hv. pose proof (EqualFold_length _ _ Hs) as Hlen.
    destruct (slice_app scheme token) as [Ht Hf].
    unfold TokenFromAuthorization. rewrite <- Hlen, Ht, Hf, Hs, (TrimSpace_visible _ Hv).
    rewrite (proj2 (is_empty_false token) Hne), (visible_not_blank _ Hne Hv).
    destruct (is_empty (TrimSpace (scheme +:+ token))) eqn:He.
    { exfalso. unfold is_empty in He. apply bool_decide_eq_true, TrimSpace_empty in He.
      destruct (scheme_head _ Hs) as (c & s & -> & Hc).
      change (String c s +:+ token) with (String c (s +:+ token)) in He.
      rewrite all_runes_String in He. destruct (visible_not_space c (s +:+ token) Hc) as [Hd Hn].
      rewrite Hd in He. simpl in He. by rewrite Hn in He. }
    rewrite (proj2 (Z.ltb_ge _ _)); [done |]. unfold len. rewrite <- Hlen.
    rewrite <- !length_bytes_of, bytes_of_app, length_app. lia.
  - intros header token. unfold TokenFromAuthorization. change (String.length bearerPrefix) with 7%nat.
    destruct (is_empty (TrimSpace header)); [done |].
    destruct (len header <? len bearerPrefix); [done |].
    destruct (EqualFold _ _); [|done]. simpl.
    destruct (is_empty (TrimSpace _)) eqn:He; [done |]. apply is_empty_false in He.
    destruct (ContainsAny _ _) eqn:Hc; [done |]. intros [= <-].
    by apply ContainsAny_false in Hc.
Qed.

(** ** A library that satisfies the law

    A token spells out its algorithm, the name of the key that signed it and
    its claims, separated by dots; a key is its name. *)
Module ToyJwt.
Definition fields (raw : string) : option (string * string * registeredClaims) :=
  match Split raw "." with
  | [alg; key; iss; aud; sub; exp; scope] =>
      Some (alg, key, mkClaims iss sub [aud] (Atoi exp) None scope [])
  | _ => None
  end.

Definition alg_of (raw : string) : option string :=
  match fields raw with Some (a, _, _) => Some a | None => None end.
Definition signed (k raw : string) : Prop :=
  match fields raw with Some (_, k', _) => k = k' | None => False end.

Definition checks (o : ParserOptions) (k : string) (now : Z) (alg key : string)
    (c : registeredClaims) : bool :=
  bool_decide (k = key)
  && (bool_decide (opt_ValidMethods o = []) || one_of alg (opt_ValidMethods o))
  && (is_empty (opt_Issuer o) || bool_decide (cl_Issuer c = opt_Issuer o))
  && (is_empty (opt_Audience o) || one_of (opt_Audience o) (cl_Audience c))
  && match cl_ExpiresAt c with
     | Some t => now <? t + opt_Leeway o
     | None => negb (opt_ExpirationRequired o)
     end
  && match cl_NotBefore c with Some t => t - opt_Leeway o <=? now | None => true end.

Definition parse (o : ParserOptions) (k : string) (now : Z) (raw : string)
    : result (registeredClaims * bool) :=
  match fields raw with
  | Some (alg, key, c) =>
      if checks o k now alg key c then Ok (c, true) else Err (External "token is unverifiable")
  | None => Err (External "token is malformed")
  end.

Lemma checks_sound o k now alg key c :
  checks o k now alg key c = true ->
  k = key /\ (opt_ValidMethods o <> [] -> alg ∈ opt_ValidMethods o)
  /\ (opt_Issuer o <> "" -> cl_Issuer c = opt_Issuer o)
  /\ (opt_Audience o <> "" -> opt_Audience o ∈ cl_Audience c)
  /\ (opt_ExpirationRequired o = true -> is_Some (cl_ExpiresAt c))
  /\ (forall t, cl_ExpiresAt c = Some t -> now < t + opt_Leeway o)
  /\ (forall t, cl_NotBefore c = Some t -> t - opt_Leeway o <= now).
Proof.
  unfold checks, is_empty, one_of. rewrite !andb_true_iff, !orb_true_iff, !bool_decide_eq_true.
  intros (((((Hk & Hm) & Hi) & Ha) & He) & Hn). split; [done |].
  split; [intros; by destruct Hm |].
  split; [intros; by destruct Hi |]. split; [intros; by destruct Ha |].
  split; [|split].
  - intros Hr. rewrite Hr in He. destruct (cl_ExpiresAt c); [by eauto | done].
  - intros t Ht. rewrite Ht in He. by apply Z.ltb_lt.
  - intros t Ht. rewrite Ht in Hn. by apply Z.leb_le.
Qed.

Lemma parse_sound o k now raw c valid :
  parse o k now raw = Ok (c, valid) ->
  signed k raw
  /\ (opt_ValidMethods o <> [] -> exists a, alg_of raw = Some a /\ a ∈ opt_ValidMethods o)
  /\ (opt_Issuer o <> "" -> cl_Issuer c = opt_Issuer o)
  /\ (opt_Audience o <> "" -> opt_Audience o ∈ cl_Audience c)
  /\ (opt_ExpirationRequired o = true -> is_Some (cl_ExpiresAt c))
  /\ (forall t, cl_ExpiresAt c = Some t -> now < t + opt_Leeway o)
  /\ (forall t, cl_NotBefore c = Some t -> t - opt_Leeway o <= now).
Proof.
  unfold parse, signed, alg_of. destruct (fields raw) as [[[alg key] c']|]; [|done].
  destruct (checks o k now alg key c') eqn:E; [|done]. intros [= <- _].
  apply checks_sound in E as (Hk & Hm & Hrest). split_and!; [done | by eauto | apply Hrest..].
Qed.
End ToyJwt.

#[global] Instance toy_jwt : JwtLib string := {|
  pem_Decode pem := Some ("PUBLIC KEY"%string, pem);
  ParsePKIXPublicKey bytes := Ok (RsaPublicKey bytes);
  ParsePKCS1PublicKey bytes := Ok bytes;
  token_alg := ToyJwt.alg_of;
  token_signed := ToyJwt.signed;
  ParseWithClaims := ToyJwt.parse;
  ParseWithClaims_sound := ToyJwt.parse_sound
|}.

(** A production environment and the verifier it gives. *)
Definition prod_env (key : string) : option string :=
  if bool_decide (key = "APP_ENV") then Some "production"%string
  else if bool_decide (key = "POSTGRES_SSLMODE") then Some "require"%string
  else if bool_decide (key = "JWT_PUBLIC_KEY") then Some "k1"%string
  else if bool_decide (key = "JWT_ISSUER") then Some "idp"%string
  else if bool_decide (key = "JWT_AUDIENCE") then Some "payments"%string
  else None.

Definition prod_config : Config := fst (read_config exact_frac prod_env []).
Definition no_file (path : string) : result string := Err (External "no such file").
Definition prod_verifier : Verifier string :=
  mkVerifier (mkParser [RS256] "idp" "payments" true (30 * Second)) "k1"%string "idp" "payments".

(** A token that expires at one minute, presented at time zero. *)
Definition good_token : string := "RS256.k1.idp.payments.alice.60000000000.transfers:write".
