(* ===== verification/Pools.v ===== *)
(** * [internal/database] and [internal/redisclient]: the connection pools

    Building, verifying and closing the two clients. pgxpool and go-redis are
    parameters: what they build from their options is abstract; a pool holds at
    least one connection, and closing it waits for the connections in use. *)
From stdpp Require Import base gmap fin_maps strings list.
From Stdlib Require Import ZArith Lia Ascii.
From S2P Require Import Prelude.
From S2P Require Import GoStd.
From S2P Require Import GoStrings.
From S2P Require Import GoTime.
From S2P Require Import Uuid.
From S2P Require Import Errors.
From S2P Require Import Config.
From S2P Require Import Schema.
From S2P Require Import Tx.
From S2P Require Import Prog.

Open Scope Z_scope.

(** ** The PostgreSQL pool *)

(** The fields of [pgxpool.Config] the program sets, and the string it was
    parsed from. *)
Record PoolConfig := mkPoolConfig {
  pc_ConnString : string;
  pc_MaxConns : Z;                            (* int32 *)
  pc_MaxConnLifetime : Z;
  pc_ConnectTimeout : Z;
  pc_RuntimeParams : gmap string string
}.

(** pgxpool. A pool whose ceiling is below one is refused. [Close] may block
    while requests, [n] of them, hold connections; with none it returns. *)
Class PgxLib (P : Type) := {
  ParseConfig : string -> result PoolConfig;
  NewWithConfig : PoolConfig -> result P;
  Close_returns : nat -> Prop;
  Close_live : Close_returns 0;
  ParseConfig_source : forall s c, ParseConfig s = Ok c -> pc_ConnString c = s;
  NewWithConfig_size : forall c p, NewWithConfig c = Ok p -> 1 <= pc_MaxConns c
}.

Record DB (P : Type) := mkDB { db_pool : P; db_connectTimeout : Z; db_redactedDSN : string }.
Arguments mkDB {P}.
Arguments db_pool {P}.
Arguments db_connectTimeout {P}.
Arguments db_redactedDSN {P}.

Section database.
Context {P : Type} {PL : PgxLib P}.

(** What [New] changes of the configuration it parsed. *)
Definition pool_settings (cfg : Config) (c : PoolConfig) : PoolConfig :=
  let p := cfg_Postgres cfg in
  mkPoolConfig (pc_ConnString c) (wrap32 (pg_MaxOpenConns p)) (pg_ConnMaxLifetime p)
    (pg_ConnectTimeout p)
    (<["application_name"%string := app_Name (cfg_App cfg)]> (pc_RuntimeParams c)).

Definition database_New (cfg : Config) : result (DB P) :=
  let p := cfg_Postgres cfg in
  match ParseConfig (DSN p) with
  | Err err =>
      Err (Wrap [Txt "invalid postgres configuration "; Str (RedactedDSN p); Txt ": "] err [])
  | Ok poolCfg =>
      match NewWithConfig (pool_settings cfg poolCfg) with
      | Err err => Err (prefixed "create postgres pool: " err)
      | Ok pool => Ok (mkDB pool (pg_ConnectTimeout p) (RedactedDSN p))
      end
  end.

(** [DB.Verify]: a round trip under its own deadline. *)
Definition database_Verify (db : DB P) : prog (option goerr) :=
  (r <- call (OpQuery (fun _ => tt)) ;;
   match r with
   | Err err =>
       Ret (Some (Wrap [Txt "postgres at "; Str (db_redactedDSN db); Txt " did not respond within ";
                        Dur (db_connectTimeout db); Txt ": "] err []))
   | Ok _ => Ret None
   end)%prog.

Lemma database_Verify_returns db : leaves (fun _ => True) (database_Verify db).
Proof. by intros []. Qed.

(** The pool a configuration that [load] accepted gives: its ceiling is the
    configured number of connections exactly when that number fits 32 bits. *)
Lemma database_New_ceiling cfg db :
  1 <= pg_MaxOpenConns (cfg_Postgres cfg) -> database_New cfg = Ok db ->
  exists c pool, ParseConfig (DSN (cfg_Postgres cfg)) = Ok c
    /\ NewWithConfig (pool_settings cfg c) = Ok pool /\ db_pool db = pool
    /\ 1 <= pc_MaxConns (pool_settings cfg c) <= int32_max
    /\ (pc_MaxConns (pool_settings cfg c) = pg_MaxOpenConns (cfg_Postgres cfg)
        <-> pg_MaxOpenConns (cfg_Postgres cfg) <= int32_max).
Proof.
  intros Hpos. unfold database_New. cbn zeta. destruct (ParseConfig _) as [c|] eqn:Hc; [|done].
  destruct (NewWithConfig _) as [pool|] eqn:Hn; [|done]. intros [= <-]. exists c, pool.
  apply NewWithConfig_size in Hn as Hs. cbn [pool_settings pc_MaxConns] in *.
  pose proof (wrap32_range (pg_MaxOpenConns (cfg_Postgres cfg))).
  split_and!; try done; try lia. split; [lia |]. intros Hle. apply wrap32_id. lia.
Qed.

(** C37. The pool that a configuration accepted by [load] gives always has room
    for one connection and at most [2^31 - 1]; its ceiling is the configured
    number exactly when that number fits 32 bits, for the conversion wraps
    around and no rule bounds the number; its lifetime and timeout are the
    configured ones, and its sessions carry the name of the application. *)
Theorem pool_ceiling frac lookup cfg db :
  load frac lookup = Ok cfg -> database_New cfg = Ok db ->
  exists c, ParseConfig (DSN (cfg_Postgres cfg)) = Ok c
    /\ NewWithConfig (pool_settings cfg c) = Ok (db_pool db)
    /\ 1 <= pc_MaxConns (pool_settings cfg c) <= int32_max
    /\ (pc_MaxConns (pool_settings cfg c) = pg_MaxOpenConns (cfg_Postgres cfg)
        <-> pg_MaxOpenConns (cfg_Postgres cfg) <= int32_max)
    /\ 0 <= pc_MaxConnLifetime (pool_settings cfg c) /\ 0 < pc_ConnectTimeout (pool_settings cfg c)
    /\ pc_RuntimeParams (pool_settings cfg c) !! "application_name"%string = Some (app_Name (cfg_App cfg)).
Proof.
  intros Hl%load_Ok_rules Hn. destruct (ok_postgres _ Hl) as (_ & _ & _ & _ & _ & Hpos & _ & Hlife & Hct).
  destruct (database_New_ceiling _ _ Hpos Hn) as (c & pool & Hp & Hw & -> & Hr & Hiff).
  exists c. split_and!; try done; try lia. simpl. apply lookup_insert_eq.
Qed.
End database.

(** ** The Redis client *)

(** The fields of [redis.Options] the program sets. *)
Record RedisOptions := mkRedisOptions {
  ro_Addr : string; ro_Password : string; ro_DB : Z;
  ro_DialTimeout : Z; ro_ReadTimeout : Z; ro_WriteTimeout : Z
}.

Record RedisClient (C : Type) := mkRedisClient { rc_client : C; rc_addr : string }.
Arguments mkRedisClient {C}.
Arguments rc_client {C}.
Arguments rc_addr {C}.

Section redis.
Context {C : Type}.
Variable NewClient : RedisOptions -> C.      (* redis.NewClient *)

Definition redis_options (r : Redis) : RedisOptions :=
  mkRedisOptions (redis_Addr r) (redis_Password r) (redis_DB r)
    (redis_DialTimeout r) (redis_CommandTimeout r) (redis_CommandTimeout r).

Definition redis_New (cfg : Config) : RedisClient C :=
  mkRedisClient (NewClient (redis_options (cfg_Redis cfg))) (redis_Addr (cfg_Redis cfg)).

Definition redis_Verify (c : RedisClient C) : prog (option goerr) :=
  (r <- call OpPing ;;
   match r with
   | Err err => Ret (Some (Wrap [Txt "redis at "; Str (rc_addr c); Txt " did not respond: "] err []))
   | Ok _ => Ret None
   end)%prog.

Lemma redis_Verify_returns c : leaves (fun _ => True) (redis_Verify c).
Proof. by intros []. Qed.
End redis.

(** ** A pool that satisfies the law *)

#[global] Instance toy_pgx : PgxLib PoolConfig.
Proof.
  refine {| ParseConfig s := Ok (mkPoolConfig s 4 0 0 ∅);
            NewWithConfig c := if pc_MaxConns c <? 1 then Err (External "MaxSize must be >= 1")
                               else Ok c;
            Close_returns n := True |}.
  - done.
  - by intros s c [= <-].
  - intros c p. destruct (Z.ltb_spec (pc_MaxConns c) 1); [done | by intros _].
Defined.

Lemma pool_ceiling_witness :
  exists db : DB PoolConfig, database_New default_config = Ok db /\ pc_MaxConns (db_pool db) = 25.
Proof.
  destruct (database_New (P := PoolConfig) default_config) as [db|e] eqn:Hn; [|by vm_compute in Hn].
  destruct (pool_ceiling exact_frac no_env default_config db load_defaults Hn)
    as (c & _ & Hw & _ & Hiff & _).
  exists db. split; [reflexivity |].
  assert (Hm : pc_MaxConns (pool_settings default_config c) = 25).
  { transitivity (pg_MaxOpenConns (cfg_Postgres default_config)); [|vm_compute; reflexivity].
    apply Hiff. by vm_compute. }
  apply NewWithConfig_size in Hw as Hs. cbn [NewWithConfig toy_pgx] in Hw. rewrite Hm in Hw.
  injection Hw as Hw. by rewrite <- Hw.
Defined.
