(* ===== verification/Retry.v ===== *)
(** * [internal/transfer]: the retry policy and the retry loop

    [retry.go], and [postWithRetry], [PostWithAttempts] and [Post] of
    [transfer.go]. Durations are nanoseconds in an [int64]. *)
From stdpp Require Import base gmap fin_maps strings list.
From Stdlib Require Import ZArith Lia Ascii.
From S2P Require Import Prelude.
From S2P Require Import GoStd.
From S2P Require Import Uuid.
From S2P Require Import Errors.
From S2P Require Import Money.
From S2P Require Import Schema.
From S2P Require Import Tx.
From S2P Require Import Transfer.
From S2P Require Import Prog.

Open Scope Z_scope.

Definition Millisecond : Z := 1000000.

Definition sqlStateSerializationFailure : string := "40001".
Definition sqlStateDeadlockDetected : string := "40P01".

Record RetryPolicy := mkRetryPolicy { MaxAttempts : Z; BaseDelay : Z; MaxDelay : Z }.

Definition DefaultRetryPolicy : RetryPolicy :=
  mkRetryPolicy 20 Millisecond (100 * Millisecond).

(** The doubling loop of [delay]: [n] iterations at most. *)
Fixpoint double_ceiling (n : nat) (ceiling max : Z) : Z :=
  match n with
  | O => ceiling
  | S n' =>
      let ceiling := wrap64 (ceiling * 2) in
      if max <=? ceiling then max else double_ceiling n' ceiling max
  end.

(** The upper end of the backoff interval after a failed attempt (1-based). *)
Definition delay_ceiling (p : RetryPolicy) (attempt : Z) : Z :=
  let attempt := if attempt <? 1 then 1 else attempt in
  let ceiling := double_ceiling (Z.to_nat (attempt - 1)) (BaseDelay p) (MaxDelay p) in
  if MaxDelay p <? ceiling then MaxDelay p else ceiling.

(** [rand.Int64N(n)]: a draw in [0, n), or a panic ([None]) when [n <= 0]. *)
Definition Int64N (draw n : Z) : option Z := if n <=? 0 then None else Some (draw mod n).

(** [delay]: [None] is a panic. *)
Definition delay (p : RetryPolicy) (attempt draw : Z) : option Z :=
  let ceiling := delay_ceiling p attempt in
  if ceiling <=? 0 then Some 0 else Int64N draw (wrap64 (ceiling + 1)).

(** [wait]: sleeps for the backoff, or returns the context's error. *)
Definition wait (p : RetryPolicy) (attempt : Z) : prog (option goerr) :=
  (draw <- call OpRand ;;
   match delay p attempt draw with
   | None => Crash "invalid argument to Int64N"
   | Some d => if d <=? 0 then call (OpWait 0) else call (OpWait d)
   end)%prog.

Definition retryableCode (err : goerr) : string * bool :=
  match errors_As_Pg err with
  | None => ("", false)
  | Some pgErr =>
      if bool_decide (Code pgErr = sqlStateSerializationFailure)
         || bool_decide (Code pgErr = sqlStateDeadlockDetected)
      then (Code pgErr, true) else (Code pgErr, false)
  end.

Record Attempts := mkAttempts { Total : Z; SerializationFailures : Z; Deadlocks : Z }.

#[global] Instance Attempts_eq_dec : EqDecision Attempts.
Proof. solve_decision. Defined.

Definition Retries (a : Attempts) : Z := if Total a <=? 1 then 0 else Total a - 1.

Definition record (a : Attempts) (code : string) : Attempts :=
  if bool_decide (code = sqlStateSerializationFailure) then
    mkAttempts (Total a) (SerializationFailures a + 1) (Deadlocks a)
  else if bool_decide (code = sqlStateDeadlockDetected) then
    mkAttempts (Total a) (SerializationFailures a) (Deadlocks a + 1)
  else a.

Definition with_total (a : Attempts) (n : Z) : Attempts :=
  mkAttempts n (SerializationFailures a) (Deadlocks a).

(** [NewServiceWithPolicy] clamps the attempt budget. *)
Definition NewServiceWithPolicy (p : RetryPolicy) : RetryPolicy :=
  if MaxAttempts p <? 1 then mkRetryPolicy 1 (BaseDelay p) (MaxDelay p) else p.

(** The loop of [postWithRetry], from attempt number [attempt] on. The fuel
    bounds the iterations; [retry_loop_leaves] shows that it does not run out
    within the attempt budget. *)
Fixpoint retry_loop (fuel : nat) (p : RetryPolicy) (cmd : Command)
    (stamp : option idempotencyStamp) (attempt : Z) (attempts : Attempts)
    : prog (result Transfer * Attempts) :=
  match fuel with
  | O => Crash "out of fuel"
  | S fuel' =>
      (let attempts := with_total attempts attempt in
       r <- call (OpPostOnce cmd stamp) ;;
       match r with
       | Ok posted => Ret (Ok posted, attempts)
       | Err err =>
           let '(code, retryable) := retryableCode err in
           if negb retryable then Ret (Err err, attempts)
           else
             let attempts := record attempts code in
             if MaxAttempts p <=? attempt then
               Ret (Err (Wrap2 ErrRetriesExhausted
                                 [Txt " after "; Num attempt; Txt " attempts (last SQLSTATE ";
                                  Str code; Txt "): "] err), attempts)
             else
               w <- wait p attempt ;;
               match w with
               | Some cerr =>
                   Ret (Err (Wrap [Txt "transfer: retry cancelled after "; Num attempt;
                                         Txt " attempts: "] cerr []), attempts)
               | None => retry_loop fuel' p cmd stamp (attempt + 1) attempts
               end
       end)%prog
  end.

Definition postWithRetry (p : RetryPolicy) (cmd : Command) (stamp : option idempotencyStamp)
    : prog (result Transfer * Attempts) :=
  let attempts := mkAttempts 0 0 0 in
  match Command_Validate cmd with
  | Some err => Ret (Err err, attempts)
  | None =>
      retry_loop (Z.to_nat (Z.max 1 (MaxAttempts p))) p cmd stamp 1 attempts
  end.

Definition PostWithAttempts (p : RetryPolicy) (cmd : Command)
    : prog (result Transfer * Attempts) := postWithRetry p cmd None.

Definition Post (p : RetryPolicy) (cmd : Command) : prog (result Transfer) :=
  ('(posted, _) <- PostWithAttempts p cmd ;; Ret posted)%prog.

(** ** The backoff *)

(** The interval never exceeds the cap, whatever the doubling does. *)
Lemma delay_ceiling_le p attempt : delay_ceiling p attempt <= MaxDelay p.
Proof. unfold delay_ceiling. destruct (_ <? _) eqn:E; [done | by apply Z.ltb_ge in E]. Qed.

(** Below the cap the interval doubles. *)
Lemma double_ceiling_spec n c max :
  0 < c -> c <= max -> max < 2 ^ 62 ->
  double_ceiling n c max = Z.min (c * 2 ^ Z.of_nat n) max.
Proof.
  revert c. induction n as [|n IH]; intros c Hc Hle Hmax; cbn [double_ceiling].
  - rewrite Z.mul_1_r. lia.
  - assert (Hw : wrap64 (c * 2) = c * 2).
    { apply wrap64_id; int64. }
    rewrite Hw, Nat2Z.inj_succ, Z.pow_succ_r by lia.
    pose proof (Z.pow_pos_nonneg 2 (Z.of_nat n)).
    destruct (Z.leb_spec max (c * 2)); [nia |].
    rewrite IH by lia. f_equal. lia.
Qed.

Lemma delay_ceiling_spec p attempt :
  0 < BaseDelay p -> BaseDelay p <= MaxDelay p -> MaxDelay p < 2 ^ 62 -> 1 <= attempt ->
  delay_ceiling p attempt = Z.min (BaseDelay p * 2 ^ (attempt - 1)) (MaxDelay p).
Proof.
  intros. unfold delay_ceiling. rewrite (proj2 (Z.ltb_ge attempt 1)) by done.
  rewrite double_ceiling_spec, Z2Nat.id by lia.
  destruct (Z.ltb_spec (MaxDelay p) (Z.min (BaseDelay p * 2 ^ (attempt - 1)) (MaxDelay p))); lia.
Qed.

(** A policy whose cap leaves room for the [+1] of [delay]. *)
Definition policy_ok (p : RetryPolicy) : Prop := MaxDelay p < int64_max.

Lemma delay_range p attempt draw :
  policy_ok p ->
  exists d, delay p attempt draw = Some d /\ 0 <= d <= Z.max 0 (delay_ceiling p attempt).
Proof.
  unfold policy_ok. intros Hp. pose proof (delay_ceiling_le p attempt) as Hle. unfold delay.
  destruct (Z.leb_spec (delay_ceiling p attempt) 0); [eexists; split; [done | lia] |].
  unfold Int64N. rewrite wrap64_id
    by (int64).
  destruct (Z.leb_spec (delay_ceiling p attempt + 1) 0); [lia |].
  eexists. split; [done |].
  pose proof (Z.mod_pos_bound draw (delay_ceiling p attempt + 1)). lia.
Qed.

(** ** Accounting of the loop *)

(** Counting transactions, and counting nanoseconds slept. *)
Definition cost_posts B (o : op B) : Z := match o with OpPostOnce _ _ => 1 | _ => 0 end.
Definition cost_sleep B (o : op B) : Z := match o with OpWait d => Z.max 0 d | _ => 0 end.

(** The longest sleep before attempt [n + 1]: the sum of the first [n] intervals. *)
Fixpoint backoff_budget (p : RetryPolicy) (n : nat) : Z :=
  match n with
  | O => 0
  | S n' => backoff_budget p n' + Z.max 0 (delay_ceiling p (Z.of_nat n))
  end.

Lemma backoff_budget_mono p n m : (n <= m)%nat -> backoff_budget p n <= backoff_budget p m.
Proof. induction 1; simpl; lia. Qed.

(** Waiting costs no transaction and at most the interval's length. *)
Lemma wait_tally (cost : forall B, op B -> Z) p attempt (P : Z -> option goerr -> Prop) n :
  policy_ok p -> cost _ OpRand = 0 ->
  (forall d w, 0 <= d <= Z.max 0 (delay_ceiling p attempt) -> P (n + cost _ (OpWait d)) w) ->
  tally cost P n (wait p attempt).
Proof.
  intros Hp Hr H. unfold wait. simpl. intros draw. rewrite Hr, Z.add_0_r.
  destruct (delay_range p attempt draw Hp) as (d & -> & Hd).
  destruct (Z.leb_spec d 0); simpl; intros b; apply H; lia.
Qed.

Definition max_attempts (p : RetryPolicy) : Z := Z.max 1 (MaxAttempts p).

Definition retry_cancelled (attempt : Z) (cerr : goerr) : goerr :=
  Wrap [Txt "transfer: retry cancelled after "; Num attempt; Txt " attempts: "] cerr [].

(** How the loop may end, and what the counters then say: every attempt but a
    last one that was final failed with one of the two retryable codes. *)
Definition loop_outcome (p : RetryPolicy) (r : result Transfer) (a : Attempts) : Prop :=
  1 <= Total a <= max_attempts p
  /\ 0 <= SerializationFailures a /\ 0 <= Deadlocks a
  /\ match r with
     | Ok _ => SerializationFailures a + Deadlocks a = Total a - 1
     | Err e =>
         (snd (retryableCode e) = false /\ SerializationFailures a + Deadlocks a = Total a - 1)
         \/ SerializationFailures a + Deadlocks a = Total a
            /\ (errors_Is e ErrRetriesExhausted = true /\ Total a = max_attempts p
                \/ exists cerr, e = retry_cancelled (Total a) cerr)
     end.

(** Recording a retryable code counts it once. *)
Lemma record_retryable e c a :
  retryableCode e = (c, true) ->
  Total (record a c) = Total a
  /\ SerializationFailures (record a c) + Deadlocks (record a c)
     = SerializationFailures a + Deadlocks a + 1
  /\ SerializationFailures a <= SerializationFailures (record a c)
  /\ Deadlocks a <= Deadlocks (record a c).
Proof.
  unfold retryableCode, record. destruct (errors_As_Pg e) as [pg|]; [|done].
  destruct (_ || _) eqn:E; [|done]. intros [= <-].
  destruct (bool_decide (Code pg = sqlStateSerializationFailure)) eqn:E1; simpl; [lia |].
  simpl in E. rewrite E. simpl. lia.
Qed.

(** The invariant of the loop at the start of attempt number [n]. *)
Definition counted (n : Z) (a : Attempts) : Prop :=
  SerializationFailures a + Deadlocks a = n - 1
  /\ 0 <= SerializationFailures a /\ 0 <= Deadlocks a.

Lemma retry_loop_leaves fuel p cmd stamp n a m :
  policy_ok p -> 1 <= n <= max_attempts p -> fuel = Z.to_nat (max_attempts p - n + 1) ->
  counted n a ->
  tally cost_posts
    (fun m' '(r, a') => loop_outcome p r a' /\ n <= Total a' /\ m' = m + (Total a' - n + 1))
    m (retry_loop fuel p cmd stamp n a).
Proof.
  intros Hp. revert fuel n a m. induction fuel as [|fuel IH]; intros n a m Hn Hf (Hs & H1 & H2);
    [lia |]. cbn [retry_loop bind call tally cost_posts]. intros [t|e].
  { simpl. unfold loop_outcome. simpl. lia. }
  destruct (retryableCode e) as [c b] eqn:Ec. destruct b; cbn [negb].
  2: { simpl. unfold loop_outcome. simpl. rewrite Ec. simpl. lia. }
  destruct (record_retryable _ _ (with_total a n) Ec) as (Ht & Hsum & Hx & Hy).
  simpl in Ht, Hsum, Hx, Hy.
  destruct (Z.leb_spec (MaxAttempts p) n).
  - simpl. unfold loop_outcome. rewrite Ht, Hsum. unfold max_attempts in *.
    split_and!; try lia. right. split; [lia |]. left. split; [|lia]. done.
  - apply tally_bind, wait_tally; [done | done |]. intros d [cerr|] _; simpl.
    + unfold loop_outcome. rewrite Ht, Hsum. split_and!; try lia. right. split; [lia |].
      right. by eexists.
    + eapply tally_mono; [|apply (IH (n + 1)); unfold counted, max_attempts in *; lia].
      intros m' [r a'] (Ho & Hle & ->). split_and!; [done | lia | lia].
Qed.

Lemma retry_loop_sleep fuel p cmd stamp n a m :
  policy_ok p -> 1 <= n <= max_attempts p -> fuel = Z.to_nat (max_attempts p - n + 1) ->
  tally cost_sleep
    (fun m' _ => m' <= m + backoff_budget p (Z.to_nat (max_attempts p - 1))
                        - backoff_budget p (Z.to_nat (n - 1)))
    m (retry_loop fuel p cmd stamp n a).
Proof.
  intros Hp. revert fuel n a m. induction fuel as [|fuel IH]; intros n a m Hn Hf; [lia |].
  pose proof (backoff_budget_mono p (Z.to_nat (n - 1)) (Z.to_nat (max_attempts p - 1))) as Hmono.
  cbn [retry_loop bind call tally cost_sleep]. intros [t|e]; [simpl; lia |].
  destruct (retryableCode e) as [c b]. destruct b; cbn [negb]; [|simpl; lia].
  destruct (Z.leb_spec (MaxAttempts p) n); [simpl; lia |].
  apply tally_bind, wait_tally; [done | done |]. intros d w Hd. simpl.
  assert (Hb : backoff_budget p (Z.to_nat n)
               = backoff_budget p (Z.to_nat (n - 1)) + Z.max 0 (delay_ceiling p n)).
  { replace (Z.to_nat n) with (S (Z.to_nat (n - 1))) by lia. cbn [backoff_budget].
    do 3 f_equal. lia. }
  pose proof (backoff_budget_mono p (Z.to_nat n) (Z.to_nat (max_attempts p - 1))).
  unfold max_attempts in *. destruct w as [cerr|]; simpl; [lia |].
  eapply tally_mono; [|apply (IH (n + 1)); lia].
  intros m' ra H'. replace (n + 1 - 1) with n in H' by lia. lia.
Qed.
