(* ===== verification/Store.v ===== *)
(** * [internal/idempotency]: the Redis coordination store

    [store.go]: the record kept for a key, and [Acquire], [Get], [Complete],
    [Release] and [Ping] over a [redis.UniversalClient]. A record is stored as
    JSON; [RecordCodec] is what the store relies on of [encoding/json]. *)
From stdpp Require Import base gmap fin_maps strings list.
From Stdlib Require Import ZArith Lia Ascii.
From S2P Require Import Prelude.
From S2P Require Import GoStd.
From S2P Require Import GoTime.
From S2P Require Import Uuid.
From S2P Require Import Errors.
From S2P Require Import Money.
From S2P Require Import Schema.
From S2P Require Import Tx.
From S2P Require Import Transfer.
From S2P Require Import Idempotency.
From S2P Require Import Prog.

Open Scope Z_scope.

Definition StateProcessing : string := "PROCESSING".
Definition StateCompleted : string := "COMPLETED".

Record Record_ := mkRecord {
  rec_State : string;
  rec_Fingerprint : string;
  rec_TransferID : string;
  rec_ClaimedAt : string;
  rec_CompletedAt : string
}.

#[global] Instance Record_eq_dec : EqDecision Record_.
Proof. solve_decision. Defined.

Definition empty_record : Record_ := mkRecord "" "" "" "" "".

(** A character that JSON text carries as it is. *)
Definition plain_char (z : Z) : bool :=
  (32 <=? z) && (z <=? 126)
  && negb ((z =? 34) || (z =? 92) || (z =? 60) || (z =? 62) || (z =? 38)).

Definition plain_record (r : Record_) : bool :=
  forallb (all_bytes plain_char)
    [rec_State r; rec_Fingerprint r; rec_TransferID r; rec_ClaimedAt r; rec_CompletedAt r].

(** [json.Marshal] and [json.Unmarshal] at type [Record]; [None] is a decoding
    error. Decoding what was encoded gives the record back. *)
Class RecordCodec := {
  Marshal : Record_ -> string;
  Unmarshal : string -> option Record_;
  Unmarshal_Marshal : forall r, plain_record r = true -> Unmarshal (Marshal r) = Some r
}.

Definition Matches (r : Record_) (f : list ascii) : bool :=
  bool_decide (rec_Fingerprint r = Fingerprint_String f).

(** A [*Store]: the interface value it holds may be nil, and so may the pointer. *)
Record Store := mkStore {
  st_client : bool;
  st_ttl : Z;
  st_processingTTL : Z;
  st_commandTimeout : Z
}.

Definition Available (s : option Store) : bool :=
  match s with
  | Some s => st_client s
  | None => false
  end.

Record Claim := mkClaim { Acquired : bool; Existing : Record_ }.

(** [fmt.Errorf("%w: %w", ErrUnavailable, err)]. *)
Definition unavailable (err : goerr) : goerr := Wrap2 ErrUnavailable [Txt ": "] err.

Section store.
Context {RCo : RecordCodec}.
Definition get (key : string) : prog (result (option Record_)) :=
  (raw <- call (OpGet (RedisKey key)) ;;
   match raw with
   | Ok None => Ret (Ok None)
   | Err err => Ret (Err (unavailable err))
   | Ok (Some raw) =>
       match Unmarshal raw with
       | None => Ret (Err (Wrap [Txt "idempotency: decode record for "; Str key; Txt ": "]
                             (External "json") []))
       | Some record => Ret (Ok (Some record))
       end
   end)%prog.

(** The bounded loop of [Acquire]. *)
Fixpoint acquire_loop (n : nat) (s : Store) (key encoded : string) : prog (result Claim) :=
  match n with
  | O => Ret (Err (wrapping ErrInProgress
                     [Txt ": could not settle the claim for "; Str key; Txt " after ";
                      Num 3; Txt " attempts"]))
  | S n' =>
      (ok <- call (OpSetNX (RedisKey key) encoded (st_processingTTL s)) ;;
       match ok with
       | Err err => Ret (Err (unavailable err))
       | Ok true => Ret (Ok (mkClaim true empty_record))
       | Ok false =>
           existing <- get key ;;
           match existing with
           | Err err => Ret (Err err)
           | Ok (Some existing) => Ret (Ok (mkClaim false existing))
           | Ok None => acquire_loop n' s key encoded
           end
       end)%prog
  end.

Definition claim_record (f : list ascii) (now : Z) : Record_ :=
  mkRecord StateProcessing (Fingerprint_String f) "" (FormatRFC3339Nano now) "".

Definition Acquire (s : option Store) (key : string) (f : list ascii) : prog (result Claim) :=
  match s with
  | Some st =>
      if st_client st then
        (now <- call OpNow ;;
         acquire_loop 3 st key (Marshal (claim_record f now)))%prog
      else Ret (Err ErrUnavailable)
  | None => Ret (Err ErrUnavailable)
  end.

Definition Store_Get (s : option Store) (key : string) : prog (result (option Record_)) :=
  if negb (Available s) then Ret (Err ErrUnavailable) else get key.

Definition completion_record (f : list ascii) (transferID : string) (t1 t2 : Z) : Record_ :=
  mkRecord StateCompleted (Fingerprint_String f) transferID (FormatRFC3339Nano t1) (FormatRFC3339Nano t2).

Definition Complete (s : option Store) (key : string) (f : list ascii) (transferID : string)
    : prog (result unit) :=
  match s with
  | Some st =>
      if st_client st then
        (t1 <- call OpNow ;;
         t2 <- call OpNow ;;
         r <- call (OpSet (RedisKey key) (Marshal (completion_record f transferID t1 t2))
                      (st_ttl st)) ;;
         match r with
         | Err err => Ret (Err (unavailable err))
         | Ok _ => Ret (Ok tt)
         end)%prog
      else Ret (Err ErrUnavailable)
  | None => Ret (Err ErrUnavailable)
  end.

Definition Release (s : option Store) (key : string) : prog (result unit) :=
  if negb (Available s) then Ret (Err ErrUnavailable)
  else
    (r <- call (OpDel (RedisKey key)) ;;
     match r with
     | Err err => Ret (Err (unavailable err))
     | Ok _ => Ret (Ok tt)
     end)%prog.

Definition Store_Ping (s : option Store) : prog (result unit) :=
  if negb (Available s) then Ret (Err ErrUnavailable)
  else
    (r <- call OpPing ;;
     match r with
     | Err err => Ret (Err (unavailable err))
     | Ok _ => Ret (Ok tt)
     end)%prog.
End store.
