(* ===== verification/RecordJson.v ===== *)
(** * The JSON of a store record

    What [json.Marshal] and [json.Unmarshal] do at the type [Record] of
    [internal/idempotency/store.go]: the tags of the struct on the way out; on
    the way in, members matched to fields by name, exactly or by case folding,
    unknown members ignored, [null] leaving a field alone and any other value
    that is not a string an error. *)
From stdpp Require Import base gmap fin_maps strings list.
From Stdlib Require Import ZArith Lia Ascii.
From S2P Require Import Prelude.
From S2P Require Import GoStd.
From S2P Require Import GoStrings.
From S2P Require Import GoTime.
From S2P Require Import GoJson.
From S2P Require Import JsonSpec.
From S2P Require Import Uuid.
From S2P Require Import Errors.
From S2P Require Import Idempotency.
From S2P Require Import Prog.
From S2P Require Import Store.

Open Scope Z_scope.

Definition Record_json (r : Record_) : json :=
  JObj ([("state"%string, JStr (rec_State r)); ("fingerprint"%string, JStr (rec_Fingerprint r))]
        ++ omitempty "transfer_id" (rec_TransferID r)
        ++ [("claimed_at"%string, JStr (rec_ClaimedAt r))]
        ++ omitempty "completed_at" (rec_CompletedAt r))%list.

Definition Record_fields : list string :=
  ["state"; "fingerprint"; "transfer_id"; "claimed_at"; "completed_at"]%string.

Definition set_field (name x : string) (r : Record_) : Record_ :=
  let '(mkRecord st fp ti ca co) := r in
  if bool_decide (name = "state") then mkRecord x fp ti ca co
  else if bool_decide (name = "fingerprint") then mkRecord st x ti ca co
  else if bool_decide (name = "transfer_id") then mkRecord st fp x ca co
  else if bool_decide (name = "claimed_at") then mkRecord st fp ti x co
  else mkRecord st fp ti ca x.

(** One member, and whether a type error was saved so far: decoding goes on. *)
Definition decode_member (acc : Record_ * bool) (kv : string * json) : Record_ * bool :=
  match find_field Record_fields kv.1 with
  | None => acc
  | Some name =>
      match kv.2 with
      | JStr x => (set_field name x acc.1, acc.2)
      | JNull => acc
      | _ => (acc.1, true)
      end
  end.

Definition Marshal_record (r : Record_) : string := Marshal_json (Record_json r).

(** [None] is an error, of syntax or of type. *)
Definition Unmarshal_record (s : string) : option Record_ :=
  match parse s with
  | None => None
  | Some JNull => Some empty_record
  | Some (JObj ms) =>
      let '(r, failed) := fold_left decode_member ms (empty_record, false) in
      if failed then None else Some r
  | Some _ => None
  end.

(** The record with every string well-formed. *)
Definition valid_record (r : Record_) : Record_ :=
  mkRecord (to_valid (rec_State r)) (to_valid (rec_Fingerprint r)) (to_valid (rec_TransferID r))
    (to_valid (rec_ClaimedAt r)) (to_valid (rec_CompletedAt r)).

Lemma Unmarshal_Marshal_valid r : Unmarshal_record (Marshal_record r) = Some (valid_record r).
Proof.
  unfold Unmarshal_record, Marshal_record. destruct r as [st fp ti ca co].
  unfold Record_json, valid_record, omitempty. cbn [rec_State rec_Fingerprint rec_TransferID rec_ClaimedAt rec_CompletedAt].
  rewrite parse_Marshal; [| destruct ti, co; done | destruct ti, co; done].
  destruct ti as [|a ti], co as [|b co]; reflexivity.
Qed.

Lemma valid_record_id r :
  forallb ValidString
    [rec_State r; rec_Fingerprint r; rec_TransferID r; rec_ClaimedAt r; rec_CompletedAt r] = true ->
  valid_record r = r.
Proof.
  destruct r as [st fp ti ca co]. cbn [forallb].
  rewrite !andb_true_iff. intros (H1 & H2 & H3 & H4 & H5 & _). unfold valid_record. simpl.
  by rewrite !to_valid_id.
Qed.

Lemma plain_valid s : all_bytes plain_char s = true -> ValidString s = true.
Proof.
  intros H. apply ValidString_ascii. revert H. unfold all_bytes. rewrite !forallb_forall.
  intros H c Hc. specialize (H c Hc). revert H. unfold plain_char.
  rewrite !andb_true_iff, !Z.leb_le, Z.ltb_lt. lia.
Qed.

Lemma Unmarshal_Marshal_record r :
  plain_record r = true -> Unmarshal_record (Marshal_record r) = Some r.
Proof.
  intros Hr. rewrite Unmarshal_Marshal_valid, valid_record_id; [done |].
  unfold plain_record in Hr. rewrite forallb_forall in *. intros s Hs. by apply plain_valid, Hr.
Qed.

(** [encoding/json] is a codec of records. *)
#[global] Instance json_codec : RecordCodec := {
  Marshal := Marshal_record;
  Unmarshal := Unmarshal_record;
  Unmarshal_Marshal := Unmarshal_Marshal_record
}.
