(* ===== verification/Instances.v ===== *)
(** * Clients that satisfy the laws

    Concrete stand-ins for the third-party client the store uses: a Redis that
    keeps strings in memory and a Redis that is down. They show that the assumed
    laws can hold. *)
From stdpp Require Import base gmap fin_maps strings list.
From Stdlib Require Import ZArith Lia Ascii.
From S2P Require Import Prelude.
From S2P Require Import GoStd.
From S2P Require Import GoTime.
From S2P Require Import Uuid.
From S2P Require Import Errors.
From S2P Require Import Money.
From S2P Require Import Schema.
From S2P Require Import Tx.
From S2P Require Import Transfer.
From S2P Require Import Idempotency.
From S2P Require Import Prog.
From S2P Require Import Store.
From S2P Require Import RecordJson.

Open Scope Z_scope.

(** ** Redis *)

(** What a Redis that answers does: its documented single-key commands, over
    the strings it holds. *)
Class RedisLaws (R : Type) {RC : UniversalClient R} := {
  contents : R -> gmap string string;
  SetNX_law : forall r k v ttl, exists r',
    SetNX r k v ttl = (r', Ok (bool_decide (contents r !! k = None)))
    /\ contents r' = (if bool_decide (contents r !! k = None) then <[k := v]> (contents r)
                      else contents r);
  Get_law : forall r k, exists r', Get r k = (r', Ok (contents r !! k)) /\ contents r' = contents r;
  Set_law : forall r k v ttl, exists r',
    Set_ r k v ttl = (r', Ok tt) /\ contents r' = <[k := v]> (contents r);
  Del_law : forall r k, exists r',
    Del r k = (r', Ok tt) /\ contents r' = delete k (contents r)
}.

Definition MemRedis : Type := gmap string string.

#[global] Instance mem_redis : UniversalClient MemRedis := {
  SetNX r k v _ := match r !! k with
                   | Some _ => (r, Ok false)
                   | None => (<[k := v]> r, Ok true)
                   end;
  Get r k := (r, Ok (r !! k));
  Set_ r k v _ := (<[k := v]> r, Ok tt);
  Del r k := (delete k r, Ok tt);
  Ping r := (r, Ok tt)
}.

Lemma mem_SetNX (r : MemRedis) k v ttl :
  exists r', SetNX r k v ttl = (r', Ok (bool_decide (r !! k = None)))
    /\ r' = (if bool_decide (r !! k = None) then <[k := v]> r else r).
Proof.
  unfold SetNX, mem_redis. destruct (r !! k) as [x|] eqn:E; eexists.
  - by rewrite bool_decide_eq_false_2.
  - by rewrite bool_decide_eq_true_2.
Qed.

#[global] Instance mem_redis_laws : RedisLaws MemRedis := {
  contents := fun r : MemRedis => r;
  SetNX_law := mem_SetNX;
  Get_law := fun r k => ex_intro _ r (conj eq_refl eq_refl);
  Set_law := fun r k v _ => ex_intro _ (<[k := v]> r) (conj eq_refl eq_refl);
  Del_law := fun r k => ex_intro _ (delete k r) (conj eq_refl eq_refl)
}.

(** A Redis that cannot be reached. *)
Inductive DownRedis := Down.

#[global] Instance down_redis : UniversalClient DownRedis := {
  SetNX r _ _ _ := (r, Err (External "dial tcp: connection refused"));
  Get r _ := (r, Err (External "dial tcp: connection refused"));
  Set_ r _ _ _ := (r, Err (External "dial tcp: connection refused"));
  Del r _ := (r, Err (External "dial tcp: connection refused"));
  Ping r := (r, Err (External "dial tcp: connection refused"))
}.
