(* ===== verification/Account.v ===== *)
(** * [internal/account]: opening and reading accounts *)
From stdpp Require Import base gmap fin_maps strings list.
From Stdlib Require Import ZArith Lia Ascii.
From S2P Require Import Prelude.
From S2P Require Import GoStd.
From S2P Require Import Uuid.
From S2P Require Import Errors.
From S2P Require Import Money.
From S2P Require Import Schema.
From S2P Require Import Tx.
From S2P Require Import Transfer.
From S2P Require Import Posting.
From S2P Require Import LedgerInv.
From S2P Require Import Prog.

Open Scope Z_scope.

Record Account := mkAcct {
  acct_ID : UUID;
  acct_Currency : string;
  acct_BalanceMinor : Z;
  acct_CreatedAt : Z;
  acct_UpdatedAt : Z
}.

#[global] Instance Account_eq_dec : EqDecision Account.
Proof. solve_decision. Defined.

Definition account_of_row (r : AccountRow) : Account :=
  mkAcct (a_id r) (a_currency r) (a_balance_minor r) (a_created_at r) (a_updated_at r).

(** [Repository.Create]. *)
Definition Create (currency : string) : prog (result Account) :=
  match Currency_Validate currency with
  | Some err => Ret (Err err)
  | None =>
      (r <- call (OpCreateAccount currency) ;;
       match r with
       | Err err => Ret (Err (prefixed "account: create: " err))
       | Ok row => Ret (Ok (account_of_row row))
       end)%prog
  end.

(** [Repository.Get]. *)
Definition Account_Get (id : UUID) : prog (result Account) :=
  (row <- call (OpQuery (fun db => accounts db !! id)) ;;
   match scan_row row with
   | Err err =>
       if errors_Is err pgx_ErrNoRows
       then Ret (Err (Wrap [Txt "account "; Uid id; Txt ": "] account_ErrNotFound []))
       else Ret (Err (Wrap [Txt "account: get "; Uid id; Txt ": "] err []))
   | Ok row => Ret (Ok (account_of_row row))
   end)%prog.
