(* ===== verification/Ledger.v ===== *)
(** * [internal/ledger]: reading the entries of a transfer *)
From stdpp Require Import base gmap fin_maps strings list sorting.
From Stdlib Require Import ZArith Lia Ascii.
From S2P Require Import Prelude.
From S2P Require Import GoStd.
From S2P Require Import Uuid.
From S2P Require Import Errors.
From S2P Require Import Money.
From S2P Require Import Schema.
From S2P Require Import Tx.
From S2P Require Import Transfer.
From S2P Require Import Posting.
From S2P Require Import LedgerInv.
From S2P Require Import Prog.

Open Scope Z_scope.

Record Entry := mkLedgerEntry {
  ent_ID : UUID;
  ent_TransferID : UUID;
  ent_AccountID : UUID;
  ent_AmountMinor : Z;
  ent_Currency : string;
  ent_CreatedAt : Z
}.

#[global] Instance Entry_eq_dec : EqDecision Entry.
Proof. solve_decision. Defined.

Definition entry_of_row (e : EntryRow) : Entry :=
  mkLedgerEntry (e_id e) (e_transfer_id e) (e_account_id e) (e_amount_minor e)
    (e_currency e) (e_created_at e).

Definition IsDebit (e : Entry) : bool := ent_AmountMinor e <? 0.
Definition IsCredit (e : Entry) : bool := 0 <? ent_AmountMinor e.

(** [ORDER BY amount_minor ASC]: rows of equal amount come in any order; here,
    in the order of the table. *)
Definition amount_le (a b : EntryRow) : Prop := e_amount_minor a <= e_amount_minor b.
#[global] Instance amount_le_dec : RelDecision amount_le.
Proof. intros a b. unfold amount_le. apply _. Defined.
#[global] Instance amount_le_total : Total amount_le.
Proof. intros a b. unfold amount_le. lia. Qed.
#[global] Instance amount_le_trans : Transitive amount_le.
Proof. intros a b c. unfold amount_le. lia. Qed.

Definition entry_rows (transferID : UUID) (db : Db) : list EntryRow :=
  (filter (fun kv => of_transfer transferID kv.2 = true) (map_to_list (ledger_entries db))).*2.

Definition select_entries (transferID : UUID) (db : Db) : list EntryRow :=
  merge_sort amount_le (entry_rows transferID db).

Definition EntriesForTransfer (transferID : UUID) : prog (result (list Entry)) :=
  (rows <- call (OpQuery (select_entries transferID)) ;;
   match rows with
   | Err err => Ret (Err (Wrap [Txt "ledger: entries for transfer "; Uid transferID; Txt ": "] err []))
   | Ok rows =>
       entries <- CollectRows rows (fun row => Ok (entry_of_row row)) ;;
       match entries with
       | Err err =>
           Ret (Err (Wrap [Txt "ledger: scan entries for transfer "; Uid transferID; Txt ": "] err []))
       | Ok entries => Ret (Ok entries)
       end
   end)%prog.

(** The loop of [SumMinor]: [int64] addition. *)
Definition SumMinor (entries : list Entry) : Z :=
  fold_left (fun total e => wrap64 (total + ent_AmountMinor e)) entries 0.

(** ** What the query returns *)

(** The rows of a posted transfer are its two legs, in some order. *)
Lemma entry_rows_posted base db id t :
  db_inv base db -> transfers db !! id = Some t ->
  exists e1 e2, debit_leg t e1 /\ credit_leg t e2 /\ entry_rows id db ≡ₚ [e1; e2].
Proof.
  intros Hinv Ht.
  destruct (tok_legs _ _ (inv_transfers _ _ Hinv _ _ Ht))
    as (k1 & k2 & e1 & e2 & Hk & H1 & H2 & L1 & L2 & Hall).
  pose proof (wk_transfers _ (inv_keyed _ _ Hinv) _ _ Ht) as Hid.
  exists e1, e2. split_and!; [done | done |].
  change [e1; e2] with ([(k1, e1); (k2, e2)].*2). unfold entry_rows. apply fmap_Permutation.
  apply NoDup_Permutation.
  - apply NoDup_filter, NoDup_map_to_list.
  - apply NoDup_cons. split; [|apply NoDup_singleton]. intros ?%list_elem_of_singleton. congruence.
  - intros [k e]. rewrite list_elem_of_filter, elem_of_map_to_list. simpl.
    unfold of_transfer, uuid_eqb. rewrite bool_decide_eq_true, !elem_of_cons, elem_of_nil.
    split.
    + intros [He Hke]. rewrite <- Hid in He. destruct (Hall _ _ Hke He) as [-> | ->];
        simplify_eq; auto.
    + destruct L1 as (E1 & _), L2 as (E2 & _). rewrite Hid in E1, E2.
      intros [[= -> ->]|[[= -> ->]|[]]]; auto.
Qed.

(** Sorting puts the debit first. *)
Lemma select_entries_posted base db id t :
  db_inv base db -> transfers db !! id = Some t ->
  exists e1 e2, debit_leg t e1 /\ credit_leg t e2 /\ select_entries id db = [e1; e2].
Proof.
  intros Hinv Ht. destruct (entry_rows_posted _ _ _ _ Hinv Ht) as (e1 & e2 & L1 & L2 & HP).
  exists e1, e2. split_and!; [done | done |].
  pose proof (tok_range _ _ (inv_transfers _ _ Hinv _ _ Ht)) as Hr.
  unfold select_entries. pose proof (Sorted_merge_sort amount_le (entry_rows id db)) as Hs.
  pose proof (transitivity (merge_sort_Permutation amount_le (entry_rows id db)) HP) as Hp.
  apply Permutation_sym, Permutation_length_2_inv in Hp as [E|E]; [done |].
  rewrite E in Hs. inversion_clear Hs as [|? ? _ Hle]. inversion_clear Hle as [|? ? Hle'].
  unfold amount_le in Hle'. destruct L1 as (_ & _ & A1 & _), L2 as (_ & _ & A2 & _). lia.
Qed.

Lemma select_entries_none base db id :
  db_inv base db -> transfers db !! id = None -> select_entries id db = [].
Proof.
  intros Hinv Ht. unfold select_entries.
  assert (entry_rows id db = []) as ->; [|done].
  unfold entry_rows.
  destruct (filter _ _) as [|[k e] l] eqn:E; [done |]. exfalso.
  assert (Hin : (k, e) ∈ filter (fun kv => of_transfer id kv.2 = true)
                  (map_to_list (ledger_entries db))) by (rewrite E; left).
  apply list_elem_of_filter in Hin as [Hk Hin]. apply elem_of_map_to_list in Hin.
  simpl in Hk. apply bool_decide_eq_true in Hk.
  destruct (inv_entries _ _ Hinv _ _ Hin) as (t & Htr & _). by rewrite Hk, Ht in Htr.
Qed.
