(* ===== verification/Idempotent.v ===== *)
(** * [internal/transfer]: idempotent posting

    [idempotent.go]: [PostIdempotent] and the steps it is made of, over the
    Redis store and the posting loop, and the reads of the service. Go's
    [(Result, error)] is a pair whose second component is [None] for [nil]. *)
From stdpp Require Import base gmap fin_maps strings list.
From Stdlib Require Import ZArith Lia Ascii.
From S2P Require Import Prelude.
From S2P Require Import GoStd.
From S2P Require Import GoTime.
From S2P Require Import Uuid.
From S2P Require Import Errors.
From S2P Require Import Money.
From S2P Require Import Schema.
From S2P Require Import Tx.
From S2P Require Import Transfer.
From S2P Require Import Idempotency.
From S2P Require Import Prog.
From S2P Require Import Retry.
From S2P Require Import Store.

Open Scope Z_scope.

Definition sqlStateUniqueViolation : string := "23505".
Definition idempotencyKeyConstraint : string := "transfers_idempotency_key_unique".

(** The zero [Transfer]. *)
Definition zero_transfer : Transfer :=
  mkTransfer uuid_Nil uuid_Nil uuid_Nil 0 "" "" zero_time None.

Record Result := mkResult {
  res_Transfer : Transfer;
  res_Attempts : Attempts;
  res_Replayed : bool;
  res_RecoveredFromDatabase : bool;
  res_CoordinationDegraded : bool
}.

Definition zero_attempts : Attempts := mkAttempts 0 0 0.
Definition zero_result : Result := mkResult zero_transfer zero_attempts false false false.

(** [transfer.Service]: the pool is the world's database. *)
Record Service := mkService { svc_retry : RetryPolicy; svc_idem : option Store }.

Definition NewService : Service := mkService (NewServiceWithPolicy DefaultRetryPolicy) None.
Definition WithIdempotency (s : Service) (store : option Store) : Service :=
  mkService (svc_retry s) store.

Definition isDuplicateIdempotencyKey (err : goerr) : bool :=
  match errors_As_Pg err with
  | Some pgErr =>
      bool_decide (Code pgErr = sqlStateUniqueViolation)
      && bool_decide (ConstraintName pgErr = idempotencyKeyConstraint)
  | None => false
  end.

Definition key_conflict (key : string) : goerr :=
  wrapping ErrIdempotencyConflict
    [Txt ": key "; Str key; Txt " was first used for a different payment"].
Definition key_in_progress (key : string) : goerr :=
  wrapping ErrIdempotencyInProgress [Txt ": key "; Str key].

Section idempotent.
Context {UL : UuidLib} {RCo : RecordCodec}.
Variable s : Service.

(** The request a command is fingerprinted as. *)
Definition command_request (cmd : Command) : Request :=
  mkRequest (c_SourceAccountID cmd) (c_DestinationAccountID cmd) (c_AmountMinor cmd)
    (c_Currency cmd).

(** The transfer recorded for a key: [Ok None] when there is none. *)
Definition recoverFromDatabase (key : string) (fingerprint : list ascii)
    : prog (result (option Result)) :=
  (row <- call (OpQuery (select_by_key key)) ;;
   match scan_row row with
   | Err err =>
       if errors_Is err pgx_ErrNoRows then Ret (Ok None)
       else Ret (Err (prefixed "transfer: recover by idempotency key: " err))
   | Ok t =>
       match FingerprintFromBytes (default [] (t_request_fingerprint t)) with
       | Err err =>
           Ret (Err (Wrap [Txt "transfer: stored fingerprint for key "; Str key; Txt ": "] err []))
       | Ok storedFingerprint =>
           if negb (bool_decide (storedFingerprint = fingerprint)) then
             Ret (Err (key_conflict key))
           else
             Ret (Ok (Some (mkResult (transfer_of_row t) zero_attempts true true false)))
       end
   end)%prog.

Definition cacheCompletion (key : string) (fingerprint : list ascii) (transferID : UUID)
    : prog bool :=
  if negb (Available (svc_idem s)) then Ret false
  else
    (r <- Complete (svc_idem s) key fingerprint (uuid_String transferID) ;;
     match r with
     | Err _ => Ret false
     | Ok _ => Ret true
     end)%prog.

Definition releaseClaim (key : string) : prog unit :=
  if negb (Available (svc_idem s)) then Ret tt
  else (_ <- Release (svc_idem s) key ;; Ret tt)%prog.

Definition postClaimed (key : string) (fingerprint : list ascii) (cmd : Command)
    (degraded : bool) : prog (Result * option goerr) :=
  (let stamp := mkStamp key (Fingerprint_Bytes fingerprint) in
   '(posted, attempts) <- postWithRetry (svc_retry s) cmd (Some stamp) ;;
   match posted with
   | Err err =>
       if isDuplicateIdempotencyKey err then
         r <- recoverFromDatabase key fingerprint ;;
         match r with
         | Err recErr => Ret (zero_result, Some recErr)
         | Ok None => Ret (zero_result, Some (key_in_progress key))
         | Ok (Some result) =>
             let result := mkResult (res_Transfer result) attempts (res_Replayed result)
                             (res_RecoveredFromDatabase result) degraded in
             _ <- cacheCompletion key fingerprint (ID (res_Transfer result)) ;;
             Ret (result, None)
         end
       else
         _ <- releaseClaim key ;;
         Ret (mkResult zero_transfer attempts false false degraded, Some err)
   | Ok posted =>
       cached <- cacheCompletion key fingerprint (ID posted) ;;
       let degraded := if negb cached && Available (svc_idem s) then true else degraded in
       Ret (mkResult posted attempts false false degraded, None)
   end)%prog.

Definition resolveExisting (key : string) (fingerprint : list ascii) (cmd : Command)
    (existing : Record_) : prog (Result * option goerr) :=
  if negb (Matches existing fingerprint) then Ret (zero_result, Some (key_conflict key))
  else
    (r <- recoverFromDatabase key fingerprint ;;
     match r with
     | Err err => Ret (zero_result, Some err)
     | Ok (Some result) => Ret (result, None)
     | Ok None =>
         if bool_decide (rec_State existing = StateCompleted)
         then postClaimed key fingerprint cmd false
         else Ret (zero_result, Some (key_in_progress key))
     end)%prog.

Definition PostIdempotent (key : string) (cmd : Command) : prog (Result * option goerr) :=
  match ParseKey key with
  | Err err => Ret (zero_result, Some err)
  | Ok _ =>
      match Command_Validate cmd with
      | Some err => Ret (zero_result, Some err)
      | None =>
          let fingerprint := Fingerprint (command_request cmd) in
          let degraded := negb (Available (svc_idem s)) in
          if negb degraded then
            (claim <- Acquire (svc_idem s) key fingerprint ;;
             match claim with
             | Err err =>
                 if errors_Is err ErrUnavailable then
                   postClaimed key fingerprint cmd true
                 else if errors_Is err ErrInProgress then
                   Ret (zero_result, Some (key_in_progress key))
                 else Ret (zero_result, Some err)
             | Ok claim =>
                 if negb (Acquired claim)
                 then resolveExisting key fingerprint cmd (Existing claim)
                 else postClaimed key fingerprint cmd degraded
             end)%prog
          else postClaimed key fingerprint cmd degraded
      end
  end.

(** [Get] and [GetByIdempotencyKey]. *)
Definition Service_Get (id : UUID) : prog (result Transfer) :=
  (row <- call (OpQuery (fun db => transfers db !! id)) ;;
   match scan_row row with
   | Err err =>
       if errors_Is err pgx_ErrNoRows
       then Ret (Err (Wrap [Txt "transfer "; Uid id; Txt ": "] transfer_ErrNotFound []))
       else Ret (Err (Wrap [Txt "transfer: get "; Uid id; Txt ": "] err []))
   | Ok t => Ret (Ok (transfer_of_row t))
   end)%prog.

Definition GetByIdempotencyKey (key : string) : prog (result Transfer) :=
  (row <- call (OpQuery (select_by_key key)) ;;
   match scan_row row with
   | Err err =>
       if errors_Is err pgx_ErrNoRows
       then Ret (Err (Wrap [Txt "transfer for idempotency key "; Str key; Txt ": "]
                        transfer_ErrNotFound []))
       else Ret (Err (Wrap [Txt "transfer: get by idempotency key "; Str key; Txt ": "] err []))
   | Ok t => Ret (Ok (transfer_of_row t))
   end)%prog.
End idempotent.
