(* ===== verification/Grpc.v ===== *)
(** * [internal/grpcapi/service.go]: the payments service

    The five handlers, what they validate and how answers become protobuf
    messages. The messages are the generated types; a [Timestamp] is the
    instant given to [timestamppb.New]. *)
From stdpp Require Import base gmap fin_maps strings list.
From Stdlib Require Import ZArith Lia Ascii.
From S2P Require Import Prelude.
From S2P Require Import GoStd.
From S2P Require Import GoTime.
From S2P Require Import Uuid.
From S2P Require Import Errors.
From S2P Require Import GrpcErrors.
From S2P Require Import Money.
From S2P Require Import Schema.
From S2P Require Import Transfer.
From S2P Require Import Idempotency.
From S2P Require Import Prog.
From S2P Require Import Store.
From S2P Require Import Account.
From S2P Require Import Ledger.
From S2P Require Import Idempotent.

Open Scope Z_scope.

(** ** Messages *)

Inductive Timestamp := timestamppb_New (t : Z).

Inductive TransferStatus :=
  | TRANSFER_STATUS_UNSPECIFIED
  | TRANSFER_STATUS_PENDING
  | TRANSFER_STATUS_COMPLETED
  | TRANSFER_STATUS_FAILED.

Record AccountMsg := mkAccountMsg {
  am_Id : string; am_Currency : string; am_BalanceMinor : Z;
  am_CreatedAt : option Timestamp; am_UpdatedAt : option Timestamp
}.

Record TransferMsg := mkTransferMsg {
  tm_Id : string; tm_SourceAccountId : string; tm_DestinationAccountId : string;
  tm_AmountMinor : Z; tm_Currency : string; tm_Status : TransferStatus;
  tm_CreatedAt : option Timestamp; tm_CompletedAt : option Timestamp
}.

Record LedgerEntryMsg := mkLedgerEntryMsg {
  em_Id : string; em_TransferId : string; em_AccountId : string; em_AmountMinor : Z;
  em_Currency : string; em_CreatedAt : option Timestamp
}.

Record CreateTransferRequest := mkCreateTransferRequest {
  rq_IdempotencyKey : string; rq_SourceAccountId : string; rq_DestinationAccountId : string;
  rq_AmountMinor : Z; rq_Currency : string
}.

Record CreateTransferResponse := mkCreateTransferResponse {
  rs_Transfer : TransferMsg; rs_IdempotentReplay : bool
}.

(** ** Conversions *)

Definition timestampToProto (t : Z) : option Timestamp :=
  if IsZero t then None else Some (timestamppb_New t).

Definition transferStatusToProto (s : string) : TransferStatus :=
  if bool_decide (s = StatusPending) then TRANSFER_STATUS_PENDING
  else if bool_decide (s = StatusCompleted) then TRANSFER_STATUS_COMPLETED
  else if bool_decide (s = StatusFailed) then TRANSFER_STATUS_FAILED
  else TRANSFER_STATUS_UNSPECIFIED.

Section conversions.
Context {UL : UuidLib}.

Definition accountToProto (a : Account) : AccountMsg :=
  mkAccountMsg (uuid_String (acct_ID a)) (acct_Currency a) (acct_BalanceMinor a)
    (timestampToProto (acct_CreatedAt a)) (timestampToProto (acct_UpdatedAt a)).

Definition transferToProto (t : Transfer) : TransferMsg :=
  mkTransferMsg (uuid_String (ID t)) (uuid_String (SourceAccountID t))
    (uuid_String (DestinationAccountID t)) (AmountMinor t) (TCurrency t)
    (transferStatusToProto (Status t)) (timestampToProto (CreatedAt t))
    (match CompletedAt t with Some c => timestampToProto c | None => None end).

Definition ledgerEntryToProto (e : Entry) : LedgerEntryMsg :=
  mkLedgerEntryMsg (uuid_String (ent_ID e)) (uuid_String (ent_TransferID e))
    (uuid_String (ent_AccountID e)) (ent_AmountMinor e) (ent_Currency e)
    (timestampToProto (ent_CreatedAt e)).

(** ** Validation *)

Definition parseUUID (field raw : string) : result UUID :=
  if bool_decide (raw = "") then
    Err (wrapping ErrInvalidRequest [Txt ": "; Str field; Txt " is required"])
  else match uuid_Parse raw with
  | None => Err (wrapping ErrInvalidRequest [Txt ": "; Str field; Txt " is not a valid UUID"])
  | Some id =>
      if uuid_eqb id uuid_Nil then
        Err (wrapping ErrInvalidRequest [Txt ": "; Str field; Txt " must not be the zero UUID"])
      else Ok id
  end.
End conversions.

Definition parseCurrency (raw : string) : result string :=
  match ParseCurrency raw with
  | Err err => Err err
  | Ok currency => Ok currency
  end.

(** ** Handlers

    [return nil, toStatus(ctx, s.log, method, err)]. *)
Definition refuse {A} (err : goerr) : prog (result A) := Ret (Err (toStatus err)).

Section handlers.
Context {UL : UuidLib} {RCo : RecordCodec}.
Variable s : Service.

Definition CreateAccount (currency : string) : prog (result AccountMsg) :=
  match parseCurrency currency with
  | Err err => refuse err
  | Ok currency =>
      (acct <- Create currency ;;
       match acct with
       | Err err => refuse err
       | Ok acct => Ret (Ok (accountToProto acct))
       end)%prog
  end.

Definition GetAccount (id : string) : prog (result AccountMsg) :=
  match parseUUID "id" id with
  | Err err => refuse err
  | Ok id =>
      (acct <- Account_Get id ;;
       match acct with
       | Err err => refuse err
       | Ok acct => Ret (Ok (accountToProto acct))
       end)%prog
  end.

Definition CreateTransfer (req : CreateTransferRequest) : prog (result CreateTransferResponse) :=
  match ParseKey (rq_IdempotencyKey req) with
  | Err err => refuse err
  | Ok key =>
  match parseUUID "source_account_id" (rq_SourceAccountId req) with
  | Err err => refuse err
  | Ok source =>
  match parseUUID "destination_account_id" (rq_DestinationAccountId req) with
  | Err err => refuse err
  | Ok destination =>
  match parseCurrency (rq_Currency req) with
  | Err err => refuse err
  | Ok currency =>
      if rq_AmountMinor req <=? 0 then
        refuse (wrapping ErrInvalidAmount
                  [Txt ": amount_minor must be greater than zero, got "; Num (rq_AmountMinor req)])
      else
        ('(result, err) <- PostIdempotent s key
             (mkCommand source destination (rq_AmountMinor req) currency) ;;
         match err with
         | Some err => refuse err
         | None =>
             Ret (Ok (mkCreateTransferResponse (transferToProto (res_Transfer result))
                        (res_Replayed result)))
         end)%prog
  end end end end.

Definition GetTransfer (id : string) : prog (result TransferMsg) :=
  match parseUUID "id" id with
  | Err err => refuse err
  | Ok id =>
      (t <- Service_Get id ;;
       match t with
       | Err err => refuse err
       | Ok t => Ret (Ok (transferToProto t))
       end)%prog
  end.

Definition ListLedgerEntriesForTransfer (transferId : string) : prog (result (list LedgerEntryMsg)) :=
  match parseUUID "transfer_id" transferId with
  | Err err => refuse err
  | Ok transferID =>
      (t <- Service_Get transferID ;;
       match t with
       | Err err => refuse err
       | Ok _ =>
           found <- EntriesForTransfer transferID ;;
           match found with
           | Err err => refuse err
           | Ok found => Ret (Ok (ledgerEntryToProto <$> found))
           end
       end)%prog
  end.
End handlers.
