(* ===== verification/Scenario.v ===== *)
(** * A small concrete world

    Two accounts, one payment between them and its idempotency key, a store
    over an in-memory Redis and one that is down: the inputs at which the
    witnesses evaluate the definitions. *)
From stdpp Require Import base gmap fin_maps strings list.
From Stdlib Require Import ZArith Lia Ascii.
From S2P Require Import Prelude.
From S2P Require Import GoStd.
From S2P Require Import GoTime.
From S2P Require Import Uuid.
From S2P Require Import Errors.
From S2P Require Import Money.
From S2P Require Import Schema.
From S2P Require Import Tx.
From S2P Require Import Transfer.
From S2P Require Import Posting.
From S2P Require Import LedgerInv.
From S2P Require Import Idempotency.
From S2P Require Import Prog.
From S2P Require Import Retry.
From S2P Require Import Store.
From S2P Require Import Instances.
From S2P Require Import Idempotent.

Open Scope Z_scope.

Definition alice : UUID := uuid_of_Z 1.
Definition bob : UUID := uuid_of_Z 2.

Definition scn_accounts : gmap UUID AccountRow :=
  <[alice := mkAccount alice "USD" 1000 0 0]> (<[bob := mkAccount bob "USD" 5 0 0]> ∅).
Definition scn_db : Db := mkDb scn_accounts ∅ ∅.
Definition scn_base : gmap UUID Z := a_balance_minor <$> scn_accounts.

Definition scn_cmd : Command := mkCommand alice bob 250 "USD".
Definition scn_key : string := "order-1".

(** The [n]-th transaction draws its own identifiers; nothing fails. *)
Definition scn_tx (n : nat) : TxEnv :=
  mkTxEnv None (fun _ => None) (fun i => uuid_of_Z (1000 + 100 * Z.of_nat n + Z.of_nat i)) 7 Commits.
Definition scn_env (n : nat) : Env := mkEnv (scn_tx n) None 0 0 None.

Definition scn_store : Store := mkStore true 86400 30 1.
Definition scn_service : Service :=
  WithIdempotency NewService (Some scn_store).

Definition scn_world : World MemRedis := mkWorld scn_db ∅.
Definition scn_world_down : World DownRedis := mkWorld scn_db Down.

#[global] Existing Instance google_uuid.

Lemma scn_inv : db_inv scn_base scn_db.
Proof.
  apply funded_inv. intros id r. unfold scn_accounts. rewrite !lookup_insert, lookup_empty.
  repeat case_decide; intros; simplify_eq/=; (split; [done |]); split; simpl;
    try (vm_compute; congruence); unfold int64_max; lia.
Qed.
