(* ===== verification/StoreSpec.v ===== *)
(** * The store as a map

    What the store promises the transfer service: over a Redis that answers, the
    store is a partial map from keys to records. Its operations are the map's
    put-if-absent, lookup, overwrite and delete; the JSON in between and the
    prefix of the Redis keys never show. *)
From stdpp Require Import base gmap fin_maps strings list.
From Stdlib Require Import ZArith Lia Ascii.
From S2P Require Import Prelude.
From S2P Require Import GoStd.
From S2P Require Import GoStrings.
From S2P Require Import GoTime.
From S2P Require Import GoJson.
From S2P Require Import JsonSpec.
From S2P Require Import Uuid.
From S2P Require Import Errors.
From S2P Require Import Tx.
From S2P Require Import Schema.
From S2P Require Import Idempotency.
From S2P Require Import Prog.
From S2P Require Import Store.
From S2P Require Import RecordJson.
From S2P Require Import Instances.
From S2P Require Import Scenario.

Open Scope Z_scope.

(** ** The records the store writes are plain text *)

Lemma plain_char_intro z :
  32 <= z <= 126 -> z <> 34 -> z <> 92 -> z <> 60 -> z <> 62 -> z <> 38 -> plain_char z = true.
Proof.
  intros. unfold plain_char. rewrite !(proj2 (Z.leb_le _ _)) by lia.
  by rewrite !(proj2 (Z.eqb_neq _ _)) by lia.
Qed.

Lemma plain_hex f : all_bytes plain_char (Fingerprint_String f) = true.
Proof.
  assert (Hd : forall n, 0 <= n < 16 -> plain_char (bz (hex_digit n)) = true).
  { intros n Hn. unfold hex_digit.
    destruct (Z.ltb_spec n 10); rewrite bz_byte_of_Z by lia; apply plain_char_intro; lia. }
  unfold Fingerprint_String, all_bytes. induction f as [|b f IH]; [done |]. simpl.
  pose proof (bz_range b). rewrite IH, !Hd; [done | |].
  - apply Z.mod_pos_bound. lia.
  - split; [apply Z.div_pos | apply Z.div_lt_upper_bound]; lia.
Qed.

Lemma plain_time t : all_bytes plain_char (FormatRFC3339Nano t) = true.
Proof. apply FormatRFC3339Nano_chars; try done. intros z Hz. apply plain_char_intro; lia. Qed.

Lemma plain_uuid {UL : UuidLib} id : all_bytes plain_char (uuid_String id) = true.
Proof.
  pose proof (uuid_String_chars id) as H. unfold all_bytes in *.
  rewrite forallb_forall in *. intros b Hb. apply H in Hb. unfold is_uuid_char in Hb.
  rewrite !orb_true_iff, !andb_true_iff, !Z.leb_le, Z.eqb_eq in Hb. apply plain_char_intro; lia.
Qed.

Lemma plain_claim f t : plain_record (claim_record f t) = true.
Proof.
  unfold plain_record, claim_record.
  cbn [forallb rec_State rec_Fingerprint rec_TransferID rec_ClaimedAt rec_CompletedAt].
  by rewrite plain_hex, plain_time.
Qed.

Lemma plain_completed f id t1 t2 :
  all_bytes plain_char id = true -> plain_record (completion_record f id t1 t2) = true.
Proof.
  intros H. unfold plain_record, completion_record.
  cbn [forallb rec_State rec_Fingerprint rec_TransferID rec_ClaimedAt rec_CompletedAt].
  by rewrite plain_hex, H, !plain_time.
Qed.

(** ** Records by key *)

Section refinement.
Context {R : Type} {RC : UniversalClient R} {RL : RedisLaws R} {RCo : RecordCodec}.

(** The map a Redis stands for. *)
Definition view (r : R) (key : string) : option Record_ :=
  raw ← contents r !! RedisKey key; Unmarshal raw.

(** Every record under a key of the store can be decoded. *)
Definition readable (r : R) : Prop :=
  forall key raw, contents r !! RedisKey key = Some raw -> is_Some (Unmarshal raw).

(** The map with one key changed. *)
Definition put (m : string -> option Record_) (key : string) (v : option Record_) : string -> option Record_ :=
  fun k => if bool_decide (k = key) then v else m k.

Lemma RedisKey_inj a b : RedisKey a = RedisKey b -> a = b.
Proof. apply append_inj. Qed.

Lemma view_insert r r' key raw rec_ :
  contents r' = <[RedisKey key := raw]> (contents r) -> Unmarshal raw = Some rec_ -> readable r ->
  readable r' /\ forall k, view r' k = put (view r) key (Some rec_) k.
Proof.
  intros Hc Hu Hr. split.
  - intros k raw'. rewrite Hc, lookup_insert_Some. intros [[_ <-]|[_ H]]; [by rewrite Hu | by eapply Hr].
  - intros k. unfold view, put. rewrite Hc. case_bool_decide as Hk.
    + subst. by rewrite lookup_insert_eq.
    + rewrite lookup_insert_ne; [done |]. by intros ->%RedisKey_inj.
Qed.

Lemma view_delete r r' key :
  contents r' = delete (RedisKey key) (contents r) -> readable r ->
  readable r' /\ forall k, view r' k = put (view r) key None k.
Proof.
  intros Hc Hr. split.
  - intros k raw'. rewrite Hc, lookup_delete_Some. intros [_ H]. by eapply Hr.
  - intros k. unfold view, put. rewrite Hc. case_bool_decide as Hk.
    + subst. by rewrite lookup_delete_eq.
    + rewrite lookup_delete_ne; [done |]. by intros ->%RedisKey_inj.
Qed.

Lemma view_same r r' :
  contents r' = contents r -> readable r -> readable r' /\ forall k, view r' k = view r k.
Proof. intros Hc Hr. unfold readable, view. by rewrite Hc. Qed.

(** What an operation leaves behind: the database as it was, Redis readable and
    standing for the map [m]. *)
Definition leaves_map (w w' : World R) (m : string -> option Record_) : Prop :=
  w_db w' = w_db w /\ readable (w_redis w') /\ forall k, view (w_redis w') k = m k.

Lemma run_get st key es (w : World R) :
  st_client st = true -> readable (w_redis w) ->
  exists w', run (Store_Get (Some st) key) es w = (w', Some (Ok (view (w_redis w) key)))
    /\ leaves_map w w' (view (w_redis w)).
Proof.
  intros Hc Hr. unfold Store_Get, Available. rewrite Hc. unfold get. cbn [negb run bind call].
  unfold handle, on_redis. destruct (Get_law (w_redis w) (RedisKey key)) as (r' & -> & Hsame).
  destruct (view_same _ _ Hsame Hr) as [Hr' Hv].
  assert (Hl : leaves_map w (mkWorld (w_db w) r') (view (w_redis w))) by done.
  unfold view at 1. destruct (contents (w_redis w) !! RedisKey key) as [raw|] eqn:E; cbn [mbind option_bind].
  - destruct (Hr _ _ E) as [rec_ Hu]. rewrite Hu. by eexists.
  - by eexists.
Qed.

(** One round of the loop settles the claim. *)
Lemma run_acquire st key f es (w : World R) :
  st_client st = true -> readable (w_redis w) ->
  exists w' t, match view (w_redis w) key with
    | None => run (Acquire (Some st) key f) es w = (w', Some (Ok (mkClaim true empty_record)))
        /\ leaves_map w w' (put (view (w_redis w)) key (Some (claim_record f t)))
    | Some rec_ => run (Acquire (Some st) key f) es w = (w', Some (Ok (mkClaim false rec_)))
        /\ leaves_map w w' (view (w_redis w))
    end.
Proof.
  intros Hc Hr. unfold Acquire. rewrite Hc. cbn [run bind call handle]. set (t := env_time (es 0%nat)).
  cbn [acquire_loop run bind call handle]. unfold on_redis.
  destruct (SetNX_law (w_redis w) (RedisKey key) (Marshal (claim_record f t)) (st_processingTTL st))
    as (r1 & -> & H1).
  unfold view at 1. destruct (contents (w_redis w) !! RedisKey key) as [raw|] eqn:E.
  - rewrite bool_decide_eq_false_2 in H1 |- * by done. destruct (Hr _ _ E) as [rec_ Hu].
    cbn [mbind option_bind]. rewrite Hu. cbn [run bind call handle]. unfold get, on_redis.
    cbn [run bind call handle w_redis]. unfold on_redis. cbn [w_redis w_db].
    destruct (Get_law r1 (RedisKey key)) as (r2 & -> & H2). rewrite H1, E. cbn [bind]. rewrite Hu.
    eexists _, 0. split; [reflexivity |]. split; [done |]. simpl. apply view_same; [congruence | done].
  - rewrite bool_decide_eq_true_2 in H1 |- * by done. cbn [mbind option_bind run bind call handle].
    eexists _, t. split; [reflexivity |]. split; [done |]. simpl. apply (view_insert _ _ _ _ _ H1); [|done].
    apply Unmarshal_Marshal, plain_claim.
Qed.

Lemma run_complete st key f id es (w : World R) :
  st_client st = true -> readable (w_redis w) -> all_bytes plain_char id = true ->
  exists w' t1 t2, run (Complete (Some st) key f id) es w = (w', Some (Ok tt))
    /\ leaves_map w w' (put (view (w_redis w)) key (Some (completion_record f id t1 t2))).
Proof.
  intros Hc Hr Hid. unfold Complete. rewrite Hc. cbn [run bind call handle].
  set (t1 := env_time (es 0%nat)). set (t2 := env_time (es 1%nat)). unfold on_redis.
  destruct (Set_law (w_redis w) (RedisKey key) (Marshal (completion_record f id t1 t2)) (st_ttl st))
    as (r1 & -> & H1).
  cbn [run bind]. eexists _, t1, t2. split; [reflexivity |]. split; [done |]. simpl.
  apply (view_insert _ _ _ _ _ H1); [|done]. by apply Unmarshal_Marshal, plain_completed.
Qed.

Lemma run_release st key es (w : World R) :
  st_client st = true -> readable (w_redis w) ->
  exists w', run (Release (Some st) key) es w = (w', Some (Ok tt))
    /\ leaves_map w w' (put (view (w_redis w)) key None).
Proof.
  intros Hc Hr. unfold Release, Available. rewrite Hc. cbn [negb run bind call handle]. unfold on_redis.
  destruct (Del_law (w_redis w) (RedisKey key)) as (r1 & -> & H1).
  cbn [run bind]. eexists. split; [reflexivity |]. split; [done |]. simpl. by apply view_delete.
Qed.

(** C15. Over a Redis that answers, the store is a map from keys to records.
    [Acquire] is put-if-absent: it takes a free key and writes a processing
    record, and on a taken key returns the very record that is there and changes
    nothing. [Get] is lookup, [Complete] overwrites with the completed record
    and [Release] deletes. Each answers without an error, changes no other key
    and leaves every record readable and the database as it was. *)
Theorem store_refines_map st key f id es (w : World R) :
  st_client st = true -> readable (w_redis w) -> all_bytes plain_char id = true ->
  (exists w' t, match view (w_redis w) key with
     | None => run (Acquire (Some st) key f) es w = (w', Some (Ok (mkClaim true empty_record)))
         /\ leaves_map w w' (put (view (w_redis w)) key (Some (claim_record f t)))
     | Some rec_ => run (Acquire (Some st) key f) es w = (w', Some (Ok (mkClaim false rec_)))
         /\ leaves_map w w' (view (w_redis w))
     end)
  /\ (exists w', run (Store_Get (Some st) key) es w = (w', Some (Ok (view (w_redis w) key)))
        /\ leaves_map w w' (view (w_redis w)))
  /\ (exists w' t1 t2, run (Complete (Some st) key f id) es w = (w', Some (Ok tt))
        /\ leaves_map w w' (put (view (w_redis w)) key (Some (completion_record f id t1 t2))))
  /\ (exists w', run (Release (Some st) key) es w = (w', Some (Ok tt))
        /\ leaves_map w w' (put (view (w_redis w)) key None)).
Proof.
  intros Hc Hr Hid.
  split_and!; [by apply run_acquire | by apply run_get | by apply run_complete | by apply run_release].
Qed.
End refinement.

(** A store over an in-memory Redis that holds one completed record. *)
Definition held_record : Record_ := completion_record [] "t-1" 0 0.
Definition held_redis : MemRedis := {[ RedisKey "order-1" := Marshal_record held_record ]}.

Lemma held_readable : readable held_redis.
Proof.
  intros k raw. unfold contents, mem_redis_laws, held_redis. rewrite lookup_singleton_Some.
  intros [_ <-]. simpl. rewrite Unmarshal_Marshal_valid. by eexists.
Qed.

Lemma store_refines_map_witness :
  (exists w', run (Acquire (Some scn_store) "order-1" []) scn_env (mkWorld scn_db held_redis)
     = (w', Some (Ok (mkClaim false held_record))))
  /\ (exists w', run (Acquire (Some scn_store) "order-2" []) scn_env (mkWorld scn_db held_redis)
        = (w', Some (Ok (mkClaim true empty_record)))).
Proof.
  destruct (store_refines_map scn_store "order-1" [] "t-1" scn_env (mkWorld scn_db held_redis)
    eq_refl held_readable eq_refl) as [(w1 & t1 & H1) _].
  destruct (store_refines_map scn_store "order-2" [] "t-1" scn_env (mkWorld scn_db held_redis)
    eq_refl held_readable eq_refl) as [(w2 & t2 & H2) _].
  split.
  - exists w1. change (view _ _) with (view held_redis "order-1") in H1.
    replace (view held_redis "order-1") with (Some held_record) in H1 by (vm_compute; reflexivity).
    apply H1.
  - exists w2. change (view _ _) with (view held_redis "order-2") in H2.
    replace (view held_redis "order-2") with (@None Record_) in H2 by (vm_compute; reflexivity).
    apply H2.
Defined.
