(* ===== verification/Health.v ===== *)
(** * [internal/health] and the probes built on it

    The registry of checks and its report ([health.go]); the readiness that
    the gRPC health service publishes ([grpcapi/server.go], [updateHealth]) and
    the HTTP probes answer ([httpapi/server.go]); the checks [cmd/api] registers.
    Goroutines of [Check] only meet at the results map: a run of them is their
    results in the order in which they arrive there. *)
From stdpp Require Import base gmap fin_maps fin_map_dom strings list sorting.
From Stdlib Require Import ZArith Lia Ascii.
From S2P Require Import Prelude.
From S2P Require Import GoStd.
From S2P Require Import GoTime.
From S2P Require Import Uuid.
From S2P Require Import Errors.
From S2P Require Import Config.
From S2P Require Import Schema.
From S2P Require Import Tx.
From S2P Require Import Prog.
From S2P Require Import Store.
From S2P Require Import Instances.
From S2P Require Import Scenario.

Open Scope Z_scope.

Definition StatusHealthy : string := "healthy".
Definition StatusUnhealthy : string := "unhealthy".

(** [func(ctx context.Context) error]; a panic is a [Crash]. *)
Abbreviation CheckFunc := (prog (option goerr)).

Record Result_ := mkHealthResult {
  hr_Status : string; hr_Error : msg; hr_Required : bool; hr_Duration : Z; hr_LatencyMS : Z
}.

Record Report_ := mkHealthReport {
  hp_Status : string; hp_Degraded : bool; hp_Checks : gmap string Result_
}.

Definition Healthy (r : Report_) : bool := bool_decide (hp_Status r = StatusHealthy).

(** [sort.Strings]: byte order. *)
Definition string_le (a b : string) : Prop := bytes_Compare (bytes_of a) (bytes_of b) <= 0.
#[global] Instance string_le_dec : RelDecision string_le.
Proof. intros a b. unfold string_le. apply _. Defined.

Definition names_where (p : Result_ -> bool) (m : gmap string Result_) : list string :=
  merge_sort string_le (filter (fun kv => p kv.2 = true) (map_to_list m)).*1.

Definition failing (res : Result_) : bool := negb (bool_decide (hr_Status res = StatusHealthy)).

Definition Failed (r : Report_) : list string := names_where failing (hp_Checks r).
Definition FailedRequired (r : Report_) : list string :=
  names_where (fun res => failing res && hr_Required res) (hp_Checks r).

Record check := mkCheck { ck_name : string; ck_fn : CheckFunc; ck_required : bool }.

Record Registry := mkRegistry { rg_timeout : Z; rg_checks : list check }.

Definition DefaultTimeout : Z := 2 * Second.

Definition NewRegistry (timeout : Z) : Registry :=
  let timeout := if timeout <=? 0 then DefaultTimeout else timeout in
  mkRegistry timeout [].

(** The loop of [register]: the first check of that name is overwritten in
    place, or the new one goes last. *)
Fixpoint put_check (name : string) (fn : CheckFunc) (required : bool) (cs : list check)
    : list check :=
  match cs with
  | [] => [mkCheck name fn required]
  | c :: cs' =>
      if bool_decide (ck_name c = name) then mkCheck (ck_name c) fn required :: cs'
      else c :: put_check name fn required cs'
  end.

(** [register]: a nil function panics, [None]. *)
Definition register (r : Registry) (name : string) (fn : option CheckFunc) (required : bool)
    : option Registry :=
  match fn with
  | None => None
  | Some fn => Some (mkRegistry (rg_timeout r) (put_check name fn required (rg_checks r)))
  end.

Definition Register (r : Registry) (name : string) (fn : option CheckFunc) := register r name fn true.
Definition RegisterOptional (r : Registry) (name : string) (fn : option CheckFunc) :=
  register r name fn false.

Definition Names (r : Registry) : list string := ck_name <$> rg_checks r.
Definition Len (r : Registry) : nat := length (rg_checks r).

(** [recover()] in a deferred function: a panic becomes a value. *)
Fixpoint recovering {A} (h : string -> A) (p : prog A) : prog A :=
  match p with
  | Ret a => Ret a
  | Crash why => Ret (h why)
  | Vis o k => Vis o (fun b => recovering h (k b))
  end.

Definition safeRun (fn : CheckFunc) : prog (option goerr) :=
  recovering (fun why => Some (Plain [Txt "check panicked: "; Str why])) fn.

(** The result a goroutine of [Check] computes from what the check returned. *)
Definition result_of (c : check) (err : option goerr) (elapsed : Z) : Result_ :=
  let latency := Z.quot elapsed Millisecond in
  match err with
  | None => mkHealthResult StatusHealthy [] (ck_required c) elapsed latency
  | Some err => mkHealthResult StatusUnhealthy (Error err) (ck_required c) elapsed latency
  end.

Definition run_check (c : check) : prog Result_ :=
  (start <- call OpNow ;;
   err <- safeRun (ck_fn c) ;;
   stop <- call OpNow ;;
   Ret (result_of c err (stop - start)))%prog.

(** The goroutines, in the order in which they reach the map. *)
Fixpoint run_checks (cs : list check) (results : gmap string Result_) : prog (gmap string Result_) :=
  match cs with
  | [] => Ret results
  | c :: cs' =>
      (res <- run_check c ;;
       run_checks cs' (<[ck_name c := res]> results))%prog
  end.

(** The last loop of [Check], one result. *)
Definition tally_result (acc : string * bool) (res : Result_) : string * bool :=
  if negb (failing res) then acc
  else if hr_Required res then (StatusUnhealthy, snd acc) else (fst acc, true).

(** The loop over the results map, in the order of its enumeration. *)
Definition aggregate (results : gmap string Result_) : Report_ :=
  let '(st, degraded) :=
    fold_left tally_result (map_to_list results).*2 (StatusHealthy, false) in
  mkHealthReport st degraded results.

(** [Check], whose goroutines finish in the order [order] of the snapshot. *)
Definition Registry_Check (r : Registry) (order : list check) : prog Report_ :=
  match rg_checks r with
  | [] => Ret (mkHealthReport StatusHealthy false ∅)
  | _ => (results <- run_checks order ∅ ;; Ret (aggregate results))%prog
  end.

(** ** The probes *)

Inductive ServingStatus := SERVING | NOT_SERVING.

Definition grpcServiceName : string := "payments.v1.PaymentsService".

(** [updateHealth]: the entries of the gRPC health service afterwards. *)
Definition updateHealth (readiness : option (Registry * list check))
    (entries : gmap string ServingStatus) : prog (gmap string ServingStatus) :=
  (healthy <- match readiness with
              | None => Ret true
              | Some (r, order) => bind (Registry_Check r order) (fun rep => Ret (Healthy rep))
              end ;;
   let status := if negb healthy then NOT_SERVING else SERVING in
   Ret (<[grpcServiceName := status]> (<[""%string := status]> entries)))%prog.

(** What a handler writes: the status, the headers set before it, the body. *)
Inductive Body := BodyStatus (s : string) | BodyReport (r : Report_)
  | BodyVersion (name environment version commit built : string).

Record HttpResponse := mkHttpResponse {
  rsp_status : Z; rsp_headers : list (string * string); rsp_body : Body
}.

Definition StatusOK : Z := 200.
Definition StatusServiceUnavailable : Z := 503.

Definition writeJSON (status : Z) (body : Body) : HttpResponse :=
  mkHttpResponse status
    [("Content-Type", "application/json; charset=utf-8"); ("Cache-Control", "no-store")]%string body.

Definition handleLive : prog HttpResponse := Ret (writeJSON StatusOK (BodyStatus StatusHealthy)).

Definition handleReady (r : Registry) (order : list check) : prog HttpResponse :=
  (report <- Registry_Check r order ;;
   let status := if negb (Healthy report) then StatusServiceUnavailable else StatusOK in
   Ret (writeJSON status (BodyReport report)))%prog.

Record BuildInfo := mkBuildInfo { bi_Version : string; bi_Commit : string; bi_Built : string }.

Definition handleVersion (app : App) (b : BuildInfo) : prog HttpResponse :=
  Ret (writeJSON StatusOK (BodyVersion (app_Name app) (app_Environment app) (bi_Version b)
                             (bi_Commit b) (bi_Built b))).

(** ** The checks of the deployed process *)

(** [DB.Ping]: a round trip to PostgreSQL. *)
Definition DB_Ping : CheckFunc :=
  (r <- call (OpQuery (fun _ => tt)) ;;
   match r with
   | Err err => Ret (Some (prefixed "postgres unreachable: " err))
   | Ok _ => Ret None
   end)%prog.

Definition store_Ping (s : option Store) : CheckFunc :=
  (r <- Store_Ping s ;; Ret match r with Ok _ => None | Err err => Some err end)%prog.

(** The registrations of [cmd/api]. *)
Definition api_checks (s : option Store) : option Registry :=
  match Register (NewRegistry DefaultTimeout) "postgres" (Some DB_Ping) with
  | Some r => RegisterOptional r "redis" (Some (store_Ping s))
  | None => None
  end.

(** ** Registries *)

(** Registries that [New] and registrations build. *)
Inductive built : Registry -> Prop :=
  | built_New t : built (NewRegistry t)
  | built_register r name fn required r' :
      built r -> register r name fn required = Some r' -> built r'.

Lemma put_check_names name fn required cs :
  ck_name <$> put_check name fn required cs
  = (if bool_decide (name ∈ ck_name <$> cs) then ck_name <$> cs
     else (ck_name <$> cs) ++ [name])%list.
Proof.
  induction cs as [|c cs IH]; [done |]. csimpl. destruct (decide (ck_name c = name)) as [<-|Hc].
  - rewrite !bool_decide_eq_true_2; [done | apply list_elem_of_here | done].
  - rewrite (bool_decide_eq_false_2 (ck_name c = name)) by done. csimpl. rewrite IH.
    destruct (decide (name ∈ ck_name <$> cs)) as [Hin|Hin].
    + rewrite !bool_decide_eq_true_2; [done | by apply list_elem_of_further | done].
    + rewrite !bool_decide_eq_false_2; [done | | done].
      intros [->|]%elem_of_cons; done.
Qed.

(** A name occurs once: registering it again replaces the check in place. *)
Lemma built_NoDup r : built r -> NoDup (Names r).
Proof.
  induction 1 as [|r name fn required r' _ IH Hr]; [constructor |].
  unfold register in Hr. destruct fn as [fn|]; [|done]. injection Hr as <-.
  unfold Names in *. simpl. rewrite put_check_names. case_bool_decide; [done |].
  apply NoDup_app. split_and!; [done | | apply NoDup_singleton].
  by intros x Hx ->%list_elem_of_singleton.
Qed.

(** ** Running the checks *)

Lemma recovering_returns {A} (h : string -> A) p : leaves (fun _ => True) (recovering h p).
Proof. induction p as [a|why|B o k IH]; simpl; auto. Qed.

(** What is on record of a check that ran. *)
Definition ran (c : check) (m : gmap string Result_) : Prop :=
  exists res, m !! ck_name c = Some res /\ hr_Required res = ck_required c.

Lemma run_checks_returns cs m0 :
  NoDup (ck_name <$> cs) ->
  leaves (fun m => dom m = dom m0 ∪ list_to_set (ck_name <$> cs)
            /\ (forall c, c ∈ cs -> ran c m)
            /\ (forall name, name ∉ ck_name <$> cs -> m !! name = m0 !! name)) (run_checks cs m0).
Proof.
  revert m0. induction cs as [|c cs IH]; intros m0 Hnd.
  - simpl. split_and!; [set_solver | set_solver | done].
  - rewrite fmap_cons in Hnd. apply NoDup_cons in Hnd as [Hc Hnd].
    cbn [run_checks]. apply leaves_bind. unfold run_check. cbn [bind call leaves]. intros start.
    apply leaves_bind. eapply leaves_mono; [|apply recovering_returns].
    intros err _. cbn [bind call leaves]. intros stop. eapply leaves_mono; [|by apply IH].
    intros m (Hdom & Hran & Hkeep). rewrite fmap_cons. split_and!.
    + rewrite Hdom, dom_insert_L. set_solver.
    + intros c' [->|Hin]%elem_of_cons; [|by apply Hran].
      exists (result_of c err (stop - start)). split; [|by destruct err].
      rewrite Hkeep by done. apply lookup_insert_eq.
    + intros name [Hne Hn]%not_elem_of_cons. rewrite Hkeep by done. by apply lookup_insert_ne.
Qed.

(** ** Aggregation *)

Lemma tally_results l st dg :
  fold_left tally_result l (st, dg)
  = (if existsb (fun res => failing res && hr_Required res) l then StatusUnhealthy else st,
     dg || existsb (fun res => failing res && negb (hr_Required res)) l).
Proof.
  revert st dg. induction l as [|res l IH]; intros st dg; simpl; [by rewrite orb_false_r |].
  unfold tally_result at 2. destruct (failing res), (hr_Required res); simpl; rewrite IH; simpl;
    rewrite ?orb_true_r; try done. by destruct (existsb _ l).
Qed.

Lemma existsb_map {A} (p : A -> bool) (m : gmap string A) :
  existsb p (map_to_list m).*2 = true <-> exists name res, m !! name = Some res /\ p res = true.
Proof.
  rewrite existsb_exists. split.
  - intros (res & Hin & Hp). apply list_elem_of_In, list_elem_of_fmap in Hin as ([name res'] & -> & Hin).
    exists name, res'. by apply elem_of_map_to_list in Hin.
  - intros (name & res & Hl & Hp). exists res. split; [|done].
    apply list_elem_of_In, list_elem_of_fmap. exists (name, res). split; [done |].
    by apply elem_of_map_to_list.
Qed.

(** A list of names is empty exactly when no result has the property. *)
Lemma names_where_nil p m :
  names_where p m = [] <-> forall name res, m !! name = Some res -> p res = false.
Proof.
  unfold names_where. split.
  - intros H name res Hl. apply not_true_is_false. intros Hp.
    assert (Hin : name ∈ merge_sort string_le (filter (fun kv => p kv.2 = true) (map_to_list m)).*1).
    { rewrite merge_sort_Permutation. apply list_elem_of_fmap. exists (name, res). split; [done |].
      apply list_elem_of_filter. split; [done | by apply elem_of_map_to_list]. }
    rewrite H in Hin. by apply not_elem_of_nil in Hin.
  - intros H. destruct (filter _ _) as [|[name res] l] eqn:E; [done |]. exfalso.
    assert (Hin : (name, res) ∈ filter (fun kv : string * Result_ => p kv.2 = true) (map_to_list m))
      by (rewrite E; apply list_elem_of_here).
    apply list_elem_of_filter in Hin as [Hp Hin]. apply elem_of_map_to_list, H in Hin.
    simpl in Hp. congruence.
Qed.

(** What a report says, given its results. *)
Record report_ok (rep : Report_) : Prop := {
  ro_healthy : Healthy rep = true <->
    (forall name res, hp_Checks rep !! name = Some res -> hr_Required res = true -> failing res = false);
  ro_degraded : hp_Degraded rep = true <->
    (exists name res, hp_Checks rep !! name = Some res /\ hr_Required res = false /\ failing res = true);
  ro_required : Healthy rep = true <-> FailedRequired rep = [];
  ro_failed : Failed rep = [] <-> Healthy rep = true /\ hp_Degraded rep = false
}.

Lemma aggregate_ok m : report_ok (aggregate m) /\ hp_Checks (aggregate m) = m.
Proof.
  unfold aggregate. rewrite tally_results. simpl. split; [|done].
  set (req := existsb (fun res => failing res && hr_Required res) (map_to_list m).*2).
  set (opt := existsb (fun res => failing res && negb (hr_Required res)) (map_to_list m).*2).
  assert (Hreq : req = false <->
    forall name res, m !! name = Some res -> failing res && hr_Required res = false).
  { rewrite <- not_true_iff_false. unfold req. rewrite existsb_map. split.
    - intros H name res Hl. apply not_true_is_false. intros Hf. apply H. by exists name, res.
    - intros H (name & res & Hl & Hf). rewrite (H _ _ Hl) in Hf. done. }
  assert (Hh : Healthy (mkHealthReport (if req then StatusUnhealthy else StatusHealthy) opt m) = true
               <-> req = false) by (by destruct req).
  split; simpl; rewrite ?Hh.
  - rewrite Hreq. apply forall_proper; intros name. apply forall_proper; intros res.
    destruct (failing res), (hr_Required res); simpl; intuition congruence.
  - unfold opt. rewrite existsb_map. do 2 (apply exist_proper; intros ?).
    rewrite andb_true_iff, negb_true_iff. tauto.
  - unfold FailedRequired. by rewrite names_where_nil, Hreq.
  - unfold Failed. rewrite names_where_nil, Hreq, <- not_true_iff_false. unfold opt.
    rewrite existsb_map. simpl. split.
    + intros H. split; [intros name res Hl; by rewrite (H _ _ Hl) |].
      intros (name & res & Hl & Hf). by rewrite (H _ _ Hl) in Hf.
    + intros [Hr Ho] name res Hl. destruct (failing res) eqn:E; [|done]. exfalso.
      specialize (Hr _ _ Hl). rewrite E in Hr. simpl in Hr.
      apply Ho. exists name, res. rewrite E, Hr. done.
Qed.

(** A completion order of the checks of a registry. *)
Definition completes (r : Registry) (order : list check) : Prop := order ≡ₚ rg_checks r.

Lemma completes_NoDup r order : built r -> completes r order -> NoDup (ck_name <$> order).
Proof. intros Hb Ho. rewrite Ho. by apply built_NoDup. Qed.

(** The results of a run, whatever the checks do. *)
Lemma Registry_Check_returns r order :
  built r -> completes r order ->
  leaves (fun rep => report_ok rep /\ dom (hp_Checks rep) = list_to_set (Names r)
            /\ forall c, c ∈ rg_checks r -> ran c (hp_Checks rep)) (Registry_Check r order).
Proof.
  intros Hb Ho. unfold Registry_Check, Names. pose proof (completes_NoDup _ _ Hb Ho) as Hnd.
  unfold completes in Ho. destruct (rg_checks r) as [|c0 cs0].
  - destruct (aggregate_ok ∅) as [Hok _]. split_and!; [exact Hok | done | set_solver].
  - apply leaves_bind. eapply leaves_mono; [|by apply run_checks_returns].
    intros m (Hdom & Hran & _). cbn [leaves]. destruct (aggregate_ok m) as [Hok ->].
    split_and!; [done | | intros c Hc; apply Hran; by rewrite Ho].
    rewrite Hdom, Ho. set_solver.
Qed.

(** A readiness report is complete and says what the checks said: in
    whatever order the checks finish, whatever they answer and even if they
    panic, [Check] returns, with one result for every registered name; it is
    healthy exactly when no required check failed, degraded exactly when an
    optional one failed, and lists no failed required check exactly when it is
    healthy. *)
Lemma Check_report {R} {RC : UniversalClient R} r order es (w : World R) :
  built r -> completes r order ->
  exists w' rep, run (Registry_Check r order) es w = (w', Some rep)
    /\ report_ok rep /\ dom (hp_Checks rep) = list_to_set (Names r)
    /\ forall c, c ∈ rg_checks r -> ran c (hp_Checks rep).
Proof. intros Hb Ho. by apply leaves_run, Registry_Check_returns. Qed.

(** ** The deployed process *)

(** Every round trip to the database succeeds, or every one fails. *)
Definition database_up (up : bool) (B : Type) (o : op B) : B -> Prop :=
  match o in op B return B -> Prop with
  | OpQuery _ => fun r => is_Ok r = up
  | _ => fun _ => True
  end.

Lemma handle_database_up {R} {RC : UniversalClient R} up (es : nat -> Env) n (w : World R) {B} (o : op B) :
  (forall n, bool_decide (env_query (es n) = None) = up) -> database_up up B o (snd (handle (es n) w o)).
Proof.
  intros Hup. destruct o; try done. simpl. rewrite <- (Hup n).
  destruct (env_query (es n)) as [e|]; [by rewrite bool_decide_eq_false_2 | done].
Qed.

Lemma DB_Ping_up up :
  leaves_if (database_up up) (fun e => bool_decide (e = None) = up) (safeRun DB_Ping).
Proof. unfold DB_Ping. simpl. by intros [u|e] <-. Qed.

Lemma store_Ping_returns up s : leaves_if (database_up up) (fun _ => True) (safeRun (store_Ping s)).
Proof. unfold store_Ping, Store_Ping. destruct (Available s); [|done]. simpl. by intros [u|e] _. Qed.

(** The report of the two checks, in either order. *)
Definition follows (up : bool) (m : gmap string Result_) : Prop :=
  exists pg rd, m = <["postgres"%string := pg]> (<["redis"%string := rd]> ∅)
    /\ hr_Required pg = true /\ hr_Required rd = false /\ failing pg = negb up.

Lemma result_of_failing c err t : failing (result_of c err t) = negb (bool_decide (err = None)).
Proof. by destruct err. Qed.

Lemma api_checks_run s r order up :
  api_checks s = Some r -> completes r order ->
  leaves_if (database_up up) (follows up) (run_checks order ∅).
Proof.
  intros [= <-] Ho. unfold completes in Ho. simpl in Ho.
  set (pg := mkCheck "postgres" DB_Ping true) in *.
  set (rd := mkCheck "redis" (store_Ping s) false) in *.
  assert (Hstep : forall c cs m (P : option goerr -> Prop) Q,
    leaves_if (database_up up) P (safeRun (ck_fn c)) ->
    (forall err t, P err -> leaves_if (database_up up) Q (run_checks cs (<[ck_name c := result_of c err t]> m))) ->
    leaves_if (database_up up) Q (run_checks (c :: cs) m)).
  { intros c cs m P Q Hp Hk. cbn [run_checks]. apply leaves_if_bind. unfold run_check.
    cbn [bind call leaves_if]. intros start _. apply leaves_if_bind.
    eapply leaves_if_mono; [|exact Hp]. intros err He. cbn [bind call leaves_if]. eauto. }
  symmetry in Ho. apply Permutation_length_2_inv in Ho as [->| ->]; eapply Hstep;
    [apply DB_Ping_up | | apply store_Ping_returns |]; intros e1 t1 H1; eapply Hstep;
    [apply store_Ping_returns | | apply DB_Ping_up |]; intros e2 t2 H2; simpl;
    do 2 eexists.
  - split_and!; [by apply insert_insert_ne | by destruct e1 | by destruct e2 |].
    by rewrite result_of_failing, H1.
  - split_and!; [reflexivity | by destruct e2 | by destruct e1 |].
    by rewrite result_of_failing, H2.
Qed.

Lemma follows_healthy up m : follows up m -> Healthy (aggregate m) = up.
Proof.
  intros (pg & rd & -> & Hp & Hr & Hf). destruct (aggregate_ok (<["postgres"%string := pg]> (<["redis"%string := rd]> ∅)))
    as [[Hh _ _ _] Hm]. rewrite Hm in Hh. destruct up.
  - apply Hh. intros name res [[_ <-]|[_ H]]%lookup_insert_Some; [done |].
    apply lookup_insert_Some in H as [[_ <-]|[_ H]]; [congruence |]. by rewrite lookup_empty in H.
  - apply not_true_is_false. intros H. pose proof (proj1 Hh H "postgres"%string pg (lookup_insert_eq _ _ _) Hp) as Hok.
    by rewrite Hf in Hok.
Qed.

Lemma api_checks_nonempty s r : api_checks s = Some r -> rg_checks r <> [].
Proof. by intros [= <-]. Qed.

Lemma api_Check_healthy s r order up :
  api_checks s = Some r -> completes r order ->
  leaves_if (database_up up) (fun rep => Healthy rep = up) (Registry_Check r order).
Proof.
  intros Hr Ho. unfold Registry_Check. pose proof (api_checks_nonempty _ _ Hr).
  destruct (rg_checks r) eqn:E; [done |]. apply leaves_if_bind.
  eapply leaves_if_mono; [|by eapply api_checks_run]. apply follows_healthy.
Qed.

(** C32. Readiness follows the database and nothing else: with the checks that
    the API process registers, the HTTP probe answers 200 and the gRPC health
    service publishes SERVING for the server and for the payments service while
    the database answers, and 503 and NOT_SERVING while it does not, whatever
    Redis does and in whatever order the checks finish; the two probes agree. *)
Theorem readiness_follows_database {R} {RC : UniversalClient R} s r order up entries es (w : World R) :
  api_checks s = Some r -> completes r order ->
  (forall n, bool_decide (env_query (es n) = None) = up) ->
  (exists w' resp, run (handleReady r order) es w = (w', Some resp)
     /\ rsp_status resp = if up then StatusOK else StatusServiceUnavailable)
  /\ (exists w' m, run (updateHealth (Some (r, order)) entries) es w = (w', Some m)
     /\ m !! ""%string = Some (if up then SERVING else NOT_SERVING)
     /\ m !! grpcServiceName = Some (if up then SERVING else NOT_SERVING)).
Proof.
  intros Hr Ho Hup. pose proof (api_Check_healthy s r order up Hr Ho) as Hc.
  split; apply (leaves_if_run (database_up up)); try (intros; by apply handle_database_up);
    unfold handleReady, updateHealth.
  - apply leaves_if_bind. eapply leaves_if_mono; [|exact Hc]. intros rep Hh. cbn [leaves_if].
    rewrite Hh. by destruct up.
  - apply leaves_if_bind, leaves_if_bind. eapply leaves_if_mono; [|exact Hc]. intros rep Hh.
    cbn [leaves_if]. rewrite Hh. rewrite lookup_insert_eq, lookup_insert_ne, lookup_insert_eq by done.
    by destruct up.
Qed.

(** ** Instances *)

(** A required check that panics, one that fails and one that passes. *)
Definition shaky : Registry :=
  mkRegistry DefaultTimeout
    [mkCheck "a" (Crash "boom") true; mkCheck "b" (Ret (Some (External "down"))) false;
     mkCheck "c" (Ret None) true].

Lemma shaky_built : built shaky.
Proof.
  apply (built_register (mkRegistry DefaultTimeout
    [mkCheck "a" (Crash "boom") true; mkCheck "b" (Ret (Some (External "down"))) false])
    "c" (Some (Ret None)) true); [|reflexivity].
  apply (built_register (mkRegistry DefaultTimeout [mkCheck "a" (Crash "boom") true])
    "b" (Some (Ret (Some (External "down")))) false); [|reflexivity].
  apply (built_register (NewRegistry 0) "a" (Some (Crash "boom")) true); [constructor | reflexivity].
Qed.

(** Redis is down, the database answers. *)
Lemma readiness_follows_database_witness :
  exists r w' resp, api_checks (Some scn_store) = Some r
    /\ run (handleReady r (rg_checks r)) scn_env scn_world_down = (w', Some resp)
    /\ rsp_status resp = StatusOK
    /\ match rsp_body resp with BodyReport rep => hp_Degraded rep = true | _ => False end.
Proof.
  destruct (api_checks (Some scn_store)) as [r|] eqn:Hr; [|done]. exists r.
  destruct (readiness_follows_database (Some scn_store) r (rg_checks r) true ∅ scn_env scn_world_down Hr)
    as [(w' & resp & Hrun & Hst) _]; [unfold completes; reflexivity | reflexivity |].
  exists w', resp. split_and!; [done | done | done |].
  injection Hr as <-. pose proof (f_equal snd Hrun) as Hs. vm_compute in Hs. injection Hs as <-.
  reflexivity.
Defined.
