(* ===== verification/HttpBody.v ===== *)
(** * The bodies of the HTTP probes

    The bytes [writeJSON] of [internal/httpapi/server.go] puts on the wire: the
    JSON of the report of [internal/health/health.go] and of the build, as
    [json.NewEncoder(w).Encode] writes it. *)
From stdpp Require Import base gmap fin_maps fin_map_dom strings list.
From Stdlib Require Import ZArith Lia Ascii.
From S2P Require Import Prelude.
From S2P Require Import GoStd.
From S2P Require Import GoStrings.
From S2P Require Import GoTime.
From S2P Require Import GoJson.
From S2P Require Import JsonSpec.
From S2P Require Import Uuid.
From S2P Require Import Errors.
From S2P Require Import GoFmt.
From S2P Require Import Config.
From S2P Require Import Schema.
From S2P Require Import Tx.
From S2P Require Import Prog.
From S2P Require Import Store.
From S2P Require Import Instances.
From S2P Require Import Scenario.
From S2P Require Import Health.

Open Scope Z_scope.

Section bodies.
Variable IsPrint : Z -> bool.
Variable PgError_Error : PgError -> string.
Context {UL : UuidLib}.

Definition Result_json (r : Result_) : json :=
  JObj ([("status"%string, JStr (hr_Status r))]
        ++ omitempty "error" (msg_text IsPrint PgError_Error (hr_Error r))
        ++ [("required"%string, JBool (hr_Required r)); ("latency_ms"%string, JInt (hr_LatencyMS r))])%list.

Definition Report_json (r : Report_) : json :=
  JObj [("status"%string, JStr (hp_Status r)); ("degraded"%string, JBool (hp_Degraded r));
        ("checks"%string, JMap Result_json (hp_Checks r))].

Definition BuildInfo_json (version commit built : string) : json :=
  JObj [("version"%string, JStr version); ("commit"%string, JStr commit); ("built"%string, JStr built)].

(** The three values handed to [writeJSON]; the keys of a map in order. *)
Definition Body_json (b : Body) : json :=
  match b with
  | BodyStatus s => JObj [("status"%string, JStr s)]
  | BodyReport r => Report_json r
  | BodyVersion name environment version commit built =>
      JObj [("build"%string, BuildInfo_json version commit built);
            ("environment"%string, JStr environment); ("name"%string, JStr name)]
  end.

Definition body_text (resp : HttpResponse) : string := Encode compact (Body_json (rsp_body resp)).

(** ** Reading a body *)

Lemma Result_json_fits r : fits 1 (Result_json r).
Proof.
  apply (fits_JObj 0); [done |]. unfold omitempty.
  destruct (msg_text _ _ _); each_member;
    try (by apply fits_leaf); by apply fits_JInt.
Qed.

Lemma Result_json_members r :
  member "status" (json_valid (Result_json r)) = Some (JStr (to_valid (hr_Status r)))
  /\ member "required" (json_valid (Result_json r)) = Some (JBool (hr_Required r)).
Proof. unfold Result_json, omitempty. by destruct (msg_text _ _ _). Qed.

Lemma Body_json_fits b : fits 3 (Body_json b).
Proof.
  destruct b as [s|rep|]; [split; [done | simpl; lia] | | split; [done | simpl; lia]].
  apply (fits_JObj 2); [lia |]. each_member;
    try (apply fits_leaf; [done | done | lia]).
  apply (fits_JMap _ _ 1); [lia |]. intros; apply Result_json_fits.
Qed.

(** Whoever parses a body gets the value that was written. *)
Lemma parse_body resp : parse (body_text resp) = Some (json_valid (Body_json (rsp_body resp))).
Proof.
  destruct (Body_json_fits (rsp_body resp)) as [Hok Hd]. unfold body_text.
  apply parse_Encode; [apply compact_ok | done |]. unfold maxNestingDepth. lia.
Qed.

(** ** The statuses of a report *)

Definition status_known (s : string) : Prop := s = StatusHealthy \/ s = StatusUnhealthy.

Lemma run_checks_statuses cs m :
  (forall name res, m !! name = Some res -> status_known (hr_Status res)) ->
  leaves (fun m => forall name res, m !! name = Some res -> status_known (hr_Status res)) (run_checks cs m).
Proof.
  revert m. induction cs as [|c cs IH]; intros m Hm; [done |].
  cbn [run_checks]. apply leaves_bind. unfold run_check. cbn [bind call leaves]. intros start.
  apply leaves_bind. eapply leaves_mono; [|apply recovering_returns].
  intros err _. cbn [bind call leaves]. intros stop. apply IH.
  intros name res. rewrite lookup_insert_Some. intros [[_ <-]|[_ H]]; [|by eapply Hm].
  destruct err; [by right | by left].
Qed.

Lemma report_statuses r order :
  leaves (fun rep => status_known (hp_Status rep)
            /\ forall name res, hp_Checks rep !! name = Some res -> status_known (hr_Status res))
    (Registry_Check r order).
Proof.
  unfold Registry_Check. destruct (rg_checks r) as [|c0 cs0].
  - split; [by left |]. simpl. intros name res H. by apply lookup_empty_Some in H.
  - apply leaves_bind. eapply leaves_mono; [|by apply run_checks_statuses; intros ? ? ?%lookup_empty_Some].
    intros m Hm. cbn [leaves]. destruct (aggregate_ok m) as [_ Hc]. rewrite Hc. split; [|done].
    unfold aggregate. rewrite tally_results. simpl. destruct (existsb _ _); [by right | by left].
Qed.

Lemma leaves_and {A} (P Q : A -> Prop) p :
  leaves P p -> leaves Q p -> leaves (fun a => P a /\ Q a) p.
Proof. induction p as [a|why|X o k IH]; simpl; [done .. |]. intros H1 H2 b. by apply IH. Qed.

(** What a reader of the body of a readiness probe learns. *)
Record body_says (r : Registry) (status : Z) (j checks : json) : Prop := {
  bs_status : (status = StatusOK /\ member "status" j = Some (JStr StatusHealthy))
    \/ (status = StatusServiceUnavailable /\ member "status" j = Some (JStr StatusUnhealthy));
  bs_checks : member "checks" j = Some checks;
  bs_names : forall name, is_Some (member name checks) <-> name ∈ Names r;
  bs_required : forall c, c ∈ rg_checks r -> exists res,
    member (ck_name c) checks = Some res /\ member "required" res = Some (JBool (ck_required c));
  bs_healthy : status = StatusOK <->
    forall name res, member name checks = Some res -> member "required" res = Some (JBool true) ->
      member "status" res = Some (JStr StatusHealthy);
  bs_degraded : member "degraded" j = Some (JBool true) <->
    exists name res, member name checks = Some res /\ member "required" res = Some (JBool false)
      /\ member "status" res = Some (JStr StatusUnhealthy)
}.

Section report.
Variables (r : Registry) (rep : Report_).
Hypothesis Hnames : Forall (fun n => ValidString n = true) (Names r).
Hypothesis Hdom : dom (hp_Checks rep) = list_to_set (Names r).
Hypothesis Hstatus : status_known (hp_Status rep).
Hypothesis Hstatuses : forall name res, hp_Checks rep !! name = Some res -> status_known (hr_Status res).

Let checks := json_valid (JMap Result_json (hp_Checks rep)).

Lemma known_name name : is_Some (hp_Checks rep !! name) <-> name ∈ Names r.
Proof. rewrite <- elem_of_dom, Hdom. apply elem_of_list_to_set. Qed.

Lemma checks_member name :
  member name checks = (fun res => json_valid (Result_json res)) <$> hp_Checks rep !! name.
Proof.
  apply member_JMap. intros k x Hk. apply to_valid_id. rewrite Forall_forall in Hnames.
  by apply Hnames, known_name.
Qed.

(** The entry of a check in the body says what its result says. *)
Lemma checks_entry name j :
  member name checks = Some j <->
  exists res, hp_Checks rep !! name = Some res /\ j = json_valid (Result_json res).
Proof. rewrite checks_member, fmap_Some. done. Qed.

Lemma entry_status res :
  status_known (hr_Status res) ->
  member "status" (json_valid (Result_json res)) = Some (JStr (hr_Status res)).
Proof.
  intros Hs. rewrite (proj1 (Result_json_members res)), to_valid_ascii; [done |].
  by destruct Hs as [-> | ->].
Qed.

Lemma entry_healthy res :
  status_known (hr_Status res) ->
  member "status" (json_valid (Result_json res)) = Some (JStr StatusHealthy) <-> failing res = false.
Proof.
  intros Hs. rewrite entry_status by done. unfold failing.
  rewrite negb_false_iff, bool_decide_eq_true. split; [by intros [= ->] | by intros ->].
Qed.

Lemma entry_unhealthy res :
  status_known (hr_Status res) ->
  member "status" (json_valid (Result_json res)) = Some (JStr StatusUnhealthy) <-> failing res = true.
Proof.
  intros Hs. rewrite entry_status by done. unfold failing. rewrite negb_true_iff, bool_decide_eq_false.
  split; [by intros [= ->] |]. by destruct Hs as [-> | ->].
Qed.

Lemma report_says :
  report_ok rep -> (forall c, c ∈ rg_checks r -> ran c (hp_Checks rep)) ->
  body_says r (if negb (Healthy rep) then StatusServiceUnavailable else StatusOK)
    (json_valid (Report_json rep)) checks.
Proof.
  intros Hok Hran.
  assert (Hst : member "status" (json_valid (Report_json rep)) = Some (JStr (hp_Status rep))).
  { change (Some (JStr (to_valid (hp_Status rep))) = Some (JStr (hp_Status rep))).
    rewrite to_valid_ascii; [done |]. by destruct Hstatus as [-> | ->]. }
  split.
  - rewrite Hst. unfold Healthy. destruct Hstatus as [-> | ->]; [by left | by right].
  - done.
  - intros name. rewrite checks_member, fmap_is_Some. apply known_name.
  - intros c Hc. destruct (Hran c Hc) as (res & Hl & Hreq). exists (json_valid (Result_json res)).
    split; [apply checks_entry; by exists res |]. rewrite <- Hreq. apply Result_json_members.
  - transitivity (Healthy rep = true); [by destruct (Healthy rep) |]. rewrite (ro_healthy _ Hok). split.
    + intros H name j (res & Hl & ->)%checks_entry. rewrite (proj2 (Result_json_members res)).
      intros [= Hreq]. apply entry_healthy; [by eapply Hstatuses |]. by eapply H.
    + intros H name res Hl Hreq. apply entry_healthy; [by eapply Hstatuses |].
      apply (H name); [apply checks_entry; by exists res |].
      by rewrite (proj2 (Result_json_members res)), Hreq.
  - transitivity (hp_Degraded rep = true).
    { change (Some (JBool (hp_Degraded rep)) = Some (JBool true) <-> hp_Degraded rep = true).
      split; [by intros [= ->] | by intros ->]. }
    rewrite (ro_degraded _ Hok). split.
    + intros (name & res & Hl & Hreq & Hf). exists name, (json_valid (Result_json res)).
      split_and!; [apply checks_entry; by exists res | | apply entry_unhealthy; [by eapply Hstatuses | done]].
      by rewrite (proj2 (Result_json_members res)), Hreq.
    + intros (name & j & (res & Hl & ->)%checks_entry & Hreq & Hs). exists name, res.
      rewrite (proj2 (Result_json_members res)) in Hreq. injection Hreq as Hreq.
      split_and!; [done | done |]. apply entry_unhealthy; [by eapply Hstatuses | done].
Qed.
End report.

(** C26. The body of the readiness probe tells the truth to whoever parses it. In
    whatever order the checks finish, whatever they answer and even if they
    panic, the probe answers with a body that is valid JSON: its status agrees
    with the HTTP status; its checks are exactly the registered ones, each with
    its required flag; the answer is 200 exactly when every required check is
    reported healthy, and degraded exactly when an optional one is reported
    unhealthy. *)
Theorem ready_body_truthful {R} {RC : UniversalClient R} r order es (w : World R) :
  built r -> completes r order -> Forall (fun n => ValidString n = true) (Names r) ->
  exists w' resp j checks,
    run (handleReady r order) es w = (w', Some resp)
    /\ parse (body_text resp) = Some j /\ body_says r (rsp_status resp) j checks.
Proof.
  intros Hb Ho Hn.
  destruct (leaves_run (fun resp => exists checks,
    body_says r (rsp_status resp) (json_valid (Body_json (rsp_body resp))) checks)
    (handleReady r order) es w) as (w' & resp & Hrun & checks & Hs).
  - unfold handleReady. apply leaves_bind.
    eapply leaves_mono; [|apply leaves_and; [by apply Registry_Check_returns | apply report_statuses]].
    intros rep ((Hok & Hdom & Hran) & Hst & Hsts). cbn [leaves writeJSON rsp_status rsp_body Body_json].
    eexists. by apply report_says.
  - do 4 eexists. split; [done |]. split; [apply parse_body | exact Hs].
Qed.
End bodies.

(** ** Instances *)

(** The body of the liveness probe, byte for byte. *)
Example live_body IsPrint pg :
  body_text IsPrint pg (writeJSON StatusOK (BodyStatus StatusHealthy))
  = string_of_bytes (byte_of_Z <$> [123; 34; 115; 116; 97; 116; 117; 115; 34; 58; 34; 104; 101; 97; 108;
                                    116; 104; 121; 34; 125; 10]).
Proof. reflexivity. Qed.

Lemma ready_body_truthful_witness :
  exists w' resp j checks,
    run (handleReady shaky (reverse (rg_checks shaky))) scn_env scn_world = (w', Some resp)
    /\ parse (body_text (fun _ => true) Code resp) = Some j
    /\ body_says shaky (rsp_status resp) j checks
    /\ rsp_status resp = 503 /\ member "degraded" j = Some (JBool true).
Proof.
  destruct (ready_body_truthful (fun _ => true) Code shaky (reverse (rg_checks shaky)) scn_env scn_world)
    as (w' & resp & j & checks & Hrun & Hp & Hs);
    [apply shaky_built | apply reverse_Permutation | repeat constructor |].
  exists w', resp, j, checks. split_and!; [done | done | done | |].
  - pose proof (f_equal snd Hrun) as H. vm_compute in H. injection H as <-. reflexivity.
  - pose proof (f_equal snd Hrun) as H. vm_compute in H. injection H as <-.
    vm_compute in Hp. injection Hp as <-. reflexivity.
Defined.
