(* ===== verification/GrpcLifecycle.v ===== *)
(** * [internal/grpcapi/server.go]: the lifecycle of the gRPC server

    [Start], [pollReadiness], [Shutdown] and [Run] as a labelled step relation.
    The goroutines are the caller of [Run], the one that calls [Serve], the
    poller and, during a shutdown, the one that calls [GracefulStop]; each has a
    program counter. [grpc.Server] and the health service of grpc-go are
    parameters with the documented behaviour of the calls the program makes. *)
From stdpp Require Import base gmap fin_maps strings list relations.
From Stdlib Require Import ZArith Lia Ascii.
From S2P Require Import Prelude.
From S2P Require Import GoStd.
From S2P Require Import GoTime.
From S2P Require Import Uuid.
From S2P Require Import Errors.
From S2P Require Import Config.
From S2P Require Import Health.

Open Scope nat_scope.

(** ** The libraries *)

(** [health.Server]: a status per service name. After [Shutdown] every status
    is NOT_SERVING and further changes are ignored. *)
Class HealthLib (H : Type) := {
  health_NewServer : H;
  SetServingStatus : H -> string -> ServingStatus -> H;
  health_Shutdown : H -> H;
  serving_status : H -> string -> option ServingStatus;
  health_down : H -> bool;
  health_new : health_down health_NewServer = false;
  set_open : forall h s st s', health_down h = false ->
    serving_status (SetServingStatus h s st) s'
    = if bool_decide (s = s') then Some st else serving_status h s';
  set_closed : forall h s st s', health_down h = true ->
    serving_status (SetServingStatus h s st) s' = serving_status h s';
  set_down : forall h s st, health_down (SetServingStatus h s st) = health_down h;
  shutdown_down : forall h, health_down (health_Shutdown h) = true;
  shutdown_status : forall h s,
    serving_status (health_Shutdown h) s = (fun _ => NOT_SERVING) <$> serving_status h s
}.

(** What was done to a [grpc.Server], and the RPCs in flight. *)
Record GrpcObs := mkGrpcObs {
  go_serving : bool;        (* Serve was called and has not returned *)
  go_inflight : nat;        (* handlers running *)
  go_graceful : bool;       (* GracefulStop was called *)
  go_stop : bool;           (* Stop was called *)
  go_stopped : bool         (* one of them returned *)
}.

(** When a [grpc.Server] may accept an RPC, and when its calls may return:
    GracefulStop and Stop end the acceptance of RPCs, GracefulStop returns when
    no RPC is left or Stop cut them, and, once they have all returned,
    nothing keeps Stop, GracefulStop and then Serve from returning. *)
Class GrpcLib := {
  accepts_rpc : GrpcObs -> Prop;
  Serve_returns : GrpcObs -> option goerr -> Prop;
  GracefulStop_returns : GrpcObs -> Prop;
  Stop_returns : GrpcObs -> Prop;
  accepts_rpc_ok : forall o, accepts_rpc o ->
    go_serving o = true /\ go_graceful o = false /\ go_stop o = false;
  GracefulStop_ok : forall o, GracefulStop_returns o -> go_inflight o = 0 \/ go_stop o = true;
  GracefulStop_live : forall o,
    go_graceful o = true -> go_stop o = true -> go_inflight o = 0 -> GracefulStop_returns o;
  Stop_live : forall o, go_stop o = true -> go_inflight o = 0 -> Stop_returns o;
  Serve_live : forall o,
    go_serving o = true -> go_stopped o = true -> exists e, Serve_returns o e
}.

(** ** Goroutines *)

(** The caller of [Run]: [Start], the select of [Run], the statements of
    [Shutdown] in their order, the result. *)
Inductive run_pc :=
  | RunStart
  | RunSelect
  | ShStopPolling
  | ShSetServer
  | ShSetService
  | ShHealthShutdown
  | ShSpawn
  | ShSelect
  | ShAwaitDone
  | ShStop
  | ShStopReturns
  | ShAwaitStopped
  | ShAwaitDoneForced
  | RunReturned (err : option goerr).

Inductive poll_pc :=
  | PollIdle
  | PollCheck
  | PollSetServer (st : ServingStatus)
  | PollSetService (st : ServingStatus)
  | PollSelect
  | PollReturned.

Inductive stopper_pc := StopperIdle | StopperWaits | StopperReturned.

(** Whose step it is: the program's own (the goroutines [Run] waits for), the
    end of an RPC, or anything else (the poller, a new RPC). *)
Inductive label := Program | Finish | Ambient.

Section grpc.
Context {H : Type} {HL : HealthLib H} {GL : GrpcLib}.

(** [Server]; [gs_done] is the channel [done] being closed. *)
Record GServer := mkGServer {
  gs_obs : GrpcObs;
  gs_health : H;
  gs_listener : option string;
  gs_polling : bool;
  gs_done : bool;
  gs_run : run_pc;
  gs_poll : poll_pc;
  gs_stopper : stopper_pc
}.

(** [New]. *)
Definition grpc_New : GServer :=
  mkGServer (mkGrpcObs false 0 false false false) health_NewServer None false false
    RunStart PollIdle StopperIdle.

Definition set_run (s : GServer) (pc : run_pc) : GServer :=
  mkGServer (gs_obs s) (gs_health s) (gs_listener s) (gs_polling s) (gs_done s) pc
    (gs_poll s) (gs_stopper s).
Definition set_health (s : GServer) (h : H) : GServer :=
  mkGServer (gs_obs s) h (gs_listener s) (gs_polling s) (gs_done s) (gs_run s)
    (gs_poll s) (gs_stopper s).
Definition set_poll (s : GServer) (pc : poll_pc) : GServer :=
  mkGServer (gs_obs s) (gs_health s) (gs_listener s) (gs_polling s) (gs_done s) (gs_run s)
    pc (gs_stopper s).
Definition set_obs (s : GServer) (o : GrpcObs) : GServer :=
  mkGServer o (gs_health s) (gs_listener s) (gs_polling s) (gs_done s) (gs_run s)
    (gs_poll s) (gs_stopper s).
Definition set_stopper (s : GServer) (pc : stopper_pc) : GServer :=
  mkGServer (gs_obs s) (gs_health s) (gs_listener s) (gs_polling s) (gs_done s) (gs_run s)
    (gs_poll s) pc.
Definition stop_polling (s : GServer) : GServer :=
  mkGServer (gs_obs s) (gs_health s) (gs_listener s) false (gs_done s) (gs_run s)
    (gs_poll s) (gs_stopper s).
Definition close_done (s : GServer) : GServer :=
  mkGServer (gs_obs s) (gs_health s) (gs_listener s) (gs_polling s) true (gs_run s)
    (gs_poll s) (gs_stopper s).

(** The events of a [grpc.Server]. *)
Definition serve_called (o : GrpcObs) : GrpcObs :=
  mkGrpcObs true (go_inflight o) (go_graceful o) (go_stop o) (go_stopped o).
Definition serve_returned (o : GrpcObs) : GrpcObs :=
  mkGrpcObs false (go_inflight o) (go_graceful o) (go_stop o) (go_stopped o).
Definition with_inflight (o : GrpcObs) (n : nat) : GrpcObs :=
  mkGrpcObs (go_serving o) n (go_graceful o) (go_stop o) (go_stopped o).
Definition graceful_called (o : GrpcObs) : GrpcObs :=
  mkGrpcObs (go_serving o) (go_inflight o) true (go_stop o) (go_stopped o).
Definition stop_called (o : GrpcObs) : GrpcObs :=
  mkGrpcObs (go_serving o) (go_inflight o) (go_graceful o) true (go_stopped o).
Definition stop_returned (o : GrpcObs) : GrpcObs :=
  mkGrpcObs (go_serving o) (go_inflight o) (go_graceful o) (go_stop o) true.

(** [Start], by what [Listen] answers: on success the listener is stored and
    the poller and the goroutine of [Serve] are started. *)
Definition Start (cfg : GRPC) (listened : result string) (s : GServer) : GServer * option goerr :=
  match listened with
  | Err err => (s, Some (Wrap [Txt "grpc: listen on "; Str (GRPC_Addr cfg); Txt ": "] err []))
  | Ok addr =>
      (mkGServer (serve_called (gs_obs s)) (gs_health s) (Some addr) true (gs_done s) (gs_run s)
         PollCheck (gs_stopper s), None)
  end.

(** [Addr]. *)
Definition grpc_Addr (s : GServer) : string := default ""%string (gs_listener s).

(** Where [Shutdown] begins: before [Start] bound a socket it returns at once. *)
Definition Shutdown_entry (s : GServer) : run_pc :=
  match gs_listener s with None => RunReturned None | Some _ => ShStopPolling end.

Definition forced (cfg : GRPC) : goerr :=
  Plain [Txt "grpc: graceful shutdown exceeded "; Dur (grpc_ShutdownTimeout cfg);
         Txt " and was forced"].

Section steps.
Variables (cfg : GRPC) (cancelled : bool).    (* ctx.Done() of Run is closed *)

Inductive gstep : GServer -> label -> GServer -> Prop :=
  (* Run: Start *)
  | g_start_ok s listened s' :
      gs_run s = RunStart -> Start cfg listened s = (s', None) ->
      gstep s Program (set_run s' RunSelect)
  | g_start_err s listened s' err :
      gs_run s = RunStart -> Start cfg listened s = (s', Some err) ->
      gstep s Program (set_run s' (RunReturned (Some err)))
  (* Run: select on done and on the context *)
  | g_select s :
      gs_run s = RunSelect -> gs_done s = true \/ cancelled = true ->
      gstep s Program (set_run s (Shutdown_entry s))
  (* Shutdown *)
  | g_stop_polling s :
      gs_run s = ShStopPolling ->
      gstep s Program (set_run (stop_polling s) ShSetServer)
  | g_set_server s :
      gs_run s = ShSetServer ->
      gstep s Program
        (set_run (set_health s (SetServingStatus (gs_health s) "" NOT_SERVING)) ShSetService)
  | g_set_service s :
      gs_run s = ShSetService ->
      gstep s Program
        (set_run (set_health s (SetServingStatus (gs_health s) grpcServiceName NOT_SERVING))
           ShHealthShutdown)
  | g_health_shutdown s :
      gs_run s = ShHealthShutdown ->
      gstep s Program (set_run (set_health s (health_Shutdown (gs_health s))) ShSpawn)
  | g_spawn s :
      gs_run s = ShSpawn ->
      gstep s Program
        (set_run (set_stopper (set_obs s (graceful_called (gs_obs s))) StopperWaits) ShSelect)
  | g_select_stopped s :
      gs_run s = ShSelect -> gs_stopper s = StopperReturned ->
      gstep s Program (set_run s ShAwaitDone)
  | g_select_timeout s :
      gs_run s = ShSelect -> gstep s Program (set_run s ShStop)
  | g_await_done s :
      gs_run s = ShAwaitDone -> gs_done s = true ->
      gstep s Program (set_run s (RunReturned None))
  | g_stop s :
      gs_run s = ShStop ->
      gstep s Program (set_run (set_obs s (stop_called (gs_obs s))) ShStopReturns)
  | g_stop_returns s :
      gs_run s = ShStopReturns -> Stop_returns (gs_obs s) ->
      gstep s Program (set_run (set_obs s (stop_returned (gs_obs s))) ShAwaitStopped)
  | g_await_stopped s :
      gs_run s = ShAwaitStopped -> gs_stopper s = StopperReturned ->
      gstep s Program (set_run s ShAwaitDoneForced)
  | g_await_done_forced s :
      gs_run s = ShAwaitDoneForced -> gs_done s = true ->
      gstep s Program (set_run s (RunReturned (Some (forced cfg))))
  (* the goroutine of GracefulStop *)
  | g_graceful_returns s :
      gs_stopper s = StopperWaits -> GracefulStop_returns (gs_obs s) ->
      gstep s Program (set_stopper (set_obs s (stop_returned (gs_obs s))) StopperReturned)
  (* the goroutine of Serve; its error is only logged *)
  | g_serve_returns s err :
      go_serving (gs_obs s) = true -> Serve_returns (gs_obs s) err ->
      gstep s Program (close_done (set_obs s (serve_returned (gs_obs s))))
  (* RPCs *)
  | g_rpc_starts s :
      accepts_rpc (gs_obs s) ->
      gstep s Ambient (set_obs s (with_inflight (gs_obs s) (S (go_inflight (gs_obs s)))))
  | g_rpc_ends s n :
      go_inflight (gs_obs s) = S n ->
      gstep s Finish (set_obs s (with_inflight (gs_obs s) n))
  (* the poller: updateHealth, then select on the context and the ticker *)
  | g_poll_check s healthy :
      gs_poll s = PollCheck ->
      gstep s Ambient (set_poll s (PollSetServer (if negb healthy then NOT_SERVING else SERVING)))
  | g_poll_server s st :
      gs_poll s = PollSetServer st ->
      gstep s Ambient
        (set_poll (set_health s (SetServingStatus (gs_health s) "" st)) (PollSetService st))
  | g_poll_service s st :
      gs_poll s = PollSetService st ->
      gstep s Ambient
        (set_poll (set_health s (SetServingStatus (gs_health s) grpcServiceName st)) PollSelect)
  | g_poll_tick s :
      gs_poll s = PollSelect -> gstep s Ambient (set_poll s PollCheck)
  | g_poll_done s :
      gs_poll s = PollSelect -> gs_polling s = false ->
      gstep s Ambient (set_poll s PollReturned).

(** ** The invariant of the server *)

(** A socket is bound; the goroutine of [Serve] runs or has closed [done]. *)
Definition bound (s : GServer) : Prop :=
  is_Some (gs_listener s) /\ go_serving (gs_obs s) = negb (gs_done s).

Definition unbound (s : GServer) : Prop :=
  gs_listener s = None /\ go_serving (gs_obs s) = false /\ gs_done s = false.

(** Nothing was stopped yet. *)
Definition calm (s : GServer) : Prop :=
  gs_stopper s = StopperIdle /\ go_graceful (gs_obs s) = false /\ go_stop (gs_obs s) = false
  /\ health_down (gs_health s) = false.

(** The health service is shut down and answers NOT_SERVING. *)
Definition not_serving (s : GServer) : Prop :=
  health_down (gs_health s) = true
  /\ serving_status (gs_health s) "" = Some NOT_SERVING
  /\ serving_status (gs_health s) grpcServiceName = Some NOT_SERVING.

(** [GracefulStop] was called; once it has returned, no RPC is left unless
    [Stop] cut them. *)
Definition draining (s : GServer) : Prop :=
  go_graceful (gs_obs s) = true /\ gs_stopper s <> StopperIdle
  /\ (gs_stopper s = StopperReturned ->
       go_stopped (gs_obs s) = true /\ (go_stop (gs_obs s) = false -> go_inflight (gs_obs s) = 0)).

Definition drain (s : GServer) (stopped : bool) : Prop :=
  bound s /\ not_serving s /\ draining s /\ go_stop (gs_obs s) = stopped.

(** What holds at each statement of [Run] and [Shutdown]. *)
Definition g_inv (s : GServer) : Prop :=
  match gs_run s with
  | RunStart => unbound s /\ calm s
  | RunSelect | ShStopPolling => bound s /\ calm s
  | ShSetServer => bound s /\ calm s /\ gs_polling s = false
  | ShSetService =>
      bound s /\ calm s /\ gs_polling s = false /\ is_Some (serving_status (gs_health s) "")
  | ShHealthShutdown =>
      bound s /\ calm s /\ gs_polling s = false /\ is_Some (serving_status (gs_health s) "")
      /\ is_Some (serving_status (gs_health s) grpcServiceName)
  | ShSpawn =>
      bound s /\ not_serving s /\ gs_stopper s = StopperIdle
      /\ go_graceful (gs_obs s) = false /\ go_stop (gs_obs s) = false
  | ShSelect | ShStop => drain s false
  | ShAwaitDone => drain s false /\ gs_stopper s = StopperReturned
  | ShStopReturns => drain s true
  | ShAwaitStopped => drain s true /\ go_stopped (gs_obs s) = true
  | ShAwaitDoneForced => drain s true /\ gs_stopper s = StopperReturned
  | RunReturned None => drain s false /\ gs_stopper s = StopperReturned /\ gs_done s = true
  | RunReturned (Some _) =>
      unbound s /\ calm s
      \/ drain s true /\ gs_stopper s = StopperReturned /\ gs_done s = true
  end.

Lemma grpc_New_inv : g_inv grpc_New.
Proof. split; (split; [done |]); repeat split; try done. apply health_new. Qed.

(** A step of another goroutine leaves every one of these facts alone. *)
Record aside (s s' : GServer) : Prop := {
  as_run : gs_run s' = gs_run s;
  as_bound : bound s -> bound s';
  as_unbound : unbound s -> unbound s';
  as_calm : calm s -> calm s';
  as_polling : gs_polling s' = gs_polling s;
  as_status : forall name, is_Some (serving_status (gs_health s) name) ->
    is_Some (serving_status (gs_health s') name);
  as_not_serving : not_serving s -> not_serving s';
  as_draining : draining s -> draining s';
  as_idle : gs_stopper s = StopperIdle -> gs_stopper s' = StopperIdle;
  as_graceful : go_graceful (gs_obs s') = go_graceful (gs_obs s);
  as_stop : go_stop (gs_obs s') = go_stop (gs_obs s);
  as_stopped : go_stopped (gs_obs s) = true -> go_stopped (gs_obs s') = true;
  as_returned : gs_stopper s = StopperReturned -> gs_stopper s' = StopperReturned;
  as_done : gs_done s = true -> gs_done s' = true
}.

Lemma aside_inv s s' : aside s s' -> g_inv s -> g_inv s'.
Proof.
  intros [Hr Hb Hu Hc Hp Hst Hn Hd Hi Hg Hs Hsd Hrt Hdn]. unfold g_inv, drain.
  rewrite Hr, Hp, Hg, Hs. destruct (gs_run s) as [| | | | | | | | | | | | |[e|]]; intuition.
Qed.

(** Setting a status through the health service. *)
Lemma set_status_some h name st name' :
  is_Some (serving_status h name') -> is_Some (serving_status (SetServingStatus h name st) name').
Proof.
  intros Hs. destruct (health_down h) eqn:Hd; [by rewrite set_closed | rewrite set_open by done].
  by case_bool_decide.
Qed.

Lemma set_status_aside s name st pc :
  aside s (set_poll (set_health s (SetServingStatus (gs_health s) name st)) pc).
Proof.
  split; try done.
  - unfold calm; simpl. by rewrite set_down.
  - intros name' Hs. by apply set_status_some.
  - intros (Hd & H1 & H2). split_and!; simpl; [by rewrite set_down | by rewrite set_closed..].
Qed.

(** [GracefulStop] returns, [Serve] returns, an RPC starts, an RPC ends. *)
Lemma graceful_aside s :
  gs_stopper s = StopperWaits -> GracefulStop_returns (gs_obs s) ->
  aside s (set_stopper (set_obs s (stop_returned (gs_obs s))) StopperReturned).
Proof.
  intros Hst Hg. split; try done; simpl.
  - unfold calm. rewrite Hst. by intros [? _].
  - intros (Hgr & Hi & _). split_and!; simpl; try done. intros _. split; [done |].
    intros Hf. by destruct (GracefulStop_ok _ Hg) as [?|?]; [|congruence].
  - by rewrite Hst.
Qed.

Lemma serve_aside s :
  go_serving (gs_obs s) = true -> aside s (close_done (set_obs s (serve_returned (gs_obs s)))).
Proof.
  intros Hsv. split; try done; simpl.
  - intros [Hb _]. by split.
  - intros (_ & Hf & _). congruence.
Qed.

Lemma rpc_starts_aside s n :
  accepts_rpc (gs_obs s) -> aside s (set_obs s (with_inflight (gs_obs s) n)).
Proof.
  intros Ha. destruct (accepts_rpc_ok _ Ha) as (H1 & H2 & H3). split; try done; simpl.
  intros (Hgr & _). congruence.
Qed.

Lemma rpc_ends_aside s n :
  go_inflight (gs_obs s) = S n -> aside s (set_obs s (with_inflight (gs_obs s) n)).
Proof.
  intros Hn. split; try done; simpl.
  intros (Hgr & Hi & Hf). split_and!; try done. simpl. intros Hst. split; [by apply Hf |].
  intros Hsp. destruct (Hf Hst) as [_ H0]. specialize (H0 Hsp). congruence.
Qed.

Lemma gstep_inv s l s' : gstep s l s' -> g_inv s -> g_inv s'.
Proof.
  intros Hs Hinv. destruct Hs as
    [s listened s' Hr Hst|s listened s' err Hr Hst|s Hr Hsel|s Hr|s Hr|s Hr|s Hr|s Hr|s Hr Hst|s Hr
    |s Hr Hd|s Hr|s Hr Hst|s Hr Hst|s Hr Hd|s Hst Hg|s err Hsv Hsr|s Ha|s n Hn|s b Hp|s st Hp|s st Hp
    |s Hp|s Hp Hpo].
  (* the other goroutines *)
  16-24: revert Hinv; apply aside_inv;
    first [by apply graceful_aside | by eapply serve_aside | by apply rpc_starts_aside
          | by apply rpc_ends_aside | apply set_status_aside | by split].
  (* Run and Shutdown *)
  all: unfold g_inv in Hinv; rewrite Hr in Hinv.
  - unfold Start in Hst. destruct listened as [addr|]; [|done]. injection Hst as <-.
    destruct Hinv as [(_ & Hsv & Hd) Hc]. split; [|exact Hc]. split; simpl; [done |]. by rewrite Hd.
  - unfold Start in Hst. destruct listened as [addr|]; [done |]. injection Hst as <- <-. by left.
  - unfold g_inv, Shutdown_entry. simpl. destruct Hinv as [[[a Ha] Hb] Hc]. rewrite Ha.
    split; [|exact Hc]. by split; [exists a |].
  - destruct Hinv as [Hb Hc]. by split_and!.
  - destruct Hinv as (Hb & (H1 & H2 & H3 & H4) & Hp). unfold g_inv, calm; simpl. rewrite set_down.
    split_and!; try done. rewrite set_open by done. by rewrite bool_decide_eq_true_2.
  - destruct Hinv as (Hb & (H1 & H2 & H3 & H4) & Hp & Hst). unfold g_inv, calm; simpl. rewrite set_down.
    split_and!; try done; [by apply set_status_some |].
    rewrite set_open by done. by rewrite bool_decide_eq_true_2.
  - destruct Hinv as (Hb & (H1 & H2 & H3 & H4) & Hp & [x Hx] & [y Hy]).
    split_and!; try done. split_and!; simpl; [apply shutdown_down | by rewrite shutdown_status, ?Hx, ?Hy..].
  - destruct Hinv as (Hb & Hn & H1 & H2 & H3). split_and!; try done.
  - by split.
  - done.
  - destruct Hinv as [? ?]. by split_and!.
  - destruct Hinv as (Hb & Hn & (Hg & Hi & Hf) & Hs). split_and!; try done.
    split_and!; try done; simpl. intros Hst. split; [by apply Hf | done].
  - destruct Hinv as (Hb & Hn & (Hg & Hi & Hf) & Hs). split; [|done]. split_and!; try done.
    split_and!; try done; simpl. intros Hst'. split; [done |]. rewrite Hs. done.
  - by destruct Hinv.
  - destruct Hinv. right. by split_and!.
Qed.

(** ** Why [Run] failed

    Stated by what was done to the [grpc.Server]: no socket was bound, or [Stop]
    cut off what [GracefulStop] was waiting for. *)
Definition grpc_failed (s : GServer) : Prop :=
  gs_listener s = None \/ go_stop (gs_obs s) = true.

(** What [Run] returns, by its causes. *)
Definition grpc_cause (s : GServer) (err : option goerr) : Prop :=
  match gs_listener s with
  | None => go_stop (gs_obs s) = false
      /\ exists lerr, err = Some (Wrap [Txt "grpc: listen on "; Str (GRPC_Addr cfg); Txt ": "] lerr [])
  | Some _ => err = (if go_stop (gs_obs s) then Some (forced cfg) else None)
  end.

Definition g_causes (s : GServer) : Prop :=
  match gs_run s with RunReturned err => grpc_cause s err | _ => True end.

Lemma grpc_New_causes : g_causes grpc_New.
Proof. done. Qed.

Lemma gstep_causes s l s' : gstep s l s' -> g_inv s -> g_causes s -> g_causes s'.
Proof.
  intros Hs Hinv Hc. destruct Hs as
    [s listened s' Hr Hst|s listened s' err Hr Hst|s Hr Hsel|s Hr|s Hr|s Hr|s Hr|s Hr|s Hr Hst|s Hr
    |s Hr Hd|s Hr|s Hr Hst|s Hr Hst|s Hr Hd|s Hst Hg|s err Hsv Hsr|s Ha|s n Hn|s b Hp|s st Hp|s st Hp
    |s Hp|s Hp Hpo]; try done; unfold g_inv in Hinv; rewrite Hr in Hinv.
  - unfold Start in Hst. destruct listened as [addr|]; [done |]. injection Hst as <- <-.
    destruct Hinv as [(Hl & _) (_ & _ & Hs & _)]. unfold g_causes, grpc_cause; simpl. rewrite Hl.
    split; [done |]. by eexists.
  - destruct Hinv as [[[a Ha] _] _]. unfold g_causes, Shutdown_entry; simpl. by rewrite Ha.
  - destruct Hinv as (([[a Ha] _] & _ & _ & Hs) & _). unfold g_causes, grpc_cause; simpl.
    by rewrite Ha, Hs.
  - destruct Hinv as (([[a Ha] _] & _ & _ & Hs) & _). unfold g_causes, grpc_cause; simpl.
    by rewrite Ha, Hs.
Qed.

(** [Run] returns nil exactly when nothing failed. *)
Lemma grpc_cause_failed s err :
  grpc_cause s err -> match err with None => ~ grpc_failed s | Some _ => grpc_failed s end.
Proof.
  unfold grpc_cause, grpc_failed. destruct (gs_listener s) as [a|] eqn:Hl.
  - intros ->. destruct (go_stop (gs_obs s)); [by right |]. by intros [?|?].
  - intros [_ [lerr ->]]. by left.
Qed.

(** ** Termination

    What the goroutines [Run] waits for still have to do. *)
Definition run_rank (pc : run_pc) : nat :=
  match pc with
  | RunStart => 13
  | RunSelect => 12
  | ShStopPolling => 11
  | ShSetServer => 10
  | ShSetService => 9
  | ShHealthShutdown => 8
  | ShSpawn => 7
  | ShSelect => 6
  | ShStop => 5
  | ShStopReturns => 4
  | ShAwaitStopped => 3
  | ShAwaitDoneForced | ShAwaitDone => 1
  | RunReturned _ => 0
  end.

Definition stopper_rank (pc : stopper_pc) : nat :=
  match pc with StopperIdle => 2 | StopperWaits => 1 | StopperReturned => 0 end.

Definition g_rank (s : GServer) : nat :=
  run_rank (gs_run s) + stopper_rank (gs_stopper s) + if gs_done s then 0 else 1.

(** [Serve] returns once: before, [done] is open. *)
Lemma g_inv_serving s : g_inv s -> go_serving (gs_obs s) = true -> gs_done s = false.
Proof.
  unfold g_inv, drain, bound, unbound. intros Hinv Hs.
  destruct (gs_run s) as [| | | | | | | | | | | | |[e|]], (gs_done s); naive_solver.
Qed.

(** [GracefulStop] is called once. *)
Lemma g_inv_spawn s : g_inv s -> gs_run s = ShSpawn -> gs_stopper s = StopperIdle.
Proof. unfold g_inv. intros Hinv Hr. rewrite Hr in Hinv. naive_solver. Qed.

Lemma gstep_rank s l s' :
  gstep s l s' -> g_inv s ->
  match l with Program => g_rank s' < g_rank s | _ => g_rank s' = g_rank s end.
Proof.
  intros Hs Hinv. pose proof (g_inv_serving s Hinv) as Hsv. pose proof (g_inv_spawn s Hinv) as Hsp.
  destruct Hs as
    [s listened s' Hr Hst|s listened s' err Hr Hst|s Hr Hsel|s Hr|s Hr|s Hr|s Hr|s Hr|s Hr Hst|s Hr
    |s Hr Hd|s Hr|s Hr Hst|s Hr Hst|s Hr Hd|s Hst Hg|s err Hs Hsr| | | | | | |];
    unfold g_rank, Start, Shutdown_entry in *; simpl in *; try reflexivity;
    try (destruct listened; simplify_eq/=); try rewrite Hr.
  all: try (rewrite ?Hst; simpl; lia).
  - destruct (gs_listener s); simpl; lia.
  - rewrite Hsp by done. simpl. lia.
  - rewrite Hsv by done. lia.
Qed.

(** What [Run] returned stands. *)
Lemma gstep_returned s l s' err :
  gstep s l s' -> gs_run s = RunReturned err -> gs_run s' = RunReturned err.
Proof. intros Hs Hr. destruct Hs; simpl in *; congruence. Qed.

(** While [Run] has not returned and its context is done, one of the
    goroutines it waits for can take a step, or an RPC is in flight. *)
Lemma gstep_progress s :
  g_inv s -> cancelled = true -> (forall err, gs_run s <> RunReturned err) ->
  exists l s', gstep s l s' /\ l <> Ambient.
Proof.
  intros Hinv Hc Hr.
  assert (Hdone : bound s -> go_stopped (gs_obs s) = true ->
    gs_done s = true \/ exists s', gstep s Program s').
  { intros [_ Hb] Hst. destruct (gs_done s); [by left |]. right.
    destruct (Serve_live (gs_obs s)) as [e He]; [done | done |]. eexists. by eapply g_serve_returns. }
  assert (Hidle : go_inflight (gs_obs s) = 0 \/ exists s', gstep s Finish s').
  { destruct (go_inflight (gs_obs s)) as [|n] eqn:Hn; [by left |]. right. eexists.
    by eapply g_rpc_ends. }
  unfold g_inv in Hinv. destruct (gs_run s) as [| | | | | | | | | | | | |err] eqn:Er.
  - exists Program. eexists. split; [|done]. by eapply (g_start_err s (Err (External "in use"))).
  - exists Program. eexists. split; [|done]. apply g_select; auto.
  - exists Program. eexists. split; [|done]. by apply g_stop_polling.
  - exists Program. eexists. split; [|done]. by apply g_set_server.
  - exists Program. eexists. split; [|done]. by apply g_set_service.
  - exists Program. eexists. split; [|done]. by apply g_health_shutdown.
  - exists Program. eexists. split; [|done]. by apply g_spawn.
  - exists Program. eexists. split; [|done]. by apply g_select_timeout.
  - destruct Hinv as ((Hb & _ & (_ & _ & Hf) & _) & Hst). destruct Hdone as [Hd|[s' Hs]]; [done | by apply Hf | |].
    + exists Program. eexists. split; [|done]. by apply g_await_done.
    + by exists Program, s'.
  - exists Program. eexists. split; [|done]. by apply g_stop.
  - destruct Hinv as (_ & _ & _ & Hs). destruct Hidle as [Hi|[s' Hf]]; [|by exists Finish, s'].
    exists Program. eexists. split; [|done]. apply g_stop_returns; [done |]. by apply Stop_live.
  - destruct Hinv as ((_ & _ & (Hg & Hni & _) & Hs) & _).
    destruct Hidle as [Hi|[s' Hf]]; [|by exists Finish, s']. exists Program.
    destruct (gs_stopper s) eqn:Est; [done | |]; eexists; (split; [|done]).
    + apply g_graceful_returns; [done |]. by apply GracefulStop_live.
    + by apply g_await_stopped.
  - destruct Hinv as ((Hb & _ & (_ & _ & Hf) & _) & Hst). destruct Hdone as [Hd|[s' Hs]]; [done | by apply Hf | |].
    + exists Program. eexists. split; [|done]. by apply g_await_done_forced.
    + by exists Program, s'.
  - by destruct (Hr err).
Qed.
End steps.

(** ** Runs *)

Definition gsteps (cfg : GRPC) : GServer -> GServer -> Prop :=
  rtc (fun s s' => exists cancelled l, gstep cfg cancelled s l s').

Lemma gsteps_inv cfg s s' : gsteps cfg s s' -> g_inv s -> g_inv s'.
Proof. induction 1 as [s|s1 s2 s3 (c & l & Hs) _ IH]; [done |]. eauto using gstep_inv. Qed.

Lemma stopping_not_serving s :
  g_inv s -> go_graceful (gs_obs s) = true \/ go_stop (gs_obs s) = true ->
  go_graceful (gs_obs s) = true /\ not_serving s.
Proof.
  unfold g_inv, drain, calm, draining. intros Hinv Hs.
  destruct (gs_run s) as [| | | | | | | | | | | | |[e|]]; intuition congruence.
Qed.

Lemma gsteps_draining cfg s s' :
  gsteps cfg s s' -> go_graceful (gs_obs s) = true ->
  go_graceful (gs_obs s') = true /\ go_inflight (gs_obs s') <= go_inflight (gs_obs s).
Proof.
  induction 1 as [s|s1 s2 s3 (c & l & Hs) _ IH]; [done |]. intros Hg.
  assert (go_graceful (gs_obs s2) = true /\ go_inflight (gs_obs s2) <= go_inflight (gs_obs s1)) as [Hg2 Hle].
  { destruct Hs as [| | | | | | | | | | | | | | | | |s Ha| | | | | |];
      unfold Start in *; simpl in *; repeat case_match; simplify_eq/=; try (split; [done | lia]).
    destruct (accepts_rpc_ok _ Ha) as (_ & Hf & _). congruence. }
  destruct (IH Hg2). split; [done | lia].
Qed.

(** C27. A server that has begun to drain says so and takes no more work: from
    the moment [Shutdown] calls [GracefulStop] or [Stop], in every later state
    and whatever the readiness poller was about to publish, the health service
    reports NOT_SERVING for the server and for the payments service, no RPC is
    accepted and the number of RPCs in flight only falls. *)
Theorem draining_not_serving cfg s s' :
  gsteps cfg grpc_New s -> go_graceful (gs_obs s) = true \/ go_stop (gs_obs s) = true ->
  gsteps cfg s s' ->
  serving_status (gs_health s') "" = Some NOT_SERVING
  /\ serving_status (gs_health s') grpcServiceName = Some NOT_SERVING
  /\ ~ accepts_rpc (gs_obs s') /\ go_inflight (gs_obs s') <= go_inflight (gs_obs s).
Proof.
  intros Hs Hstop Hs'. apply gsteps_inv in Hs; [|apply grpc_New_inv].
  destruct (stopping_not_serving _ Hs Hstop) as [Hg _].
  destruct (gsteps_draining _ _ _ Hs' Hg) as [Hg' Hle]. apply gsteps_inv in Hs'; [|done].
  destruct (stopping_not_serving _ Hs' (or_introl Hg')) as [_ (_ & H1 & H2)].
  split_and!; try done. intros (_ & Hf & _)%accepts_rpc_ok. congruence.
Qed.
End grpc.

(** ** Libraries that satisfy the laws *)

Record MemHealth := mkMemHealth { mh_status : gmap string ServingStatus; mh_down : bool }.

#[global] Instance mem_health : HealthLib MemHealth.
Proof.
  refine {|
    health_NewServer := mkMemHealth (<[""%string := SERVING]> ∅) false;
    SetServingStatus h name st :=
      if mh_down h then h else mkMemHealth (<[name := st]> (mh_status h)) false;
    health_Shutdown h := mkMemHealth ((fun _ => NOT_SERVING) <$> mh_status h) true;
    serving_status h name := mh_status h !! name;
    health_down := mh_down |}.
  - done.
  - intros [m []] name st name'; simpl; [done |]. intros _. case_bool_decide as Hn.
    + subst. apply lookup_insert_eq.
    + by apply lookup_insert_ne.
  - by intros [m []] name st name'.
  - by intros [m []] name st.
  - done.
  - intros [m d] name. simpl. by rewrite lookup_fmap.
Defined.

#[global] Instance plain_grpc : GrpcLib.
Proof.
  refine {|
    accepts_rpc o := go_serving o = true /\ go_graceful o = false /\ go_stop o = false;
    Serve_returns o err := True;
    GracefulStop_returns o := go_inflight o = 0 \/ go_stop o = true;
    Stop_returns o := True |}; try done; eauto.
  by exists None.
Defined.

(** One step of a run, by the constructor that names it. *)
Ltac gstep_by c := eapply rtc_l; [eexists true, _; eapply c; simpl; auto; reflexivity | simpl].

Definition small_grpc : GRPC := mkGRPC "" 0 1 false.

(** The poller has found the database healthy and is about to publish SERVING
    when the signal arrives; it publishes after the drain has begun. *)
Lemma late_publication :
  exists s s' : GServer (H := MemHealth),
    gsteps small_grpc grpc_New s /\ gsteps small_grpc s s'
    /\ gs_poll s = PollSetServer SERVING /\ go_graceful (gs_obs s) = true
    /\ gs_poll s' = PollSelect.
Proof.
  do 2 eexists. split; [|split].
  - gstep_by (g_start_ok small_grpc true (grpc_New (H := MemHealth)) (Ok "[::]:9090"%string)).
    gstep_by (fun s => g_poll_check (H := MemHealth) small_grpc true s true).
    gstep_by @g_rpc_starts. gstep_by @g_select. gstep_by @g_stop_polling. gstep_by @g_set_server.
    gstep_by @g_set_service. gstep_by @g_health_shutdown. gstep_by @g_spawn. apply rtc_refl.
  - gstep_by @g_poll_server. gstep_by @g_poll_service. apply rtc_refl.
  - done.
Qed.

Lemma draining_not_serving_witness :
  exists s s' : GServer (H := MemHealth),
    gsteps small_grpc grpc_New s /\ gs_poll s = PollSetServer SERVING /\ gsteps small_grpc s s'
    /\ gs_poll s' = PollSelect /\ serving_status (gs_health s') "" = Some NOT_SERVING.
Proof.
  destruct late_publication as (s & s' & H1 & H2 & Hp & Hg & Hp'). exists s, s'.
  split_and!; try done. apply (draining_not_serving small_grpc s s' H1 (or_introl Hg) H2).
Defined.
