(* ===== verification/HttpLifecycle.v ===== *)
(** * [internal/httpapi/server.go]: the lifecycle of the HTTP server

    [Start], [Shutdown] and [Run] as a labelled step relation over the caller of
    [Run] and the goroutine of [Serve]. [http.Server] is described by what its
    documentation says of [Serve], [Shutdown] and [Close]. *)
From stdpp Require Import base gmap fin_maps strings list relations.
From Stdlib Require Import ZArith Lia Ascii.
From S2P Require Import Prelude.
From S2P Require Import GoStd.
From S2P Require Import GoTime.
From S2P Require Import Uuid.
From S2P Require Import Errors.
From S2P Require Import Config.
From S2P Require Import Health.
From S2P Require Import GrpcLifecycle.

Open Scope nat_scope.

(** What was done to a [http.Server], and the requests in flight. *)
Record HttpObs := mkHttpObs {
  ho_serving : bool;        (* Serve was called and has not returned *)
  ho_inflight : nat;        (* requests being handled *)
  ho_shutdown : bool;       (* Shutdown was called *)
  ho_drained : bool;        (* Shutdown returned nil *)
  ho_closed : bool;         (* Close was called *)
  ho_result : option goerr  (* what Serve returned, once it has *)
}.

(** [Shutdown] closes the listeners, waits for the active connections until its
    context ends, and makes [Serve] return [ErrServerClosed]; after it has
    returned nil, or after [Close], no request begins. *)
Class HttpLib := {
  accepts_request : HttpObs -> Prop;
  http_Serve_returns : HttpObs -> goerr -> Prop;
  http_Shutdown_returns : HttpObs -> option goerr -> Prop;
  http_Close_returns : HttpObs -> option goerr -> Prop;
  accepts_request_ok : forall o, accepts_request o -> ho_drained o = false /\ ho_closed o = false;
  http_Shutdown_ok : forall o, http_Shutdown_returns o None -> ho_inflight o = 0;
  http_Shutdown_live : forall o, ho_shutdown o = true -> exists e, http_Shutdown_returns o e;
  http_Close_live : forall o, ho_closed o = true -> exists e, http_Close_returns o e;
  http_Serve_live : forall o, ho_serving o = true -> ho_shutdown o = true ->
    http_Serve_returns o http_ErrServerClosed
}.

(** The caller of [Run]; [err] is [shutdownErr]. *)
Inductive hrun_pc :=
  | HRunStart
  | HRunSelect
  | HShShutdown
  | HShShutdownReturns
  | HShClose (err : goerr)
  | HShCloseReturns (err : goerr)
  | HShAwaitDone (err : option goerr)
  | HRunReturned (err : option goerr).

Section http.
Context {HL : HttpLib}.

Record HServer := mkHServer {
  hs_obs : HttpObs;
  hs_listener : option string;
  hs_done : bool;
  hs_serveErr : option goerr;
  hs_run : hrun_pc
}.

Definition http_New : HServer :=
  mkHServer (mkHttpObs false 0 false false false None) None false None HRunStart.

Definition hset_run (s : HServer) (pc : hrun_pc) : HServer :=
  mkHServer (hs_obs s) (hs_listener s) (hs_done s) (hs_serveErr s) pc.
Definition hset_obs (s : HServer) (o : HttpObs) : HServer :=
  mkHServer o (hs_listener s) (hs_done s) (hs_serveErr s) (hs_run s).

Definition http_serving (o : HttpObs) : HttpObs :=
  mkHttpObs true (ho_inflight o) (ho_shutdown o) (ho_drained o) (ho_closed o) (ho_result o).
Definition http_served (o : HttpObs) (err : goerr) : HttpObs :=
  mkHttpObs false (ho_inflight o) (ho_shutdown o) (ho_drained o) (ho_closed o) (Some err).
Definition http_inflight (o : HttpObs) (n : nat) : HttpObs :=
  mkHttpObs (ho_serving o) n (ho_shutdown o) (ho_drained o) (ho_closed o) (ho_result o).
Definition http_shutdown (o : HttpObs) : HttpObs :=
  mkHttpObs (ho_serving o) (ho_inflight o) true (ho_drained o) (ho_closed o) (ho_result o).
Definition http_drained (o : HttpObs) : HttpObs :=
  mkHttpObs (ho_serving o) (ho_inflight o) (ho_shutdown o) true (ho_closed o) (ho_result o).
Definition http_closed (o : HttpObs) : HttpObs :=
  mkHttpObs (ho_serving o) (ho_inflight o) (ho_shutdown o) (ho_drained o) true (ho_result o).

Definition http_Start (cfg : HTTP) (listened : result string) (s : HServer) : HServer * option goerr :=
  match listened with
  | Err err => (s, Some (Wrap [Txt "listen on "; Str (HTTP_Addr cfg); Txt ": "] err []))
  | Ok addr =>
      (mkHServer (http_serving (hs_obs s)) (Some addr) (hs_done s) (hs_serveErr s) (hs_run s), None)
  end.

Definition http_Addr (s : HServer) : string := default ""%string (hs_listener s).

(** The goroutine of [Serve]: what it leaves in [serveErr]. *)
Definition serve_error (err : goerr) : option goerr :=
  if errors_Is err http_ErrServerClosed then None else Some (prefixed "http server: " err).

Definition serve_done (s : HServer) (err : goerr) : HServer :=
  mkHServer (http_served (hs_obs s) err) (hs_listener s) true (serve_error err) (hs_run s).

Definition http_Shutdown_entry (s : HServer) : hrun_pc :=
  match hs_listener s with None => HRunReturned None | Some _ => HShShutdown end.

(** [errors.Join] of two errors that may be nil. *)
Definition errors_Join2 (e1 e2 : option goerr) : option goerr :=
  match e1, e2 with
  | Some e1, Some e2 => Some (Join e1 e2)
  | Some e, None | None, Some e => Some e
  | None, None => None
  end.

Section steps.
Variables (cfg : HTTP) (cancelled : bool).

Inductive hstep : HServer -> label -> HServer -> Prop :=
  | h_start_ok s listened s' :
      hs_run s = HRunStart -> http_Start cfg listened s = (s', None) ->
      hstep s Program (hset_run s' HRunSelect)
  | h_start_err s listened s' err :
      hs_run s = HRunStart -> http_Start cfg listened s = (s', Some err) ->
      hstep s Program (hset_run s' (HRunReturned (Some err)))
  | h_select s :
      hs_run s = HRunSelect -> hs_done s = true \/ cancelled = true ->
      hstep s Program (hset_run s (http_Shutdown_entry s))
  (* Shutdown *)
  | h_shutdown s :
      hs_run s = HShShutdown ->
      hstep s Program (hset_run (hset_obs s (http_shutdown (hs_obs s))) HShShutdownReturns)
  | h_shutdown_ok s :
      hs_run s = HShShutdownReturns -> http_Shutdown_returns (hs_obs s) None ->
      hstep s Program (hset_run (hset_obs s (http_drained (hs_obs s))) (HShAwaitDone None))
  | h_shutdown_err s err :
      hs_run s = HShShutdownReturns -> http_Shutdown_returns (hs_obs s) (Some err) ->
      hstep s Program (hset_run s (HShClose (prefixed "graceful shutdown: " err)))
  | h_close s err :
      hs_run s = HShClose err ->
      hstep s Program (hset_run (hset_obs s (http_closed (hs_obs s))) (HShCloseReturns err))
  | h_close_returns s err closeErr :
      hs_run s = HShCloseReturns err -> http_Close_returns (hs_obs s) closeErr ->
      hstep s Program
        (hset_run s (HShAwaitDone (errors_Join2 (Some err) (prefixed "force close: " <$> closeErr))))
  | h_await_done s err :
      hs_run s = HShAwaitDone err -> hs_done s = true ->
      hstep s Program (hset_run s (HRunReturned (errors_Join2 err (hs_serveErr s))))
  (* the goroutine of Serve *)
  | h_serve_returns s err :
      ho_serving (hs_obs s) = true -> http_Serve_returns (hs_obs s) err ->
      hstep s Program (serve_done s err)
  (* requests *)
  | h_request_starts s :
      is_Some (hs_listener s) -> accepts_request (hs_obs s) ->
      hstep s Ambient (hset_obs s (http_inflight (hs_obs s) (S (ho_inflight (hs_obs s)))))
  | h_request_ends s n :
      ho_inflight (hs_obs s) = S n ->
      hstep s Finish (hset_obs s (http_inflight (hs_obs s) n)).

(** ** The invariant *)

Definition h_bound (s : HServer) : Prop :=
  is_Some (hs_listener s) /\ ho_serving (hs_obs s) = negb (hs_done s).

Definition h_unbound (s : HServer) : Prop :=
  hs_listener s = None /\ ho_serving (hs_obs s) = false /\ hs_done s = false
  /\ ho_inflight (hs_obs s) = 0.

(** [Shutdown] returned nil: nothing is in flight. *)
Definition h_quiet (s : HServer) : Prop :=
  ho_drained (hs_obs s) = true /\ ho_inflight (hs_obs s) = 0.

Definition h_inv (s : HServer) : Prop :=
  match hs_run s with
  | HRunStart => h_unbound s
  | HRunSelect | HShShutdown => h_bound s
  | HShShutdownReturns | HShClose _ => h_bound s /\ ho_shutdown (hs_obs s) = true
  | HShCloseReturns _ =>
      h_bound s /\ ho_shutdown (hs_obs s) = true /\ ho_closed (hs_obs s) = true
  | HShAwaitDone None => h_bound s /\ ho_shutdown (hs_obs s) = true /\ h_quiet s
  | HShAwaitDone (Some _) => h_bound s /\ ho_shutdown (hs_obs s) = true /\ ho_closed (hs_obs s) = true
  | HRunReturned None => h_bound s /\ hs_done s = true /\ h_quiet s
  | HRunReturned (Some _) =>
      h_unbound s
      \/ h_bound s /\ hs_done s = true /\ (h_quiet s \/ ho_closed (hs_obs s) = true)
  end.

Lemma http_New_inv : h_inv http_New.
Proof. done. Qed.

Lemma hstep_inv s l s' : hstep s l s' -> h_inv s -> h_inv s'.
Proof.
  intros Hs Hinv. destruct Hs as
    [s listened s' Hr Hst|s listened s' err Hr Hst|s Hr Hsel|s Hr|s Hr Hsh|s err Hr Hsh|s err Hr
    |s err cerr Hr Hcl|s err Hr Hd|s err Hsv Hsr|s Hl Ha|s n Hn].
  1-9: unfold h_inv in Hinv; rewrite Hr in Hinv.
  - unfold http_Start in Hst. destruct listened as [addr|]; [|done]. injection Hst as <-.
    destruct Hinv as (_ & Hsv & Hd & _). split; simpl; [done |]. by rewrite Hd.
  - unfold http_Start in Hst. destruct listened as [addr|]; [done |]. injection Hst as <- <-. by left.
  - unfold h_inv, http_Shutdown_entry. simpl. destruct Hinv as [[a Ha] Hb]. rewrite Ha.
    split; [by exists a | done].
  - by split.
  - destruct Hinv as [Hb Hs]. split_and!; try done. split; [done |]. exact (http_Shutdown_ok _ Hsh).
  - done.
  - destruct Hinv as [Hb Hs]. by split_and!.
  - destruct Hinv as (Hb & Hs & Hc). unfold h_inv. simpl. destruct cerr; by split_and!.
  - unfold h_inv. simpl. destruct err as [err|], (hs_serveErr s); simpl; destruct Hinv as (Hb & Hs & Hx);
      try right; split_and!; first [done | by left | by right | apply Hx].
  - unfold h_inv, serve_done in *; simpl. unfold h_bound, h_unbound, h_quiet in *; simpl in *.
    destruct (hs_run s) as [| | | | | |[e|]|[e|]]; simpl in *; intuition congruence.
  - unfold h_inv, hset_obs in *; simpl. unfold h_bound, h_unbound, h_quiet in *; simpl in *.
    apply accepts_request_ok in Ha as [Hd Hc]. destruct Hl as [a Hl].
    destruct (hs_run s) as [| | | | | |[e|]|[e|]]; simpl in *; intuition congruence.
  - unfold h_inv, hset_obs in *; simpl. unfold h_bound, h_unbound, h_quiet in *; simpl in *.
    destruct (hs_run s) as [| | | | | |[e|]|[e|]]; simpl in *; intuition congruence.
Qed.

(** ** Why [Run] failed

    Stated by what was done to the [http.Server], not by the program's own
    variables. *)

(** Bound, never cut off by [Close], and [Serve] ended with [ErrServerClosed]. *)
Definition http_failed (s : HServer) : Prop :=
  hs_listener s = None \/ ho_closed (hs_obs s) = true
  \/ exists err, ho_result (hs_obs s) = Some err /\ errors_Is err http_ErrServerClosed = false.

(** The part of the error that is about the shutdown. *)
Definition shutdown_error (s : HServer) (shut : option goerr) : Prop :=
  match shut with
  | None => ho_closed (hs_obs s) = false
  | Some e => ho_closed (hs_obs s) = true
      /\ exists err, e = prefixed "graceful shutdown: " err
           \/ exists cerr, e = Join (prefixed "graceful shutdown: " err) (prefixed "force close: " cerr)
  end.

(** What [Run] returns, by its causes: the listener; or the cut-off shutdown
    and the end of [Serve]. *)
Definition http_cause (s : HServer) (err : option goerr) : Prop :=
  match hs_listener s with
  | None => ho_closed (hs_obs s) = false
      /\ exists lerr, err = Some (Wrap [Txt "listen on "; Str (HTTP_Addr cfg); Txt ": "] lerr [])
  | Some _ => exists shut r, shutdown_error s shut /\ ho_result (hs_obs s) = Some r
      /\ err = errors_Join2 shut
                 (if errors_Is r http_ErrServerClosed then None
                  else Some (prefixed "http server: " r))
  end.

Record h_causes (s : HServer) : Prop := {
  hc_served : hs_done s = true -> is_Some (ho_result (hs_obs s));
  hc_serveErr : hs_serveErr s = ho_result (hs_obs s) ≫= serve_error;
  hc_run : match hs_run s with
           | HRunStart | HRunSelect | HShShutdown | HShShutdownReturns =>
               ho_closed (hs_obs s) = false
           | HShClose err =>
               ho_closed (hs_obs s) = false /\ exists e, err = prefixed "graceful shutdown: " e
           | HShCloseReturns err => exists e, err = prefixed "graceful shutdown: " e
           | HShAwaitDone shut => shutdown_error s shut
           | HRunReturned err => http_cause s err
           end
}.

Lemma http_New_causes : h_causes http_New.
Proof. by split. Qed.

Lemma serve_returns_causes s err :
  h_inv s -> h_causes s -> ho_serving (hs_obs s) = true -> h_causes (serve_done s err).
Proof.
  intros Hinv [_ _ Hr] Hsv. split; [done | done |]. unfold h_inv in Hinv. simpl.
  destruct (hs_run s) as [| | | | | | |[e|]]; try done;
    unfold h_bound, h_unbound in Hinv; destruct (hs_done s) eqn:Hd; simpl in *; intuition congruence.
Qed.

Lemma await_done_causes s err :
  h_inv s -> h_causes s -> hs_run s = HShAwaitDone err -> hs_done s = true ->
  http_cause s (errors_Join2 err (hs_serveErr s)).
Proof.
  intros Hinv [Hs He Hr] Hp Hd. unfold h_inv, h_bound in Hinv. rewrite Hp in *.
  assert (is_Some (hs_listener s)) as [a Ha] by (destruct err; naive_solver).
  destruct (Hs Hd) as [r Hres]. unfold http_cause. rewrite Ha. exists err, r. split_and!; try done.
  by rewrite He, Hres.
Qed.

Lemma hstep_causes s l s' : hstep s l s' -> h_inv s -> h_causes s -> h_causes s'.
Proof.
  intros Hs Hinv Hc. destruct Hs as
    [s listened s' Hr Hst|s listened s' err Hr Hst|s Hr Hsel|s Hr|s Hr Hsh|s err Hr Hsh|s err Hr
    |s err cerr Hr Hcl|s err Hr Hd|s err Hsv Hsr|s Hl Ha|s n Hn].
  10: by apply serve_returns_causes.
  9: { split; [apply Hc | apply Hc |]. exact (await_done_causes s err Hinv Hc Hr Hd). }
  all: destruct Hc as [Hs He Hp]; try rewrite Hr in Hp.
  - unfold http_Start in Hst. destruct listened as [addr|]; [|done]. injection Hst as <-. by split.
  - unfold http_Start in Hst. destruct listened as [addr|]; [done |]. injection Hst as <- <-.
    split; [done | done |]. unfold h_inv in Hinv. rewrite Hr in Hinv. destruct Hinv as (Hl & _).
    unfold http_cause; simpl. rewrite Hl. split; [done |]. by eexists.
  - split; [done | done |]. unfold h_inv in Hinv. rewrite Hr in Hinv. destruct Hinv as [[a Ha] _].
    simpl. unfold http_Shutdown_entry. by rewrite Ha.
  - by split.
  - by split.
  - split; [done | done |]. split; [done |]. by exists err.
  - split; [done | done |]. apply Hp.
  - split; [done | done |]. unfold h_inv in Hinv. rewrite Hr in Hinv. destruct Hp as [e ->].
    destruct cerr as [cerr|]; (split; [apply Hinv |]); exists e; [right; by exists cerr | by left].
  - by split.
  - by split.
Qed.

(** [Run] returns nil exactly when nothing failed. *)
Lemma http_cause_failed s err :
  http_cause s err -> match err with None => ~ http_failed s | Some _ => http_failed s end.
Proof.
  unfold http_cause, http_failed. destruct (hs_listener s) as [a|] eqn:Hl.
  - intros (shut & r & Hsh & Hres & ->). destruct shut as [e|]; simpl in Hsh.
    + destruct (errors_Is r http_ErrServerClosed); right; left; apply Hsh.
    + destruct (errors_Is r http_ErrServerClosed) eqn:Hc; [|right; right; by exists r].
      intros [?|[?|(r' & Hr & Hf)]]; congruence.
  - intros [_ [lerr ->]]. by left.
Qed.

(** ** Termination *)

Definition hrun_rank (pc : hrun_pc) : nat :=
  match pc with
  | HRunStart => 7
  | HRunSelect => 6
  | HShShutdown => 5
  | HShShutdownReturns => 4
  | HShClose _ => 3
  | HShCloseReturns _ => 2
  | HShAwaitDone _ => 1
  | HRunReturned _ => 0
  end.

Definition h_rank (s : HServer) : nat := hrun_rank (hs_run s) + if hs_done s then 0 else 1.

Lemma h_inv_serving s : h_inv s -> ho_serving (hs_obs s) = true -> hs_done s = false.
Proof.
  unfold h_inv, h_bound, h_unbound. intros Hinv Hs.
  destruct (hs_run s) as [| | | | | |[e|]|[e|]], (hs_done s); simpl in *; intuition congruence.
Qed.

Lemma hstep_rank s l s' :
  hstep s l s' -> h_inv s ->
  match l with Program => h_rank s' < h_rank s | _ => h_rank s' = h_rank s end.
Proof.
  intros Hs Hinv. pose proof (h_inv_serving s Hinv) as Hsv.
  destruct Hs as
    [s listened s' Hr Hst|s listened s' err Hr Hst|s Hr Hsel|s Hr|s Hr Hsh|s err Hr Hsh|s err Hr
    |s err cerr Hr Hcl|s err Hr Hd|s err Hs Hsr| |];
    unfold h_rank, http_Start, http_Shutdown_entry in *; simpl in *; try reflexivity;
    try (destruct listened; simplify_eq/=); try rewrite Hr; simpl; try lia.
  - destruct (hs_listener s); simpl; lia.
  - rewrite Hsv by done. lia.
Qed.

Lemma hstep_returned s l s' err :
  hstep s l s' -> hs_run s = HRunReturned err -> hs_run s' = HRunReturned err.
Proof. intros Hs Hr. destruct Hs; simpl in *; congruence. Qed.

Lemma hstep_progress s :
  h_inv s -> cancelled = true -> (forall err, hs_run s <> HRunReturned err) ->
  exists s', hstep s Program s'.
Proof.
  intros Hinv Hc Hr. unfold h_inv in Hinv.
  destruct (hs_run s) as [| | | |err|err|err|err] eqn:Er.
  - eexists. by eapply (h_start_err s (Err (External "in use"))).
  - eexists. apply h_select; auto.
  - eexists. by apply h_shutdown.
  - destruct Hinv as [_ Hs]. destruct (http_Shutdown_live (hs_obs s) Hs) as [[e|] He]; eexists;
      [by eapply h_shutdown_err | by eapply h_shutdown_ok].
  - eexists. by eapply h_close.
  - destruct Hinv as (_ & _ & Hcl). destruct (http_Close_live (hs_obs s) Hcl) as [e He].
    eexists. by eapply h_close_returns.
  - assert (h_bound s /\ ho_shutdown (hs_obs s) = true) as [[_ Hb] Hs] by (destruct err; naive_solver).
    destruct (hs_done s) eqn:Hd; eexists; [by eapply h_await_done |].
    eapply h_serve_returns; [done |]. by apply http_Serve_live.
  - by destruct (Hr err).
Qed.
End steps.
End http.

(** A server that satisfies the laws. *)
#[global] Instance plain_http : HttpLib.
Proof.
  refine {|
    accepts_request o := ho_drained o = false /\ ho_closed o = false;
    http_Serve_returns o err := True;
    http_Shutdown_returns o err := err = None -> ho_inflight o = 0;
    http_Close_returns o err := True |}; try done; eauto.
  - intros o _. by exists (Some (Sentinel context_DeadlineExceeded)).
  - intros o _. by exists None.
Defined.
