(* ===== verification/Interceptors.v ===== *)
(** * [internal/grpcapi]: interceptors and the server's chain

    [interceptors.go], the interceptor chain [server.go] builds in [New], and
    the dispatch of the five RPCs to their handlers. *)
From stdpp Require Import base gmap fin_maps strings list.
From Stdlib Require Import ZArith Lia Ascii.
From S2P Require Import Prelude.
From S2P Require Import GoStd.
From S2P Require Import GoStrings.
From S2P Require Import GoTime.
From S2P Require Import Uuid.
From S2P Require Import Errors.
From S2P Require Import GrpcErrors.
From S2P Require Import Config.
From S2P Require Import Money.
From S2P Require Import Schema.
From S2P Require Import Tx.
From S2P Require Import Transfer.
From S2P Require Import Idempotency.
From S2P Require Import Prog.
From S2P Require Import Auth.
From S2P Require Import Store.
From S2P Require Import Instances.
From S2P Require Import Idempotent.
From S2P Require Import Grpc.
From S2P Require Import Scenario.

Open Scope Z_scope.

(** ** The scope table *)

Definition serviceName : string := "payments.v1.PaymentsService".

Definition methodPath (rpc : string) : string := "/" +:+ serviceName +:+ "/" +:+ rpc.

Definition requiredScopes : list (string * string) :=
  [(methodPath "CreateAccount", ScopeAccountsWrite);
   (methodPath "GetAccount", ScopeAccountsRead);
   (methodPath "CreateTransfer", ScopeTransfersWrite);
   (methodPath "GetTransfer", ScopeTransfersRead);
   (methodPath "ListLedgerEntriesForTransfer", ScopeLedgerRead)].

(** Lookup in a map given by its distinct keys. *)
Fixpoint lookup_key {A} (k : string) (l : list (string * A)) : option A :=
  match l with
  | [] => None
  | (k', a) :: l' => if bool_decide (k = k') then Some a else lookup_key k l'
  end.

Definition RequiredScope (fullMethod : string) : option string := lookup_key fullMethod requiredScopes.

Definition unauthenticatedPrefixes : list string :=
  ["/grpc.health.v1.Health/"; "/grpc.reflection.v1.ServerReflection/";
   "/grpc.reflection.v1alpha.ServerReflection/"]%string.

Definition isUnauthenticated (fullMethod : string) : bool :=
  existsb (HasPrefix fullMethod) unauthenticatedPrefixes.

(** ** Interceptors *)

Definition UnaryHandler (A : Type) : Type := Context_ -> prog (result A).

Definition bad_credentials : goerr := status Unauthenticated "invalid or missing credentials".
Definition missing_scope : goerr :=
  status PermissionDenied "the token does not carry the required scope".

(** The header [authenticate] reads: the first value of [authorization], or "". *)
Definition authorization_header (md : list (string * list string)) : string :=
  match lookup_key "authorization" md with
  | Some (v :: _) => v
  | _ => ""
  end.

Section interceptors.
Context {K : Type} {JL : JwtLib K}.

Definition authenticate {A} (verifier : option (Verifier K)) (fullMethod : string)
    (handler : UnaryHandler A) : UnaryHandler A := fun ctx =>
  if isUnauthenticated fullMethod then handler ctx
  else match verifier with
  | None => Ret (Err (status Unauthenticated "authentication is not configured"))
  | Some verifier =>
      match ctx_metadata ctx with
      | None => Ret (Err bad_credentials)
      | Some md =>
          match TokenFromAuthorization (authorization_header md) with
          | Err _ => Ret (Err bad_credentials)
          | Ok raw =>
              (r <- Verify verifier raw ;;
               match r with
               | Err _ => Ret (Err bad_credentials)
               | Ok principal => handler (WithPrincipal ctx principal)
               end)%prog
          end
      end
  end.

Definition authorize {A} (fullMethod : string) (handler : UnaryHandler A) : UnaryHandler A :=
  fun ctx =>
  if isUnauthenticated fullMethod then handler ctx
  else match PrincipalFrom ctx with
  | None => Ret (Err bad_credentials)
  | Some principal =>
      match RequiredScope fullMethod with
      | None => Ret (Err missing_scope)
      | Some required =>
          if negb (HasScope principal required) then Ret (Err missing_scope) else handler ctx
      end
  end.

(** [status.Code] of an error that is not nil. *)
Definition status_Code (e : goerr) : code :=
  match errors_As_Status e with Some (c, _) => c | None => Unknown end.

Inductive Level := LevelDebug | LevelInfo.

(** The line [logRequests] writes. *)
Record LogLine := mkLogLine {
  log_level : Level; log_method : string; log_code : code; log_duration : Z;
  log_subject : option string
}.

Definition logRequests {A} (fullMethod : string) (handler : UnaryHandler A)
    (ctx : Context_) : prog (result A * LogLine) :=
  (start <- call OpNow ;;
   r <- handler ctx ;;
   let code := match r with Ok _ => OK | Err err => status_Code err end in
   end_ <- call OpNow ;;
   let subject := match PrincipalFrom ctx with
                  | Some principal => Some (p_Subject principal)
                  | None => None
                  end in
   let level := if negb (bool_decide (code = OK)) then LevelInfo else LevelDebug in
   Ret (r, mkLogLine level fullMethod code (end_ - start) subject))%prog.

(** The chain of [New]: the first interceptor is the outermost. *)
Definition chain {A} (verifier : option (Verifier K)) (fullMethod : string)
    (handler : UnaryHandler A) : Context_ -> prog (result A * LogLine) :=
  logRequests fullMethod (authenticate verifier fullMethod (authorize fullMethod handler)).
End interceptors.

(** ** The service *)

Inductive Rpc :=
  | RpcCreateAccount (currency : string)
  | RpcGetAccount (id : string)
  | RpcCreateTransfer (req : CreateTransferRequest)
  | RpcGetTransfer (id : string)
  | RpcListLedgerEntriesForTransfer (transferId : string).

Inductive Reply :=
  | RplAccount (m : AccountMsg)
  | RplCreated (m : CreateTransferResponse)
  | RplTransfer (m : TransferMsg)
  | RplEntries (m : list LedgerEntryMsg).

Definition FullMethod (r : Rpc) : string :=
  match r with
  | RpcCreateAccount _ => "/payments.v1.PaymentsService/CreateAccount"
  | RpcGetAccount _ => "/payments.v1.PaymentsService/GetAccount"
  | RpcCreateTransfer _ => "/payments.v1.PaymentsService/CreateTransfer"
  | RpcGetTransfer _ => "/payments.v1.PaymentsService/GetTransfer"
  | RpcListLedgerEntriesForTransfer _ => "/payments.v1.PaymentsService/ListLedgerEntriesForTransfer"
  end.

Definition as_reply {A} (f : A -> Reply) (r : result A) : result Reply :=
  match r with Ok a => Ok (f a) | Err e => Err e end.

Definition replying {A} (f : A -> Reply) (p : prog (result A)) : prog (result Reply) :=
  bind p (fun r => Ret (as_reply f r)).

Section service.
Context {UL : UuidLib} {RCo : RecordCodec} {K : Type} {JL : JwtLib K}.

(** The handler of an RPC; none of them reads the context. *)
Definition dispatch (s : Service) (r : Rpc) : prog (result Reply) :=
  match r with
  | RpcCreateAccount currency => replying RplAccount (CreateAccount currency)
  | RpcGetAccount id => replying RplAccount (GetAccount id)
  | RpcCreateTransfer req => replying RplCreated (CreateTransfer s req)
  | RpcGetTransfer id => replying RplTransfer (GetTransfer id)
  | RpcListLedgerEntriesForTransfer id => replying RplEntries (ListLedgerEntriesForTransfer id)
  end.

(** One RPC as the server runs it, from a context fresh off the wire. *)
Definition serve_rpc (s : Service) (verifier : option (Verifier K))
    (md : option (list (string * list string))) (r : Rpc) : prog (result Reply * LogLine) :=
  chain verifier (FullMethod r) (fun _ => dispatch s r) (mkContext md None).

(** The permission each RPC needs. *)
Definition scope_of (r : Rpc) : string :=
  match r with
  | RpcCreateAccount _ => ScopeAccountsWrite
  | RpcGetAccount _ => ScopeAccountsRead
  | RpcCreateTransfer _ => ScopeTransfersWrite
  | RpcGetTransfer _ => ScopeTransfersRead
  | RpcListLedgerEntriesForTransfer _ => ScopeLedgerRead
  end.

(** The metadata carry a token that is good at [now] and that holds the
    permission the RPC needs. *)
Definition authorized (now : Z) (verifier : option (Verifier K))
    (md : option (list (string * list string))) (r : Rpc) : Prop :=
  exists v md' raw p,
    verifier = Some v /\ md = Some md'
    /\ TokenFromAuthorization (authorization_header md') = Ok raw
    /\ token_ok v raw now p /\ scope_of r ∈ p_Scopes p.

Lemma payments_rpcs_need_a_scope r :
  isUnauthenticated (FullMethod r) = false /\ RequiredScope (FullMethod r) = Some (scope_of r).
Proof. by destruct r. Qed.

Definition refusal (e : goerr) : Prop :=
  status_Code e = Unauthenticated \/ status_Code e = PermissionDenied.

(** An RPC is authorized at the time [authenticate] reads, and its handler runs
    next, or it is refused by the interceptors, reading nothing but the clock. *)
Lemma guard_cases {R} {RC : UniversalClient R} {A} verifier md r (handler : prog (result A)) es
    (w : World R) :
  (forall v, verifier = Some v -> verifier_ok v) ->
  let p := authenticate verifier (FullMethod r) (authorize (FullMethod r) (fun _ => handler))
             (mkContext md None) in
  let now := env_time (es O) in
  (authorized now verifier md r /\ run p es w = run handler (fun n => es (S n)) w)
  \/ (~ authorized now verifier md r /\ exists e, run p es w = (w, Some (Err e)) /\ refusal e).
Proof.
  intros Hok. destruct (payments_rpcs_need_a_scope r) as [Hu Hs]. cbn zeta.
  assert (Hno : forall (p : prog (result A)) e, p = Ret (Err e) -> refusal e ->
    ~ authorized (env_time (es O)) verifier md r ->
    (authorized (env_time (es O)) verifier md r /\ run p es w = run handler (fun n => es (S n)) w)
    \/ (~ authorized (env_time (es O)) verifier md r /\ exists e, run p es w = (w, Some (Err e)) /\ refusal e)).
  { intros p e -> He Hn. right. split; [done |]. by exists e. }
  unfold authenticate. rewrite Hu. destruct verifier as [v|].
  2: { eapply Hno; [done | by left |]. by intros (? & ? & ? & ? & ? & _). }
  destruct md as [md'|]; cbn [ctx_metadata].
  2: { eapply Hno; [done | by left |]. by intros (? & ? & ? & ? & _ & ? & _). }
  destruct (TokenFromAuthorization (authorization_header md')) as [raw|e] eqn:Ht.
  2: { eapply Hno; [done | by left |]. intros (? & ? & ? & ? & _ & [= <-] & H & _). congruence. }
  destruct (Verify_at v raw es w (Hok v eq_refl)) as (r' & Hrun & Hacc).
  unfold Verify in *. rewrite (TokenFromAuthorization_token _ _ Ht) in *. cbn [bind call run handle] in *.
  injection Hrun as Hr. rewrite Hr. clear Hr. destruct r' as [p|e].
  - assert (Htok : token_ok v raw (env_time (es O)) p) by (by apply Hacc).
    unfold authorize. rewrite Hu, Hs. cbn [PrincipalFrom WithPrincipal ctx_principal]. unfold HasScope.
    case_bool_decide as Hsc; cbn [negb].
    + left. split; [|done]. by exists v, md', raw, p.
    + right. split; [|eexists; split; [done | by right]].
      intros (v0 & md0 & raw0 & p0 & [= <-] & [= <-] & H & Htok0 & Hin).
      assert (raw0 = raw) as -> by congruence. apply Hacc in Htok0. by injection Htok0 as ->.
  - right. split; [|eexists; split; [done | by left]].
    intros (v0 & md0 & raw0 & p0 & [= <-] & [= <-] & H & Htok & _).
    assert (raw0 = raw) as -> by congruence. by apply Hacc in Htok.
Qed.

(** C7. Without credentials that authorize it, an RPC touches nothing: it
    returns, with UNAUTHENTICATED or PERMISSION_DENIED, the database and Redis
    are as they were, whatever the request asks for. Credentials authorize an
    RPC only by a token that is good, by the clock that is read when the RPC is
    authenticated, for the configured verifier and that holds the permission of
    that very RPC; an expired token does not. With such credentials the handler
    runs and its answer is the answer of the RPC. *)
Theorem unauthorized_touches_nothing {R} {RC : UniversalClient R} ReadFile cfg verifier s md r es
    (w : World R) :
  VerifierFromConfig ReadFile cfg = Ok verifier ->
  let now := env_time (es 1%nat) in
  (~ authorized now verifier md r ->
     exists e line, run (serve_rpc s verifier md r) es w = (w, Some (Err e, line)) /\ refusal e)
  /\ (authorized now verifier md r ->
     forall w' a, run (dispatch s r) (fun n => es (S (S n))) w = (w', Some a) ->
       exists line, run (serve_rpc s verifier md r) es w = (w', Some (a, line))).
Proof.
  intros Hcfg now. unfold serve_rpc, chain, logRequests. cbn [bind call run handle]. rewrite run_bind.
  assert (Hok : forall v, verifier = Some v -> verifier_ok v).
  { intros v ->. by apply VerifierFromConfig_ok in Hcfg as [? _]. }
  destruct (guard_cases verifier md r (dispatch s r) (fun n => es (S n)) w Hok)
    as [[Hau ->]|(Hau & e & -> & He)]; (split; [|]); try done.
  - intros _ w' a ->. cbn [bind call run handle]. by eexists.
  - intros _. cbn [bind call run handle]. by exists e; eexists.
Qed.

(** Deny by default: a method outside the health and reflection services
    that the table does not name is refused to every caller, whatever its
    token carries, and its handler does not run. *)
Lemma deny_by_default {A} fullMethod (handler : UnaryHandler A) ctx :
  isUnauthenticated fullMethod = false -> RequiredScope fullMethod = None ->
  exists e, authorize fullMethod handler ctx = Ret (Err e) /\ refusal e.
Proof.
  intros Hu Hs. unfold authorize. rewrite Hu, Hs.
  destruct (PrincipalFrom ctx); eexists; (split; [done |]); [by right | by left].
Qed.

(** The request log never names the caller: [logRequests] is the outermost
    interceptor and reads its own context, while the caller is put into the
    context derived further in. *)
Lemma subject_never_logged {R} {RC : UniversalClient R} s verifier md r es (w w' : World R) a line :
  run (serve_rpc s verifier md r) es w = (w', Some (a, line)) -> log_subject line = None.
Proof.
  unfold serve_rpc, chain, logRequests. cbn [bind call run handle]. rewrite run_bind.
  destruct (run _ _ _) as [w1 [a1|]]; [|done]. cbn [bind call run handle].
  by intros [= _ _ <-].
Qed.
End service.

(** ** Instances *)

Definition scn_md (token : string) : option (list (string * list string)) :=
  Some [("authorization"%string, ["Bearer " +:+ token])].

Definition scn_rq : CreateTransferRequest :=
  mkCreateTransferRequest scn_key (uuid_String alice) (uuid_String bob) 250 "USD".


(** A token without the permission, and one that was good until time zero. *)
Definition reader_token : string := "RS256.k1.idp.payments.eve.60000000000.transfers:read".
Definition expired_token : string := "RS256.k1.idp.payments.alice.-30000000000.transfers:write".

Lemma unauthorized_touches_nothing_witness :
  Forall (fun token => exists e line,
    run (serve_rpc scn_service (Some prod_verifier) (scn_md token) (RpcCreateTransfer scn_rq))
      scn_env scn_world = (scn_world, Some (Err e, line)) /\ refusal e) [reader_token; expired_token].
Proof.
  assert (Hcfg : VerifierFromConfig no_file prod_config = Ok (Some prod_verifier))
    by (vm_compute; reflexivity).
  assert (Hno : forall token,
    (forall p, token_ok prod_verifier token (env_time (scn_env 1)) p -> ScopeTransfersWrite ∉ p_Scopes p) ->
    TokenFromAuthorization ("Bearer " +:+ token) = Ok token -> exists e line,
    run (serve_rpc scn_service (Some prod_verifier) (scn_md token) (RpcCreateTransfer scn_rq))
      scn_env scn_world = (scn_world, Some (Err e, line)) /\ refusal e).
  { intros token Hbad Ht.
    apply (unauthorized_touches_nothing (JL := toy_jwt) no_file prod_config (Some prod_verifier)); [done |].
    intros (v & md & raw & p & [= <-] & [= <-] & Hraw & Htok & Hin).
    change (TokenFromAuthorization ("Bearer " +:+ token) = Ok raw) in Hraw.
    assert (raw = token) as -> by congruence. by apply (Hbad p). }
  repeat constructor; (apply Hno; [|vm_compute; reflexivity]);
    intros p [_ _ _ (c & Hp & _ & _ & _ & _ & _ & ->)]; vm_compute in Hp; [|done].
  injection Hp as <-. apply (bool_decide_eq_false_1 _). vm_compute. reflexivity.
Defined.
