(* ===== verification/DevToken.v ===== *)
(** * [cmd/devtoken]: development tokens

    The command that mints tokens for local use, over a file system, a clock and
    a random source that are its arguments. Key generation, the encodings of
    keys and the signing of tokens are the class [SigningLib], which extends the
    [JwtLib] of the verifier by the round trips their documentation promises. *)
From stdpp Require Import base gmap fin_maps strings list countable.
From Stdlib Require Import ZArith Lia Ascii.
From S2P Require Import Prelude.
From S2P Require Import GoStd.
From S2P Require Import GoStrings.
From S2P Require Import GoTime.
From S2P Require Import GoJson.
From S2P Require Import Uuid.
From S2P Require Import Errors.
From S2P Require Import Config.
From S2P Require Import Schema.
From S2P Require Import Tx.
From S2P Require Import Prog.
From S2P Require Import Auth.
From S2P Require Import Instances.
From S2P Require Import Scenario.

Open Scope Z_scope.

(** What [x509.ParsePKCS8PrivateKey] returns: an RSA key or one of another type. *)
Inductive PrivateKey (S : Type) := RsaPrivateKey (k : S) | OtherPrivateKey.
Arguments RsaPrivateKey {S} k.
Arguments OtherPrivateKey {S}.

(** The checks of the parser, as a condition on the claims. *)
Definition claims_pass (o : ParserOptions) (now : Z) (alg : string) (c : registeredClaims) : Prop :=
  alg ∈ opt_ValidMethods o
  /\ (opt_Issuer o = "" \/ cl_Issuer c = opt_Issuer o)
  /\ (opt_Audience o = "" \/ opt_Audience o ∈ cl_Audience c)
  /\ (exists t, cl_ExpiresAt c = Some t /\ now < t + opt_Leeway o)
  /\ (forall t, cl_NotBefore c = Some t -> t - opt_Leeway o <= now).

(** Claims that survive their JSON text: texts in UTF-8, and times of whole
    seconds that a [float64] holds exactly. *)
Definition exact_claims (c : registeredClaims) : Prop :=
  Forall (fun s => to_valid s = s)
    (cl_Issuer c :: cl_Subject c :: cl_Scope c :: cl_Audience c ++ cl_Scopes c)
  /\ forall t, cl_ExpiresAt c = Some t \/ cl_NotBefore c = Some t ->
       exists n, t = n * Second /\ Z.abs n <= 2 ^ 53.

Class SigningLib (S K : Type) {JL : JwtLib K} := {
  GenerateKey : Z -> result S;                       (* rsa.GenerateKey, by its randomness *)
  PublicKey_ : S -> K;                               (* key.PublicKey *)
  ParsePKCS1PrivateKey : string -> result S;
  ParsePKCS8PrivateKey : string -> result (PrivateKey S);
  MarshalPKCS1PrivateKey : S -> string;
  MarshalPKIXPublicKey : K -> result string;
  pem_EncodeToMemory : string -> string -> string;   (* a block's type and bytes *)
  SignedString : string -> S -> registeredClaims -> result string;
  (* what was encoded is decoded *)
  pem_text : forall ty bytes, exists rest,
    pem_EncodeToMemory ty bytes = "-----BEGIN " +:+ rest;
  pem_roundtrip : forall ty bytes, ty ∈ ["PUBLIC KEY"; "RSA PRIVATE KEY"]%string ->
    pem_Decode (pem_EncodeToMemory ty bytes) = Some (ty, bytes);
  pkix_roundtrip : forall k der,
    MarshalPKIXPublicKey k = Ok der -> ParsePKIXPublicKey der = Ok (RsaPublicKey k);
  pkcs1_roundtrip : forall k, ParsePKCS1PrivateKey (MarshalPKCS1PrivateKey k) = Ok k;
  (* a parser accepts what its key signed if the claims pass its checks *)
  SignedString_parses : forall alg k c raw o now,
    SignedString alg k c = Ok raw -> exact_claims c -> claims_pass o now alg c ->
    raw <> "" /\ ParseWithClaims o (PublicKey_ k) now raw = Ok (c, true)
}.

(** ** The world of the command *)

(** The files with their contents and modes, the directories made, the output. *)
Record Disk := mkDisk {
  disk_files : gmap string (string * Z);
  disk_dirs : list (string * Z);
  disk_out : list msg
}.

(** What the outside contributes: the clock at its two readings, the random
    source, and the failures of the file system. *)
Record Outside := mkOutside {
  out_now : Z;
  out_now_later : Z;
  out_rand : Z;
  out_mkdir : option goerr;
  out_read : string -> option goerr;
  out_write : string -> option goerr
}.

(** A computation over the disk that may fail. *)
Definition dev (A : Type) : Type := Disk -> Disk * result A.
Definition dev_ret {A} (a : A) : dev A := fun d => (d, Ok a).
Definition dev_err {A} (e : goerr) : dev A := fun d => (d, Err e).
Definition dev_bind {A B} (m : dev A) (f : A -> dev B) : dev B :=
  fun d => match m d with (d', Ok a) => f a d' | (d', Err e) => (d', Err e) end.
Definition dev_map_err {A} (g : goerr -> goerr) (m : dev A) : dev A :=
  fun d => match m d with (d', Err e) => (d', Err (g e)) | r => r end.

Declare Scope dev_scope.
Delimit Scope dev_scope with dev.
Notation "x <- c1 ;; c2" := (dev_bind c1 (fun x => c2))
  (at level 20, c1 at level 99, c2 at level 200, only parsing) : dev_scope.
Notation "' pat <- c1 ;; c2" := (dev_bind c1 (fun x => match x with pat => c2 end))
  (at level 20, pat pattern, c1 at level 99, c2 at level 200, only parsing) : dev_scope.

Definition print (l : msg) : dev unit :=
  fun d => (mkDisk (disk_files d) (disk_dirs d) (disk_out d ++ [l])%list, Ok tt).

Fixpoint print_all (ls : list msg) : dev unit :=
  match ls with
  | [] => dev_ret tt
  | l :: ls' => (_ <- print l ;; print_all ls')%dev
  end.

Section devtoken.
Context {S K : Type} {JL : JwtLib K} {SL : SigningLib S K}.
Variable o : Outside.

Definition os_ReadFile (path : string) : dev string := fun d =>
  match out_read o path, disk_files d !! path with
  | Some e, _ => (d, Err e)
  | None, Some (text, _) => (d, Ok text)
  | None, None => (d, Err (External "no such file or directory"))
  end.

Definition os_MkdirAll (dir : string) (mode : Z) : dev unit := fun d =>
  match out_mkdir o with
  | Some e => (d, Err e)
  | None => (mkDisk (disk_files d) (disk_dirs d ++ [(dir, mode)])%list (disk_out d), Ok tt)
  end.

(** The mode is that of a file being created; an existing file keeps its own. *)
Definition os_WriteFile (path text : string) (mode : Z) : dev unit := fun d =>
  match out_write o path with
  | Some e => (d, Err e)
  | None =>
      let mode := match disk_files d !! path with Some (_, m) => m | None => mode end in
      (mkDisk (<[path := (text, mode)]> (disk_files d)) (disk_dirs d) (disk_out d), Ok tt)
  end.

(** ** The functions of the command *)

Definition loadOrGenerateKey (path : string) : dev (S * bool) :=
  if is_empty path then
    match GenerateKey (out_rand o) with
    | Err err => dev_err (prefixed "generating key: " err)
    | Ok key => dev_ret (key, true)
    end
  else
    (raw <- dev_map_err (fun err => Wrap [Txt "reading "; Str path; Txt ": "] err [])
              (os_ReadFile path) ;;
     match pem_Decode raw with
     | None => dev_err (Plain [Str path; Txt " is not valid PEM"])
     | Some (_, bytes) =>
         match ParsePKCS1PrivateKey bytes with
         | Ok key => dev_ret (key, false)
         | Err _ =>
             match ParsePKCS8PrivateKey bytes with
             | Err err => dev_err (Wrap [Txt "parsing "; Str path; Txt ": "] err [])
             | Ok OtherPrivateKey => dev_err (Plain [Txt "key is not an RSA private key"])
             | Ok (RsaPrivateKey key) => dev_ret (key, false)
             end
         end
     end)%dev.

Definition encodePublicKey (key : K) : result string :=
  match MarshalPKIXPublicKey key with
  | Err err => Err (prefixed "encoding public key: " err)
  | Ok der => Ok (pem_EncodeToMemory "PUBLIC KEY" der)
  end.

Definition writeKeypair (dir : string) (key : S) (publicPEM : string) : dev unit :=
  (_ <- dev_map_err (fun err => Wrap [Txt "creating "; Str dir; Txt ": "] err [])
          (os_MkdirAll dir 448) ;;
   let privatePEM := pem_EncodeToMemory "RSA PRIVATE KEY" (MarshalPKCS1PrivateKey key) in
   _ <- dev_map_err (prefixed "writing private key: ")
          (os_WriteFile (filepath_Join dir "private.pem") privatePEM 384) ;;
   dev_map_err (prefixed "writing public key: ")
     (os_WriteFile (filepath_Join dir "public.pem") publicPEM 420))%dev.

(** The claims of [mint] that a verifier reads. *)
Definition minted_claims (now : Z) (issuer audience subject scopes : string) (ttl : Z)
    : registeredClaims :=
  mkClaims issuer subject [audience] (Some (whole_second (now + ttl))) (Some (whole_second now))
    scopes [].

Definition mint (key : S) (issuer audience subject scopes : string) (ttl : Z) : result string :=
  match SignedString RS256 key (minted_claims (out_now o) issuer audience subject scopes ttl) with
  | Err err => Err (prefixed "signing token: " err)
  | Ok token => Ok token
  end.

Definition from_result {A} (r : result A) : dev A :=
  match r with Ok a => dev_ret a | Err e => dev_err e end.

(** The lines printed without -quiet. *)
Definition instructions (issuer audience subject scopes : string) (ttl : Z) (publicPEM token : string)
    : list msg :=
  [[Txt "# DEVELOPMENT TOKEN — not production authentication infrastructure."];
   [Txt "#"];
   [Txt "# issuer   "; Str issuer];
   [Txt "# audience "; Str audience];
   [Txt "# subject  "; Str subject];
   [Txt "# scopes   "; Str scopes];
   [Txt "# expires  "; Str (FormatRFC3339 (out_now_later o + ttl))];
   [];
   [Txt "# Configure the service with the matching public key:"];
   [Txt "export JWT_ISSUER="; Quo issuer];
   [Txt "export JWT_AUDIENCE="; Quo audience];
   [Txt "export JWT_PUBLIC_KEY="; Quo publicPEM];
   [];
   [Txt "# Then call the API:"];
   [Txt "export TOKEN="; Quo token];
   [Txt "grpcurl -plaintext -H "; Quo "authorization: Bearer $TOKEN"; Txt " \"];
   [Txt "  -d '{"; Quo "currency"; Txt ":"; Quo "USD"; Txt "}' \"];
   [Txt "  localhost:9090 payments.v1.PaymentsService/CreateAccount"]].

#[local] Arguments instructions : simpl never.

Definition devtoken_run (issuer audience subject scopes : string) (ttl : Z)
    (keyPath outDir : string) (quiet : bool) : dev unit :=
  ('(key, generated) <- loadOrGenerateKey keyPath ;;
   publicPEM <- from_result (encodePublicKey (PublicKey_ key)) ;;
   _ <- (if generated && negb (is_empty outDir) then writeKeypair outDir key publicPEM
         else dev_ret tt) ;;
   token <- from_result (mint key issuer audience subject scopes ttl) ;;
   if quiet then print [Str token]
   else
     _ <- print_all (instructions issuer audience subject scopes ttl publicPEM token) ;;
     if generated && negb (is_empty outDir) then
       print_all [[]; [Txt "# keypair written to "; Str outDir;
                       Txt " (development only, do not commit)"]]
     else dev_ret tt)%dev.

(** ** What the command does *)

Lemma dev_bind_Ok {A B} (m : dev A) (f : A -> dev B) d d' b :
  dev_bind m f d = (d', Ok b) -> exists d1 a, m d = (d1, Ok a) /\ f a d1 = (d', Ok b).
Proof. unfold dev_bind. destruct (m d) as [d1 [a|e]]; [eauto | done]. Qed.

Lemma dev_map_err_Ok {A} g (m : dev A) d d' a :
  dev_map_err g m d = (d', Ok a) -> m d = (d', Ok a).
Proof. unfold dev_map_err. by destruct (m d) as [d1 [x|e]]. Qed.

Lemma from_result_Ok {A} (r : result A) d d' a : from_result r d = (d', Ok a) -> r = Ok a /\ d' = d.
Proof. destruct r; unfold from_result, dev_ret, dev_err; naive_solver. Qed.

Lemma print_all_out ls d :
  print_all ls d = (mkDisk (disk_files d) (disk_dirs d) (disk_out d ++ ls)%list, Ok tt).
Proof.
  revert d. induction ls as [|l ls IH]; intros d; simpl.
  - rewrite app_nil_r. by destruct d.
  - unfold dev_bind, print. rewrite IH. simpl. by rewrite <- app_assoc.
Qed.

(** The key in use: generated exactly when no path is given; reading one
    changes nothing. *)
Lemma loadOrGenerateKey_Ok path d d' key generated :
  loadOrGenerateKey path d = (d', Ok (key, generated)) -> d' = d /\ generated = is_empty path.
Proof.
  unfold loadOrGenerateKey. destruct (is_empty path) eqn:He.
  - destruct (GenerateKey _); unfold dev_ret, dev_err; naive_solver.
  - intros (d1 & raw & Hr & Hk)%dev_bind_Ok. apply dev_map_err_Ok in Hr.
    unfold os_ReadFile in Hr. unfold dev_ret, dev_err in Hk. repeat case_match; simplify_eq/=; done.
Qed.

(** What a successful run did. *)
Lemma devtoken_run_Ok issuer audience subject scopes ttl keyPath outDir quiet d d' :
  devtoken_run issuer audience subject scopes ttl keyPath outDir quiet d = (d', Ok tt) ->
  exists key publicPEM token d1,
    loadOrGenerateKey keyPath d = (d, Ok (key, is_empty keyPath))
    /\ encodePublicKey (PublicKey_ key) = Ok publicPEM
    /\ mint key issuer audience subject scopes ttl = Ok token
    /\ (if is_empty keyPath && negb (is_empty outDir) then writeKeypair outDir key publicPEM
        else dev_ret tt) d = (d1, Ok tt)
    /\ disk_files d' = disk_files d1 /\ disk_dirs d' = disk_dirs d1
    /\ exists more, disk_out d' = (disk_out d1
         ++ (if quiet then [[Str token]]
             else instructions issuer audience subject scopes ttl publicPEM token) ++ more)%list.
Proof.
  unfold devtoken_run. intros (d0 & [key gen] & Hk & H1)%dev_bind_Ok.
  destruct (loadOrGenerateKey_Ok _ _ _ _ _ Hk) as [-> ->].
  apply dev_bind_Ok in H1 as (d1 & pem & [Hp ->]%from_result_Ok & H2).
  apply dev_bind_Ok in H2 as (d1 & [] & Hw & H3).
  apply dev_bind_Ok in H3 as (d2 & token & [Ht ->]%from_result_Ok & H4).
  exists key, pem, token, d1. do 4 (split; [done |]).
  set (lines := if quiet then [[Str token]] else instructions issuer audience subject scopes ttl pem token).
  assert (Hout : exists more,
    d' = mkDisk (disk_files d1) (disk_dirs d1) (disk_out d1 ++ lines ++ more)%list).
  { unfold lines. destruct quiet.
    - unfold print in H4. injection H4 as <-. exists []. done.
    - apply dev_bind_Ok in H4 as (d2 & u & H5 & H6). rewrite print_all_out in H5. injection H5 as <- <-.
      destruct (_ && _).
      + rewrite print_all_out in H6. injection H6 as <-. cbn [disk_files disk_dirs disk_out].
        eexists. by rewrite <- app_assoc.
      + unfold dev_ret in H6. injection H6 as <-. exists []. by rewrite app_nil_r. }
  destruct Hout as [more ->]. split_and!; [done | done |]. by exists more.
Qed.

(** ** The printed key verifies the printed token *)

Lemma begins_with_dash s rest : s = "-----BEGIN " +:+ rest -> TrimSpace s <> "".
Proof.
  intros -> H%TrimSpace_empty. change ("-----BEGIN " +:+ rest) with (String "-" ("----BEGIN " +:+ rest)) in H.
  rewrite all_runes_String, decode_rune_ascii in H by (vm_compute; done). done.
Qed.

Lemma encodePublicKey_parses k pem :
  encodePublicKey k = Ok pem -> parseRSAPublicKey pem = Ok k /\ TrimSpace pem <> "".
Proof.
  unfold encodePublicKey. destruct (MarshalPKIXPublicKey k) as [der|] eqn:Hd; [|done]. intros [= <-].
  split.
  - unfold parseRSAPublicKey. rewrite pem_roundtrip by apply list_elem_of_here.
    change (Contains "PUBLIC KEY" "PRIVATE") with false. by rewrite (pkix_roundtrip _ _ Hd).
  - destruct (pem_text "PUBLIC KEY" der) as [rest Hr]. by eapply begins_with_dash.
Qed.

(** The claims of a token minted by a clock and for a time that fit 64 bits. *)
Lemma minted_exact issuer audience subject scopes ttl :
  Forall (fun s => to_valid s = s) [issuer; audience; subject; scopes] ->
  in_int64 (out_now o) = true -> in_int64 ttl = true ->
  exact_claims (minted_claims (out_now o) issuer audience subject scopes ttl).
Proof.
  intros Htexts Hn%in_int64_spec Ht%in_int64_spec. unfold int64_min, int64_max in *.
  repeat match goal with H : Forall _ (_ :: _) |- _ => apply Forall_cons_1 in H as [? H] end.
  split; [by repeat constructor |].
  assert (Hw : forall t, - 2 ^ 64 <= t <= 2 ^ 64 -> exists n, whole_second t = n * Second /\ Z.abs n <= 2 ^ 53).
  { intros t Hr. exists (t / Second). split; [done |]. change Second with 1000000000.
    pose proof (Z.div_mod t 1000000000 ltac:(lia)). pose proof (Z.mod_pos_bound t 1000000000 ltac:(lia)). lia. }
  intros t. simpl. intros [[= <-]|[= <-]]; apply Hw; lia.
Qed.

(** A verifier for the public key of the key that signed, the issuer and the
    audience accepts the minted token while it is in date. *)
Lemma mint_verifies {R} {RC : UniversalClient R} key pem issuer audience subject scopes ttl token leeway :
  encodePublicKey (PublicKey_ key) = Ok pem ->
  mint key issuer audience subject scopes ttl = Ok token ->
  exact_claims (minted_claims (out_now o) issuer audience subject scopes ttl) ->
  issuer <> "" -> audience <> "" -> TrimSpace subject <> "" ->
  exists v, NewVerifier (mkVerifierConfig pem issuer audience leeway) = Ok v
    /\ forall es (w : World R),
         whole_second (out_now o) - leeway <= env_time (es O) < whole_second (out_now o + ttl) + leeway ->
         run (Verify v token) es w
         = (w, Some (Ok (mkPrincipal (TrimSpace subject) issuer audience (Fields scopes)))).
Proof.
  intros [Hp Hne]%encodePublicKey_parses Hm Hx Hi Ha Hs. unfold NewVerifier. cbn [vc_PublicKeyPEM vc_Issuer vc_Audience vc_Leeway].
  rewrite (proj2 (is_empty_false _) Hne), (proj2 (is_empty_false _) Hi), (proj2 (is_empty_false _) Ha), Hp.
  eexists. split; [done |]. intros es w Hnow. unfold mint in Hm.
  destruct (SignedString _ _ _) as [raw|] eqn:Hsig; [|done]. injection Hm as ->.
  destruct (SignedString_parses _ _ _ _ (mkParser [RS256] issuer audience true leeway) (env_time (es O)) Hsig Hx)
    as [Hraw Hparse].
  { split_and!; simpl; [apply list_elem_of_here | by right | right; apply list_elem_of_here | |].
    - eexists. split; [done |]. lia.
    - intros t [= <-]. lia. }
  unfold Verify. rewrite (proj2 (is_empty_false _) Hraw). cbn [bind call run handle]. simpl v_parser. simpl v_key.
  rewrite Hparse. cbn [negb cl_Subject minted_claims]. rewrite (proj2 (is_empty_false _) Hs).
  simpl. unfold parseScopes. by rewrite app_nil_r.
Qed.

(** ** Keys on disk *)

Lemma plain_private : plain_name "private.pem".
Proof. split_and!; try done. repeat constructor; done. Qed.
Lemma plain_public : plain_name "public.pem".
Proof. split_and!; try done. repeat constructor; done. Qed.

(** The mode of a file after it was written with [mode]. *)
Definition mode_after (d : Disk) (path : string) (mode : Z) : Z :=
  match disk_files d !! path with Some (_, m) => m | None => mode end.

Lemma writeKeypair_Ok dir key pem d d' :
  writeKeypair dir key pem d = (d', Ok tt) ->
  let priv := filepath_Join dir "private.pem" in
  let pub := filepath_Join dir "public.pem" in
  disk_files d' = <[pub := (pem, mode_after d pub 420)]>
    (<[priv := (pem_EncodeToMemory "RSA PRIVATE KEY" (MarshalPKCS1PrivateKey key),
                mode_after d priv 384)]> (disk_files d)).
Proof.
  cbn zeta. set (priv := filepath_Join dir "private.pem"). set (pub := filepath_Join dir "public.pem").
  assert (Hne : priv <> pub).
  { intros H. apply filepath_Join_inj in H; [done | apply plain_private | apply plain_public]. }
  unfold writeKeypair. intros (d1 & [] & H1%dev_map_err_Ok & Hw)%dev_bind_Ok.
  apply dev_bind_Ok in Hw as (d2 & [] & H2%dev_map_err_Ok & H3%dev_map_err_Ok).
  unfold os_MkdirAll in H1. destruct (out_mkdir o); [done |]. injection H1 as <-.
  unfold os_WriteFile in H2, H3. fold priv in H2. fold pub in H3.
  destruct (out_write o priv); [done |]. injection H2 as <-.
  destruct (out_write o pub); [done |]. injection H3 as <-. cbn [disk_files].
  unfold mode_after. by rewrite lookup_insert_ne by done.
Qed.

(** Keys are handled with care: a successful run writes to disk only when it
    generated the key and was given a directory; it then adds exactly the two
    files there, a new private key readable by its owner alone, and a later run
    given that file signs with the very same key. *)
Lemma keys_on_disk issuer audience subject scopes ttl keyPath outDir quiet d d' :
  devtoken_run issuer audience subject scopes ttl keyPath outDir quiet d = (d', Ok tt) ->
  let priv := filepath_Join outDir "private.pem" in
  let pub := filepath_Join outDir "public.pem" in
  if is_empty keyPath && negb (is_empty outDir) then
    exists key publicPEM, loadOrGenerateKey keyPath d = (d, Ok (key, true))
      /\ (forall path, path <> priv -> path <> pub -> disk_files d' !! path = disk_files d !! path)
      /\ (disk_files d !! priv = None -> snd <$> disk_files d' !! priv = Some 384)
      /\ fst <$> disk_files d' !! pub = Some publicPEM
      /\ encodePublicKey (PublicKey_ key) = Ok publicPEM
      /\ (out_read o priv = None -> priv <> "" -> loadOrGenerateKey priv d' = (d', Ok (key, false)))
  else disk_files d' = disk_files d.
Proof.
  intros Hrun. cbn zeta. set (priv := filepath_Join outDir "private.pem").
  set (pub := filepath_Join outDir "public.pem").
  apply devtoken_run_Ok in Hrun as (key & pem & token & d1 & Hk & Hp & _ & Hw & Hf & _).
  destruct (is_empty keyPath && negb (is_empty outDir)) eqn:Hb.
  2: { unfold dev_ret in Hw. injection Hw as <-. done. }
  apply andb_true_iff in Hb as [Hkp _]. rewrite Hkp in Hk.
  apply writeKeypair_Ok in Hw. cbn zeta in Hw. fold priv pub in Hw. rewrite Hw in Hf. clear Hw.
  assert (Hne : priv <> pub).
  { intros H. apply filepath_Join_inj in H; [done | apply plain_private | apply plain_public]. }
  exists key, pem. split_and!; [done | | | | done |].
  - intros path H1 H2. by rewrite Hf, !lookup_insert_ne by done.
  - intros Hnew. rewrite Hf, lookup_insert_ne, lookup_insert_eq by done. simpl.
    unfold mode_after. by rewrite Hnew.
  - by rewrite Hf, lookup_insert_eq.
  - intros Hrd Hpn. unfold loadOrGenerateKey. rewrite (proj2 (is_empty_false _) Hpn).
    unfold dev_bind, dev_map_err, os_ReadFile. rewrite Hrd, Hf, lookup_insert_ne, lookup_insert_eq by done.
    rewrite pem_roundtrip by (apply list_elem_of_further, list_elem_of_here).
    by rewrite pkcs1_roundtrip.
Qed.

(** The key that was written is the key that is loaded. *)
Lemma loads_written path key mode d d' key' generated :
  disk_files d !! path = Some (pem_EncodeToMemory "RSA PRIVATE KEY" (MarshalPKCS1PrivateKey key), mode) ->
  path <> "" -> loadOrGenerateKey path d = (d', Ok (key', generated)) -> key' = key.
Proof.
  intros Hf Hp. unfold loadOrGenerateKey. rewrite (proj2 (is_empty_false _) Hp).
  unfold dev_bind, dev_map_err, os_ReadFile. rewrite Hf. destruct (out_read o path); [done |].
  rewrite pem_roundtrip by (apply list_elem_of_further, list_elem_of_here). rewrite pkcs1_roundtrip.
  by intros [= _ <- _].
Qed.

Lemma filepath_Join_nonempty dir name : filepath_Join dir name <> "".
Proof.
  unfold filepath_Join, path_Clean. cbv zeta. destruct (match _ with EmptyString => _ | _ => _ end); [done |].
  by case_bool_decide.
Qed.
End devtoken.

(** ** The documented use: a key pair, a service that reads it, a later token *)

(** Reading a file of the disk, as [os.ReadFile] of another process does. *)
Definition read_disk (d : Disk) (path : string) : result string :=
  match disk_files d !! path with
  | Some (text, _) => Ok text
  | None => Err (External "no such file or directory")
  end.

Section flow.
Context {S K : Type} {JL : JwtLib K} {SL : SigningLib S K} {R : Type} {RC : UniversalClient R}.

(** A run that wrote a key pair, and a later quiet one with the private key. *)
Lemma pair_then_token o1 o2 issuer1 audience1 subject1 scopes1 ttl1 outDir quiet1
    issuer audience subject scopes ttl outDir2 d d1 d2 cfg :
  devtoken_run (S := S) o1 issuer1 audience1 subject1 scopes1 ttl1 "" outDir quiet1 d = (d1, Ok tt) ->
  outDir <> "" ->
  devtoken_run (S := S) o2 issuer audience subject scopes ttl (filepath_Join outDir "private.pem") outDir2 true d1
    = (d2, Ok tt) ->
  exact_claims (minted_claims (out_now o2) issuer audience subject scopes ttl) ->
  issuer <> "" -> audience <> "" -> TrimSpace subject <> "" ->
  jwt_PublicKeyFile (cfg_JWT cfg) = filepath_Join outDir "public.pem" ->
  jwt_Issuer (cfg_JWT cfg) = issuer -> jwt_Audience (cfg_JWT cfg) = audience ->
  let leeway := jwt_Leeway (cfg_JWT cfg) in
  exists token v,
    disk_out d2 = (disk_out d1 ++ [[Str token]])%list
    /\ VerifierFromConfig (read_disk d2) cfg = Ok (Some v)
    /\ forall es (w : World R),
         whole_second (out_now o2) - leeway <= env_time (es O) < whole_second (out_now o2 + ttl) + leeway ->
         run (Verify v token) es w
         = (w, Some (Ok (mkPrincipal (TrimSpace subject) issuer audience (Fields scopes)))).
Proof.
  intros H1 Hout H2 Hx Hi Ha Hs Hfile Hci Hca leeway.
  apply devtoken_run_Ok in H1 as (key & pem & token1 & e1 & _ & Hp & _ & Hw & Hf1 & _).
  change (is_empty "") with true in Hw. rewrite (proj2 (is_empty_false _) Hout) in Hw.
  cbn [andb negb] in Hw. apply writeKeypair_Ok in Hw. cbn zeta in Hw. rewrite Hw in Hf1. clear Hw.
  set (priv := filepath_Join outDir "private.pem") in *. set (pub := filepath_Join outDir "public.pem") in *.
  assert (Hne : priv <> pub).
  { intros H. apply filepath_Join_inj in H; [done | apply plain_private | apply plain_public]. }
  pose proof (filepath_Join_nonempty outDir "private.pem") as Hpriv. fold priv in Hpriv.
  pose proof (filepath_Join_nonempty outDir "public.pem") as Hpub. fold pub in Hpub.
  unfold devtoken_run in H2. apply dev_bind_Ok in H2 as (e2 & [key2 gen] & Hk & H2).
  destruct (loadOrGenerateKey_Ok _ _ _ _ _ _ Hk) as [-> ->].
  assert (key2 = key) as ->.
  { eapply (loads_written o2 priv key); [|exact Hpriv | exact Hk].
    rewrite Hf1, lookup_insert_ne, lookup_insert_eq by done. reflexivity. }
  apply dev_bind_Ok in H2 as (e3 & pem2 & [Hp2 ->]%from_result_Ok & H2).
  rewrite (proj2 (is_empty_false _) Hpriv) in H2. cbn [andb] in H2.
  apply dev_bind_Ok in H2 as (e4 & [] & [= <-] & H2).
  apply dev_bind_Ok in H2 as (e5 & token & [Ht ->]%from_result_Ok & H2). unfold print in H2.
  injection H2 as <-.
  destruct (mint_verifies (R := R) o2 key pem issuer audience subject scopes ttl token leeway Hp Ht Hx Hi Ha Hs)
    as (v & Hv & Hacc).
  exists token, v. split_and!; [done | | done].
  unfold VerifierFromConfig. cbv zeta. rewrite Hfile, (proj2 (is_empty_false _) Hpub). cbn [negb].
  unfold read_disk. cbn [disk_files]. rewrite Hf1, lookup_insert_eq, Hci, Hca.
  rewrite (proj2 (is_empty_false issuer) Hi), andb_false_r. cbn [andb]. fold leeway. by rewrite Hv.
Qed.
End flow.

(** ** A library that satisfies the laws

    A key is its name and a token the code of its algorithm, its key and its
    claims, in binary digits. *)
Module ToySign.
Fixpoint bits (p : positive) : string :=
  match p with
  | xH => ""
  | xO p => String "0" (bits p)
  | xI p => String "1" (bits p)
  end.

Fixpoint unbits (s : string) : option positive :=
  match s with
  | EmptyString => Some xH
  | String "0" s => xO <$> unbits s
  | String "1" s => xI <$> unbits s
  | String _ _ => None
  end.

Lemma unbits_bits p : unbits (bits p) = Some p.
Proof. induction p as [p IH|p IH|]; simpl; [by rewrite IH.. | done]. Qed.

Definition pack {A} `{Countable A} (a : A) : string := bits (countable.encode a).
Definition unpack {A} `{Countable A} (s : string) : option A := unbits s ≫= decode.

Lemma unpack_pack {A} `{Countable A} (a : A) : unpack (pack a) = Some a.
Proof. unfold unpack, pack. rewrite unbits_bits. simpl. apply decode_encode. Qed.

Abbreviation flat := (string * string * (string * string * list string * option Z * option Z * string * list string))%type.

Definition flatten (alg key : string) (c : registeredClaims) : flat :=
  (alg, key, (cl_Issuer c, cl_Subject c, cl_Audience c, cl_ExpiresAt c, cl_NotBefore c, cl_Scope c, cl_Scopes c)).

Definition token (alg key : string) (c : registeredClaims) : string :=
  "t" +:+ pack (flatten alg key c).

Definition fields (raw : string) : option (string * string * registeredClaims) :=
  match raw with
  | String "t" s =>
      match (unpack s : option flat) with
      | Some (alg, key, (i, sub, aud, e, n, sc, scs)) => Some (alg, key, mkClaims i sub aud e n sc scs)
      | None => None
      end
  | _ => None
  end.

Lemma fields_token alg key c : fields (token alg key c) = Some (alg, key, c).
Proof.
  unfold token. change ("t" +:+ pack (flatten alg key c)) with (String "t" (pack (flatten alg key c))).
  cbn [fields]. rewrite unpack_pack. by destruct c.
Qed.

Definition alg_of (raw : string) : option string :=
  match fields raw with Some (a, _, _) => Some a | None => None end.
Definition signed (k raw : string) : Prop :=
  match fields raw with Some (_, k', _) => k = k' | None => False end.

Definition parse (o : ParserOptions) (k : string) (now : Z) (raw : string)
    : result (registeredClaims * bool) :=
  match fields raw with
  | Some (alg, key, c) =>
      if ToyJwt.checks o k now alg key c then Ok (c, true) else Err (External "token is unverifiable")
  | None => Err (External "token is malformed")
  end.

Lemma checks_complete o k now alg c :
  claims_pass o now alg c -> ToyJwt.checks o k now alg k c = true.
Proof.
  intros (Hm & Hi & Ha & (t & Ht & Hlt) & Hn). unfold ToyJwt.checks, is_empty, one_of.
  rewrite !andb_true_iff, !orb_true_iff, !bool_decide_eq_true, Ht. split_and!; auto; [by apply Z.ltb_lt |].
  destruct (cl_NotBefore c); [apply Z.leb_le; auto | done].
Qed.

Definition pem (ty bytes : string) : string := "-----BEGIN " +:+ pack (ty, bytes).
Definition unpem (s : string) : option (string * string) :=
  if HasPrefix s "-----BEGIN " then unpack (slice_from 11 s) else None.

Lemma unpem_pem ty bytes : unpem (pem ty bytes) = Some (ty, bytes).
Proof.
  unfold unpem, pem. rewrite HasPrefix_app.
  change 11%nat with (String.length "-----BEGIN "). rewrite (proj2 (slice_app _ _)). apply unpack_pack.
Qed.
End ToySign.

#[global] Instance toy_verifying : JwtLib string | 5.
Proof.
  refine {|
    pem_Decode := ToySign.unpem;
    ParsePKIXPublicKey bytes := Ok (RsaPublicKey bytes);
    ParsePKCS1PublicKey bytes := Ok bytes;
    token_alg := ToySign.alg_of;
    token_signed := ToySign.signed;
    ParseWithClaims := ToySign.parse |}.
  intros o k now raw c valid. unfold ToySign.parse, ToySign.signed, ToySign.alg_of.
  destruct (ToySign.fields raw) as [[[alg key] c']|]; [|done].
  destruct (ToyJwt.checks o k now alg key c') eqn:E; [|done]. intros [= <- _].
  apply ToyJwt.checks_sound in E as (Hk & Hm & Hrest). split_and!; [done | by eauto | apply Hrest..].
Defined.

#[global] Instance toy_signing : SigningLib string string (JL := toy_verifying).
Proof.
  refine {|
    GenerateKey r := Ok "k"%string;
    PublicKey_ k := k;
    ParsePKCS1PrivateKey bytes := Ok bytes;
    ParsePKCS8PrivateKey bytes := Ok (RsaPrivateKey bytes);
    MarshalPKCS1PrivateKey k := k;
    MarshalPKIXPublicKey k := Ok k;
    pem_EncodeToMemory := ToySign.pem;
    SignedString alg k c := Ok (ToySign.token alg k c) |}.
  - by eexists.
  - intros ty bytes _. apply ToySign.unpem_pem.
  - by intros k der [= <-].
  - done.
  - intros alg k c raw o now [= <-] _ Hc. split; [done |]. simpl. unfold ToySign.parse.
    rewrite ToySign.fields_token. by rewrite (ToySign.checks_complete _ _ _ _ _ Hc).
Defined.

(** The defaults of the flags, on an empty disk at time zero. *)
Definition calm_outside : Outside := mkOutside 0 0 0 None (fun _ => None) (fun _ => None).

Definition default_scopes : string :=
  "accounts:read accounts:write transfers:read transfers:write ledger:read".

Abbreviation default_run outDir :=
  (devtoken_run (SL := toy_signing) calm_outside "https://dev-issuer.local" "payments-api" "dev-client"
     default_scopes Hour "" outDir false (mkDisk ∅ [] [])).

Lemma default_run_Ok : snd (default_run "") = Ok tt /\ snd (default_run "./.devkeys") = Ok tt.
Proof. split; vm_compute; reflexivity. Qed.

Lemma default_caller :
  mkPrincipal (TrimSpace "dev-client") "https://dev-issuer.local" "payments-api" (Fields default_scopes)
  = mkPrincipal "dev-client" "https://dev-issuer.local" "payments-api" AllScopes.
Proof. vm_compute. reflexivity. Qed.

