(* ===== verification/Leak.v ===== *)
(** * Nothing internal reaches a client

    When the errors of the outside world (driver, server, network, context) do
    not pose as the program's own validation errors or as gRPC statuses, every
    answer of every RPC is a reply or a status whose message holds no text of
    the outside. *)
From stdpp Require Import base gmap fin_maps strings list.
From Stdlib Require Import ZArith Lia Ascii.
From S2P Require Import Prelude.
From S2P Require Import GoStd.
From S2P Require Import GoStrings.
From S2P Require Import GoTime.
From S2P Require Import Uuid.
From S2P Require Import Errors.
From S2P Require Import GrpcErrors.
From S2P Require Import Config.
From S2P Require Import Money.
From S2P Require Import Schema.
From S2P Require Import Tx.
From S2P Require Import Transfer.
From S2P Require Import Idempotency.
From S2P Require Import Prog.
From S2P Require Import Auth.
From S2P Require Import Retry.
From S2P Require Import Store.
From S2P Require Import Instances.
From S2P Require Import Account.
From S2P Require Import Ledger.
From S2P Require Import Idempotent.
From S2P Require Import Grpc.
From S2P Require Import Scenario.
From S2P Require Import Interceptors.

Open Scope Z_scope.

(** ** Errors of the outside world *)

Definition clean_result {A} (r : result A) : Prop :=
  match r with Ok _ => True | Err e => opaque e = true end.

Definition clean_option (o : option goerr) : Prop := forall e, o = Some e -> opaque e = true.

Record clean_tx (env : TxEnv) : Prop := {
  ct_begin : clean_option (tx_begin env);
  ct_fault : forall n, clean_option (tx_fault env n);
  ct_commit : match tx_commit env with
              | Commits => True
              | CommitRejected e | CommitLost e => opaque e = true
              end
}.

Definition clean_env (e : Env) : Prop :=
  clean_tx (env_tx e) /\ clean_option (env_query e) /\ clean_option (env_wait e).

(** A client of Redis whose errors are its own. *)
Definition clean_client (R : Type) {RC : UniversalClient R} : Prop :=
  forall (r : R) k v ttl,
    clean_result (snd (SetNX r k v ttl)) /\ clean_result (snd (Get r k))
    /\ clean_result (snd (Set_ r k v ttl)) /\ clean_result (snd (Del r k))
    /\ clean_result (snd (Ping r)).

(** The answers of the operations, in such a world. *)
Definition clean_answer (B : Type) (o : op B) : B -> Prop :=
  match o in op B return B -> Prop with
  | OpPostOnce _ _ => clean_result
  | OpCreateAccount _ => clean_result
  | OpQuery _ => clean_result
  | OpSetNX _ _ _ => clean_result
  | OpGet _ => clean_result
  | OpSet _ _ _ => clean_result
  | OpDel _ => clean_result
  | OpPing => clean_result
  | OpNow | OpRand => fun _ => True
  | OpWait _ => clean_option
  end.

(** ** Transactions *)

(** A transaction body adds no validation error of its own. *)
Definition clean {A} (m : tx A) : Prop :=
  forall env st, clean_tx env -> clean_result (snd (m env st)).

Lemma clean_ret {A} (a : A) : clean (tx_ret a).
Proof. by intros env st _. Qed.
Lemma clean_throw {A} e : opaque e = true -> clean (throw (A := A) e).
Proof. by intros He env st _. Qed.
Lemma clean_bind {A B} (m : tx A) (k : A -> tx B) :
  clean m -> (forall a, clean (k a)) -> clean (tx_bind m k).
Proof.
  intros Hm Hk env st He. unfold tx_bind. specialize (Hm env st He).
  destruct (m env st) as [st' [a|e]]; [by apply Hk | done].
Qed.
Lemma clean_on_err {A} f (m : tx A) :
  (forall e, opaque e = true -> opaque (f e) = true) -> clean m -> clean (on_err f m).
Proof.
  intros Hf Hm env st He. unfold on_err. specialize (Hm env st He).
  destruct (m env st) as [st' [a|e]]; [done | by apply Hf].
Qed.
Lemma clean_exec {A} (f : Z -> Db -> sql (Db * list deferred * A)) : clean (exec f).
Proof.
  intros env st He. unfold exec. pose proof (ct_fault _ He (tx_stmts st)) as Hf.
  destruct (tx_fault env (tx_stmts st)); [by apply Hf |]. by repeat case_match.
Qed.
Lemma clean_query_row {A} (f : Db -> option A) : clean (query_row f).
Proof.
  intros env st He. unfold query_row. pose proof (ct_fault _ He (tx_stmts st)) as Hf.
  destruct (tx_fault env (tx_stmts st)); [by apply Hf |]. by repeat case_match.
Qed.
Lemma clean_new_uuid : clean new_uuid.
Proof. by intros env st _. Qed.

Create HintDb clean.
#[export] Hint Resolve clean_ret clean_throw clean_bind clean_on_err clean_exec clean_query_row
  clean_new_uuid : clean.

Lemma clean_lockAccount id : clean (lockAccount id).
Proof. apply clean_on_err; [|apply clean_query_row]. intros e He. by case_match. Qed.

Lemma clean_lockAccounts a b : clean (lockAccounts a b).
Proof.
  assert (Hm : forall x e, opaque e = true -> opaque (missingAccountError e x a) = true).
  { intros x e He. unfold missingAccountError. by repeat case_match. }
  unfold lockAccounts. destruct (lockOrder a b) as [x y].
  apply clean_bind; [apply clean_on_err; [apply Hm | apply clean_lockAccount] |]. intros l1.
  apply clean_bind; [apply clean_on_err; [apply Hm | apply clean_lockAccount] |]. intros l2.
  case_match; apply clean_ret.
Qed.

Lemma clean_assertBalanced id : clean (assertBalanced id).
Proof.
  apply clean_bind.
  - apply clean_on_err; [done |]. apply clean_bind; [apply clean_query_row |]. intros [sum n].
    apply clean_bind; [|intros; apply clean_ret].
    intros env st _. unfold lift_result, scan_int64. by case_match.
  - intros [sum n]. repeat case_match; auto with clean.
Qed.

Lemma clean_post cmd stamp : clean (post cmd stamp).
Proof.
  unfold post.
  repeat match goal with
  | |- clean (tx_bind (lockAccounts _ _) _) => apply clean_bind; [apply clean_lockAccounts | intros [??]]
  | |- clean (tx_bind (assertBalanced _) _) => apply clean_bind; [apply clean_assertBalanced | intros ?]
  | |- clean (tx_bind (on_err _ (tx_bind _ _)) _) => apply clean_bind
  | |- clean (tx_bind _ _) => apply clean_bind; [auto with clean | intros ?]
  | |- clean (on_err _ _) => apply clean_on_err; [done |]
  | |- clean (if _ then _ else _) => case_match; [by apply clean_throw |]
  | |- clean (let _ := _ in _) => cbn zeta
  | |- clean (scan_one _) => unfold scan_one; case_match; auto with clean
  | |- forall _ : string * Z, _ => intros [??]
  | |- clean (tx_ret _) => apply clean_ret
  end.
Qed.

Lemma postOnce_clean cmd stamp env db : clean_tx env -> clean_result (snd (postOnce cmd stamp env db)).
Proof.
  intros He. unfold postOnce, run_tx.
  pose proof (ct_begin _ He) as Hb. pose proof (ct_commit _ He) as Hc.
  destruct (tx_begin env) as [e|]; [by apply (Hb e) |].
  pose proof (clean_post cmd stamp env (tx_start db) He) as Hp.
  destruct (post cmd stamp env (tx_start db)) as [st [t|e]]; [|done].
  destruct (run_all_deferred _ _); [done |]. by destruct (tx_commit env).
Qed.

Lemma createAccount_clean c env db :
  clean_tx env -> clean_result (snd (autocommit (createAccount_tx c) env db)).
Proof.
  intros He. unfold autocommit. pose proof (ct_commit _ He) as Hc.
  assert (Hp : clean (createAccount_tx c)) by (unfold createAccount_tx; auto with clean).
  specialize (Hp env (tx_start db) He).
  destruct (createAccount_tx c env (tx_start db)) as [st [t|e]]; [|done].
  destruct (run_all_deferred _ _); [done |]. by destruct (tx_commit env).
Qed.

Lemma handle_clean {R} {RC : UniversalClient R} e (w : World R) {B} (o : op B) :
  clean_client R -> clean_env e -> clean_answer B o (snd (handle e w o)).
Proof.
  intros HR (Ht & Hq & Hw).
  destruct o; simpl; unfold on_db, on_redis; try done.
  - pose proof (postOnce_clean cmd stamp _ (w_db w) Ht). by destruct (postOnce _ _ _ _).
  - pose proof (createAccount_clean currency _ (w_db w) Ht). by destruct (autocommit _ _ _).
  - destruct (env_query e) as [err|]; [by apply Hq | done].
  - destruct (HR (w_redis w) key value ttl) as (H & _). by destruct (SetNX _ _ _ _).
  - destruct (HR (w_redis w) key "" 0) as (_ & H & _). by destruct (Get _ _).
  - destruct (HR (w_redis w) key value ttl) as (_ & _ & H & _). by destruct (Set_ _ _ _ _).
  - destruct (HR (w_redis w) key "" 0) as (_ & _ & _ & H & _). by destruct (Del _ _).
  - destruct (HR (w_redis w) "" "" 0) as (_ & _ & _ & _ & H). by destruct (Ping _).
Qed.

(** ** Programs *)

Abbreviation clean_leaves P p := (leaves_if clean_answer P p).

(** A result whose error can be shown to a client. *)
Definition shown {A} (r : result A) : Prop :=
  match r with Ok _ => True | Err e => presentable e = true end.

Lemma clean_shown {A} (r : result A) : clean_result r -> shown r.
Proof. destruct r; [done | apply opaque_presentable]. Qed.

(** Reading rows. *)
Lemma scan_row_clean {A} (r : result (option A)) : clean_result r -> clean_result (scan_row r).
Proof. by destruct r as [[]|]. Qed.

Lemma CollectRows_clean {A B} (rows : list A) (scan : A -> B) :
  clean_leaves clean_result (CollectRows rows (fun a => Ok (scan a))).
Proof.
  assert (Hs : forall l, exists bs, scan_rows (fun a => Ok (scan a)) l = Ok bs).
  { induction l as [|a l [bs IH]]; simpl; [by eexists |]. rewrite IH. by eexists. }
  unfold CollectRows, read_stream. cbn [bind call leaves_if clean_answer]. intros [u|e] Hu; cbn [bind].
  - by destruct (Hs rows) as [bs ->].
  - cbn [call bind leaves_if]. intros n _. by destruct (Hs (take (Z.to_nat n) rows)) as [bs ->].
Qed.

Lemma Service_Get_clean id : clean_leaves clean_result (Service_Get id).
Proof.
  unfold Service_Get. cbn [bind call leaves_if clean_answer]. intros r Hr%scan_row_clean.
  destruct (scan_row r) as [t|e]; [done |]. by case_match.
Qed.

Lemma Account_Get_clean id : clean_leaves clean_result (Account_Get id).
Proof.
  unfold Account_Get. cbn [bind call leaves_if clean_answer]. intros r Hr%scan_row_clean.
  destruct (scan_row r) as [t|e]; [done |]. by case_match.
Qed.

Lemma EntriesForTransfer_clean id : clean_leaves clean_result (EntriesForTransfer id).
Proof.
  unfold EntriesForTransfer. cbn [bind call leaves_if clean_answer]. intros [rows|e] Hr; [|done].
  apply leaves_if_bind. eapply leaves_if_mono; [|apply CollectRows_clean].
  by intros [es|e].
Qed.

(** Validation errors say only what the request says. *)
Lemma Currency_Validate_shown c e : Currency_Validate c = Some e -> presentable e = true.
Proof. unfold Currency_Validate. by repeat case_match; intros; simplify_eq. Qed.

Lemma ParseCurrency_shown c : shown (ParseCurrency c).
Proof.
  unfold ParseCurrency. destruct (Currency_Validate c) eqn:E; [|done].
  by eapply Currency_Validate_shown.
Qed.

Lemma Command_Validate_shown cmd e : Command_Validate cmd = Some e -> presentable e = true.
Proof.
  unfold Command_Validate. case_match; [by intros; simplify_eq |].
  destruct (Currency_Validate _) eqn:E; [intros; simplify_eq; by eapply Currency_Validate_shown |].
  by repeat case_match; intros; simplify_eq.
Qed.

Lemma ParseKey_shown key : shown (ParseKey key).
Proof. unfold ParseKey. by repeat case_match. Qed.

Lemma Create_shown c : clean_leaves shown (Create c).
Proof.
  unfold Create. destruct (Currency_Validate c) eqn:E.
  - by eapply Currency_Validate_shown.
  - cbn [bind call leaves_if clean_answer]. intros [row|e] Hr; [done |]. by apply opaque_presentable.
Qed.

(** *** Posting *)

Lemma wait_clean p attempt : policy_ok p -> clean_leaves clean_option (wait p attempt).
Proof.
  intros Hp. unfold wait. cbn [bind call leaves_if]. intros draw _.
  destruct (delay_range p attempt draw Hp) as (d & -> & _). by case_match; intros o Ho.
Qed.

Lemma retry_loop_clean fuel p cmd stamp n a :
  policy_ok p -> 1 <= n <= max_attempts p -> fuel = Z.to_nat (max_attempts p - n + 1) ->
  clean_leaves (fun '(r, _) => clean_result r) (retry_loop fuel p cmd stamp n a).
Proof.
  intros Hp. revert fuel n a. induction fuel as [|fuel IH]; intros n a Hn Hf; [lia |].
  cbn [retry_loop bind call leaves_if clean_answer]. intros [t|e] Hr; [done |].
  destruct (retryableCode e) as [c b]. destruct b; cbn [negb]; [|done].
  destruct (Z.leb_spec (MaxAttempts p) n).
  - cbn [leaves_if clean_result]. by apply opaque_Wrap2.
  - apply leaves_if_bind. eapply leaves_if_mono; [|by apply wait_clean].
    intros [cerr|] Hc; cbn beta iota; [exact (Hc cerr eq_refl) |].
    apply IH; unfold max_attempts in *; lia.
Qed.

Section posting.
Context {UL : UuidLib} {RCo : RecordCodec}.
Variable s : Service.
Hypothesis Hpolicy : policy_ok (svc_retry s).

Lemma postWithRetry_shown cmd stamp :
  clean_leaves (fun '(r, _) => shown r) (postWithRetry (svc_retry s) cmd stamp).
Proof.
  unfold postWithRetry. destruct (Command_Validate cmd) eqn:E.
  - by eapply Command_Validate_shown.
  - eapply leaves_if_mono; [|apply retry_loop_clean; [done | unfold max_attempts; lia ..]].
    intros [r a]. apply clean_shown.
Qed.

(** An answer of [PostIdempotent]. *)
Definition shown_pair {A} (a : A * option goerr) : Prop :=
  forall e, snd a = Some e -> presentable e = true.

Lemma shown_None {A} (a : A) : shown_pair (a, None).
Proof. by intros e. Qed.
Lemma shown_Some {A} (a : A) e : presentable e = true -> shown_pair (a, Some e).
Proof. by intros He e' [= <-]. Qed.

Lemma recoverFromDatabase_clean key f : clean_leaves clean_result (recoverFromDatabase key f).
Proof.
  unfold recoverFromDatabase. cbn [bind call leaves_if clean_answer]. intros r Hr%scan_row_clean.
  destruct (scan_row r) as [t|e]; [|by case_match].
  destruct (FingerprintFromBytes _) as [f'|e] eqn:Hf.
  - by repeat case_match.
  - unfold FingerprintFromBytes in Hf. by case_match; simplify_eq.
Qed.

(** Writes to Redis whose outcome the caller does not look into. *)
Lemma cacheCompletion_clean key f id : clean_leaves (fun _ => True) (cacheCompletion s key f id).
Proof.
  unfold cacheCompletion, Complete. destruct (svc_idem s) as [st|]; [|done]. simpl.
  destruct (st_client st); [|done]. simpl. intros t1 _ t2 _ [|] _; done.
Qed.

Lemma releaseClaim_clean key : clean_leaves (fun _ => True) (releaseClaim s key).
Proof.
  unfold releaseClaim, Release. destruct (svc_idem s) as [st|]; [|done]. simpl.
  destruct (st_client st); [|done]. simpl. by intros [].
Qed.

Lemma postClaimed_shown key f cmd degraded :
  clean_leaves shown_pair (postClaimed s key f cmd degraded).
Proof.
  unfold postClaimed. apply leaves_if_bind. eapply leaves_if_mono; [|apply postWithRetry_shown].
  intros [[t|e] a] Hr; cbn beta iota.
  - apply leaves_if_bind. eapply leaves_if_mono; [|apply cacheCompletion_clean].
    intros cached _. apply shown_None.
  - destruct (isDuplicateIdempotencyKey e).
    + apply leaves_if_bind. eapply leaves_if_mono; [|apply recoverFromDatabase_clean].
      intros [[r|]|e'] Hr'; cbn beta iota.
      * apply leaves_if_bind. eapply leaves_if_mono; [|apply cacheCompletion_clean].
        intros cached _. apply shown_None.
      * by apply shown_Some.
      * by apply shown_Some, opaque_presentable.
    + apply leaves_if_bind. eapply leaves_if_mono; [|apply releaseClaim_clean].
      intros u _. by apply shown_Some.
Qed.

Lemma acquire_loop_clean n st key encoded : clean_leaves clean_result (acquire_loop n st key encoded).
Proof.
  induction n as [|n IH]; [done |]. cbn [acquire_loop bind call leaves_if clean_answer].
  assert (Hun : forall e, opaque e = true -> opaque (unavailable e) = true)
    by (intros e He; by apply opaque_Wrap2).
  intros [[]|e] Hr; [done | | by apply Hun].
  unfold get. cbn [bind call leaves_if clean_answer]. intros [[raw|]|e] Hg; cbn [bind].
  - by destruct (Unmarshal raw).
  - apply IH.
  - by apply Hun.
Qed.

Lemma Acquire_clean key f : clean_leaves clean_result (Acquire (svc_idem s) key f).
Proof.
  destruct (svc_idem s) as [st|]; [|done]. unfold Acquire. destruct (st_client st); [|done].
  cbn [bind call leaves_if]. intros now _. apply acquire_loop_clean.
Qed.

Lemma PostIdempotent_shown key cmd : clean_leaves shown_pair (PostIdempotent s key cmd).
Proof.
  unfold PostIdempotent. pose proof (ParseKey_shown key) as Hk.
  destruct (ParseKey key) as [k|e]; [|by apply shown_Some].
  destruct (Command_Validate cmd) as [e|] eqn:Hv; [by eapply shown_Some, Command_Validate_shown |].
  cbn zeta. destruct (negb (negb _)); [|apply postClaimed_shown].
  apply leaves_if_bind. eapply leaves_if_mono; [|apply Acquire_clean].
  intros [claim|err] Hc; cbn beta iota.
  - destruct (negb (Acquired claim)); [|apply postClaimed_shown]. unfold resolveExisting.
    destruct (negb (Matches _ _)); [by apply shown_Some |].
    apply leaves_if_bind. eapply leaves_if_mono; [|apply recoverFromDatabase_clean].
    intros [[r|]|e] Hr; cbn beta iota.
    + apply shown_None.
    + case_bool_decide; [apply postClaimed_shown | by apply shown_Some].
    + by apply shown_Some, opaque_presentable.
  - destruct (errors_Is err ErrUnavailable); [apply postClaimed_shown |].
    destruct (errors_Is err ErrInProgress); [by apply shown_Some |].
    by apply shown_Some, opaque_presentable.
Qed.

(** *** The handlers *)

(** A reply, or a status with nothing internal in it. *)
Definition public_answer {A} (r : result A) : Prop :=
  match r with Ok _ => True | Err e => public_status e end.

(** The common end of every handler. *)
Lemma finish_public {A B} (p : prog (result A)) (f : A -> B) :
  clean_leaves shown p ->
  clean_leaves public_answer
    (bind p (fun r => match r with Err err => refuse err | Ok a => Ret (Ok (f a)) end)).
Proof.
  intros Hp. apply leaves_if_bind. eapply leaves_if_mono; [|exact Hp].
  intros [a|e] Hr; [done |]. by apply toStatus_presentable.
Qed.

Lemma refuse_public {A} e : presentable e = true -> clean_leaves public_answer (refuse (A := A) e).
Proof. apply toStatus_presentable. Qed.

Lemma parseUUID_shown field raw : shown (parseUUID field raw).
Proof. unfold parseUUID. by repeat case_match. Qed.

Lemma parseCurrency_shown c : shown (parseCurrency c).
Proof. unfold parseCurrency. pose proof (ParseCurrency_shown c). by destruct (ParseCurrency c). Qed.

Lemma clean_leaves_shown {A} (p : prog (result A)) : clean_leaves clean_result p -> clean_leaves shown p.
Proof. intros H. eapply leaves_if_mono; [|exact H]. apply clean_shown. Qed.

Lemma CreateTransfer_public req : clean_leaves public_answer (CreateTransfer s req).
Proof.
  unfold CreateTransfer. pose proof (ParseKey_shown (rq_IdempotencyKey req)).
  destruct (ParseKey _) as [key|e]; [|by apply refuse_public].
  pose proof (parseUUID_shown "source_account_id" (rq_SourceAccountId req)).
  destruct (parseUUID _ (rq_SourceAccountId req)) as [src|e]; [|by apply refuse_public].
  pose proof (parseUUID_shown "destination_account_id" (rq_DestinationAccountId req)).
  destruct (parseUUID _ (rq_DestinationAccountId req)) as [dst|e]; [|by apply refuse_public].
  pose proof (parseCurrency_shown (rq_Currency req)).
  destruct (parseCurrency _) as [cur|e]; [|by apply refuse_public].
  case_match; [by apply refuse_public |].
  apply leaves_if_bind. eapply leaves_if_mono; [|apply PostIdempotent_shown].
  intros [r [e|]] Hr; [|done]. apply refuse_public. by apply Hr.
Qed.

Lemma GetTransfer_public id : clean_leaves public_answer (GetTransfer id).
Proof.
  unfold GetTransfer. pose proof (parseUUID_shown "id" id).
  destruct (parseUUID _ _); [|by apply refuse_public].
  apply finish_public, clean_leaves_shown, Service_Get_clean.
Qed.

Lemma GetAccount_public id : clean_leaves public_answer (GetAccount id).
Proof.
  unfold GetAccount. pose proof (parseUUID_shown "id" id).
  destruct (parseUUID _ _); [|by apply refuse_public].
  apply finish_public, clean_leaves_shown, Account_Get_clean.
Qed.

Lemma CreateAccount_public c : clean_leaves public_answer (CreateAccount c).
Proof.
  unfold CreateAccount. pose proof (parseCurrency_shown c).
  destruct (parseCurrency c); [|by apply refuse_public]. apply finish_public, Create_shown.
Qed.

Lemma ListLedgerEntriesForTransfer_public id :
  clean_leaves public_answer (ListLedgerEntriesForTransfer id).
Proof.
  unfold ListLedgerEntriesForTransfer. pose proof (parseUUID_shown "transfer_id" id).
  destruct (parseUUID _ _); [|by apply refuse_public].
  apply leaves_if_bind. eapply leaves_if_mono; [|apply Service_Get_clean].
  intros [t|e] Hr; [|by apply refuse_public, opaque_presentable].
  apply finish_public, clean_leaves_shown, EntriesForTransfer_clean.
Qed.

Lemma dispatch_public r : clean_leaves public_answer (dispatch s r).
Proof.
  assert (Hrep : forall A (f : A -> Reply) p,
    clean_leaves public_answer p -> clean_leaves public_answer (replying f p)).
  { intros A f p Hp. apply leaves_if_bind. eapply leaves_if_mono; [|exact Hp]. by intros []. }
  destruct r; apply Hrep; [apply CreateAccount_public | apply GetAccount_public
    | apply CreateTransfer_public | apply GetTransfer_public | apply ListLedgerEntriesForTransfer_public].
Qed.
End posting.

Section leak.
Context {UL : UuidLib} {RCo : RecordCodec} {K : Type} {JL : JwtLib K}.
Context {R : Type} {RC : UniversalClient R}.

Lemma guarded_public {A} verifier m (h : UnaryHandler A) ctx :
  (forall c, clean_leaves public_answer (h c)) ->
  clean_leaves public_answer (authenticate verifier m (authorize m h) ctx).
Proof.
  intros Hh. assert (Ha : forall c, clean_leaves public_answer (authorize m h c)).
  { intros c. unfold authorize. repeat case_match; try apply Hh; by repeat eexists. }
  unfold authenticate. destruct (isUnauthenticated m); [apply Ha |].
  destruct verifier as [v|]; [|by repeat eexists]. destruct (ctx_metadata ctx); [|by repeat eexists].
  destruct (TokenFromAuthorization _); [|by repeat eexists].
  unfold Verify. destruct (is_empty _); [by repeat eexists |]. cbn [bind call leaves_if].
  intros now _. destruct (match ParseWithClaims _ _ _ _ with Ok _ => _ | Err _ => _ end);
    [apply Ha | by repeat eexists].
Qed.

(** C12. Nothing internal leaks: as long as the errors of the driver, of Redis
    and of the context are not the program's own validation errors or gRPC
    statuses, every RPC returns, and what the client sees is a reply or a
    status other than OK whose message holds no text of a driver, of the
    database server or of the runtime. *)
Theorem no_internal_leak s verifier md r es (w : World R) :
  policy_ok (svc_retry s) -> clean_client R -> (forall n, clean_env (es n)) ->
  exists w' a line, run (serve_rpc s verifier md r) es w = (w', Some (a, line)) /\ public_answer a.
Proof.
  intros Hp HR He.
  destruct (leaves_if_run clean_answer (fun '(a, _) => public_answer a)
              (serve_rpc s verifier md r) es w) as (w' & [a line] & Hrun & Ha).
  - intros n w0 B o. by apply handle_clean.
  - unfold serve_rpc, chain, logRequests. cbn [bind call leaves_if]. intros t0 _.
    apply leaves_if_bind. eapply leaves_if_mono; [|apply guarded_public; intros; by apply dispatch_public].
    intros a Ha. cbn [bind call leaves_if]. by intros t1 _.
  - by exists w', a, line.
Qed.
End leak.

(** A database that answers every query with an error of its own. *)
Definition failing_env (n : nat) : Env :=
  mkEnv (scn_tx n) (Some (PgErr (mkPgError "57P01" "pg_hba.conf"))) 0 0 None.

Definition account_token : string := "RS256.k1.idp.payments.alice.60000000000.accounts:read".

Lemma no_internal_leak_witness :
  exists w' line,
    run (serve_rpc scn_service (Some prod_verifier) (scn_md account_token)
           (RpcGetAccount (uuid_String alice))) failing_env scn_world
    = (w', Some (Err (status Internal "internal error"), line))
    /\ public_answer (A := Reply) (Err (status Internal "internal error")).
Proof.
  destruct (no_internal_leak scn_service (Some prod_verifier) (scn_md account_token)
              (RpcGetAccount (uuid_String alice)) failing_env scn_world)
    as (w' & a & line & Hrun & Ha).
  - reflexivity.
  - intros r k v ttl. repeat split. simpl. by case_match.
  - intros n. repeat split; try done. by intros e [= <-].
  - assert (Hsnd : Some (a, line) = snd (run (serve_rpc scn_service (Some prod_verifier)
      (scn_md account_token) (RpcGetAccount (uuid_String alice))) failing_env scn_world))
      by (by rewrite Hrun).
    vm_compute in Hsnd. injection Hsnd as -> ->. exists w'. eexists. split; [exact Hrun | exact Ha].
Defined.
