(* ===== verification/RetrySpec.v ===== *)
(** * The retry loop: bounds and accounting *)
From stdpp Require Import base gmap fin_maps strings list.
From Stdlib Require Import ZArith Lia Ascii.
From S2P Require Import Prelude.
From S2P Require Import GoStd.
From S2P Require Import Uuid.
From S2P Require Import Errors.
From S2P Require Import Money.
From S2P Require Import Schema.
From S2P Require Import Tx.
From S2P Require Import Transfer.
From S2P Require Import Prog.
From S2P Require Import Retry.
From S2P Require Import Store.
From S2P Require Import Instances.
From S2P Require Import Idempotent.
From S2P Require Import Scenario.

Open Scope Z_scope.

(** C9. Under a policy whose longest delay is below the largest duration (the
    deployed one is), the loop always ends, within its attempt budget and without a
    panic, whatever the database, the clock and the random source do. A command that
    does not validate costs no transaction. Otherwise [Attempts.Total] is the
    number of transactions that ran, at least one and at most the budget; every
    attempt before a success or before a final error failed with 40001 or
    40P01 and is counted as such; the error is either one that must not be
    retried, or [ErrRetriesExhausted] with the budget used up, or the
    cancellation. *)
Theorem retry_loop_bounded {R} {RC : UniversalClient R} p cmd stamp es (w : World R) :
  policy_ok p ->
  exists w' r a, run (postWithRetry p cmd stamp) es w = (w', Some (r, a))
    /\ match Command_Validate cmd with
       | Some e => w' = w /\ r = Err e /\ a = mkAttempts 0 0 0
                   /\ run_cost cost_posts (postWithRetry p cmd stamp) es w = 0
       | None => loop_outcome p r a
                 /\ run_cost cost_posts (postWithRetry p cmd stamp) es w = Total a
       end.
Proof.
  intros Hp. unfold postWithRetry. destruct (Command_Validate cmd) as [e|]; [by repeat eexists |].
  destruct (tally_run cost_posts _ _ 0 es w
    (retry_loop_leaves (Z.to_nat (Z.max 1 (MaxAttempts p))) p cmd stamp 1 (mkAttempts 0 0 0) 0 Hp
       ltac:(unfold max_attempts; lia) ltac:(unfold max_attempts; lia)
       ltac:(unfold counted; simpl; lia))) as (w' & [r a] & Hr & Ho & _ & Hc).
  exists w', r, a. split; [done |]. split; [done | lia].
Qed.

(** Under the default policy a call runs at most 20 transactions and sleeps
    at most 1.327 s in all. *)
Lemma default_backoff_bounded {R} {RC : UniversalClient R} cmd stamp es (w : World R) :
  run_cost cost_sleep (postWithRetry DefaultRetryPolicy cmd stamp) es w <= 1327 * Millisecond
  /\ run_cost cost_posts (postWithRetry DefaultRetryPolicy cmd stamp) es w <= 20.
Proof.
  unfold postWithRetry. destruct (Command_Validate cmd) as [e|]; [simpl; unfold Millisecond; lia |].
  assert (Hp : policy_ok DefaultRetryPolicy) by (by vm_compute). split.
  - destruct (tally_run cost_sleep _ _ 0 es w
      (retry_loop_sleep (Z.to_nat (Z.max 1 (MaxAttempts DefaultRetryPolicy))) DefaultRetryPolicy cmd
         stamp 1 (mkAttempts 0 0 0) 0 Hp ltac:(done) ltac:(done))) as (w' & ra & _ & Hs).
    etrans; [exact Hs |]. by vm_compute.
  - destruct (tally_run cost_posts _ _ 0 es w
      (retry_loop_leaves (Z.to_nat (Z.max 1 (MaxAttempts DefaultRetryPolicy))) DefaultRetryPolicy cmd
         stamp 1 (mkAttempts 0 0 0) 0 Hp ltac:(done) ltac:(done)
         ltac:(unfold counted; simpl; lia))) as (w' & [r a] & _ & ((_ & Ht) & _) & _ & Hc).
    unfold max_attempts in Ht. simpl in Ht. lia.
Qed.

(** The backoff after attempt [n] is drawn from [0, min(base * 2^(n-1), cap)],
    both ends included, whatever the random source draws; it is never negative,
    never above the cap and never a panic. *)
Lemma delay_full_jitter p n draw :
  0 < BaseDelay p <= MaxDelay p -> MaxDelay p < 2 ^ 62 -> 1 <= n ->
  exists d, delay p n draw = Some d
    /\ 0 <= d <= Z.min (BaseDelay p * 2 ^ (n - 1)) (MaxDelay p)
    /\ (0 <= draw <= Z.min (BaseDelay p * 2 ^ (n - 1)) (MaxDelay p) -> d = draw).
Proof.
  intros Hb Hm Hn. pose proof (delay_ceiling_spec p n) as Hc.
  pose proof (Z.pow_pos_nonneg 2 (n - 1)).
  destruct (delay_range p n draw) as (d & Hd & Hr); [unfold policy_ok, int64_max; lia |].
  rewrite Hc in Hr by lia. exists d. split; [done |]. split; [nia |].
  intros Hdraw. unfold delay in Hd. rewrite Hc in Hd by lia.
  destruct (Z.leb_spec (Z.min (BaseDelay p * 2 ^ (n - 1)) (MaxDelay p)) 0); [nia |].
  unfold Int64N in Hd. rewrite wrap64_id in Hd
    by (apply in_int64_spec; unfold int64_min, int64_max; nia).
  destruct (_ <=? 0); [done |]. injection Hd as <-. apply Z.mod_small. lia.
Qed.

(** A cap of the largest [time.Duration] makes the first backoff that
    reaches it panic: the upper bound handed to the random source wraps
    around. *)
Lemma delay_cap_overflow draw :
  delay (mkRetryPolicy 5 int64_max int64_max) 1 draw = None.
Proof. reflexivity. Qed.

Lemma retry_loop_bounded_witness :
  exists w' r a,
    run (postWithRetry DefaultRetryPolicy scn_cmd None) scn_env scn_world = (w', Some (r, a))
    /\ loop_outcome DefaultRetryPolicy r a.
Proof.
  destruct (retry_loop_bounded DefaultRetryPolicy scn_cmd None scn_env scn_world)
    as (w' & r & a & Hr & H); [by vm_compute |].
  exists w', r, a. split; [exact Hr |].
  assert (E : Command_Validate scn_cmd = None) by (vm_compute; reflexivity).
  rewrite E in H. exact (proj1 H).
Defined.
