(* ===== verification/Locks.v ===== *)
(** * Row locks: why the canonical order cannot deadlock

    [SELECT ... FOR UPDATE] takes a row lock that is held until the
    transaction ends; a second transaction that wants the row waits. The lock
    table is the state, a transaction is the rows it holds and the rows it has
    still to request, in order. *)
From stdpp Require Import base gmap fin_maps strings list relations sorting.
From Stdlib Require Import ZArith Lia Ascii.
From S2P Require Import Prelude.
From S2P Require Import GoStd.
From S2P Require Import Uuid.
From S2P Require Import Errors.
From S2P Require Import Money.
From S2P Require Import Schema.
From S2P Require Import Tx.
From S2P Require Import Transfer.
From S2P Require Import Posting.
From S2P Require Import Scenario.

Open Scope Z_scope.

(** The rows [lockAccounts] locks, in the order of its two statements. *)
Definition lock_sequence (cmd : Command) : list UUID :=
  let '(first, second) := lockOrder (c_SourceAccountID cmd) (c_DestinationAccountID cmd) in
  [first; second].

(** One [SELECT ... FOR UPDATE] per row, in order, each after the one before it
    has returned its row. *)
Fixpoint lock_rows (sourceID : UUID) (rows : list UUID) : tx (list account) :=
  match rows with
  | [] => tx_ret []
  | row :: rows' =>
      (locked <- on_err (fun err => missingAccountError err row sourceID) (lockAccount row) ;;
       others <- lock_rows sourceID rows' ;;
       tx_ret (locked :: others))%tx
  end.

(** [lockAccounts] issues exactly the statements of [lock_sequence], in its order,
    and after them none. *)
Definition takes_locks_of (cmd : Command) : Prop :=
  exists k : list account -> tx (account * account),
    (forall rows env st, (k rows env st).1 = st)
    /\ forall env st,
         lockAccounts (c_SourceAccountID cmd) (c_DestinationAccountID cmd) env st
         = tx_bind (lock_rows (c_SourceAccountID cmd) (lock_sequence cmd)) k env st.

Lemma lockAccounts_takes cmd : takes_locks_of cmd.
Proof.
  exists (fun rows => match rows with
                 | [lockedFirst; lockedSecond] =>
                     if uuid_eqb (acc_id lockedFirst) (c_SourceAccountID cmd)
                     then tx_ret (lockedFirst, lockedSecond) else tx_ret (lockedSecond, lockedFirst)
                 | _ => throw pgx_ErrNoRows
                 end).
  split; [intros rows env st; by repeat case_match |]. intros env st.
  unfold lockAccounts, lock_sequence. destruct (lockOrder _ _) as [first second].
  cbn [lock_rows]. unfold tx_bind. destruct (on_err _ (lockAccount first) env st) as [st1 [a|e]]; [|done].
  by destruct (on_err _ (lockAccount second) env st1) as [st2 [b|e]].
Qed.

Record txn := mkTxn { held : list UUID; want : list UUID }.

Definition finished (t : txn) : Prop := held t = [] /\ want t = [].

(** [FOR UPDATE] on a row another transaction holds blocks. *)
Definition free_for (i : nat) (a : UUID) (ts : list txn) : Prop :=
  forall j t, ts !! j = Some t -> j <> i -> a ∉ held t.

Inductive lock_step : list txn -> list txn -> Prop :=
  | lock_acquire ts i t a rest :
      ts !! i = Some t -> want t = a :: rest -> free_for i a ts ->
      lock_step ts (<[i := mkTxn (a :: held t) rest]> ts)
  (* COMMIT or ROLLBACK releases everything, at any moment after the last lock *)
  | lock_release ts i t :
      ts !! i = Some t -> want t = [] -> held t <> [] ->
      lock_step ts (<[i := mkTxn [] []]> ts)
  (* an error, a cancellation or a crash ends a transaction early *)
  | lock_abort ts i t :
      ts !! i = Some t -> ~ finished t ->
      lock_step ts (<[i := mkTxn [] []]> ts).

(** Steps a transaction takes of its own accord: no aborts. *)
Inductive progress_step : list txn -> list txn -> Prop :=
  | progress_acquire ts i t a rest :
      ts !! i = Some t -> want t = a :: rest -> free_for i a ts ->
      progress_step ts (<[i := mkTxn (a :: held t) rest]> ts)
  | progress_release ts i t :
      ts !! i = Some t -> want t = [] -> held t <> [] ->
      progress_step ts (<[i := mkTxn [] []]> ts).

Definition start (cmd : Command) : txn := mkTxn [] (lock_sequence cmd).

(** The two rows come in increasing order, whichever is the source. *)
Lemma lock_sequence_sorted cmd :
  c_SourceAccountID cmd <> c_DestinationAccountID cmd ->
  exists a b, lock_sequence cmd = [a; b] /\ ult a b.
Proof.
  intros Hne. unfold lock_sequence, lockOrder.
  destruct (Z.leb_spec (ucompare (c_SourceAccountID cmd) (c_DestinationAccountID cmd)) 0) as [H|H].
  - eexists _, _. split; [done |]. unfold ult.
    assert (ucompare (c_SourceAccountID cmd) (c_DestinationAccountID cmd) <> 0); [|lia].
    by intros ?%ucompare_eq.
  - eexists _, _. split; [done |]. unfold ult. rewrite ucompare_antisym. lia.
Qed.

(** Everything held is below everything wanted, and wants are increasing. *)
Record ordered (t : txn) : Prop := {
  ord_held : forall a b, a ∈ held t -> b ∈ want t -> ult a b;
  ord_want : StronglySorted ult (want t)
}.

Lemma ordered_done : ordered (mkTxn [] []).
Proof. split; [by intros a b ?%elem_of_nil | constructor]. Qed.

Lemma ordered_start cmd :
  c_SourceAccountID cmd <> c_DestinationAccountID cmd -> ordered (start cmd).
Proof.
  intros Hne. destruct (lock_sequence_sorted cmd Hne) as (a & b & E & Hab).
  unfold start. rewrite E. split; simpl; [by intros ? ? ?%elem_of_nil |].
  repeat constructor. done.
Qed.

Lemma ordered_acquire t a rest :
  ordered t -> want t = a :: rest -> ordered (mkTxn (a :: held t) rest).
Proof.
  intros [Hh Hw] E. rewrite E in *. apply StronglySorted_inv in Hw as [Hrest Ha].
  split; simpl; [|done]. intros x y [->|Hx]%elem_of_cons Hy.
  - rewrite Forall_forall in Ha. by apply Ha.
  - apply Hh; [done |]. by right.
Qed.

Definition all_ordered (ts : list txn) : Prop := forall i t, ts !! i = Some t -> ordered t.

(** Two transactions never hold the same row. *)
Definition exclusive (ts : list txn) : Prop :=
  forall i j t u a, ts !! i = Some t -> ts !! j = Some u -> a ∈ held t -> a ∈ held u -> i = j.

Lemma all_ordered_insert ts i t : all_ordered ts -> ordered t -> all_ordered (<[i := t]> ts).
Proof. intros H Ht j u [(<- & <- & _)|[_ Hj]]%list_lookup_insert_Some; eauto. Qed.

Lemma exclusive_done ts i : exclusive ts -> exclusive (<[i := mkTxn [] []]> ts).
Proof.
  intros H j k t u a [(<- & <- & _)|[_ Hj]]%list_lookup_insert_Some
    [(<- & <- & _)|[_ Hk]]%list_lookup_insert_Some; simpl; first [set_solver | eauto].
Qed.

Lemma exclusive_acquire ts i t a rest :
  exclusive ts -> ts !! i = Some t -> free_for i a ts ->
  exclusive (<[i := mkTxn (a :: held t) rest]> ts).
Proof.
  intros H Hi Hfree j k u v b Hj Hk Hu Hv.
  destruct (decide (j = i)) as [->|Hji], (decide (k = i)) as [->|Hki]; [done | | |].
  - rewrite list_lookup_insert_ne in Hk by done.
    rewrite list_lookup_insert_eq in Hj by (by eapply lookup_lt_Some). injection Hj as <-.
    simpl in Hu. apply elem_of_cons in Hu as [->|Hu]; [by destruct (Hfree _ _ Hk Hki) | eauto].
  - rewrite list_lookup_insert_ne in Hj by done.
    rewrite list_lookup_insert_eq in Hk by (by eapply lookup_lt_Some). injection Hk as <-.
    simpl in Hv. apply elem_of_cons in Hv as [->|Hv]; [by destruct (Hfree _ _ Hj Hji) | eauto].
  - rewrite !list_lookup_insert_ne in Hj, Hk by done. eauto.
Qed.

Lemma lock_step_inv ts ts' :
  lock_step ts ts' -> all_ordered ts /\ exclusive ts -> all_ordered ts' /\ exclusive ts'.
Proof.
  intros Hs [Ho He]. destruct Hs as [ts i t a rest Hi Hw Hf|ts i t Hi Hw Hh|ts i t Hi Hn].
  - split; [|by apply exclusive_acquire]. apply all_ordered_insert; [done |].
    by apply ordered_acquire; [eapply Ho |].
  - split; [|by apply exclusive_done]. by apply all_ordered_insert, ordered_done.
  - split; [|by apply exclusive_done]. by apply all_ordered_insert, ordered_done.
Qed.

Lemma lock_steps_inv cmds ts :
  Forall (fun cmd => c_SourceAccountID cmd <> c_DestinationAccountID cmd) cmds ->
  rtc lock_step (start <$> cmds) ts -> all_ordered ts /\ exclusive ts.
Proof.
  intros Hc Hs. assert (H0 : all_ordered (start <$> cmds) /\ exclusive (start <$> cmds)).
  { split.
    - intros i t Hi. rewrite list_lookup_fmap in Hi. apply fmap_Some in Hi as (cmd & Hi & ->).
      apply ordered_start. eapply Forall_lookup_1 in Hc; eauto.
    - intros i j t u a Hi _ Ha. rewrite list_lookup_fmap in Hi. apply fmap_Some in Hi as (cmd & _ & ->).
      by apply elem_of_nil in Ha. }
  revert H0. induction Hs; eauto using lock_step_inv.
Qed.

(** Among the unfinished transactions that wait, one waits for the greatest row. *)
Definition head_want (t : txn) : option UUID := head (want t).

Lemma max_want (ts : list txn) :
  (forall i t, ts !! i = Some t -> want t = []) \/
  exists i t a, ts !! i = Some t /\ head_want t = Some a
    /\ forall j u b, ts !! j = Some u -> head_want u = Some b -> ~ ult a b.
Proof.
  induction ts as [|t ts IH]; [by left |].
  destruct (want t) as [|a rest] eqn:Hw.
  - destruct IH as [IH|(i & u & b & Hi & Hb & Hmax)].
    + left. intros [|i] u; simpl; [by intros [= <-] | apply IH].
    + right. exists (S i), u, b. split; [done |]. split; [done |].
      intros [|j] v c; simpl; [|apply Hmax]. intros [= <-]. unfold head_want. by rewrite Hw.
  - right. destruct IH as [IH|(i & u & b & Hi & Hb & Hmax)].
    + exists O, t, a. unfold head_want. rewrite Hw. split_and!; [done | done |].
      intros [|j] v c; simpl.
      * intros [= <-]. rewrite Hw. intros [= <-]. apply (irreflexivity ult).
      * intros Hv%IH. by rewrite Hv.
    + destruct (decide (ult a b)) as [Hab|Hab].
      * exists (S i), u, b. split_and!; [done | done |]. intros [|j] v c; simpl; [|apply Hmax].
        intros [= <-]. unfold head_want. rewrite Hw. intros [= <-] Hba.
        apply (irreflexivity ult a). by etrans.
      * exists O, t, a. unfold head_want at 1. rewrite Hw. split_and!; [done | done |].
        intros [|j] v c; simpl.
        -- intros [= <-]. unfold head_want. rewrite Hw. intros [= <-]. apply (irreflexivity ult).
        -- intros Hv Hc Hac. apply (Hmax _ _ _ Hv Hc).
           destruct (ult_total a b) as [?|[->|Hba]]; [done | done | by etrans].
Qed.

(** C10. Deadlock freedom. Any number of transfers over any accounts, in any
    directions, each locking its two rows in the order of [lockOrder] and
    holding them to the end: in every reachable state, unless all transactions
    are finished, one of them can take its next step by itself. Two
    transactions never hold the same row. The rows a transfer requests, and
    their order, are those of the statements [lockAccounts] issues. *)
Theorem canonical_order_no_deadlock cmds ts :
  Forall (fun cmd => c_SourceAccountID cmd <> c_DestinationAccountID cmd) cmds ->
  rtc lock_step (start <$> cmds) ts ->
  Forall takes_locks_of cmds
  /\ exclusive ts
  /\ ((forall i t, ts !! i = Some t -> finished t) \/ exists ts', progress_step ts ts').
Proof.
  intros Hc Hs. destruct (lock_steps_inv _ _ Hc Hs) as [Ho He].
  split; [apply Forall_forall; intros; apply lockAccounts_takes |]. split; [done |].
  destruct (max_want ts) as [Hnone|(i & t & a & Hi & Ha & Hmax)].
  - (* nobody waits: a transaction that still holds a row can release it *)
    destruct (decide (Forall (fun t => held t = []) ts)) as [Hall|Hsome].
    + left. intros i t Hi. split; [by eapply Forall_lookup_1 in Hall | eauto].
    + right. apply not_Forall_Exists in Hsome; [|apply _].
      apply Exists_exists in Hsome as (t & Hin & Hh).
      apply list_elem_of_lookup in Hin as [i Hi]. eexists. by eapply progress_release; eauto.
  - (* the one that waits for the greatest row gets it *)
    right. unfold head_want in Ha. destruct (want t) as [|a' rest] eqn:Hw; simplify_eq/=.
    destruct (decide (Forall (fun u => a ∉ held u) ts)) as [Hall|Hsome].
    + eexists. eapply progress_acquire; [done | done |]. intros j u Hj _.
      by eapply Forall_lookup_1 in Hall.
    + apply not_Forall_Exists in Hsome; [|apply _].
      apply Exists_exists in Hsome as (u & Hin & Hh). apply dec_stable in Hh.
      apply list_elem_of_lookup in Hin as [j Hj]. destruct (want u) as [|b rest'] eqn:Hwu.
      * eexists. eapply progress_release; [done | done |]. intros E. rewrite E in Hh. set_solver.
      * exfalso. apply (Hmax _ _ b Hj); [unfold head_want; by rewrite Hwu |].
        apply (ord_held _ (Ho _ _ Hj)); [done |]. rewrite Hwu. left.
Qed.

(** The lock order belongs to the pair of accounts, not to the direction of
    the transfer: it is the same both ways, names the same two rows, and puts
    the smaller identifier first. *)
Lemma lockOrder_canonical a b :
  lockOrder a b = lockOrder b a
  /\ (lockOrder a b = (a, b) \/ lockOrder a b = (b, a))
  /\ ucompare (fst (lockOrder a b)) (snd (lockOrder a b)) <= 0.
Proof.
  unfold lockOrder. rewrite (ucompare_antisym a b).
  destruct (Z.leb_spec (ucompare a b) 0), (Z.leb_spec (- ucompare a b) 0); simpl;
    rewrite ?(ucompare_antisym a b); split_and!; auto; try lia.
  assert (E : ucompare a b = 0) by lia. by rewrite (ucompare_eq _ _ E).
Qed.

(** Opposite transfers over the same pair of accounts. *)
Definition scn_back : Command := mkCommand bob alice 1 "USD".

Lemma canonical_order_no_deadlock_witness :
  exists ts', progress_step [mkTxn [alice] [bob]; mkTxn [] [alice; bob]] ts'.
Proof.
  assert (Hs : rtc lock_step (start <$> [scn_cmd; scn_back])
                 [mkTxn [alice] [bob]; mkTxn [] [alice; bob]]).
  { eapply rtc_once.
    apply (lock_acquire [mkTxn [] [alice; bob]; mkTxn [] [alice; bob]] 0 (mkTxn [] [alice; bob]) alice [bob]);
      [reflexivity | reflexivity |].
    intros [|[|j]] t; simpl; intros; simplify_eq/=; set_solver. }
  assert (Hc : Forall (fun cmd => c_SourceAccountID cmd <> c_DestinationAccountID cmd)
                 [scn_cmd; scn_back]) by (repeat constructor; vm_compute; discriminate).
  destruct (canonical_order_no_deadlock [scn_cmd; scn_back] _ Hc Hs) as [_ [_ [H|H]]].
  - destruct (H 0%nat _ eq_refl) as [H' _]. discriminate H'.
  - exact H.
Defined.

(** Locking the source first instead can block two opposite transfers for good. *)
Lemma source_first_deadlock :
  let t1 := mkTxn [alice] [bob] in let t2 := mkTxn [bob] [alice] in
  forall ts', ~ progress_step [t1; t2] ts'.
Proof.
  intros t1 t2 ts' Hs. inversion Hs as [ts i t a rest Hi Hw Hf|ts i t Hi Hw Hh]; subst.
  - destruct i as [|[|i]]; simplify_eq/=.
    + apply (Hf 1%nat t2); [done | done | left].
    + apply (Hf 0%nat t1); [done | done | left].
  - destruct i as [|[|i]]; simplify_eq/=.
Qed.
