(* ===== verification/Concurrency.v ===== *)
(** * Reasoning about interleaved requests

    [eff o db db' b]: what an operation may do to the database and answer,
    whatever the environment does; a Redis command may answer anything at all.
    [safe I okay Q p db]: from [db], under interference that only moves up in
    [db_le] and keeps [I], every operation the program attempts is [okay] and
    whatever it returns satisfies [Q]. [system_sound] lifts [safe] from one
    program to any number of them interleaved. *)
From stdpp Require Import base gmap fin_maps strings list relations.
From Stdlib Require Import ZArith Lia Ascii.
From S2P Require Import Prelude.
From S2P Require Import GoStd.
From S2P Require Import Uuid.
From S2P Require Import Errors.
From S2P Require Import Money.
From S2P Require Import Schema.
From S2P Require Import Tx.
From S2P Require Import Transfer.
From S2P Require Import Posting.
From S2P Require Import LedgerInv.
From S2P Require Import Prog.

Open Scope Z_scope.

(** ** What the writing operations do to the database *)

(** The outcome of one attempt: nothing happened and an error is reported, or
    the abstract posting was applied, and reported unless the acknowledgement
    of [COMMIT] was lost. *)
Lemma postOnce_cases cmd stamp env db db' r :
  well_keyed db -> postOnce cmd stamp env db = (db', r) ->
  (db' = db /\ exists e, r = Err e)
  \/ exists s d,
       can_post cmd stamp (tx_uuid env 0) (tx_uuid env 1) (tx_uuid env 2) s d db
       /\ db' = apply_posting cmd stamp (tx_uuid env 0) (tx_uuid env 1) (tx_uuid env 2)
                  (tx_now env) s d db
       /\ (r = Ok (posted_transfer cmd (tx_uuid env 0) (tx_now env))
           \/ exists e, r = Err (prefixed "transfer: commit: " e) /\ tx_commit env = CommitLost e).
Proof.
  intros Hwk H. unfold postOnce in H. apply run_tx_cases in H as [?|(st & t & Hp & -> & _ & Hr)];
    [by left |]. right. apply post_sound in Hp as (s & d & Hc & Hdb & ->); [|done].
  exists s, d. done.
Qed.

Lemma createAccount_cases c env db db' r :
  autocommit (createAccount_tx c) env db = (db', r) ->
  (db' = db /\ exists e, r = Err e)
  \/ exists row, row = mkAccount (tx_uuid env 0) c 0 (tx_now env) (tx_now env)
       /\ accounts db !! a_id row = None /\ currency_format c = true
       /\ db' = mkDb (<[a_id row := row]> (accounts db)) (transfers db) (ledger_entries db)
       /\ (r = Ok row \/ exists e, r = Err e).
Proof.
  unfold autocommit, createAccount_tx, tx_bind, new_uuid, exec. simpl.
  destruct (tx_fault env 0); [intros; simplify_eq/=; eauto |].
  unfold sql_createAccount. destruct (insert_account _ _) as [e|db1] eqn:Hi;
    [intros; simplify_eq/=; eauto |]. simpl.
  assert (accounts db !! tx_uuid env 0 = None /\ currency_format c = true
          /\ db1 = mkDb (<[tx_uuid env 0 := mkAccount (tx_uuid env 0) c 0 (tx_now env) (tx_now env)]>
                           (accounts db)) (transfers db) (ledger_entries db)) as (Hf & Hc & ->).
  { unfold insert_account in Hi. sql_inv Hi. simplify_eq/=.
    apply bool_decide_eq_true in Hs2. unfold accounts_checks in Hs1.
    rewrite !Forall_cons in Hs1. simpl in Hs1. by destruct Hs1 as (_ & ? & _). }
  destruct (tx_commit env); intros; simplify_eq/=; eauto;
    right; eexists; split_and!; eauto.
Qed.

(** ** Effects *)

Definition eff {B} (o : op B) : Db -> Db -> B -> Prop :=
  match o in op B return Db -> Db -> B -> Prop with
  | OpPostOnce cmd stamp => fun db db' r => exists env, postOnce cmd stamp env db = (db', r)
  | OpCreateAccount c => fun db db' r => exists env, autocommit (createAccount_tx c) env db = (db', r)
  | OpQuery q => fun db db' r => db' = db /\ (r = Ok (q db) \/ exists e, r = Err e)
  | _ => fun db db' _ => db' = db
  end.

Lemma handle_eff {R} {RC : UniversalClient R} e (w w' : World R) {B} (o : op B) b :
  handle e w o = (w', b) -> eff o (w_db w) (w_db w') b.
Proof.
  destruct o; simpl; unfold on_db, on_redis;
    repeat case_match; intros; simplify_eq/=; eauto.
Qed.

Section logic.
(** An invariant of the database, and the operations programs may attempt. *)
Variable I : Db -> Prop.
Variable okay : forall B, op B -> Prop.

(** Each operation keeps the invariant and loses nothing. *)
Definition stable : Prop :=
  forall B (o : op B) db db' b, I db -> okay _ o -> eff o db db' b -> I db' /\ db_le db db'.

Fixpoint safe {A} (Q : A -> Db -> Prop) (p : prog A) (db : Db) : Prop :=
  match p with
  | Ret a => Q a db
  | Crash _ => True
  | Vis o k =>
      okay _ o /\
      forall db1 db2 b, db_le db db1 -> I db1 -> eff o db1 db2 b -> safe Q (k b) db2
  end.

(** A postcondition that later changes cannot falsify. *)
Definition upward {A} (Q : A -> Db -> Prop) : Prop :=
  forall a db db', db_le db db' -> Q a db -> Q a db'.

Lemma safe_le {A} (Q : A -> Db -> Prop) p db db' :
  upward Q -> db_le db db' -> safe Q p db -> safe Q p db'.
Proof.
  intros HQ Hle. destruct p as [a|why|B o k]; simpl; [by apply HQ | done |].
  intros [Hok H]. split; [done |]. intros db1 db2 b Hle1. apply H. by etrans.
Qed.

Lemma safe_bind {A B} (Q : B -> Db -> Prop) (p : prog A) (f : A -> prog B) db :
  safe (fun a db => safe Q (f a) db) p db -> safe Q (bind p f) db.
Proof.
  revert db. induction p as [a|why|X o k IH]; intros db; simpl; [done .. |].
  intros [Hok H]. split; [done |]. intros db1 db2 b Hle HI He. apply IH. eauto.
Qed.

Lemma safe_mono {A} (Q Q' : A -> Db -> Prop) (p : prog A) db :
  (forall a db, Q a db -> Q' a db) -> safe Q p db -> safe Q' p db.
Proof.
  intros HQ. revert db. induction p as [a|why|X o k IH]; intros db; simpl; [apply HQ | done |].
  intros [Hok H]. split; [done |]. intros db1 db2 b Hle HI He. apply IH. eauto.
Qed.

(** Every operation a program may reach is allowed. *)
Fixpoint all_ops {A} (p : prog A) : Prop :=
  match p with
  | Ret _ | Crash _ => True
  | Vis o k => okay _ o /\ forall b, all_ops (k b)
  end.

Lemma all_ops_bind {A B} (p : prog A) (f : A -> prog B) :
  all_ops p -> (forall a, all_ops (f a)) -> all_ops (bind p f).
Proof.
  intros Hp Hf. induction p as [a|why|X o k IH]; simpl in *; [apply Hf | done |].
  destruct Hp as [Hok Hk]. split; [done |]. intros b. by apply IH.
Qed.

(** Nothing is known of a program but that its operations are allowed: what
    was there before is there afterwards. *)
Lemma all_ops_safe {A} (p : prog A) db :
  stable -> all_ops p -> safe (fun _ db' => db_le db db') p db.
Proof.
  intros Hst. assert (H : forall db0, db_le db0 db -> all_ops p -> safe (fun _ db' => db_le db0 db') p db);
    [|by apply H].
  revert db. induction p as [a|why|X o k IH]; intros db db0 Hle; simpl; [done .. |].
  intros [Hok Hall]. split; [done |]. intros db1 db2 b Hle1 HI He.
  destruct (Hst _ _ _ _ _ HI Hok He) as [_ Hle2].
  apply IH; [|apply Hall]. by etrans; [|etrans].
Qed.

(** Running such a program first. *)
Lemma safe_frame {A B} (Q : B -> Db -> Prop) (p : prog A) (f : A -> prog B) db :
  stable -> all_ops p -> (forall a db', db_le db db' -> safe Q (f a) db') ->
  safe Q (bind p f) db.
Proof.
  intros Hst Hp Hf. apply safe_bind. eapply safe_mono; [|by apply all_ops_safe]. eauto.
Qed.

Section system.
Context {R : Type} {RC : UniversalClient R} {A : Type}.
(** What each program promises. *)
Variable Q : nat -> A -> Db -> Prop.
Hypothesis HQ : forall i, upward (Q i).
Hypothesis Hstable : stable.

Definition system_ok (c : World R * list (prog A)) : Prop :=
  I (w_db (fst c)) /\ forall i p, snd c !! i = Some p -> safe (Q i) p (w_db (fst c)).

Lemma system_step c c' :
  step c c' -> system_ok c -> system_ok c' /\ db_le (w_db (fst c)) (w_db (fst c')).
Proof.
  intros Hs. destruct Hs as [w ps i B o k e w' b Hi Hh | w ps r]; [|done].
  intros [HI Hsafe]. simpl in *. apply handle_eff in Hh as He.
  destruct (Hsafe _ _ Hi) as [Hok Hk].
  destruct (Hstable _ _ _ _ _ HI Hok He) as [HI' Hle].
  split; [|done]. split; [done |]. intros j p [(<- & <- & _)|[_ Hj]]%list_lookup_insert_Some.
  - simpl in Hk. eapply Hk; [reflexivity | done | done].
  - by eapply safe_le; [apply HQ | | apply Hsafe].
Qed.

Lemma system_sound c c' :
  steps c c' -> system_ok c -> system_ok c' /\ db_le (w_db (fst c)) (w_db (fst c')).
Proof.
  induction 1 as [c|c1 c2 c3 Hs _ IH]; intros Hok; [done |].
  destruct (system_step _ _ Hs Hok) as [Hok2 Hle]. destruct (IH Hok2) as [? ?].
  split; [done | by etrans].
Qed.
End system.
End logic.

(** A stronger invariant and fewer operations only help. *)
Lemma safe_weaken (I I' : Db -> Prop) (okay : forall B, op B -> Prop) {A}
    (Q : A -> Db -> Prop) (p : prog A) db :
  (forall d, I' d -> I d) -> safe I okay Q p db -> safe I' okay Q p db.
Proof.
  intros HI. revert db. induction p as [a|why|X o k IH]; intros db; simpl; [done .. |].
  intros [Hok H]. split; [done |]. intros. eapply IH, H; eauto.
Qed.

(** ** The ledger invariant is stable *)

Lemma ledger_stable base okay : stable (db_inv base) okay.
Proof.
  intros B o db db' b Hinv _ He.
  destruct o; simpl in He; try (subst; split; [done | reflexivity]).
  - destruct He as [env He]. apply postOnce_cases in He as [[-> _]|(s & d & Hc & -> & _)];
      [by split | | apply Hinv].
    split; [by eapply posting_inv | by eapply posting_le].
  - destruct He as [env He].
    apply createAccount_cases in He as [[-> _]|(row & -> & Hf & Hc & -> & _)]; [by split |].
    destruct (open_account_inv base db _ Hinv Hf eq_refl Hc) as (? & ? & _). done.
  - destruct He as [-> _]. by split.
Qed.
