(* ===== verification/PostOnce.v ===== *)
(** * One attempt, on every branch

    What [postOnce] does in an environment without faults: which refusal each
    state of the accounts leads to, the duplicate key, the overflow of the
    destination, and the posting. *)
From stdpp Require Import base gmap fin_maps strings list.
From Stdlib Require Import ZArith Lia Ascii.
From S2P Require Import Prelude.
From S2P Require Import GoStd.
From S2P Require Import GoTime.
From S2P Require Import Uuid.
From S2P Require Import Errors.
From S2P Require Import Money.
From S2P Require Import Schema.
From S2P Require Import Tx.
From S2P Require Import Transfer.
From S2P Require Import Posting.
From S2P Require Import LedgerInv.
From S2P Require Import Idempotency.
From S2P Require Import Prog.
From S2P Require Import Retry.
From S2P Require Import Store.
From S2P Require Import Instances.
From S2P Require Import Idempotent.
From S2P Require Import Scenario.
From S2P Require Import Concurrency.

Open Scope Z_scope.

(** ** The specification *)

(** The business rule that refuses a command in a given state: the accounts
    must exist, be in the currency of the command and hold enough. When both
    are missing, the one with the smaller identifier is named. *)
Definition expected_refusal (cmd : Command) (db : Db) : option sentinel :=
  let src := c_SourceAccountID cmd in
  let dst := c_DestinationAccountID cmd in
  match accounts db !! src, accounts db !! dst with
  | None, None =>
      Some (if bool_decide (ult src dst) then ErrSourceAccountNotFound
            else ErrDestinationAccountNotFound)
  | None, Some _ => Some ErrSourceAccountNotFound
  | Some _, None => Some ErrDestinationAccountNotFound
  | Some s, Some d =>
      if negb (bool_decide (a_currency s = c_Currency cmd))
         || negb (bool_decide (a_currency d = c_Currency cmd)) then Some ErrCurrencyMismatch
      else if a_balance_minor s <? c_AmountMinor cmd then Some ErrInsufficientFunds
      else None
  end.

(** Identifiers nobody has used. *)
Record fresh_ids (env : TxEnv) (db : Db) : Prop := {
  fresh_transfer : transfers db !! tx_uuid env 0 = None;
  fresh_debit : ledger_entries db !! tx_uuid env 1 = None;
  fresh_credit : ledger_entries db !! tx_uuid env 2 = None;
  fresh_distinct : tx_uuid env 1 <> tx_uuid env 2
}.

(** A key and a fingerprint that fit their columns. *)
Definition stamp_ok (stamp : option idempotencyStamp) : Prop :=
  forall st, stamp = Some st ->
    text_ok (stamp_key st) = true /\ 1 <= character_length (stamp_key st) <= 255
    /\ length (stamp_fingerprint st) = 32%nat.

(** An error that is exactly one business sentinel and no server error. *)
Definition is_exactly (se : sentinel) (e : goerr) : Prop :=
  errors_As_Pg e = None /\ forall t, errors_Is e t = bool_decide (se = t).

(** ** Steps that fail *)

Lemma tx_bind_err {A B} (m : tx A) (k : A -> tx B) env st st1 e :
  m env st = (st1, Err e) -> tx_bind m k env st = (st1, Err e).
Proof. unfold tx_bind. by intros ->. Qed.

Lemma on_err_err {A} f (m : tx A) env st st1 e :
  m env st = (st1, Err e) -> on_err f m env st = (st1, Err (f e)).
Proof. unfold on_err. by intros ->. Qed.

Lemma exec_err {A} (f : Z -> Db -> sql (Db * list deferred * A)) env st e :
  (forall n, tx_fault env n = None) -> f (tx_now env) (tx_db st) = inl e ->
  exists st1, exec f env st = (st1, Err (PgErr e)).
Proof. intros Hc Hf. unfold exec. rewrite Hc, Hf. eauto. Qed.

(** A body that fails leaves the database as it was. *)
Lemma postOnce_err cmd stamp env db st e :
  calm env -> post cmd stamp env (tx_start db) = (st, Err e) ->
  postOnce cmd stamp env db = (db, Err e).
Proof. intros (Hb & _ & _) Hp. unfold postOnce, run_tx. by rewrite Hb, Hp. Qed.

Lemma lockAccount_missing id env st :
  (forall n, tx_fault env n = None) -> accounts (tx_db st) !! id = None ->
  exists st1, lockAccount id env st = (st1, Err pgx_ErrNoRows).
Proof.
  intros Hc Hid. unfold lockAccount, on_err, query_row, select_for_update.
  rewrite Hc, Hid. simpl. eauto.
Qed.

Lemma lockOrder_lt a b : ult a b -> lockOrder a b = (a, b).
Proof. unfold ult, lockOrder. intros H. by rewrite (proj2 (Z.leb_le _ _)) by lia. Qed.

Lemma lockOrder_gt a b : ult b a -> lockOrder a b = (b, a).
Proof.
  unfold ult, lockOrder. rewrite (ucompare_antisym a b). intros H.
  by rewrite (proj2 (Z.leb_gt _ _)) by lia.
Qed.

Lemma missingAccountError_source id : is_exactly ErrSourceAccountNotFound (missingAccountError pgx_ErrNoRows id id).
Proof. unfold missingAccountError. simpl. by rewrite uuid_eqb_refl. Qed.

Lemma missingAccountError_destination id src :
  id <> src -> is_exactly ErrDestinationAccountNotFound (missingAccountError pgx_ErrNoRows id src).
Proof. intros. unfold missingAccountError. simpl. by rewrite uuid_eqb_ne. Qed.

Section refusals.
Variables (cmd : Command) (stamp : option idempotencyStamp) (env : TxEnv) (db : Db).
Let src := c_SourceAccountID cmd.
Let dst := c_DestinationAccountID cmd.
Hypothesis Hcalm : forall n, tx_fault env n = None.
Hypothesis Hne : src <> dst.

Lemma lock_first_missing a b :
  lockOrder src dst = (a, b) -> accounts db !! a = None ->
  exists st, lockAccounts src dst env (tx_start db)
             = (st, Err (missingAccountError pgx_ErrNoRows a src)).
Proof.
  intros E Ha. unfold lockAccounts. rewrite E.
  destruct (lockAccount_missing a env (tx_start db) Hcalm Ha) as [st Hl]. exists st.
  apply tx_bind_err. exact (on_err_err (fun err => missingAccountError err a src) _ _ _ _ _ Hl).
Qed.

Lemma lock_second_missing a b r :
  lockOrder src dst = (a, b) -> accounts db !! a = Some r -> accounts db !! b = None ->
  exists st, lockAccounts src dst env (tx_start db)
             = (st, Err (missingAccountError pgx_ErrNoRows b src)).
Proof.
  intros E Ha Hb. unfold lockAccounts. rewrite E.
  erewrite tx_bind_step by (apply on_err_step, lockAccount_step; done).
  edestruct (lockAccount_missing b env) as [st Hl]; [done | | exists st; apply tx_bind_err;
    exact (on_err_err (fun err => missingAccountError err b src) _ _ _ _ _ Hl)].
  done.
Qed.

(** A missing row is attributed to its business role. *)
Lemma lockAccounts_missing :
  accounts db !! src = None \/ accounts db !! dst = None ->
  exists se st e, expected_refusal cmd db = Some se
    /\ lockAccounts src dst env (tx_start db) = (st, Err e) /\ is_exactly se e.
Proof.
  intros Hmiss. unfold expected_refusal. fold src dst.
  pose proof (missingAccountError_source src) as Hsrc.
  pose proof (missingAccountError_destination dst src (not_eq_sym Hne)) as Hdst.
  destruct (ult_total src dst) as [Hlt|[Heq|Hlt]]; [|done|].
  - rewrite bool_decide_eq_true_2 by done. apply lockOrder_lt in Hlt as E.
    destruct (accounts db !! src) as [s|] eqn:Es.
    + destruct Hmiss as [?|Ed]; [done |]. rewrite Ed.
      destruct (lock_second_missing _ _ _ E Es Ed) as [st Hl]. eauto 10.
    + destruct (lock_first_missing _ _ E Es) as [st Hl]. destruct (accounts db !! dst); eauto 10.
  - rewrite bool_decide_eq_false_2
      by (intros Hlt'; apply (irreflexivity ult src); by etrans).
    apply lockOrder_gt in Hlt as E. destruct (accounts db !! dst) as [d|] eqn:Ed.
    + destruct Hmiss as [Es|?]; [|done]. rewrite Es.
      destruct (lock_second_missing _ _ _ E Ed Es) as [st Hl]. eauto 10.
    + destruct (lock_first_missing _ _ E Ed) as [st Hl]. destruct (accounts db !! src); eauto 10.
Qed.

(** Every business refusal ends the attempt with its sentinel and nothing else. *)
Lemma post_refused se :
  well_keyed db -> expected_refusal cmd db = Some se ->
  exists st e, post cmd stamp env (tx_start db) = (st, Err e) /\ is_exactly se e.
Proof.
  intros Hwk Hse. destruct (accounts db !! src) as [s|] eqn:Es; [|
    destruct lockAccounts_missing as (se' & st & e & Hse' & Hl & He); [auto |];
    exists st, e; split; [by apply tx_bind_err | congruence]].
  destruct (accounts db !! dst) as [d|] eqn:Ed; [|
    destruct lockAccounts_missing as (se' & st & e & Hse' & Hl & He); [auto |];
    exists st, e; split; [by apply tx_bind_err | congruence]].
  unfold expected_refusal in Hse. fold src dst in Hse. rewrite Es, Ed in Hse.
  unfold post. erewrite tx_bind_step by (apply lockAccounts_step; done). cbn [acc_currency acc_balanceMinor].
  destruct (bool_decide (a_currency s = c_Currency cmd)); simpl in *; [|by simplify_eq; repeat eexists].
  destruct (bool_decide (a_currency d = c_Currency cmd)); simpl in *; [|by simplify_eq; repeat eexists].
  destruct (a_balance_minor s <? c_AmountMinor cmd); simplify_eq. by repeat eexists.
Qed.
End refusals.

(** ** Commands that are not refused *)

Lemma Command_Validate_None cmd :
  Command_Validate cmd = None ->
  0 < c_AmountMinor cmd /\ currency_format (c_Currency cmd) = true
  /\ c_SourceAccountID cmd <> c_DestinationAccountID cmd.
Proof.
  unfold Command_Validate. destruct (Z.leb_spec (c_AmountMinor cmd) 0); [done |].
  destruct (Currency_Validate _) eqn:Hc; [done |]. apply Currency_Validate_format in Hc.
  destruct (uuid_eqb _ _) eqn:He; [done |]. apply bool_decide_eq_false in He. done.
Qed.

Lemma expected_refusal_None cmd db :
  expected_refusal cmd db = None ->
  exists s d, accounts db !! c_SourceAccountID cmd = Some s
    /\ accounts db !! c_DestinationAccountID cmd = Some d
    /\ a_currency s = c_Currency cmd /\ a_currency d = c_Currency cmd
    /\ c_AmountMinor cmd <= a_balance_minor s.
Proof.
  unfold expected_refusal.
  destruct (accounts db !! c_SourceAccountID cmd) as [s|], (accounts db !! c_DestinationAccountID cmd) as [d|];
    try done.
  case_bool_decide; [|done]. case_bool_decide; [|done]. simpl.
  destruct (Z.ltb_spec (a_balance_minor s) (c_AmountMinor cmd)); [done |]. eauto 10.
Qed.

Lemma fresh_no_entries base db tid :
  db_inv base db -> transfers db !! tid = None -> entry_count tid db = 0 /\ entry_sum tid db = 0.
Proof.
  intros Hinv Hf.
  assert (Hno : forall k e, ledger_entries db !! k = Some e -> of_transfer tid e = false).
  { intros k e Hk. apply uuid_eqb_ne. intros E.
    destruct (inv_entries _ _ Hinv _ _ Hk) as (t & Ht & _). congruence. }
  split; [by apply countZ_zero |]. apply sumZ_zero. intros k e Hk. by rewrite (Hno _ _ Hk).
Qed.

(** The new balance of the destination, when the account exists. *)
Definition credited_balance (cmd : Command) (db : Db) : option Z :=
  (fun d => a_balance_minor d + c_AmountMinor cmd) <$> accounts db !! c_DestinationAccountID cmd.

Section accepted.
Variables (base : gmap UUID Z) (cmd : Command) (stamp : option idempotencyStamp)
  (env : TxEnv) (db : Db).
Let tid := tx_uuid env 0.
Let e1 := tx_uuid env 1.
Let e2 := tx_uuid env 2.
Let now := tx_now env.
Hypothesis Hinv : db_inv base db.
Hypothesis Hcalm : calm env.
Hypothesis Hvalid : Command_Validate cmd = None.
Hypothesis Hint : in_int64 (c_AmountMinor cmd) = true.
Hypothesis Hstamp : stamp_ok stamp.
Hypothesis Hfresh : fresh_ids env db.
Hypothesis Hrefuse : expected_refusal cmd db = None.

(** The only two reasons left for the server to object. *)
Lemma ready_can_post :
  key_free (keyOrNil stamp) db = true ->
  from_option in_int64 true (credited_balance cmd db) = true ->
  exists s d, can_post cmd stamp tid e1 e2 s d db.
Proof.
  intros Hkey Hb. destruct (Command_Validate_None _ Hvalid) as (Hpos & Hcur & Hne).
  destruct (expected_refusal_None _ _ Hrefuse) as (s & d & Hs & Hd & Cs & Cd & Hf).
  unfold credited_balance in Hb. rewrite Hd in Hb. simpl in Hb.
  apply in_int64_spec in Hb, Hint. destruct Hfresh.
  destruct (inv_accounts _ _ Hinv _ _ Hs), (inv_accounts _ _ Hinv _ _ Hd).
  exists s, d. constructor; try done; try lia.
  by eapply fresh_no_entries.
Qed.

(** The statements before the [INSERT] succeed. *)
Lemma post_reaches_insert r e :
  insert_transfer (pending_row cmd stamp tid now) db = inl e ->
  r = Err (prefixed "transfer: insert: " (PgErr e)) ->
  exists st, post cmd stamp env (tx_start db) = (st, r).
Proof.
  intros Hi ->. destruct (Command_Validate_None _ Hvalid) as (Hpos & Hcur & Hne).
  destruct (expected_refusal_None _ _ Hrefuse) as (s & d & Hs & Hd & Cs & Cd & Hf).
  destruct Hcalm as (_ & Hc & _). unfold post.
  erewrite tx_bind_step by (apply lockAccounts_step; [done | apply Hinv | done | done | done]).
  cbn [acc_currency acc_balanceMinor].
  rewrite Cs, Cd, !bool_decide_eq_true_2 by done. cbn [negb].
  rewrite (proj2 (Z.ltb_ge _ _)) by done.
  erewrite tx_bind_step by reflexivity.
  edestruct (exec_err (sql_insertTransfer (mkTransfer tid (c_SourceAccountID cmd)
    (c_DestinationAccountID cmd) (c_AmountMinor cmd) (c_Currency cmd) StatusPending zero_time None) stamp) env)
    as [st1 He]; [done | |].
  2: { eexists. apply tx_bind_err. exact (on_err_err (prefixed "transfer: insert: ") _ _ _ _ _ He). }
  unfold sql_insertTransfer. simpl. change (mkTransferRow _ _ _ _ _ _ _ _ _ _)
         with (pending_row cmd stamp tid now). by rewrite Hi.
Qed.

(** A destination that would exceed 64 bits is refused by the server. *)
Lemma post_overflow :
  key_free (keyOrNil stamp) db = true ->
  from_option in_int64 true (credited_balance cmd db) = false ->
  exists st, post cmd stamp env (tx_start db)
    = (st, Err (prefixed "transfer: credit destination: " (PgErr numeric_value_out_of_range))).
Proof.
  intros Hkey Hb. destruct (Command_Validate_None _ Hvalid) as (Hpos & Hcur & Hne).
  destruct (expected_refusal_None _ _ Hrefuse) as (s & d & Hs & Hd & Cs & Cd & Hf).
  unfold credited_balance in Hb. rewrite Hd in Hb. simpl in Hb.
  destruct Hcalm as (_ & Hc & _), Hfresh. pose proof Hint as Hi. apply in_int64_spec in Hi.
  destruct (inv_accounts _ _ Hinv _ _ Hs) as [Sc Sb].
  unfold post. erewrite tx_bind_step
    by (apply lockAccounts_step; [done | apply Hinv | done | done | done]).
  cbn [acc_currency acc_balanceMinor].
  rewrite Cs, Cd, !bool_decide_eq_true_2 by done. cbn [negb].
  rewrite (proj2 (Z.ltb_ge _ _)) by done. erewrite tx_bind_step by reflexivity.
  erewrite tx_bind_step.
  2: { apply on_err_step, exec_step; [done |]. unfold sql_insertTransfer. simpl.
       change (mkTransferRow _ _ _ _ _ _ _ _ _ _) with (pending_row cmd stamp tid now).
       unfold tid, now. rewrite insert_transfer_eval by (eauto; lia). rewrite Hkey. reflexivity. }
  erewrite tx_bind_step.
  2: { apply on_err_step, exec_step; [done |]. unfold sql_debit. simpl.
       rewrite (update_balance_fwd _ _ _ _ _ s); simpl; try done.
       - by apply Z.leb_le.
       - int64.
       - lia. }
  cbn [Z.eqb negb Pos.eqb].
  edestruct (exec_err (sql_credit (c_DestinationAccountID cmd) (c_AmountMinor cmd)) env)
    as [st1 He]; [done | |].
  2: { eexists. apply tx_bind_err.
       exact (on_err_err (prefixed "transfer: credit destination: ") _ _ _ _ _ He). }
  unfold sql_credit, update_balance. simpl. rewrite lookup_insert_ne, Hd by done.
  by rewrite Hb.
Qed.
End accepted.

(** ** One attempt *)

(** C3. One attempt is one transaction: either the database is untouched and an
    error is reported, or exactly one allowed posting was applied as a whole,
    debit, credit, entries and completed transfer together. It is then
    reported as that transfer, unless the acknowledgement of the commit was
    lost. Faults may hit any statement. *)
Theorem postOnce_atomic cmd stamp env db db' r :
  well_keyed db -> postOnce cmd stamp env db = (db', r) ->
  (db' = db /\ exists e, r = Err e)
  \/ exists s d,
       can_post cmd stamp (tx_uuid env 0) (tx_uuid env 1) (tx_uuid env 2) s d db
       /\ db' = apply_posting cmd stamp (tx_uuid env 0) (tx_uuid env 1) (tx_uuid env 2)
                  (tx_now env) s d db
       /\ (r = Ok (posted_transfer cmd (tx_uuid env 0) (tx_now env))
           \/ exists e, r = Err (prefixed "transfer: commit: " e) /\ tx_commit env = CommitLost e).
Proof. apply postOnce_cases. Qed.

(** The outcome of one attempt when nothing outside the program fails. *)
Lemma postOnce_answer base cmd stamp env db :
  db_inv base db -> calm env -> Command_Validate cmd = None ->
  in_int64 (c_AmountMinor cmd) = true -> stamp_ok stamp -> fresh_ids env db ->
  match expected_refusal cmd db with
  | Some se => exists e, postOnce cmd stamp env db = (db, Err e)
                 /\ is_exactly se e /\ snd (retryableCode e) = false
  | None =>
      if negb (key_free (keyOrNil stamp) db) then
        exists e, postOnce cmd stamp env db = (db, Err e)
          /\ isDuplicateIdempotencyKey e = true /\ snd (retryableCode e) = false
      else if negb (from_option in_int64 true (credited_balance cmd db)) then
        exists e, postOnce cmd stamp env db = (db, Err e)
          /\ errors_As_Pg e = Some numeric_value_out_of_range /\ snd (retryableCode e) = false
      else
        exists s d,
          can_post cmd stamp (tx_uuid env 0) (tx_uuid env 1) (tx_uuid env 2) s d db
          /\ postOnce cmd stamp env db
             = (apply_posting cmd stamp (tx_uuid env 0) (tx_uuid env 1) (tx_uuid env 2)
                  (tx_now env) s d db,
                Ok (posted_transfer cmd (tx_uuid env 0) (tx_now env)))
  end.
Proof.
  intros Hinv Hcalm Hvalid Hint Hstamp Hfresh.
  pose proof (Command_Validate_None _ Hvalid) as (_ & _ & Hne).
  pose proof Hcalm as (Hb & Hf & Hcm).
  destruct (expected_refusal cmd db) as [se|] eqn:Hse.
  { destruct (post_refused cmd stamp env db Hf Hne se (inv_keyed _ _ Hinv) Hse) as (st & e & Hp & He).
    exists e. split; [by eapply postOnce_err |]. split; [done |].
    unfold retryableCode. by rewrite (proj1 He). }
  destruct (key_free (keyOrNil stamp) db) eqn:Hkey; simpl.
  2: { destruct (Command_Validate_None _ Hvalid) as (Hpos & Hcur & _). apply in_int64_spec in Hint as Hi.
       destruct (expected_refusal_None _ _ Hse) as (s & d & Hs & Hd & _).
       edestruct (post_reaches_insert base cmd stamp env db) as [st Hp]; eauto.
       - rewrite insert_transfer_eval; [by rewrite Hkey | lia | done.. | apply Hfresh | eauto | eauto].
       - eexists. split; [by eapply postOnce_err | done]. }
  destruct (from_option in_int64 true (credited_balance cmd db)) eqn:Hov; simpl.
  - destruct (ready_can_post base cmd stamp env db) as (s & d & Hp); eauto.
    destruct (post_complete cmd stamp env Hf s d db (inv_keyed _ _ Hinv) Hp) as (st & Hpost & Hdb & Hdef).
    exists s, d. split; [done |]. unfold postOnce, run_tx. by rewrite Hb, Hpost, Hdef, Hcm, Hdb.
  - destruct (post_overflow base cmd stamp env db) as [st Hp]; eauto.
    eexists. split; [by eapply postOnce_err | done].
Qed.

(** C5. The outcome of one attempt of a valid command on consistent books, when
    nothing outside the program fails: a business refusal carries exactly its
    sentinel and no server error; a key already used is reported as a
    violation of the unique key; a destination balance beyond 64 bits is
    refused by the server and not wrapped; in every other case the posting is
    applied and reported. Refusals and errors change nothing and are not
    retryable. *)
Theorem postOnce_outcome base cmd stamp env db :
  db_inv base db -> calm env -> Command_Validate cmd = None ->
  in_int64 (c_AmountMinor cmd) = true -> stamp_ok stamp -> fresh_ids env db ->
  match expected_refusal cmd db with
  | Some se => exists e, postOnce cmd stamp env db = (db, Err e)
                 /\ is_exactly se e /\ snd (retryableCode e) = false
  | None =>
      if negb (key_free (keyOrNil stamp) db) then
        exists e, postOnce cmd stamp env db = (db, Err e)
          /\ isDuplicateIdempotencyKey e = true /\ snd (retryableCode e) = false
      else if negb (from_option in_int64 true (credited_balance cmd db)) then
        exists e, postOnce cmd stamp env db = (db, Err e)
          /\ errors_As_Pg e = Some numeric_value_out_of_range /\ snd (retryableCode e) = false
      else
        exists s d,
          can_post cmd stamp (tx_uuid env 0) (tx_uuid env 1) (tx_uuid env 2) s d db
          /\ postOnce cmd stamp env db
             = (apply_posting cmd stamp (tx_uuid env 0) (tx_uuid env 1) (tx_uuid env 2)
                  (tx_now env) s d db,
                Ok (posted_transfer cmd (tx_uuid env 0) (tx_now env)))
  end.
Proof. apply postOnce_answer. Qed.

Lemma postOnce_atomic_witness :
  exists s d, can_post scn_cmd None (uuid_of_Z 1000) (uuid_of_Z 1001) (uuid_of_Z 1002) s d scn_db.
Proof.
  destruct (postOnce_atomic scn_cmd None (scn_tx 0) scn_db
    (fst (postOnce scn_cmd None (scn_tx 0) scn_db)) (snd (postOnce scn_cmd None (scn_tx 0) scn_db))
    (inv_keyed _ _ scn_inv)) as [[_ [e He]]|(s & d & Hc & _)];
    [vm_compute; reflexivity | vm_compute in He; discriminate | exists s, d; exact Hc].
Defined.

Lemma postOnce_outcome_witness :
  exists s d, can_post scn_cmd None (uuid_of_Z 1000) (uuid_of_Z 1001) (uuid_of_Z 1002) s d scn_db
    /\ postOnce scn_cmd None (scn_tx 0) scn_db
       = (apply_posting scn_cmd None (uuid_of_Z 1000) (uuid_of_Z 1001) (uuid_of_Z 1002) 7 s d scn_db,
          Ok (posted_transfer scn_cmd (uuid_of_Z 1000) 7)).
Proof.
  assert (E1 : expected_refusal scn_cmd scn_db = None) by (vm_compute; reflexivity).
  assert (E2 : credited_balance scn_cmd scn_db = Some 255) by (vm_compute; reflexivity).
  pose proof (postOnce_outcome scn_base scn_cmd None (scn_tx 0) scn_db scn_inv) as H.
  rewrite E1, E2 in H. apply H.
  - by repeat split.
  - by vm_compute.
  - by vm_compute.
  - by intros st [=].
  - split; by vm_compute.
Defined.
