(* ===== verification/Reconcile.v ===== *)
(** * [internal/reconcile]: checking the books

    The queries of [Check] as functions of one database snapshot, the handlers
    that issue them, and the report. The four queries of a pass are four
    statements: each sees the database as it is when it runs. *)
From stdpp Require Import base gmap fin_maps strings list sorting.
From Stdlib Require Import ZArith Lia Ascii.
From S2P Require Import Prelude.
From S2P Require Import GoStd.
From S2P Require Import Uuid.
From S2P Require Import Errors.
From S2P Require Import Money.
From S2P Require Import Schema.
From S2P Require Import Tx.
From S2P Require Import Transfer.
From S2P Require Import Posting.
From S2P Require Import LedgerInv.
From S2P Require Import Prog.
From S2P Require Import Concurrency.

Open Scope Z_scope.

Abbreviation Baseline := (gmap UUID Z).

Record NegativeBalance := mkNegative { nb_AccountID : UUID; nb_BalanceMinor : Z }.

Record BalanceMismatch := mkMismatch {
  bm_AccountID : UUID;
  bm_StoredMinor : Z;
  bm_BaselineMinor : Z;
  bm_LedgerMinor : Z;
  bm_ExpectedMinor : Z
}.

Definition Difference (m : BalanceMismatch) : Z := wrap64 (bm_StoredMinor m - bm_ExpectedMinor m).

Record TransferProblem := mkProblem {
  tp_TransferID : UUID;
  tp_EntryCount : Z;
  tp_EntrySumMinor : Z;
  tp_DebitCount : Z;
  tp_CreditCount : Z;
  tp_CurrencyMismatches : Z;
  tp_ForeignAccounts : Z;
  tp_WrongDebitAmount : Z;
  tp_WrongCreditAmount : Z
}.

Definition TransferProblem_String (p : TransferProblem) : msg :=
  [Txt "transfer "; Uid (tp_TransferID p); Txt ": entries="; Num (tp_EntryCount p);
   Txt " sum="; Num (tp_EntrySumMinor p); Txt " debits="; Num (tp_DebitCount p);
   Txt " credits="; Num (tp_CreditCount p); Txt " currency_mismatches=";
   Num (tp_CurrencyMismatches p); Txt " foreign_accounts="; Num (tp_ForeignAccounts p);
   Txt " wrong_debit="; Num (tp_WrongDebitAmount p); Txt " wrong_credit=";
   Num (tp_WrongCreditAmount p)].

Record Report := mkReport {
  rp_Accounts : Z;
  rp_CompletedTransfers : Z;
  rp_PendingTransfers : Z;
  rp_LedgerEntries : Z;
  rp_TotalBalanceMinor : Z;
  rp_TotalLedgerMinor : Z;
  rp_NegativeBalances : list NegativeBalance;
  rp_BalanceMismatches : list BalanceMismatch;
  rp_UnbalancedTransfers : list TransferProblem
}.

Definition empty_report : Report := mkReport 0 0 0 0 0 0 [] [] [].

Definition Report_OK (r : Report) : bool :=
  (length (rp_NegativeBalances r) =? 0)%nat
  && (length (rp_BalanceMismatches r) =? 0)%nat
  && (length (rp_UnbalancedTransfers r) =? 0)%nat
  && (rp_TotalLedgerMinor r =? 0).

Definition Violations (r : Report) : Z :=
  let n := Z.of_nat (length (rp_NegativeBalances r)) + Z.of_nat (length (rp_BalanceMismatches r))
           + Z.of_nat (length (rp_UnbalancedTransfers r)) in
  if negb (rp_TotalLedgerMinor r =? 0) then n + 1 else n.

Definition Problems (r : Report) : list msg :=
  ((if negb (rp_TotalLedgerMinor r =? 0)
    then [[Txt "the whole ledger sums to "; Num (rp_TotalLedgerMinor r); Txt ", want 0"]]
    else [])
   ++ ((fun n => [Txt "account "; Uid (nb_AccountID n); Txt " has a negative balance of ";
                  Num (nb_BalanceMinor n)]) <$> rp_NegativeBalances r)
   ++ ((fun m => [Txt "account "; Uid (bm_AccountID m); Txt " holds "; Num (bm_StoredMinor m);
                  Txt " but baseline "; Num (bm_BaselineMinor m); Txt " plus ledger ";
                  Num (bm_LedgerMinor m); Txt " expects "; Num (bm_ExpectedMinor m);
                  Txt " (difference "; Num (Difference m); Txt ")"]) <$> rp_BalanceMismatches r)
   ++ (TransferProblem_String <$> rp_UnbalancedTransfers r))%list.

(** ** The queries *)

(** [ORDER BY id]: the rows of a table in the byte order of their keys. *)
Definition id_le {V} (a b : UUID * V) : Prop := ucompare a.1 b.1 <= 0.
#[global] Instance id_le_dec {V} : RelDecision (@id_le V).
Proof. intros a b. unfold id_le. apply _. Defined.

Definition by_id {V} (m : gmap UUID V) : list (UUID * V) := merge_sort id_le (map_to_list m).

Lemma elem_of_by_id {V} (m : gmap UUID V) k v : (k, v) ∈ by_id m <-> m !! k = Some v.
Proof. unfold by_id. by rewrite merge_sort_Permutation, elem_of_map_to_list. Qed.

Definition has_status (st : string) (t : TransferRow) : bool := bool_decide (t_status t = st).

(** The six scalar sub-queries of [countTotals]. *)
Record Totals := mkTotals {
  q_accounts : Z; q_balance : Z; q_completed : Z; q_pending : Z; q_entries : Z; q_ledger : Z
}.

Definition select_totals (db : Db) : Totals :=
  mkTotals (countZ (fun _ => true) (accounts db)) (sumZ a_balance_minor (accounts db))
    (countZ (has_status "completed") (transfers db)) (countZ (has_status "pending") (transfers db))
    (countZ (fun _ => true) (ledger_entries db)) (sumZ e_amount_minor (ledger_entries db)).

Definition select_negative (db : Db) : list (UUID * Z) :=
  (fun '(id, r) => (id, a_balance_minor r))
    <$> filter (fun kv => a_balance_minor kv.2 < 0) (by_id (accounts db)).

(** One group of the [LEFT JOIN] of [findUnbalancedTransfers]. A transfer
    without entries is joined to one row of NULLs: no comparison with NULL
    counts, but [e.currency IS DISTINCT FROM t.currency] does. *)
Definition transfer_problem (t : TransferRow) (db : Db) : TransferProblem :=
  let count p := countZ (fun e => of_transfer (t_id t) e && p e) (ledger_entries db) in
  let entries := entry_count (t_id t) db in
  mkProblem (t_id t) entries (entry_sum (t_id t) db)
    (count (fun e => e_amount_minor e <? 0))
    (count (fun e => 0 <? e_amount_minor e))
    (count (fun e => negb (bool_decide (e_currency e = t_currency t)))
     + (if entries =? 0 then 1 else 0))
    (count (fun e => negb (uuid_eqb (e_account_id e) (t_source_account_id t))
                     && negb (uuid_eqb (e_account_id e) (t_destination_account_id t))))
    (count (fun e => uuid_eqb (e_account_id e) (t_source_account_id t)
                     && negb (e_amount_minor e =? - t_amount_minor t)))
    (count (fun e => uuid_eqb (e_account_id e) (t_destination_account_id t)
                     && negb (e_amount_minor e =? t_amount_minor t))).

(** The final [WHERE] of the query. *)
Definition is_problem (p : TransferProblem) : bool :=
  negb (tp_EntryCount p =? 2) || negb (tp_EntrySumMinor p =? 0)
  || negb (tp_DebitCount p =? 1) || negb (tp_CreditCount p =? 1)
  || (0 <? tp_CurrencyMismatches p) || (0 <? tp_ForeignAccounts p)
  || (0 <? tp_WrongDebitAmount p) || (0 <? tp_WrongCreditAmount p).

Definition select_unbalanced (db : Db) : list TransferProblem :=
  filter (fun p => is_problem p = true)
    ((fun kv => transfer_problem kv.2 db)
       <$> filter (fun kv => t_status kv.2 = "completed") (by_id (transfers db))).

(** [SELECT a.id, a.balance_minor, COALESCE(SUM(e.amount_minor), 0)]. *)
Definition select_ledger_sums (db : Db) : list (UUID * Z * Z) :=
  (fun '(id, r) => (id, a_balance_minor r, account_ledger id db)) <$> by_id (accounts db).

(** ** [Check] *)

Definition countTotals (report : Report) : prog (result Report) :=
  (row <- call (OpQuery select_totals) ;;
   let scanned :=
     match row with
     | Err err => Err err
     | Ok q =>
         match scan_int64 (q_balance q), scan_int64 (q_ledger q) with
         | Err err, _ => Err err
         | _, Err err => Err err
         | Ok balance, Ok ledger =>
             Ok (mkReport (q_accounts q) (q_completed q) (q_pending q) (q_entries q) balance ledger
                   (rp_NegativeBalances report) (rp_BalanceMismatches report)
                   (rp_UnbalancedTransfers report))
         end
     end in
   match scanned with
   | Err err => Ret (Err (prefixed "reconcile: totals: " err))
   | Ok report => Ret (Ok report)
   end)%prog.

Definition findNegativeBalances (report : Report) : prog (result Report) :=
  (rows <- call (OpQuery select_negative) ;;
   match rows with
   | Err err => Ret (Err (prefixed "reconcile: negative balances: " err))
   | Ok rows =>
       found <- CollectRows rows (fun '(id, b) => Ok (mkNegative id b)) ;;
       match found with
       | Err err => Ret (Err (prefixed "reconcile: scan negative balances: " err))
       | Ok found =>
           Ret (Ok (mkReport (rp_Accounts report) (rp_CompletedTransfers report)
                      (rp_PendingTransfers report) (rp_LedgerEntries report)
                      (rp_TotalBalanceMinor report) (rp_TotalLedgerMinor report)
                      found (rp_BalanceMismatches report) (rp_UnbalancedTransfers report)))
       end
   end)%prog.

(** Scanning a row of the query: [entry_sum] is numeric. *)
Definition scan_problem (p : TransferProblem) : result TransferProblem :=
  match scan_int64 (tp_EntrySumMinor p) with
  | Err err => Err err
  | Ok _ => Ok p
  end.

Definition findUnbalancedTransfers (report : Report) : prog (result Report) :=
  (rows <- call (OpQuery select_unbalanced) ;;
   match rows with
   | Err err => Ret (Err (prefixed "reconcile: unbalanced transfers: " err))
   | Ok rows =>
       found <- CollectRows rows scan_problem ;;
       match found with
       | Err err => Ret (Err (prefixed "reconcile: scan unbalanced transfers: " err))
       | Ok found =>
           Ret (Ok (mkReport (rp_Accounts report) (rp_CompletedTransfers report)
                      (rp_PendingTransfers report) (rp_LedgerEntries report)
                      (rp_TotalBalanceMinor report) (rp_TotalLedgerMinor report)
                      (rp_NegativeBalances report) (rp_BalanceMismatches report) found))
       end
   end)%prog.

Definition scan_mismatch (baseline : Baseline) (row : UUID * Z * Z) : result BalanceMismatch :=
  let '(id, stored, ledger) := row in
  match scan_int64 ledger with
  | Err err => Err err
  | Ok ledger =>
      let base := base_of baseline id in
      Ok (mkMismatch id stored base ledger (wrap64 (base + ledger)))
  end.

Definition findBalanceMismatches (baseline : Baseline) (report : Report) : prog (result Report) :=
  (rows <- call (OpQuery select_ledger_sums) ;;
   match rows with
   | Err err => Ret (Err (prefixed "reconcile: balance mismatches: " err))
   | Ok rows =>
       mismatches <- CollectRows rows (scan_mismatch baseline) ;;
       match mismatches with
       | Err err => Ret (Err (prefixed "reconcile: scan balance mismatches: " err))
       | Ok mismatches =>
           Ret (Ok (mkReport (rp_Accounts report) (rp_CompletedTransfers report)
                      (rp_PendingTransfers report) (rp_LedgerEntries report)
                      (rp_TotalBalanceMinor report) (rp_TotalLedgerMinor report)
                      (rp_NegativeBalances report)
                      (rp_BalanceMismatches report
                       ++ filter (fun m => bm_StoredMinor m <> bm_ExpectedMinor m) mismatches)%list
                      (rp_UnbalancedTransfers report)))
       end
   end)%prog.

Definition and_then (p : prog (result Report)) (f : Report -> prog (result Report))
    : prog (result Report) :=
  (r <- p ;; match r with Err err => Ret (Err err) | Ok report => f report end)%prog.

Definition Check (baseline : Baseline) : prog (result Report) :=
  and_then (countTotals empty_report) (fun report =>
  and_then (findNegativeBalances report) (fun report =>
  and_then (findUnbalancedTransfers report) (fun report =>
  findBalanceMismatches baseline report))).

(** ** [SnapshotBaseline] *)

Definition select_unexplained (db : Db) : list (UUID * Z) :=
  (fun '(id, r) => (id, a_balance_minor r - account_ledger id db)) <$> map_to_list (accounts db).

(** The loop over the rows: a scan error stops it. *)
Fixpoint scan_baseline (rows : list (UUID * Z)) (baseline : Baseline) : result Baseline :=
  match rows with
  | [] => Ok baseline
  | (id, unexplained) :: rows' =>
      match scan_int64 unexplained with
      | Err err => Err (prefixed "reconcile: scan baseline: " err)
      | Ok unexplained => scan_baseline rows' (<[id := unexplained]> baseline)
      end
  end.

Definition SnapshotBaseline : prog (result Baseline) :=
  (rows <- call (OpQuery select_unexplained) ;;
   match rows with
   | Err err => Ret (Err (prefixed "reconcile: snapshot baseline: " err))
   | Ok rows =>
       '(arrived, broken) <- read_stream rows ;;
       match scan_baseline arrived ∅, broken with
       | Err err, _ => Ret (Err err)
       | Ok _, Some err => Ret (Err (prefixed "reconcile: read baseline: " err))
       | Ok baseline, None => Ret (Ok baseline)
       end
   end)%prog.

(** ** What the queries find *)

Lemma fmap_nil_inv' {A B} (f : A -> B) l : f <$> l = [] <-> l = [].
Proof. by destruct l. Qed.

Lemma filter_nil_iff {A} (P : A -> Prop) `{!forall x, Decision (P x)} (l : list A) :
  filter P l = [] <-> forall x, x ∈ l -> ~ P x.
Proof.
  split.
  - intros Hn x Hx HP. assert (Hin : x ∈ filter P l) by (by apply list_elem_of_filter).
    rewrite Hn in Hin. by apply elem_of_nil in Hin.
  - intros Hno. destruct (filter P l) as [|x l'] eqn:E; [done |]. exfalso.
    assert (Hin : x ∈ filter P l) by (rewrite E; left).
    apply list_elem_of_filter in Hin as [HP Hx]. by apply (Hno x).
Qed.

Lemma select_negative_nil db :
  select_negative db = [] <-> forall id r, accounts db !! id = Some r -> 0 <= a_balance_minor r.
Proof.
  unfold select_negative. rewrite fmap_nil_inv', filter_nil_iff. split.
  - intros Hall id r Hr. apply elem_of_by_id, Hall in Hr. simpl in Hr. lia.
  - intros Hall [id r] Hr. apply elem_of_by_id, Hall in Hr. simpl. lia.
Qed.

Lemma countZ_one {V} (p : V -> bool) (m : gmap UUID V) :
  countZ p m = 1 ->
  exists k v, m !! k = Some v /\ p v = true
    /\ forall k' v', m !! k' = Some v' -> p v' = true -> k' = k.
Proof.
  intros H1. destruct (decide (countZ p m = 0)) as [?|Hnz]; [lia |].
  assert (exists k v, m !! k = Some v /\ p v = true) as (k & v & Hk & Hp).
  { destruct (decide (map_Forall (fun _ v => p v = false) m)) as [Hall|Hex].
    - exfalso. by apply Hnz, countZ_zero.
    - apply map_not_Forall in Hex as (k & v & Hk & Hv); [|apply _].
      exists k, v. by destruct (p v). }
  exists k, v. split_and!; [done | done |]. intros k' v' Hk' Hp'.
  destruct (decide (k' = k)) as [|Hne]; [done | exfalso].
  unfold countZ in H1. rewrite (sumZ_delete _ _ _ _ Hk), Hp in H1.
  assert (countZ p (delete k m) = 0) as Hz by (unfold countZ; lia).
  assert (delete k m !! k' = Some v') as Hd by (by rewrite lookup_delete_ne).
  by rewrite (proj1 (countZ_zero _ _) Hz _ _ Hd) in Hp'.
Qed.

(** An entry of a transfer that the query leaves out is one of its legs. *)
Lemma clean_entry t db k e :
  is_problem (transfer_problem t db) = false ->
  ledger_entries db !! k = Some e -> e_transfer_id e = t_id t -> debit_leg t e \/ credit_leg t e.
Proof.
  unfold is_problem. simpl. rewrite !orb_false_iff, !negb_false_iff, !Z.eqb_eq, !Z.ltb_ge.
  intros (((((((Hn & _) & _) & _) & Hcur) & Hf) & Hwd) & Hwc) Hk Ht.
  rewrite Hn in Hcur. simpl in Hcur. rewrite Z.add_0_r in Hcur.
  assert (Hz : forall p, countZ (fun e => of_transfer (t_id t) e && p e) (ledger_entries db) <= 0 ->
                         p e = false).
  { intros p Hp. pose proof (countZ_nonneg (fun e => of_transfer (t_id t) e && p e) (ledger_entries db)).
    assert (countZ (fun e => of_transfer (t_id t) e && p e) (ledger_entries db) = 0) as Hz by lia.
    apply (proj1 (countZ_zero _ _) Hz) in Hk. unfold of_transfer in Hk.
    by rewrite Ht, uuid_eqb_refl in Hk. }
  apply Hz in Hcur, Hf, Hwd, Hwc. apply negb_false_iff, bool_decide_eq_true in Hcur.
  unfold debit_leg, credit_leg, uuid_eqb in *. repeat case_bool_decide; simpl in *;
    rewrite ?negb_false_iff, ?Z.eqb_eq in *; auto; discriminate.
Qed.

(** A transfer is left out of the answer exactly when its entries are one debit
    of the source and one credit of the destination. *)
Lemma clean_two_legs t db :
  0 < t_amount_minor t -> is_problem (transfer_problem t db) = false -> two_legs db t.
Proof.
  intros Hamt Hok. pose proof (fun k e => clean_entry t db k e Hok) as Hleg.
  unfold is_problem in Hok. simpl in Hok.
  rewrite !orb_false_iff, !negb_false_iff, !Z.eqb_eq in Hok.
  destruct Hok as (((((((_ & _) & Hd) & Hc) & _) & _) & _) & _).
  apply countZ_one in Hd as (k1 & e1 & H1 & [T1 A1]%andb_true_iff & U1).
  apply countZ_one in Hc as (k2 & e2 & H2 & [T2 A2]%andb_true_iff & U2).
  apply Z.ltb_lt in A1, A2. apply bool_decide_eq_true in T1, T2.
  assert (Hside : forall k e, ledger_entries db !! k = Some e -> e_transfer_id e = t_id t ->
            k = k1 /\ debit_leg t e \/ k = k2 /\ credit_leg t e).
  { intros k e Hk Ht. assert (Ho : of_transfer (t_id t) e = true) by (by apply bool_decide_eq_true).
    destruct (Hleg _ _ Hk Ht) as [L|L]; [left | right]; (split; [|done]);
      destruct L as (_ & _ & Ha & _); [eapply U1 | eapply U2]; try done;
      rewrite Ho; apply Z.ltb_lt; lia. }
  exists k1, k2, e1, e2.
  assert (Hne : k1 <> k2) by (intros ->; simplify_eq; lia).
  split_and!; [done | done | done | | |].
  + by destruct (Hside _ _ H1 T1) as [[_ L]|[? _]].
  + by destruct (Hside _ _ H2 T2) as [[? _]|[_ L]]; [congruence |].
  + intros k e Hk Ht. destruct (Hside _ _ Hk Ht) as [[? _]|[? _]]; auto.
Qed.

Lemma two_legs_clean t db :
  0 < t_amount_minor t -> t_source_account_id t <> t_destination_account_id t ->
  two_legs db t -> is_problem (transfer_problem t db) = false.
Proof.
  intros Hamt Hne Hl. pose proof (two_legs_entry_sum _ _ Hl) as Hs.
  apply two_legs_sum in Hl as (e1 & e2 & (T1 & S1 & M1 & C1) & (T2 & S2 & M2 & C2) & Hsum).
  assert (Hcount : forall p, countZ (fun e => of_transfer (t_id t) e && p e) (ledger_entries db)
            = (if p e1 then 1 else 0) + (if p e2 then 1 else 0)).
  { intros p. rewrite <- (Hsum (fun e => if p e then 1 else 0)). apply sumZ_ext.
    intros k e _. by destruct (of_transfer _ e). }
  assert (Hn : entry_count (t_id t) db = 2) by apply (Hsum (fun _ => 1)).
  unfold is_problem. simpl. rewrite !Hcount, Hn, Hs, M1, M2, C1, C2, S1, S2, !uuid_eqb_refl.
  rewrite !bool_decide_eq_true_2, !Z.eqb_refl by done. simpl.
  rewrite (proj2 (Z.ltb_lt (- t_amount_minor t) 0)), (proj2 (Z.ltb_ge 0 (- t_amount_minor t))),
    (proj2 (Z.ltb_ge (t_amount_minor t) 0)), (proj2 (Z.ltb_lt 0 (t_amount_minor t))) by lia.
  rewrite !andb_false_r. simpl.
  by rewrite !uuid_eqb_ne by congruence.
Qed.

(** Rows the table constraints of [transfers] admit. *)
Definition transfers_sane (db : Db) : Prop :=
  forall id t, transfers db !! id = Some t ->
    0 < t_amount_minor t /\ t_source_account_id t <> t_destination_account_id t.

Lemma select_unbalanced_nil db :
  transfers_sane db ->
  select_unbalanced db = [] <->
  forall id t, transfers db !! id = Some t -> t_status t = "completed" -> two_legs db t.
Proof.
  intros Hsane. unfold select_unbalanced. rewrite filter_nil_iff. split.
  - intros Hno id t Ht Hst. destruct (Hsane _ _ Ht) as [Ha _]. apply clean_two_legs; [done |].
    apply not_true_iff_false, Hno, list_elem_of_fmap. exists (id, t). split; [done |].
    apply list_elem_of_filter. split; [done |]. by apply elem_of_by_id.
  - intros Hall p (kv & -> & Hin)%list_elem_of_fmap. destruct kv as [id t].
    apply list_elem_of_filter in Hin as [Hst Hin]. apply elem_of_by_id in Hin. simpl in *.
    destruct (Hsane _ _ Hin). apply not_true_iff_false, two_legs_clean; eauto.
Qed.

(** The rows that [findBalanceMismatches] scans and keeps. *)
Definition mismatch_of (baseline : Baseline) (row : UUID * Z * Z) : BalanceMismatch :=
  let '(id, stored, ledger) := row in
  mkMismatch id stored (base_of baseline id) ledger (wrap64 (base_of baseline id + ledger)).

Definition mismatches_in (baseline : Baseline) (db : Db) : list BalanceMismatch :=
  filter (fun m => bm_StoredMinor m <> bm_ExpectedMinor m)
    (mismatch_of baseline <$> select_ledger_sums db).

Lemma mismatches_in_nil baseline db :
  mismatches_in baseline db = [] <->
  forall id r, accounts db !! id = Some r ->
    a_balance_minor r = wrap64 (base_of baseline id + account_ledger id db).
Proof.
  unfold mismatches_in, select_ledger_sums. rewrite filter_nil_iff. split.
  - intros Hno id r Hr. apply dec_stable.
    apply (Hno (mismatch_of baseline (id, a_balance_minor r, account_ledger id db))).
    apply list_elem_of_fmap. eexists. split; [done |]. apply list_elem_of_fmap.
    exists (id, r). split; [done |]. by apply elem_of_by_id.
  - intros Hall m (row & -> & Hin)%list_elem_of_fmap.
    apply list_elem_of_fmap in Hin as ([id r] & -> & Hin). apply elem_of_by_id in Hin.
    simpl. intros Hne. by apply Hne, Hall.
Qed.

Lemma scan_rows_mismatch baseline rows ms :
  scan_rows (scan_mismatch baseline) rows = Ok ms -> ms = mismatch_of baseline <$> rows.
Proof.
  rewrite scan_rows_Ok. induction 1 as [|[[id st] l] m rows ms Hm _ IH]; [done |].
  simpl in *. unfold scan_int64 in Hm. destruct (in_int64 l); [|done]. by simplify_eq.
Qed.

Lemma scan_rows_id {A} (scan : A -> result A) rows bs :
  (forall a b, scan a = Ok b -> b = a) -> scan_rows scan rows = Ok bs -> bs = rows.
Proof.
  intros Hs. rewrite scan_rows_Ok. induction 1 as [|a b rows bs Hb _ IH]; [done |].
  by rewrite (Hs _ _ Hb), IH.
Qed.

Lemma scan_rows_ext {A B} (f g : A -> result B) rows :
  (forall a, f a = g a) -> scan_rows f rows = scan_rows g rows.
Proof. intros E. induction rows as [|a rows IH]; simpl; [done |]. by rewrite E, IH. Qed.

Lemma scan_rows_total {A B} (f : A -> B) rows : scan_rows (fun a => Ok (f a)) rows = Ok (f <$> rows).
Proof. apply scan_rows_Ok. induction rows; constructor; auto. Qed.

(** ** A pass as a whole *)

(** What each query adds to the report, from the snapshot it saw. *)
Definition with_totals (d : Db) (r : Report) : Report :=
  let q := select_totals d in
  mkReport (q_accounts q) (q_completed q) (q_pending q) (q_entries q) (q_balance q) (q_ledger q)
    (rp_NegativeBalances r) (rp_BalanceMismatches r) (rp_UnbalancedTransfers r).

Definition with_found (neg : list NegativeBalance) (mis : list BalanceMismatch)
    (unb : list TransferProblem) (r : Report) : Report :=
  mkReport (rp_Accounts r) (rp_CompletedTransfers r) (rp_PendingTransfers r) (rp_LedgerEntries r)
    (rp_TotalBalanceMinor r) (rp_TotalLedgerMinor r) neg mis unb.

(** The report of a pass whose four queries saw [d1], [d2], [d3] and [d4]. *)
Definition report_from (baseline : Baseline) (d1 d2 d3 d4 : Db) : Report :=
  with_found ((fun '(id, b) => mkNegative id b) <$> select_negative d2)
    (mismatches_in baseline d4) (select_unbalanced d3) (with_totals d1 empty_report).

Section pass.
Variables (I : Db -> Prop) (okay : forall B, op B -> Prop).
Hypothesis okay_query : forall A (q : Db -> A), okay _ (OpQuery q).
Hypothesis okay_rand : okay _ OpRand.

(** What a fallible handler promises of a result it does return. *)
Definition returns {A} (P : A -> Prop) (r : result A) (_ : Db) : Prop :=
  forall a, r = Ok a -> P a.

Lemma safe_query {A B} (q : Db -> A) (k : result A -> prog (result B)) P db :
  (forall d db', I d -> safe I okay (returns P) (k (Ok (q d))) db') ->
  (forall e db', safe I okay (returns P) (k (Err e)) db') ->
  safe I okay (returns P) (bind (call (OpQuery q)) k) db.
Proof.
  intros Hok Herr. split; [apply okay_query |]. simpl.
  intros db1 db2 b _ HI [-> [->|[e ->]]]; auto.
Qed.

Lemma safe_read_stream {A B} (rows : list A) (k : list A * option goerr -> prog (result B)) P db :
  (forall db', safe I okay (returns P) (k (rows, None)) db') ->
  (forall n e db', safe I okay (returns P) (k (take n rows, Some e)) db') ->
  safe I okay (returns P) (bind (read_stream rows) k) db.
Proof.
  intros Hok Herr. unfold read_stream. simpl. split; [apply okay_query |].
  intros db1 db2 b _ _ [-> [->|[e ->]]]; simpl; [apply Hok |].
  split; [apply okay_rand |]. intros db3 db4 n _ _ ->. apply Herr.
Qed.

Lemma safe_CollectRows {A B C} (rows : list A) (scan : A -> result B)
    (k : result (list B) -> prog (result C)) P db :
  (forall bs db', scan_rows scan rows = Ok bs -> safe I okay (returns P) (k (Ok bs)) db') ->
  (forall e db', safe I okay (returns P) (k (Err e)) db') ->
  safe I okay (returns P) (bind (CollectRows rows scan) k) db.
Proof.
  intros Hok Herr. unfold CollectRows, read_stream. simpl. split; [apply okay_query |].
  intros db1 db2 b _ _ [-> [->|[e ->]]]; simpl.
  - destruct (scan_rows scan rows) eqn:E; simpl; auto.
  - split; [apply okay_rand |]. intros db3 db4 n _ _ ->.
    destruct (scan_rows scan (take _ _)); simpl; auto.
Qed.

(** The next step runs on any report the previous one promised. *)
Lemma safe_and_then p f (P1 P2 : Report -> Prop) db :
  safe I okay (returns P1) p db ->
  (forall a db', P1 a -> safe I okay (returns P2) (f a) db') ->
  safe I okay (returns P2) (and_then p f) db.
Proof.
  intros H Hf. unfold and_then. apply safe_bind. eapply safe_mono; [|exact H].
  intros [a|e] db' Ha; simpl; [by apply Hf, Ha | by intros ?].
Qed.

Lemma countTotals_safe report db :
  safe I okay (returns (fun r => exists d, I d /\ r = with_totals d report))
    (countTotals report) db.
Proof.
  apply safe_query.
  - intros d db' Hd. unfold scan_int64. destruct (in_int64 (q_balance (select_totals d))),
      (in_int64 (q_ledger (select_totals d)));
      simpl; intros a [= <-]; eauto.
  - by intros e db' a.
Qed.

Lemma findNegativeBalances_safe report db :
  safe I okay (returns (fun r => exists d, I d /\
      r = with_found ((fun '(id, b) => mkNegative id b) <$> select_negative d)
            (rp_BalanceMismatches report) (rp_UnbalancedTransfers report) report))
    (findNegativeBalances report) db.
Proof.
  apply safe_query; [|by intros e db' a]. intros d db' Hd. apply safe_CollectRows.
  - intros bs db'' Hbs a [= <-]. exists d. split; [done |].
    rewrite (scan_rows_ext _ (fun x => Ok (let '(id, b) := x in mkNegative id b))),
      scan_rows_total in Hbs by (by intros [? ?]). by injection Hbs as <-.
  - by intros e db'' a.
Qed.

Lemma findUnbalancedTransfers_safe report db :
  safe I okay (returns (fun r => exists d, I d /\
      r = with_found (rp_NegativeBalances report) (rp_BalanceMismatches report)
            (select_unbalanced d) report))
    (findUnbalancedTransfers report) db.
Proof.
  apply safe_query; [|by intros e db' a]. intros d db' Hd. apply safe_CollectRows.
  - intros bs db'' Hbs a [= <-]. exists d. split; [done |].
    apply scan_rows_id in Hbs as ->; [done |]. unfold scan_problem, scan_int64.
    intros x y. destruct (in_int64 _); congruence.
  - by intros e db'' a.
Qed.

Lemma findBalanceMismatches_safe baseline report db :
  safe I okay (returns (fun r => exists d, I d /\
      r = with_found (rp_NegativeBalances report)
            (rp_BalanceMismatches report ++ mismatches_in baseline d)
            (rp_UnbalancedTransfers report) report))
    (findBalanceMismatches baseline report) db.
Proof.
  apply safe_query; [|by intros e db' a]. intros d db' Hd. apply safe_CollectRows.
  - intros bs db'' Hbs a [= <-]. exists d. split; [done |].
    by apply scan_rows_mismatch in Hbs as ->.
  - by intros e db'' a.
Qed.

(** Whatever happens in between, a report is what four states of the database
    between the start and the end of the pass say. *)
Lemma Check_snapshots baseline db :
  safe I okay
    (returns (fun report => exists d1 d2 d3 d4, I d1 /\ I d2 /\ I d3 /\ I d4
                /\ report = report_from baseline d1 d2 d3 d4))
    (Check baseline) db.
Proof.
  eapply safe_and_then; [apply countTotals_safe |]. intros r1 db1 (d1 & H1 & ->).
  eapply safe_and_then; [apply findNegativeBalances_safe |]. intros r2 db2 (d2 & H2 & ->).
  eapply safe_and_then; [apply findUnbalancedTransfers_safe |]. intros r3 db3 (d3 & H3 & ->).
  eapply safe_mono; [|apply findBalanceMismatches_safe].
  intros r db4 Hr a ->. destruct (Hr a eq_refl) as (d4 & H4 & ->). by exists d1, d2, d3, d4.
Qed.
End pass.

(** ** The snapshot of a baseline *)

Lemma scan_baseline_lookup rows b0 b :
  NoDup rows.*1 -> scan_baseline rows b0 = Ok b ->
  (forall id v, (id, v) ∈ rows -> b !! id = Some v)
  /\ (forall id, id ∉ rows.*1 -> b !! id = b0 !! id).
Proof.
  revert b0. induction rows as [|[i x] rows IH]; intros b0 Hnd H.
  - injection H as <-. split; [|done]. by intros id v ?%elem_of_nil.
  - simpl in H, Hnd. apply NoDup_cons in Hnd as [Hi Hnd]. unfold scan_int64 in H.
    destruct (in_int64 x); [|done]. destruct (IH _ Hnd H) as [Hin Hout]. split.
    + intros id v [[= -> ->]|Hv]%elem_of_cons; [|by apply Hin].
      by rewrite Hout, lookup_insert_eq.
    + intros id [Hne Hid]%not_elem_of_cons. rewrite Hout by done.
      by rewrite lookup_insert_ne.
Qed.

Lemma select_unexplained_spec db b :
  scan_baseline (select_unexplained db) ∅ = Ok b ->
  forall id, b !! id = (fun r => a_balance_minor r - account_ledger id db) <$> accounts db !! id.
Proof.
  intros H. assert (Hk : (select_unexplained db).*1 = (map_to_list (accounts db)).*1).
  { unfold select_unexplained. rewrite <- list_fmap_compose. apply list_fmap_ext.
    by intros i [? ?]. }
  destruct (scan_baseline_lookup _ _ _ ltac:(rewrite Hk; apply NoDup_fst_map_to_list) H) as [Hin Hout].
  intros id. destruct (accounts db !! id) as [r|] eqn:Hr; simpl.
  - apply Hin, list_elem_of_fmap. exists (id, r). by rewrite elem_of_map_to_list.
  - rewrite Hout, lookup_empty; [done |]. rewrite Hk.
    intros ([? r] & -> & Hin')%list_elem_of_fmap. apply elem_of_map_to_list in Hin'.
    simpl in Hr. congruence.
Qed.

(** Under the ledger invariant the snapshot is the baseline, account by account. *)
Lemma snapshot_base base db b :
  db_inv base db -> scan_baseline (select_unexplained db) ∅ = Ok b ->
  forall id, base_of b id = base_of base id.
Proof.
  intros Hinv H id. unfold base_of at 1. rewrite (select_unexplained_spec _ _ H).
  destruct (accounts db !! id) as [r|] eqn:Hr; simpl.
  - rewrite (inv_books _ _ Hinv _ _ Hr). lia.
  - unfold base_of. destruct (base !! id) eqn:Hb; [|done].
    destruct (inv_base _ _ Hinv id) as [r Hr']; [eauto | congruence].
Qed.

Lemma SnapshotBaseline_safe I (okay : forall B, op B -> Prop) db :
  (forall A (q : Db -> A), okay _ (OpQuery q)) -> okay _ OpRand ->
  safe I okay (returns (fun b => exists d, I d /\ scan_baseline (select_unexplained d) ∅ = Ok b))
    SnapshotBaseline db.
Proof.
  intros Hq Hr. apply safe_query; [done | | by intros e db' a].
  intros d db' Hd. apply safe_read_stream; [done | done | |].
  - intros db''. destruct (scan_baseline _ _) eqn:E; simpl; intros b [= <-]; eauto.
  - intros n e db''. by destruct (scan_baseline _ _).
Qed.
