(* ===== verification/Stress.v ===== *)
(** * [cmd/stress]: the concurrent workload and its verdict

    [main.go] and [runtime.go]. The command runs in one process: it verifies
    the pool, creates and funds accounts, snapshots a baseline, lets one
    goroutine per command post, and reconciles. [proc] is what the main
    goroutine does, a relation between the world before, the world after and
    the result; [xstep] interleaves the goroutines of [execute], which share
    the slots, the mutex and the counters. *)
From stdpp Require Import base gmap fin_maps strings list relations.
From Stdlib Require Import ZArith Lia Ascii.
From S2P Require Import Prelude.
From S2P Require Import GoStd.
From S2P Require Import GoTime.
From S2P Require Import Uuid.
From S2P Require Import Errors.
From S2P Require Import Config.
From S2P Require Import Money.
From S2P Require Import Schema.
From S2P Require Import Tx.
From S2P Require Import Transfer.
From S2P Require Import LedgerInv.
From S2P Require Import Prog.
From S2P Require Import Pools.
From S2P Require Import Retry.
From S2P Require Import Account.
From S2P Require Import Idempotent.
From S2P Require Import Reconcile.

Open Scope Z_scope.

(** ** Data *)

Record options := mkOptions {
  so_scenario : string;
  so_attempts : Z;
  so_concurrency : Z;
  so_amount : Z;            (* int64 *)
  so_currency : string;
  so_fund : Z;              (* int64 *)
  so_accounts : Z;
  so_source : string;
  so_destination : string;
  so_timeout : Z;
  so_asJSON : bool;
  so_verbose : bool
}.

(** The defaults of the flags. *)
Definition default_options : options :=
  mkOptions "oneway" 100 0 100 "USD" 0 4 "" "" (5 * Minute) false false.

(** The fields of [Result] that [execute] writes. *)
Record Counts := mkCounts {
  ct_Successful : Z;
  ct_InsufficientFunds : Z;
  ct_ExhaustedRetries : Z;
  ct_UnexpectedFailures : Z;
  ct_SerializationRetries : Z;
  ct_DeadlockRetries : Z;
  ct_TotalAttempts : Z;
  ct_MaxAttemptsForOne : Z;
  ct_Problems : list msg
}.

Definition no_counts : Counts := mkCounts 0 0 0 0 0 0 0 0 [].

Record StressEnv := mkStressEnv {
  en_GoVersion : string;
  en_OSArch : string;
  en_CPUs : Z;
  en_PostgresVersion : string;
  en_StartedAt : string;
  en_PoolMaxConns : Z;
  en_IsolationLevel : string;
  en_LockOrderStrategy : string
}.

(** [Result], with the fields of [execute] together. *)
Record StressResult := mkStressResult {
  sr_Scenario : string;
  sr_Attempts : Z;
  sr_Concurrency : Z;
  sr_AmountMinor : Z;
  sr_Currency : string;
  sr_counts : Counts;
  sr_RetryBudget : Z;
  sr_NegativeBalances : Z;
  sr_LedgerInvariantViolations : Z;
  sr_ConservationHeld : bool;
  sr_ReconciliationOK : bool;
  sr_TotalBalanceBefore : Z;
  sr_TotalBalanceAfter : Z;
  sr_BalancesBefore : gmap string Z;
  sr_BalancesAfter : gmap string Z;
  sr_CompletedTransfers : Z;
  sr_PendingTransfers : Z;
  sr_LedgerEntries : Z;
  sr_DurationMS : Z;
  sr_Problems : list msg;
  sr_Environment : StressEnv
}.

(** [Result.OK]. *)
Definition Result_OK (r : StressResult) : bool :=
  (sr_NegativeBalances r =? 0)
  && (sr_LedgerInvariantViolations r =? 0)
  && sr_ConservationHeld r
  && sr_ReconciliationOK r
  && (ct_UnexpectedFailures (sr_counts r) =? 0).

(** ** The workload *)

(** The [i]-th command of a scenario. [None] is an index out of range, a panic. *)
Definition command_at (opt : options) (currency : string) (accounts : list UUID) (i : nat)
    : option Command :=
  let newCmd from to := mkCommand from to (so_amount opt) currency in
  if bool_decide (so_scenario opt = "opposing") then
    a0 ← accounts !! 0%nat; a1 ← accounts !! 1%nat;
    Some (if Z.of_nat i mod 2 =? 0 then newCmd a0 a1 else newCmd a1 a0)
  else if bool_decide (so_scenario opt = "ring") then
    let n := length accounts in
    from ← accounts !! (i mod n)%nat; to ← accounts !! ((i + 1) mod n)%nat;
    Some (newCmd from to)
  else
    a0 ← accounts !! 0%nat; a1 ← accounts !! 1%nat;
    Some (newCmd a0 a1).

(** [make([]T, 0, cap)] panics when the capacity is negative or takes more bytes
    than the address space has: [runtime.maxAlloc] of a 64-bit Linux process. *)
Definition maxAlloc : Z := 2 ^ 48.
Definition make_fits (elem_size cap : Z) : bool := (0 <=? cap) && (elem_size * cap <=? maxAlloc).

(** The sizes of [uuid.UUID] and of [transfer.Command]: two identifiers, an
    [int64] and a string header. *)
Definition sizeof_UUID : Z := 16.
Definition sizeof_Command : Z := 56.

(** [None] is a panic. *)
Definition buildCommands (opt : options) (currency : string) (accounts : list UUID)
    : option (list Command) :=
  if negb (make_fits sizeof_Command (so_attempts opt)) then None
  else mapM (command_at opt currency accounts) (seq 0 (Z.to_nat (so_attempts opt))).

(** What each created account is given. *)
Definition funding (opt : options) : Z :=
  if so_fund opt =? 0 then wrap64 (so_attempts opt * so_amount opt) else so_fund opt.

(** How many accounts [setupAccounts] creates. *)
Definition account_count (opt : options) : result nat :=
  if bool_decide (so_scenario opt = "ring") then
    if so_accounts opt <? 2 then
      Err (Plain [Txt "-accounts must be at least 2 for the ring scenario"])
    else Ok (Z.to_nat (so_accounts opt))
  else Ok 2%nat.

(** ** Outcomes of the workload *)

(** What a goroutine does with its outcome while it holds the mutex. *)
Definition count_outcome (c : Counts) (out : result Transfer * Attempts) : Counts :=
  let '(r, attempts) := out in
  let total := ct_TotalAttempts c + Total attempts in
  let ser := ct_SerializationRetries c + SerializationFailures attempts in
  let dead := ct_DeadlockRetries c + Deadlocks attempts in
  let worst := Z.max (ct_MaxAttemptsForOne c) (Total attempts) in
  match r with
  | Ok _ =>
      mkCounts (ct_Successful c + 1) (ct_InsufficientFunds c) (ct_ExhaustedRetries c)
        (ct_UnexpectedFailures c) ser dead total worst (ct_Problems c)
  | Err err =>
      if errors_Is err ErrInsufficientFunds then
        mkCounts (ct_Successful c) (ct_InsufficientFunds c + 1) (ct_ExhaustedRetries c)
          (ct_UnexpectedFailures c) ser dead total worst (ct_Problems c)
      else if errors_Is err ErrRetriesExhausted then
        mkCounts (ct_Successful c) (ct_InsufficientFunds c) (ct_ExhaustedRetries c + 1)
          (ct_UnexpectedFailures c) ser dead total worst (ct_Problems c)
      else
        mkCounts (ct_Successful c) (ct_InsufficientFunds c) (ct_ExhaustedRetries c)
          (ct_UnexpectedFailures c + 1) ser dead total worst
          (if (length (ct_Problems c) <? 10)%nat
           then (ct_Problems c ++ [Txt "unexpected failure: " :: Error err])%list
           else ct_Problems c)
  end.

(** ** The goroutines of [execute]

    A goroutine waits for the barrier and for a slot, posts, counts its outcome
    under the mutex, and gives its slot back. A panic would end the process:
    no step leaves it. *)

Inductive worker :=
  | WBlocked (cmd : Command)
  | WRunning (p : prog (result Transfer * Attempts))
  | WCounted (out : result Transfer * Attempts)
  | WDone (out : result Transfer * Attempts).

Definition holds_slot (w : worker) : bool :=
  match w with WRunning _ | WCounted _ => true | _ => false end.

Definition is_done (w : worker) : bool := match w with WDone _ => true | _ => false end.

Definition in_flight (ws : list worker) : Z := Z.of_nat (length (List.filter holds_slot ws)).

Definition stress_policy : RetryPolicy := svc_retry NewService.

Section stress.
Context {R : Type} {RC : UniversalClient R}.

Record Exec := mkExec { x_world : World R; x_workers : list worker; x_counts : Counts }.

(** After [close(start)]. *)
Definition exec_init (w : World R) (cmds : list Command) : Exec :=
  mkExec w (WBlocked <$> cmds) no_counts.

Inductive xstep (concurrency : Z) : Exec -> Exec -> Prop :=
  (* slots <- struct{}{} *)
  | x_slot w ws c i cmd :
      ws !! i = Some (WBlocked cmd) -> in_flight ws < concurrency ->
      xstep concurrency (mkExec w ws c)
        (mkExec w (<[i := WRunning (PostWithAttempts stress_policy cmd)]> ws) c)
  (* an operation of PostWithAttempts *)
  | x_op w ws c i B (o : op B) k e w' b :
      ws !! i = Some (WRunning (Vis o k)) -> handle e w o = (w', b) ->
      xstep concurrency (mkExec w ws c) (mkExec w' (<[i := WRunning (k b)]> ws) c)
  (* mu.Lock() ... mu.Unlock() *)
  | x_count w ws c i out :
      ws !! i = Some (WRunning (Ret out)) ->
      xstep concurrency (mkExec w ws c)
        (mkExec w (<[i := WCounted out]> ws) (count_outcome c out))
  (* <-slots; wg.Done() *)
  | x_release w ws c i out :
      ws !! i = Some (WCounted out) ->
      xstep concurrency (mkExec w ws c) (mkExec w (<[i := WDone out]> ws) c).

(** [wg.Wait()] returns. *)
Definition all_done (e : Exec) : bool := forallb is_done (x_workers e).

(** ** The main goroutine *)

Definition proc (A : Type) : Type := World R -> World R -> A -> Prop.

Definition proc_ret {A} (a : A) : proc A := fun w w' b => w' = w /\ b = a.
Definition proc_bind {A B} (m : proc A) (f : A -> proc B) : proc B :=
  fun w w' b => exists w1 a, m w w1 a /\ f a w1 w' b.

(** Running a program alone, with any answers from outside. *)
Definition perform {A} (p : prog A) : proc A := fun w w' a => exists es, run p es w = (w', Some a).

(** [pool.Exec] of one statement. *)
Definition pool_Exec {A} (f : Z -> Db -> sql (Db * list deferred * A)) : proc (result A) :=
  fun w w' r => exists env, on_db w (autocommit (exec f) env) = (w', r).

(** [execute]: the counters, and the milliseconds it took. *)
Definition execute_workers (cmds : list Command) (concurrency : Z) : proc Counts :=
  fun w w' c => exists ws,
    rtc (xstep concurrency) (exec_init w cmds) (mkExec w' ws c) /\ forallb is_done ws = true.
End stress.

Declare Scope proc_scope.
Delimit Scope proc_scope with proc.
Notation "x <- c1 ;; c2" := (proc_bind c1 (fun x => c2))
  (at level 20, c1 at level 99, c2 at level 200, only parsing) : proc_scope.
Notation "' pat <- c1 ;; c2" := (proc_bind c1 (fun x => match x with pat => c2 end))
  (at level 20, pat pattern, c1 at level 99, c2 at level 200, only parsing) : proc_scope.

Section command.
Context {R : Type} {RC : UniversalClient R} {UL : UuidLib}.
Context {P : Type} {PL : PgxLib P}.
Local Abbreviation proc := (@proc R).

Definition execute (cmds : list Command) (concurrency : Z) : proc (Counts * Z) :=
  (began <- perform (call OpNow) ;;
   counts <- execute_workers cmds concurrency ;;
   ended <- perform (call OpNow) ;;
   proc_ret (counts, Z.quot (ended - began) Millisecond))%proc.

(** The loop of [setupAccounts]. *)
Fixpoint createAccounts (n : nat) (currency : string) (funding : Z) : proc (result (list UUID)) :=
  match n with
  | O => proc_ret (Ok [])
  | S n' =>
      (created <- perform (Create currency) ;;
       match created with
       | Err err => proc_ret (Err (prefixed "creating account: " err))
       | Ok acct =>
           funded <- (if 0 <? funding
                      then pool_Exec (sql_credit (acct_ID acct) funding)
                      else proc_ret (Ok 0)) ;;
           match funded with
           | Err err =>
               proc_ret (Err (Wrap [Txt "funding account "; Uid (acct_ID acct); Txt ": "] err []))
           | Ok _ =>
               ids <- createAccounts n' currency funding ;;
               match ids with
               | Err err => proc_ret (Err err)
               | Ok ids => proc_ret (Ok (acct_ID acct :: ids))
               end
           end
       end)%proc
  end.

Variable uuid_parse_error : string -> goerr.   (* the error of uuid.Parse *)

(** [None] is a panic. *)
Definition setupAccounts (opt : options) (currency : string)
    : proc (option (result (list UUID))) :=
  if negb (bool_decide (so_source opt = "")) || negb (bool_decide (so_destination opt = "")) then
    match uuid_Parse (so_source opt) with
    | None => proc_ret (Some (Err (prefixed "-source: " (uuid_parse_error (so_source opt)))))
    | Some src =>
        match uuid_Parse (so_destination opt) with
        | None =>
            proc_ret (Some (Err (prefixed "-destination: " (uuid_parse_error (so_destination opt)))))
        | Some dst => proc_ret (Some (Ok [src; dst]))
        end
    end
  else
    match account_count opt with
    | Err err => proc_ret (Some (Err err))
    | Ok count =>
        if negb (make_fits sizeof_UUID (Z.of_nat count)) then proc_ret None
        else
          (ids <- createAccounts count currency (funding opt) ;;
           proc_ret (Some ids))%proc
    end.

(** The loop of [readBalances]. *)
Fixpoint readAccounts (ids : list UUID) (balances : gmap string Z) : prog (result (gmap string Z)) :=
  match ids with
  | [] => Ret (Ok balances)
  | id :: ids' =>
      (acct <- Account_Get id ;;
       match acct with
       | Err err => Ret (Err (Wrap [Txt "reading account "; Uid id; Txt ": "] err []))
       | Ok acct => readAccounts ids' (<[uuid_String id := acct_BalanceMinor acct]> balances)
       end)%prog
  end.

Definition readBalances (ids : list UUID) : prog (result (gmap string Z * Z)) :=
  (balances <- readAccounts ids ∅ ;;
   match balances with
   | Err err => Ret (Err err)
   | Ok balances =>
       row <- call (OpQuery total_balance) ;;
       match (match row with Err err => Err err | Ok sum => scan_int64 sum end) with
       | Err err => Ret (Err (prefixed "summing balances: " err))
       | Ok total => Ret (Ok (balances, total))
       end
   end)%prog.

(** What the runtime and the server say of themselves. *)
Variables (Version GOOS GOARCH : string) (NumCPU : Z) (server_version : string).

Definition runtimeVersion : string := Version.
Definition runtimeOSArch : string := GOOS +:+ "/" +:+ GOARCH.
Definition runtimeCPUs : Z := NumCPU.

Definition describeEnv (cfg : Config) : prog StressEnv :=
  (row <- call (OpQuery (fun _ => server_version)) ;;
   let version := match row with Err _ => "unknown"%string | Ok v => v end in
   now <- call OpNow ;;
   Ret (mkStressEnv runtimeVersion runtimeOSArch runtimeCPUs version (FormatRFC3339 now)
          (pg_MaxOpenConns (cfg_Postgres cfg)) "SERIALIZABLE"
          "canonical UUID order, lowest first"))%prog.

(** ** The verdict *)

Definition conservation_problem (before after : Z) : msg :=
  [Txt "total balances changed from "; Num before; Txt " to "; Num after;
   Txt " during a transfer-only workload"].

(** The result that [run] assembles from what it read. *)
Definition conclude (opt : options) (concurrency : Z) (currency : string) (cmds : list Command)
    (counts : Counts) (duration : Z) (environment : StressEnv)
    (before : gmap string Z) (totalBefore : Z) (after : gmap string Z) (totalAfter : Z)
    (report : Report) : StressResult :=
  let conservation := totalBefore =? totalAfter in
  let violations := Z.of_nat (length (rp_UnbalancedTransfers report))
                    + Z.of_nat (length (rp_BalanceMismatches report)) in
  mkStressResult (so_scenario opt) (Z.of_nat (length cmds)) concurrency (so_amount opt) currency
    counts (MaxAttempts stress_policy)
    (Z.of_nat (length (rp_NegativeBalances report)))
    (if negb (rp_TotalLedgerMinor report =? 0) then violations + 1 else violations)
    conservation (Report_OK report) totalBefore totalAfter before after
    (rp_CompletedTransfers report) (rp_PendingTransfers report) (rp_LedgerEntries report)
    duration
    (if negb conservation
     then (Problems report ++ [conservation_problem totalBefore totalAfter])%list
     else Problems report)
    environment.

(** The text of [emit]. The balances are printed in the order in which Go
    iterates over the map, [order]. *)
Definition newline : string := String "010" "".
Definition text_of_bool (b : bool) : string := if b then "true" else "false".

Definition emit_text (order : list (string * Z)) (r : StressResult) : list msg :=
  let c := sr_counts r in
  let line name v := [Txt name; Num v; Txt newline] in
  ([ [Txt "scenario           "; Str (sr_Scenario r); Txt newline];
     [Txt "attempts           "; Num (sr_Attempts r); Txt " (concurrency "; Num (sr_Concurrency r);
      Txt ", amount "; Num (sr_AmountMinor r); Txt " "; Str (sr_Currency r); Txt ")"; Txt newline];
     [Txt "duration           "; Num (sr_DurationMS r); Txt " ms"; Txt newline; Txt newline];
     line "successful         " (ct_Successful c);
     line "insufficient funds " (ct_InsufficientFunds c);
     line "exhausted retries  " (ct_ExhaustedRetries c);
     (line "unexpected         " (ct_UnexpectedFailures c) ++ [Txt newline])%list;
     line "serialization retries " (ct_SerializationRetries c);
     line "deadlock retries      " (ct_DeadlockRetries c);
     [Txt "total attempts        "; Num (ct_TotalAttempts c); Txt " (budget "; Num (sr_RetryBudget r);
      Txt ", worst single transfer "; Num (ct_MaxAttemptsForOne c); Txt ")"; Txt newline; Txt newline];
     [Txt "total balance      "; Num (sr_TotalBalanceBefore r); Txt " -> ";
      Num (sr_TotalBalanceAfter r); Txt newline] ]
   ++ ((fun '(id, before) =>
          [Txt "  "; Str id; Txt "  "; Num before; Txt " -> ";
           Num (default 0 (sr_BalancesAfter r !! id)); Txt newline]) <$> order)
   ++ [ [Txt newline];
        line "negative balances           " (sr_NegativeBalances r);
        line "ledger invariant violations " (sr_LedgerInvariantViolations r);
        [Txt "conservation held           "; Txt (text_of_bool (sr_ConservationHeld r)); Txt newline];
        [Txt "reconciliation ok           "; Txt (text_of_bool (sr_ReconciliationOK r)); Txt newline];
        [Txt "completed transfers         "; Num (sr_CompletedTransfers r); Txt " (pending ";
         Num (sr_PendingTransfers r); Txt ", ledger entries "; Num (sr_LedgerEntries r); Txt ")";
         Txt newline] ]
   ++ ((fun p => ([Txt newline; Txt "PROBLEM: "] ++ p ++ [Txt newline])%list) <$> sr_Problems r)
   ++ (if Result_OK r
       then [[Txt newline; Txt "all invariants held for this run"; Txt newline]] else []))%list.

(** ** [run] *)

(** A panic, or what [run] returns, with the result it emitted. *)
Inductive outcome :=
  | Panicked
  | Returned (emitted : option StressResult) (err : option goerr).

Definition fails (err : goerr) : proc outcome := proc_ret (Returned None (Some err)).

Definition violations_error : goerr :=
  Plain [Txt "invariant violations were detected; see the problems above"].

(** [stdout_error]: encoding the result as JSON onto standard output may fail. *)
Definition emit_and_exit (opt : options) (stdout_error : option goerr) (r : StressResult)
    : proc outcome :=
  match (if so_asJSON opt then stdout_error else None) with
  | Some err => fails err
  | None =>
      if negb (Result_OK r) then proc_ret (Returned (Some r) (Some violations_error))
      else proc_ret (Returned (Some r) None)
  end.

Definition effective_concurrency (opt : options) : Z :=
  if (so_concurrency opt <=? 0) || (so_attempts opt <? so_concurrency opt)
  then so_attempts opt else so_concurrency opt.

(** [run] from the baseline on. *)
Definition run_workload (opt : options) (cfg : Config) (concurrency : Z) (currency : string)
    (participants : list UUID) (cmds : list Command) (stdout_error : option goerr) : proc outcome :=
  (baseline <- perform SnapshotBaseline ;;
   match baseline with
   | Err err => fails err
   | Ok baseline =>
   balances <- perform (readBalances participants) ;;
   match balances with
   | Err err => fails err
   | Ok (before, totalBefore) =>
   environment <- perform (describeEnv cfg) ;;
   '(counts, duration) <- execute cmds concurrency ;;
   balances <- perform (readBalances participants) ;;
   match balances with
   | Err err => fails err
   | Ok (after, totalAfter) =>
   report <- perform (Check baseline) ;;
   match report with
   | Err err => fails err
   | Ok report =>
       emit_and_exit opt stdout_error
         (conclude opt concurrency currency cmds counts duration environment
            before totalBefore after totalAfter report)
   end end end end)%proc.

(** [run], with what [config.Load] returned. *)
Definition stress_run (opt : options) (loaded : result Config) (stdout_error : option goerr)
    : proc outcome :=
  if so_attempts opt <? 1 then fails (Plain [Txt "-attempts must be at least 1"]) else
  let concurrency := effective_concurrency opt in
  match ParseCurrency (so_currency opt) with
  | Err err => fails err
  | Ok currency =>
  match loaded with
  | Err err => fails err
  | Ok cfg =>
  match database_New cfg with
  | Err err => fails err
  | Ok db =>
  (verified <- perform (database_Verify db) ;;
   match verified with
   | Some err =>
       fails (Wrap [] err [Txt newline; Txt newline;
                           Txt "Start PostgreSQL with: make infra-up && make migrate-up"])
   | None =>
   participants <- setupAccounts opt currency ;;
   match participants with
   | None => proc_ret Panicked
   | Some (Err err) => fails err
   | Some (Ok participants) =>
   match buildCommands opt currency participants with
   | None => proc_ret Panicked
   | Some cmds => run_workload opt cfg concurrency currency participants cmds stdout_error
   end end end)%proc
  end end end.
End command.
