(* ===== verification/StressJson.v ===== *)
(** * [cmd/stress]: the machine-readable report

    [Result] and [Env] of [main.go] as JSON, and [emit]: the indented JSON of
    [-json], or the text. *)
From stdpp Require Import base gmap fin_maps strings list relations.
From Stdlib Require Import ZArith Lia Ascii.
From S2P Require Import Prelude.
From S2P Require Import GoStd.
From S2P Require Import GoStrings.
From S2P Require Import GoTime.
From S2P Require Import GoJson.
From S2P Require Import JsonSpec.
From S2P Require Import Uuid.
From S2P Require Import Errors.
From S2P Require Import GoFmt.
From S2P Require Import Config.
From S2P Require Import Schema.
From S2P Require Import Tx.
From S2P Require Import Transfer.
From S2P Require Import Prog.
From S2P Require Import Pools.
From S2P Require Import Account.
From S2P Require Import Reconcile.
From S2P Require Import Stress.

Open Scope Z_scope.

Section report.
Variable IsPrint : Z -> bool.
Variable PgError_Error : PgError -> string.
Context {UL : UuidLib}.

Definition StressEnv_json (e : StressEnv) : json :=
  JObj [("go_version"%string, JStr (en_GoVersion e));
        ("os_arch"%string, JStr (en_OSArch e));
        ("cpus"%string, JInt (en_CPUs e));
        ("postgres_version"%string, JStr (en_PostgresVersion e));
        ("started_at"%string, JStr (en_StartedAt e));
        ("pool_max_conns"%string, JInt (en_PoolMaxConns e));
        ("isolation_level"%string, JStr (en_IsolationLevel e));
        ("lock_order_strategy"%string, JStr (en_LockOrderStrategy e))].

(** [json:"problems,omitempty"]. *)
Definition problems_json (ps : list msg) : list (string * json) :=
  match ps with
  | [] => []
  | _ => [("problems"%string, JArr ((fun p => JStr (msg_text IsPrint PgError_Error p)) <$> ps))]
  end.

Definition StressResult_json (r : StressResult) : json :=
  let c := sr_counts r in
  JObj ([("scenario"%string, JStr (sr_Scenario r));
         ("attempts"%string, JInt (sr_Attempts r));
         ("concurrency"%string, JInt (sr_Concurrency r));
         ("amount_minor"%string, JInt (sr_AmountMinor r));
         ("currency"%string, JStr (sr_Currency r));
         ("successful"%string, JInt (ct_Successful c));
         ("insufficient_funds"%string, JInt (ct_InsufficientFunds c));
         ("exhausted_retries"%string, JInt (ct_ExhaustedRetries c));
         ("unexpected_failures"%string, JInt (ct_UnexpectedFailures c));
         ("serialization_retries"%string, JInt (ct_SerializationRetries c));
         ("deadlock_retries"%string, JInt (ct_DeadlockRetries c));
         ("total_attempts"%string, JInt (ct_TotalAttempts c));
         ("max_attempts_for_one_transfer"%string, JInt (ct_MaxAttemptsForOne c));
         ("retry_budget"%string, JInt (sr_RetryBudget r));
         ("negative_balances"%string, JInt (sr_NegativeBalances r));
         ("ledger_invariant_violations"%string, JInt (sr_LedgerInvariantViolations r));
         ("conservation_held"%string, JBool (sr_ConservationHeld r));
         ("reconciliation_ok"%string, JBool (sr_ReconciliationOK r));
         ("total_balance_minor_before"%string, JInt (sr_TotalBalanceBefore r));
         ("total_balance_minor_after"%string, JInt (sr_TotalBalanceAfter r));
         ("balances_before"%string, JMap JInt (sr_BalancesBefore r));
         ("balances_after"%string, JMap JInt (sr_BalancesAfter r));
         ("completed_transfers"%string, JInt (sr_CompletedTransfers r));
         ("pending_transfers"%string, JInt (sr_PendingTransfers r));
         ("ledger_entries"%string, JInt (sr_LedgerEntries r));
         ("duration_ms"%string, JInt (sr_DurationMS r))]
        ++ problems_json (sr_Problems r)
        ++ [("environment"%string, StressEnv_json (sr_Environment r))])%list.

(** What [emit] writes to standard output; [order] is the order in which Go
    iterates over the balances. *)
Definition emit (asJSON : bool) (order : list (string * Z)) (r : StressResult) : string :=
  if asJSON then Encode (SetIndent "" "  ") (StressResult_json r)
  else msg_text IsPrint PgError_Error (concat (emit_text order r)).

(** ** Reading a report *)

Definition json_int (v : option json) : option Z :=
  match v with Some (JNum lit) => parse_signed lit | _ => None end.

Definition json_bool (v : option json) : option bool :=
  match v with Some (JBool b) => Some b | _ => None end.

(** The verdict, from the members of a report alone. *)
Definition verdict_of (j : json) : option bool :=
  negative ← json_int (member "negative_balances" j);
  violations ← json_int (member "ledger_invariant_violations" j);
  conserved ← json_bool (member "conservation_held" j);
  reconciled ← json_bool (member "reconciliation_ok" j);
  unexpected ← json_int (member "unexpected_failures" j);
  Some ((negative =? 0) && (violations =? 0) && conserved && reconciled && (unexpected =? 0)).

(** The counters of a report under their names. *)
Definition numbers (r : StressResult) : list (string * Z) :=
  let c := sr_counts r in
  [("attempts", sr_Attempts r); ("concurrency", sr_Concurrency r); ("amount_minor", sr_AmountMinor r);
   ("successful", ct_Successful c); ("insufficient_funds", ct_InsufficientFunds c);
   ("exhausted_retries", ct_ExhaustedRetries c); ("unexpected_failures", ct_UnexpectedFailures c);
   ("serialization_retries", ct_SerializationRetries c); ("deadlock_retries", ct_DeadlockRetries c);
   ("total_attempts", ct_TotalAttempts c); ("max_attempts_for_one_transfer", ct_MaxAttemptsForOne c);
   ("retry_budget", sr_RetryBudget r); ("negative_balances", sr_NegativeBalances r);
   ("ledger_invariant_violations", sr_LedgerInvariantViolations r);
   ("total_balance_minor_before", sr_TotalBalanceBefore r);
   ("total_balance_minor_after", sr_TotalBalanceAfter r);
   ("completed_transfers", sr_CompletedTransfers r); ("pending_transfers", sr_PendingTransfers r);
   ("ledger_entries", sr_LedgerEntries r); ("duration_ms", sr_DurationMS r)]%string.

Lemma StressResult_json_fits r : fits 2 (StressResult_json r).
Proof.
  assert (Hm : forall m, fits 1 (JMap JInt m)).
  { intros m. apply (fits_JMap _ _ 0); [lia |]. intros. by apply fits_JInt. }
  assert (He : forall e, fits 1 (StressEnv_json e)).
  { intros e. apply (fits_JObj 0); [lia |].
    each_member; first [by apply fits_leaf | by apply fits_JInt]. }
  apply (fits_JObj 1); [lia |]. apply Forall_app. split; [|apply Forall_app; split].
  - each_member;
      first [by apply fits_leaf | by apply fits_JInt | apply Hm].
  - unfold problems_json. destruct (sr_Problems r) as [|p ps]; [done |].
    apply Forall_cons; split; [|done]. apply (fits_JArr 0); [lia |]. apply Forall_forall.
    intros j (q & -> & _)%list_elem_of_fmap. by apply fits_leaf.
  - apply Forall_cons; split; [apply He | done].
Qed.

(** Whoever parses the JSON report gets the value that was printed. *)
Lemma parse_emit order r :
  parse (emit true order r) = Some (json_valid (StressResult_json r)).
Proof.
  destruct (StressResult_json_fits r) as [Hok Hd]. unfold emit.
  apply parse_Encode; [by apply SetIndent_ok | done |]. unfold maxNestingDepth. lia.
Qed.

Lemma json_int_JInt z : json_int (Some (JInt z)) = Some z.
Proof. apply parse_signed_FormatInt. Qed.

(** A member that is not among the problems. *)
Ltac read_member := unfold StressResult_json, problems_json; by destruct (sr_Problems _).

Lemma report_numbers r :
  Forall (fun '(name, z) => json_int (member name (json_valid (StressResult_json r))) = Some z) (numbers r).
Proof.
  unfold numbers. each_member;
    rewrite <- json_int_JInt; f_equal; read_member.
Qed.

Lemma report_verdict r : verdict_of (json_valid (StressResult_json r)) = Some (Result_OK r).
Proof.
  unfold verdict_of.
  assert (Hn : forall name z, (name, z) ∈ numbers r ->
    json_int (member name (json_valid (StressResult_json r))) = Some z).
  { intros name z Hin. pose proof (report_numbers r) as H. rewrite Forall_forall in H. exact (H _ Hin). }
  rewrite (Hn "negative_balances"%string (sr_NegativeBalances r)) by (unfold numbers; set_solver).
  rewrite (Hn "ledger_invariant_violations"%string (sr_LedgerInvariantViolations r))
    by (unfold numbers; set_solver).
  rewrite (Hn "unexpected_failures"%string (ct_UnexpectedFailures (sr_counts r)))
    by (unfold numbers; set_solver).
  assert (Hc : member "conservation_held" (json_valid (StressResult_json r))
               = Some (JBool (sr_ConservationHeld r))) by read_member.
  assert (Hr : member "reconciliation_ok" (json_valid (StressResult_json r))
               = Some (JBool (sr_ReconciliationOK r))) by read_member.
  rewrite Hc, Hr. done.
Qed.
End report.
