(* ===== verification/BooksSpec.v ===== *)
(** * Accounts and reconciliation, call by call *)
From stdpp Require Import base gmap fin_maps strings list.
From Stdlib Require Import ZArith Lia Ascii.
From S2P Require Import Prelude.
From S2P Require Import GoStd.
From S2P Require Import Uuid.
From S2P Require Import Errors.
From S2P Require Import Money.
From S2P Require Import Schema.
From S2P Require Import Tx.
From S2P Require Import Transfer.
From S2P Require Import Posting.
From S2P Require Import LedgerInv.
From S2P Require Import Prog.
From S2P Require Import Retry.
From S2P Require Import Store.
From S2P Require Import Instances.
From S2P Require Import Account.
From S2P Require Import Idempotent.
From S2P Require Import Scenario.
From S2P Require Import Concurrency.
From S2P Require Import Reconcile.

Open Scope Z_scope.

(** ** Reconciliation *)

(** The aggregates of the queries fit the variables they are scanned into. *)
Record sums_fit (db : Db) : Prop := {
  fit_balance : in_int64 (total_balance db) = true;
  fit_ledger : in_int64 (total_ledger db) = true;
  fit_account : forall id, in_int64 (account_ledger id db) = true;
  fit_transfer : forall id, in_int64 (entry_sum id db) = true
}.

(** What a clean report asserts. *)
Record books_ok (baseline : Baseline) (db : Db) : Prop := {
  bk_ledger : total_ledger db = 0;
  bk_balance : forall id r, accounts db !! id = Some r ->
    0 <= a_balance_minor r
    /\ a_balance_minor r = wrap64 (base_of baseline id + account_ledger id db);
  bk_transfer : forall id t, transfers db !! id = Some t -> t_status t = "completed" -> two_legs db t
}.

Lemma scan_rows_map {A B} (scan : A -> result B) (f : A -> B) rows :
  (forall a, a ∈ rows -> scan a = Ok (f a)) -> scan_rows scan rows = Ok (f <$> rows).
Proof.
  intros H. apply scan_rows_Ok. induction rows as [|a rows IH]; constructor.
  - apply H. left.
  - apply IH. intros b Hb. apply H. by right.
Qed.

Lemma scan_problems db :
  sums_fit db -> scan_rows scan_problem (select_unbalanced db) = Ok (select_unbalanced db).
Proof.
  intros Hf. rewrite <- (list_fmap_id (select_unbalanced db)) at 2. apply scan_rows_map.
  intros p [_ Hp]%list_elem_of_filter.
  apply list_elem_of_fmap in Hp as ([id t] & -> & _). unfold scan_problem, scan_int64. simpl.
  by rewrite (fit_transfer _ Hf).
Qed.

Lemma scan_mismatches baseline db :
  sums_fit db ->
  scan_rows (scan_mismatch baseline) (select_ledger_sums db)
  = Ok (mismatch_of baseline <$> select_ledger_sums db).
Proof.
  intros Hf. apply scan_rows_map. intros row ([id r] & -> & _)%list_elem_of_fmap.
  simpl. unfold scan_int64. by rewrite (fit_account _ Hf).
Qed.

Lemma scan_negatives db :
  scan_rows (fun '(id, b) => Ok (mkNegative id b)) (select_negative db)
  = Ok ((fun '(id, b) => mkNegative id b) <$> select_negative db).
Proof. apply scan_rows_map. by intros [id b] _. Qed.

Section pass.
Context {R : Type} {RC : UniversalClient R}.

(** A pass alone, without faults, reports on the one state it runs in. *)
Lemma run_Check baseline es (w : World R) :
  (forall n, env_query (es n) = None) -> sums_fit (w_db w) ->
  run (Check baseline) es w
  = (w, Some (Ok (report_from baseline (w_db w) (w_db w) (w_db w) (w_db w)))).
Proof.
  intros Hq Hf. unfold Check, and_then, countTotals, findNegativeBalances, findUnbalancedTransfers,
    findBalanceMismatches, CollectRows, read_stream.
  cbn [bind call run handle]. rewrite Hq. unfold scan_int64 at 1 2.
  change (q_balance (select_totals (w_db w))) with (total_balance (w_db w)).
  change (q_ledger (select_totals (w_db w))) with (total_ledger (w_db w)).
  rewrite (fit_balance _ Hf), (fit_ledger _ Hf).
  cbn [bind call run handle]. rewrite !Hq. cbn [bind run handle]. rewrite !Hq. cbn [bind run handle].
  rewrite scan_negatives. cbn [bind run handle]. rewrite !Hq. cbn [bind run handle].
  rewrite !Hq. cbn [bind run handle]. rewrite scan_problems by done. cbn [bind run handle].
  rewrite !Hq. cbn [bind run handle]. rewrite !Hq. cbn [bind run handle].
  by rewrite scan_mismatches by done.
Qed.
End pass.

(** C22. A pass that runs by itself on tables whose sums fit 64 bits always
    returns a report, and the report is clean exactly when the books are in
    order: the whole ledger sums to zero, no balance is negative, every balance
    is its baseline plus its entries (in the 64-bit arithmetic of the
    comparison), and every completed transfer is one debit of its source and
    one credit of its destination. *)
Theorem Check_exact {R} {RC : UniversalClient R} baseline es (w : World R) :
  (forall n, env_query (es n) = None) -> sums_fit (w_db w) -> transfers_sane (w_db w) ->
  exists report, run (Check baseline) es w = (w, Some (Ok report))
    /\ (Report_OK report = true <-> books_ok baseline (w_db w)).
Proof.
  intros Hq Hf Hs. eexists. split; [by apply run_Check |].
  unfold Report_OK, report_from. simpl. rewrite length_fmap.
  rewrite !andb_true_iff, !Nat.eqb_eq, !length_zero_iff_nil, Z.eqb_eq.
  rewrite select_negative_nil, mismatches_in_nil, select_unbalanced_nil by done.
  split.
  - intros (((Hn & Hm) & Hu) & Hl). split; [done | eauto | eauto].
  - intros [Hl Hb Ht]. split_and!; [| | done | done]; intros id r Hr; by destruct (Hb id r Hr).
Qed.

(** The report agrees with itself: it is OK exactly when it counts no
    violation and has no line to print, and it prints one line per violation. *)
Lemma report_consistent r :
  Violations r = Z.of_nat (length (Problems r)) /\ (Report_OK r = true <-> Problems r = []).
Proof.
  assert (HV : Violations r = Z.of_nat (length (Problems r))).
  { unfold Violations, Problems. rewrite !length_app, !length_fmap.
    destruct (rp_TotalLedgerMinor r =? 0); simpl; lia. }
  split; [done |]. rewrite <- length_zero_iff_nil. unfold Report_OK, Violations in *.
  rewrite !andb_true_iff, !Nat.eqb_eq. destruct (rp_TotalLedgerMinor r =? 0); simpl in *; lia.
Qed.

(** ** Accounts *)

(** Opening an account: a malformed currency is refused with
    [ErrInvalidCurrency] before the database is asked; otherwise the account is
    stored with a zero balance, is returned as stored, and is what a later
    [Get] returns. *)
Lemma Create_Get {R} {RC : UniversalClient R} c es es' (w : World R) :
  (forall n, calm (env_tx (es n)) /\ accounts (w_db w) !! tx_uuid (env_tx (es n)) 0 = None) ->
  (forall n, env_query (es' n) = None) ->
  match Currency_Validate c with
  | Some e => run (Create c) es w = (w, Some (Err e)) /\ errors_Is e ErrInvalidCurrency = true
  | None =>
      exists a w', run (Create c) es w = (w', Some (Ok a))
        /\ acct_Currency a = c /\ acct_BalanceMinor a = 0
        /\ run (Account_Get (acct_ID a)) es' w' = (w', Some (Ok a))
  end.
Proof.
  intros Hes Hq. unfold Create. destruct (Currency_Validate c) as [e|] eqn:Hc.
  { split; [done |]. apply (Currency_Validate_Is _ _ Hc). }
  destruct (Hes O) as ((_ & Hf & Hcm) & Hfree). apply Currency_Validate_format in Hc.
  set (id := tx_uuid (env_tx (es 0%nat)) 0) in *.
  set (row := mkAccount id c 0 (tx_now (env_tx (es 0%nat))) (tx_now (env_tx (es 0%nat)))).
  assert (Hi : insert_account row (w_db w)
               = inr (mkDb (<[id := row]> (accounts (w_db w))) (transfers (w_db w))
                        (ledger_entries (w_db w)))).
  { unfold insert_account. simpl. rewrite currency_format_length by done. simpl.
    rewrite (proj2 (check_constraints_inr _ tt)).
    - by rewrite bool_decide_eq_true_2.
    - unfold accounts_checks. rewrite !Forall_cons. simpl. by rewrite Hc. }
  cbn [bind call run handle]. unfold on_db, autocommit, createAccount_tx, tx_bind, new_uuid, exec.
  cbn [tx_start tx_uuids tx_stmts tx_db tx_deferred]. rewrite Hf. unfold sql_createAccount.
  fold id row. rewrite Hi. simpl. rewrite Hcm. simpl.
  do 2 eexists. split; [reflexivity |]. split_and!; [done | done |].
  unfold Account_Get. simpl. rewrite Hq. simpl. by rewrite lookup_insert_eq.
Qed.

(** ** Witnesses *)

Lemma scn_fit : sums_fit scn_db.
Proof.
  split; try (by vm_compute); intros id; unfold account_ledger, entry_sum; simpl;
    by rewrite sumZ_empty.
Qed.

Lemma Check_exact_witness :
  exists report, run (Check scn_base) scn_env scn_world = (scn_world, Some (Ok report))
    /\ (Report_OK report = true <-> books_ok scn_base scn_db).
Proof.
  apply (Check_exact scn_base scn_env scn_world (fun _ => eq_refl) scn_fit).
  intros id t. simpl. rewrite lookup_empty. discriminate.
Defined.
