(* ===== verification/AtMostOnce.v ===== *)
(** * At most one posting per idempotency key

    [PostIdempotent] under interleaving, faults and an arbitrary Redis: a
    request that reports success reports the transfer recorded in PostgreSQL
    under its key, whose stored fingerprint is that of the request. Redis takes
    no part in the argument. *)
From stdpp Require Import base gmap fin_maps strings list relations.
From Stdlib Require Import ZArith Lia Ascii.
From S2P Require Import Prelude.
From S2P Require Import GoStd.
From S2P Require Import GoTime.
From S2P Require Import Uuid.
From S2P Require Import Errors.
From S2P Require Import Money.
From S2P Require Import Schema.
From S2P Require Import Tx.
From S2P Require Import Transfer.
From S2P Require Import Posting.
From S2P Require Import LedgerInv.
From S2P Require Import Idempotency.
From S2P Require Import Prog.
From S2P Require Import Retry.
From S2P Require Import Store.
From S2P Require Import Idempotent.
From S2P Require Import Concurrency.

Open Scope Z_scope.

(** Every operation but the two that write. *)
Definition quiet {B} (o : op B) : Prop :=
  match o with
  | OpPostOnce _ _ | OpCreateAccount _ => False
  | _ => True
  end.

(** A program that neither posts nor opens an account leaves the database alone. *)
Lemma run_quiet {R} {RC : UniversalClient R} {A} (p : prog A) es (w : World R) :
  all_ops (@quiet) p -> w_db (fst (run p es w)) = w_db w.
Proof.
  revert es w. induction p as [a|why|B o k IH]; intros es w; simpl; [done.. |].
  intros [Hq Hk]. destruct (handle (es O) w o) as [w' b] eqn:Hh.
  rewrite IH by apply Hk. apply handle_eff in Hh. destruct o; simpl in *; try done. by destruct Hh.
Qed.

(** ** The operations a request performs *)

Section ops.
Context {UL : UuidLib} {RCo : RecordCodec}.
Variable okay : forall B, op B -> Prop.
Hypothesis okay_quiet : forall B (o : op B), quiet o -> okay B o.

Lemma wait_ops p n : all_ops okay (wait p n).
Proof.
  split; [by apply okay_quiet |]. intros draw. simpl.
  destruct (delay p n draw) as [d|]; [|done].
  destruct (d <=? 0); (split; [by apply okay_quiet | done]).
Qed.

Lemma acquire_loop_ops n st key enc : all_ops okay (acquire_loop n st key enc).
Proof.
  induction n as [|n IH]; [done |]. simpl. split; [by apply okay_quiet |].
  intros [[]|e]; simpl; [done | | done].
  split; [by apply okay_quiet |]. intros [[raw|]|e]; simpl; [|apply IH | done].
  by destruct (Unmarshal raw).
Qed.

Lemma Acquire_ops st key f : all_ops okay (Acquire st key f).
Proof.
  destruct st as [st|]; [|done]. unfold Acquire. destruct (st_client st); [|done].
  apply all_ops_bind; [by split; [apply okay_quiet |] |]. intros now. apply acquire_loop_ops.
Qed.

Lemma cacheCompletion_ops s key f id : all_ops okay (cacheCompletion s key f id).
Proof.
  unfold cacheCompletion, Complete. destruct (svc_idem s) as [st|]; [|done]. simpl.
  destruct (st_client st); [|done]. simpl. split; [by apply okay_quiet |]. intros t1.
  split; [by apply okay_quiet |]. intros t2. split; [by apply okay_quiet |]. by intros [].
Qed.

Lemma releaseClaim_ops s key : all_ops okay (releaseClaim s key).
Proof.
  unfold releaseClaim, Release. destruct (svc_idem s) as [st|]; [|done]. simpl.
  destruct (st_client st); [|done]. simpl. split; [by apply okay_quiet |]. by intros [].
Qed.

Lemma recoverFromDatabase_ops key f : all_ops okay (recoverFromDatabase key f).
Proof.
  unfold recoverFromDatabase. split; [by apply okay_quiet |]. intros r. cbn [bind].
  repeat case_match; done.
Qed.

Section post.
Variables (s : Service) (cmd : Command) (stamp : option idempotencyStamp).
Hypothesis okay_post : okay _ (OpPostOnce cmd stamp).

Lemma retry_loop_ops fuel p n a : all_ops okay (retry_loop fuel p cmd stamp n a).
Proof.
  revert n a. induction fuel as [|fuel IH]; intros n a; [done |].
  cbn [retry_loop bind call all_ops]. split; [done |]. intros [t|e]; [done |].
  destruct (retryableCode e) as [c []]; cbn [negb]; [|done]. destruct (_ <=? _); [done |].
  apply all_ops_bind; [apply wait_ops |]. intros [cerr|]; [done | apply IH].
Qed.

Lemma postWithRetry_ops p : all_ops okay (postWithRetry p cmd stamp).
Proof. unfold postWithRetry. destruct (Command_Validate cmd); [done | apply retry_loop_ops]. Qed.
End post.

(** Posting under a key attempts nothing but the posting with that stamp. *)
Section idempotent.
Variables (s : Service) (key : string) (cmd : Command).
Let f := Fingerprint (command_request cmd).
Hypothesis okay_post : okay _ (OpPostOnce cmd (Some (mkStamp key (Fingerprint_Bytes f)))).

Lemma postClaimed_ops degraded : all_ops okay (postClaimed s key f cmd degraded).
Proof.
  unfold postClaimed. apply all_ops_bind; [by apply postWithRetry_ops |].
  intros [[posted|err] attempts].
  - apply all_ops_bind; [apply cacheCompletion_ops | done].
  - destruct (isDuplicateIdempotencyKey err).
    + apply all_ops_bind; [apply recoverFromDatabase_ops |]. intros [[res|]|e]; [|done..].
      apply all_ops_bind; [apply cacheCompletion_ops | done].
    + apply all_ops_bind; [apply releaseClaim_ops | done].
Qed.

Lemma PostIdempotent_ops : all_ops okay (PostIdempotent s key cmd).
Proof.
  unfold PostIdempotent. destruct (ParseKey key) as [k|e]; [|done].
  destruct (Command_Validate cmd) as [e|]; [done |]. fold f.
  destruct (negb (negb _)); [|apply postClaimed_ops].
  apply all_ops_bind; [apply Acquire_ops |]. intros [claim|err].
  - destruct (negb _); [|apply postClaimed_ops]. unfold resolveExisting.
    destruct (negb _); [done |]. apply all_ops_bind; [apply recoverFromDatabase_ops |].
    intros [[res|]|err]; [done | | done]. case_bool_decide; [apply postClaimed_ops | done].
  - destruct (errors_Is err ErrUnavailable); [apply postClaimed_ops |].
    by destruct (errors_Is err ErrInProgress).
Qed.
End idempotent.
End ops.

Create HintDb ops.
#[export] Hint Resolve wait_ops Acquire_ops cacheCompletion_ops releaseClaim_ops
  recoverFromDatabase_ops postWithRetry_ops : ops.

Section at_most_once.
Context {UL : UuidLib} {RCo : RecordCodec}.

(** The request a stored transfer answers. *)
Definition row_request (t : TransferRow) : Request :=
  mkRequest (t_source_account_id t) (t_destination_account_id t) (t_amount_minor t)
    (t_currency t).

(** A row with a key carries the fingerprint of its own request. *)
Definition stamps_ok (db : Db) : Prop :=
  forall id t k, transfers db !! id = Some t -> t_idempotency_key t = Some k ->
    t_request_fingerprint t = Some (Fingerprint (row_request t)).

Definition service_inv (base : gmap UUID Z) (db : Db) : Prop :=
  db_inv base db /\ stamps_ok db.

(** What the handlers of the service do: a stamp is always the request's own. *)
Definition service_op B (o : op B) : Prop :=
  match o with
  | OpPostOnce cmd (Some st) => stamp_fingerprint st = Fingerprint (command_request cmd)
  | _ => True
  end.

Lemma service_op_quiet B (o : op B) : quiet o -> service_op B o.
Proof. by destruct o. Qed.

Lemma service_stable base : stable (service_inv base) service_op.
Proof.
  intros B o db db' b [Hinv Hst] Hok He.
  destruct (ledger_stable base service_op B o db db' b Hinv Hok He) as [Hinv' Hle].
  split; [split |]; [done | | done].
  destruct o; simpl in He; try (by subst).
  - destruct He as [env He]. apply postOnce_cases in He as [[-> _]|(s & d & Hc & -> & _)];
      [done | | apply Hinv].
    intros id t k. simpl. rewrite lookup_insert. case_decide; [|apply Hst].
    intros [= <-]. simpl. destruct stamp as [st|]; [|done]. simpl. intros _. by rewrite Hok.
  - destruct He as [env He].
    by apply createAccount_cases in He as [[-> _]|(row & -> & Hf & Hc & -> & _)].
  - by destruct He as [-> _].
Qed.

#[local] Hint Resolve service_op_quiet : ops.

(** A part of a request whose answer says nothing of the database. *)
Local Ltac framed := apply safe_frame; [apply service_stable | auto with ops |].

(** The transfer [t] is the one recorded under [key], for this command. *)
Definition recorded (key : string) (cmd : Command) (t : Transfer) (db : Db) : Prop :=
  exists id row, transfers db !! id = Some row /\ t_idempotency_key row = Some key
    /\ t = transfer_of_row row
    /\ t_request_fingerprint row = Some (Fingerprint (command_request cmd)).

Lemma recorded_le key cmd t db db' : db_le db db' -> recorded key cmd t db -> recorded key cmd t db'.
Proof.
  intros [_ Hle _] (id & row & Hr & ?). exists id, row. split; [|done].
  by eapply lookup_weaken.
Qed.

(** What a successful answer means. *)
Definition answers (key : string) (cmd : Command) (a : Result * option goerr) (db : Db) : Prop :=
  snd a = None -> recorded key cmd (res_Transfer (fst a)) db.

Lemma answers_upward key cmd : upward (answers key cmd).
Proof. intros a db db' Hle Ha Hn. eauto using recorded_le. Qed.

Section one.
Variables (base : gmap UUID Z) (s : Service) (key : string) (cmd : Command).
Let f := Fingerprint (command_request cmd).
Let stamp := mkStamp key (Fingerprint_Bytes f).
Abbreviation safe_ Q p db := (safe (service_inv base) service_op Q p db).

(** A posting that the loop reports is recorded under the key. *)
Lemma posting_recorded s0 d0 tid e1 e2 now db :
  recorded key cmd (posted_transfer cmd tid now)
    (apply_posting cmd (Some stamp) tid e1 e2 now s0 d0 db).
Proof.
  exists tid, (completed_row cmd (Some stamp) tid now). simpl. by rewrite lookup_insert_eq.
Qed.

Definition posts_recorded (a : result Transfer * Attempts) (db : Db) : Prop :=
  forall t, fst a = Ok t -> recorded key cmd t db.

Lemma retry_loop_safe fuel p n a db :
  safe_ posts_recorded (retry_loop fuel p cmd (Some stamp) n a) db.
Proof.
  revert n a db. induction fuel as [|fuel IH]; intros n a db; [done |].
  cbn [retry_loop bind call safe]. split; [done |].
  intros db1 db2 [t|e] _ [Hinv _] [env He].
  - apply postOnce_cases in He as [[_ [e [=]]]|(sr & d & _ & -> & Hr)]; [|apply Hinv].
    destruct Hr as [[= ->]|(e & [=] & _)]. intros t [= <-]. apply posting_recorded.
  - destruct (retryableCode e) as [c []]; cbn [negb]; [|done].
    destruct (_ <=? _); [done |].
    framed.
    intros [cerr|] db' _; [done | apply IH].
Qed.

Lemma postWithRetry_safe p db : safe_ posts_recorded (postWithRetry p cmd (Some stamp)) db.
Proof. unfold postWithRetry. destruct (Command_Validate cmd); [done | apply retry_loop_safe]. Qed.

(** What the recovery query answers is recorded, for the same fingerprint. *)
Lemma recover_safe db :
  safe_ (fun r db => forall res, r = Ok (Some res) -> recorded key cmd (res_Transfer res) db)
    (recoverFromDatabase key f) db.
Proof.
  unfold recoverFromDatabase. simpl. split; [done |].
  intros db1 db2 r _ [Hinv Hst] [-> [->|[e ->]]]; simpl.
  - destruct (select_by_key key db1) as [row|] eqn:Hsel; [|done]. simpl.
    apply select_by_key_Some in Hsel as (id & Hrow & Hkey).
    pose proof (Hst _ _ _ Hrow Hkey) as Hfp. rewrite Hfp. cbn [default].
    destruct (FingerprintFromBytes _) as [stored|e] eqn:Hsto; [|done].
    apply FingerprintFromBytes_inv in Hsto as ->.
    case_bool_decide as Heq; [|done]. cbn [negb safe]. intros res [= <-].
    exists id, row. split_and!; [done | done | done |]. rewrite Hfp. exact (f_equal Some Heq).
  - by destruct (errors_Is e pgx_ErrNoRows).
Qed.

Lemma postClaimed_safe degraded db : safe_ (answers key cmd) (postClaimed s key f cmd degraded) db.
Proof.
  unfold postClaimed. fold stamp. apply safe_bind.
  eapply safe_mono; [|apply postWithRetry_safe]. intros [[posted|err] attempts] db1 Hrec; cbn iota beta.
  - framed.
    intros cached db2 Hle _. simpl. eapply recorded_le; [done |]. by apply Hrec.
  - destruct (isDuplicateIdempotencyKey err).
    + apply safe_bind. eapply safe_mono; [|apply recover_safe].
      intros [[res|]|recErr] db2 Hres; [|done..].
      framed.
      intros cached db3 Hle _. simpl. eapply recorded_le; [done |]. by apply Hres.
    + framed. done.
Qed.

Lemma resolveExisting_safe existing db :
  safe_ (answers key cmd) (resolveExisting s key f cmd existing) db.
Proof.
  unfold resolveExisting. destruct (Matches existing f); [|done]. simpl negb. cbn iota.
  apply safe_bind. eapply safe_mono; [|apply recover_safe].
  intros [[res|]|err] db1 Hres; [| |done].
  - intros _. by apply Hres.
  - case_bool_decide; [apply postClaimed_safe | done].
Qed.

Lemma PostIdempotent_safe db : safe_ (answers key cmd) (PostIdempotent s key cmd) db.
Proof.
  unfold PostIdempotent. destruct (ParseKey key) as [k|e]; [|done].
  destruct (Command_Validate cmd) as [e|]; [done |]. fold f.
  destruct (negb (negb _)); [|apply postClaimed_safe].
  framed.
  intros [claim|err] db1 _.
  - destruct (negb _); [apply resolveExisting_safe | apply postClaimed_safe].
  - destruct (errors_Is err ErrUnavailable); [apply postClaimed_safe |].
    by destruct (errors_Is err ErrInProgress).
Qed.
End one.
End at_most_once.
