(* ===== verification/HttpServer.v ===== *)
(** * [internal/httpapi/server.go]: routing and request logging

    The mux of [routes] (the matching rules of [net/http]'s ServeMux for its
    three patterns), the status recorder and the log line of [withLogging],
    around the handlers of [Health]. *)
From stdpp Require Import base gmap fin_maps strings list.
From Stdlib Require Import ZArith Lia Ascii.
From S2P Require Import Prelude.
From S2P Require Import GoStd.
From S2P Require Import GoStrings.
From S2P Require Import GoTime.
From S2P Require Import Uuid.
From S2P Require Import Errors.
From S2P Require Import Config.
From S2P Require Import Schema.
From S2P Require Import Tx.
From S2P Require Import Prog.
From S2P Require Import Store.
From S2P Require Import Instances.
From S2P Require Import Scenario.
From S2P Require Import Health.
From S2P Require Import Interceptors.
From S2P Require Import Concurrency.
From S2P Require Import AtMostOnce.

Open Scope Z_scope.

(** ** Requests and routes *)

Record HttpRequest := mkHttpRequest {
  hq_Method : string;
  hq_RequestURI : string;
  hq_EscapedPath : string;      (* r.URL.EscapedPath() *)
  hq_Path : string              (* r.URL.Path *)
}.

Definition ends_with_slash (p : string) : bool :=
  match last (bytes_of p) with Some c => bool_decide (c = "/"%char) | None => false end.

(** [cleanPath] of net/http: a rooted path, cleaned, its trailing slash kept. *)
Definition cleanPath (p : string) : string :=
  if is_empty p then "/"%string
  else
    let p := if HasPrefix p "/" then p else "/" +:+ p in
    let np := path_Clean p in
    if ends_with_slash p && negb (bool_decide (np = "/"%string)) then np +:+ "/" else np.

(** [url.PathUnescape]; a malformed escape leaves the segment as it is. *)
Fixpoint path_unescape (s : string) : option string :=
  match s with
  | EmptyString => Some EmptyString
  | String "%" (String a (String b s')) =>
      match from_hex_char a, from_hex_char b, path_unescape s' with
      | Some x, Some y, Some t => Some (String (byte_of_Z (16 * x + y)) t)
      | _, _, _ => None
      end
  | String "%" _ => None
  | String c s' => match path_unescape s' with Some t => Some (String c t) | None => None end
  end.

Definition pathUnescape (s : string) : string := default s (path_unescape s).

Inductive Handler := HLive | HReady | HVersion.

(** The patterns of [routes]. *)
Definition patterns : list (string * Handler) :=
  [("healthz", HLive); ("readyz", HReady); ("version", HVersion)]%string.

(** The handler whose pattern matches a path, methods aside: one segment,
    compared after unescaping. *)
Definition match_path (p : string) : option Handler :=
  match Split p "/" with
  | [root; seg] => if is_empty root then lookup_key (pathUnescape seg) patterns else None
  | _ => None
  end.

(** A pattern for GET also matches HEAD. *)
Definition match_method (m : string) : bool := one_of m ["GET"; "HEAD"]%string.

Inductive Routed :=
  | ToHandler (h : Handler)
  | BadRequest                       (* RequestURI "*" *)
  | Redirect (path : string)         (* to the clean path *)
  | MethodNotAllowed (allow : string)
  | RouteNotFound.

Definition routes (r : HttpRequest) : Routed :=
  if bool_decide (hq_RequestURI r = "*") then BadRequest
  else
    let path := if bool_decide (hq_Method r = "CONNECT") then hq_EscapedPath r
                else cleanPath (hq_EscapedPath r) in
    if negb (bool_decide (path = hq_EscapedPath r)) then Redirect path
    else match match_path path with
    | Some h => if match_method (hq_Method r) then ToHandler h else MethodNotAllowed "GET, HEAD"
    | None => RouteNotFound
    end.

(** ** The status recorder *)

(** A [http.ResponseWriter]: the status line on the wire. The first
    [WriteHeader] fixes it, and a [Write] before any is a 200. *)
Definition wire_WriteHeader (status : Z) (wire : option Z) : option Z :=
  match wire with Some st => Some st | None => Some status end.
Definition wire_Write (wire : option Z) : option Z := wire_WriteHeader StatusOK wire.

Record statusRecorder := mkRecorder { rec_wire : option Z; rec_status : Z; rec_wroteHeader : bool }.

Definition new_recorder : statusRecorder := mkRecorder None StatusOK false.

Definition WriteHeader (status : Z) (r : statusRecorder) : statusRecorder :=
  if rec_wroteHeader r then r
  else mkRecorder (wire_WriteHeader status (rec_wire r)) status true.

(** [Write] is the embedded writer's own. *)
Definition Write (r : statusRecorder) : statusRecorder :=
  mkRecorder (wire_Write (rec_wire r)) (rec_status r) (rec_wroteHeader r).

(** What a handler does to its writer, in order. *)
Inductive Wrote := DidWriteHeader (status : Z) | DidWrite.

Definition apply_wrote (r : statusRecorder) (a : Wrote) : statusRecorder :=
  match a with DidWriteHeader st => WriteHeader st r | DidWrite => Write r end.

Definition recorded (acts : list Wrote) : statusRecorder := fold_left apply_wrote acts new_recorder.

(** The status the client gets: 200 when the handler wrote nothing. *)
Definition wire_status (r : statusRecorder) : Z := default StatusOK (rec_wire r).

(** ** Serving a request *)

Inductive HttpReply :=
  | RepHandler (resp : HttpResponse)
  | RepBadRequest
  | RepRedirect (location : string)
  | RepMethodNotAllowed (allow : string)
  | RepNotFound.

Record HttpLog := mkHttpLog {
  hl_method : string; hl_path : string; hl_status : Z; hl_duration : Z
}.

Section serve.
Variable redirect_status : Z.       (* 301 or 307, by the version of net/http *)
Variables (r : Registry) (order : list check) (app : App) (build : BuildInfo).

Definition handle_route (h : Handler) : prog HttpResponse :=
  match h with
  | HLive => handleLive
  | HReady => handleReady r order
  | HVersion => handleVersion app build
  end.

(** The mux: the reply and what it did to the writer; every handler writes a
    header and then a body. *)
Definition mux_ServeHTTP (req : HttpRequest) : prog (HttpReply * list Wrote) :=
  match routes req with
  | ToHandler h =>
      (resp <- handle_route h ;;
       Ret (RepHandler resp, [DidWriteHeader (rsp_status resp); DidWrite]))%prog
  | BadRequest => Ret (RepBadRequest, [DidWriteHeader 400])
  | Redirect p => Ret (RepRedirect p, [DidWriteHeader redirect_status; DidWrite])
  | MethodNotAllowed allow =>
      Ret (RepMethodNotAllowed allow, [DidWriteHeader 405; DidWrite])
  | RouteNotFound => Ret (RepNotFound, [DidWriteHeader 404; DidWrite])
  end.

(** [withLogging]. *)
Definition withLogging (req : HttpRequest) : prog (HttpReply * Z * HttpLog) :=
  (start <- call OpNow ;;
   '(reply, acts) <- mux_ServeHTTP req ;;
   let rec_ := recorded acts in
   stop <- call OpNow ;;
   Ret (reply, wire_status rec_,
        mkHttpLog (hq_Method req) (hq_Path req) (rec_status rec_) (stop - start)))%prog.
End serve.

(** ** Facts *)

(** The recorder is right about every handler that writes a header before it
    writes a body, or that writes nothing. *)
Lemma recorded_first st acts :
  rec_status (recorded (DidWriteHeader st :: acts)) = wire_status (recorded (DidWriteHeader st :: acts))
  /\ wire_status (recorded (DidWriteHeader st :: acts)) = st.
Proof.
  unfold recorded. cbn [fold_left apply_wrote].
  change (WriteHeader st new_recorder) with (mkRecorder (Some st) st true).
  assert (H : fold_left apply_wrote acts (mkRecorder (Some st) st true) = mkRecorder (Some st) st true).
  { induction acts as [|[s|] acts IH]; [done | exact IH | exact IH]. }
  by rewrite H.
Qed.

(** Writing a body first hides a later status from the client, not from the log. *)
Lemma recorded_write_first :
  rec_status (recorded [DidWrite; DidWriteHeader 500]) = 500
  /\ wire_status (recorded [DidWrite; DidWriteHeader 500]) = 200.
Proof. done. Qed.

(** ** The surface of the deployed process *)

Lemma recovering_quiet {A} (h : string -> A) p :
  all_ops (@quiet) p -> all_ops (@quiet) (recovering h p).
Proof. induction p as [a|why|B o k IH]; simpl; [done.. |]. intros [Hq Hk]. split; auto. Qed.

Lemma run_checks_quiet cs m :
  Forall (fun c => all_ops (@quiet) (ck_fn c)) cs -> all_ops (@quiet) (run_checks cs m).
Proof.
  intros Hcs. revert m. induction Hcs as [|c cs Hc _ IH]; intros m; [done |].
  cbn [run_checks]. apply all_ops_bind; [|intros; apply IH]. split; [done |]. intros start.
  cbn [bind call]. apply all_ops_bind; [by apply recovering_quiet |]. intros err. by split.
Qed.

Lemma api_checks_built s r : api_checks s = Some r -> built r.
Proof.
  intros Hr. unfold api_checks in Hr. destruct (Register _ _ _) as [r0|] eqn:H0; [|done].
  eapply built_register; [|exact Hr]. eapply built_register; [constructor | exact H0].
Qed.

Lemma api_checks_quiet s r :
  api_checks s = Some r -> Forall (fun c => all_ops (@quiet) (ck_fn c)) (rg_checks r).
Proof.
  intros [= <-]. simpl. repeat constructor; simpl; [by intros [] |].
  unfold store_Ping, Store_Ping. destruct (Available s); [|done]. split; [done |]. by intros [].
Qed.

Lemma handleReady_quiet s r order :
  api_checks s = Some r -> completes r order -> all_ops (@quiet) (handleReady r order).
Proof.
  intros Hr Ho. apply all_ops_bind; [|done]. unfold Registry_Check.
  destruct (rg_checks r) eqn:E; [done |]. apply all_ops_bind; [|done]. apply run_checks_quiet.
  rewrite Ho. by apply (api_checks_quiet s).
Qed.

(** *** What the requests are answered, by the paths of the documentation *)

(** The path is the root and one segment that reads [name] once unescaped. *)
Definition names (req : HttpRequest) (name : string) : Prop :=
  exists seg, hq_EscapedPath req = "/" +:+ seg /\ Forall (fun c => c <> "/"%char) (bytes_of seg)
    /\ pathUnescape seg = name.

(** Neither for the server as a whole nor with a path that is to be cleaned. *)
Definition to_be_routed (req : HttpRequest) : Prop :=
  hq_RequestURI req <> "*"%string
  /\ (hq_Method req = "CONNECT"%string \/ cleanPath (hq_EscapedPath req) = hq_EscapedPath req).

Definition probing (req : HttpRequest) : Prop :=
  hq_Method req = "GET"%string \/ hq_Method req = "HEAD"%string.

(** [ready rep]: a pass over the checks reported [rep]. *)
Definition reply_fits (redirect_status : Z) (app : App) (build : BuildInfo) (ready : Report_ -> Prop)
    (req : HttpRequest) (reply : HttpReply) (status : Z) : Prop :=
  match reply with
  | RepHandler resp =>
      to_be_routed req /\ probing req /\ status = rsp_status resp
      /\ ((names req "healthz" /\ status = 200 /\ rsp_body resp = BodyStatus "healthy")
          \/ (names req "version" /\ status = 200
              /\ rsp_body resp = BodyVersion (app_Name app) (app_Environment app) (bi_Version build)
                                   (bi_Commit build) (bi_Built build))
          \/ (names req "readyz" /\ exists rep, ready rep /\ rsp_body resp = BodyReport rep
              /\ status = if Healthy rep then 200 else 503))
  | RepMethodNotAllowed allow =>
      to_be_routed req /\ ~ probing req /\ allow = "GET, HEAD"%string /\ status = 405
      /\ (names req "healthz" \/ names req "version" \/ names req "readyz")
  | RepNotFound =>
      to_be_routed req /\ status = 404
      /\ ~ names req "healthz" /\ ~ names req "version" /\ ~ names req "readyz"
  | RepRedirect p =>
      hq_RequestURI req <> "*"%string /\ hq_Method req <> "CONNECT"%string
      /\ p = cleanPath (hq_EscapedPath req) /\ p <> hq_EscapedPath req /\ status = redirect_status
  | RepBadRequest => hq_RequestURI req = "*"%string /\ status = 400
  end.

Lemma match_method_spec m : match_method m = true <-> m = "GET"%string \/ m = "HEAD"%string.
Proof. unfold match_method, one_of. by rewrite bool_decide_eq_true, !elem_of_cons, elem_of_nil; intuition. Qed.

(** The first piece of a split keeps what was gathered. *)
Lemma split_from_head cur s x rest :
  split_from "/" cur s = x :: rest -> exists t, bytes_of x = (rev cur ++ t)%list.
Proof.
  revert cur. induction s as [|c s IH]; intros cur; cbn [split_from].
  - intros [= <- _]. exists []. by rewrite bytes_of_string_of, app_nil_r.
  - case_bool_decide.
    + intros [= <- _]. exists []. by rewrite bytes_of_string_of, app_nil_r.
    + intros (t & Ht)%IH. exists (c :: t). rewrite Ht. simpl. by rewrite <- app_assoc.
Qed.

Lemma split_from_some cur s : split_from "/" cur s <> [].
Proof. revert cur. induction s as [|c s IH]; intros cur; cbn [split_from]; [done |]. by case_bool_decide. Qed.

Lemma split_from_single cur s x :
  split_from "/" cur s = [x] ->
  Forall (fun c => c <> "/"%char) (bytes_of s) /\ bytes_of x = (rev cur ++ bytes_of s)%list.
Proof.
  revert cur. induction s as [|c s IH]; intros cur; cbn [split_from bytes_of].
  - intros [= <-]. split; [constructor |]. by rewrite bytes_of_string_of, app_nil_r.
  - case_bool_decide as Hc; [intros [= _ H]; by apply split_from_some in H |].
    intros [Hs Hx]%IH. split; [by constructor |]. rewrite Hx. simpl. by rewrite <- app_assoc.
Qed.

(** A path of one segment, as the split shows it. *)
Lemma Split_segment p seg :
  Split p "/" = [""%string; seg]
  <-> p = "/" +:+ seg /\ Forall (fun c => c <> "/"%char) (bytes_of seg).
Proof.
  unfold Split. split.
  - destruct p as [|c s]; [done |]. cbn [split_from]. case_bool_decide as Hc.
    + intros [= H]. apply split_from_single in H as [Hp Hx]. simpl in Hx.
      apply (f_equal string_of_bytes) in Hx. rewrite !string_of_bytes_of in Hx. by subst.
    + intros H. apply split_from_head in H as [t Ht]. simpl in Ht. by destruct t.
  - intros [-> Hp]. change ("/" +:+ seg) with (String "/" seg). cbn [split_from].
    rewrite bool_decide_eq_true_2, split_from_plain by done. simpl. by rewrite string_of_bytes_of.
Qed.

(** The handler of a path. *)
Lemma match_path_names req :
  match match_path (hq_EscapedPath req) with
  | Some HLive => names req "healthz"
  | Some HReady => names req "readyz"
  | Some HVersion => names req "version"
  | None => ~ names req "healthz" /\ ~ names req "version" /\ ~ names req "readyz"
  end.
Proof.
  assert (Hno : forall name, names req name -> lookup_key name patterns = match_path (hq_EscapedPath req)).
  { intros name (seg & Hp & Hs & <-). unfold match_path.
    rewrite (proj2 (Split_segment _ seg) (conj Hp Hs)). done. }
  assert (Hyes : forall h, match_path (hq_EscapedPath req) = Some h ->
            exists name, names req name /\ lookup_key name patterns = Some h).
  { intros h. unfold match_path. destruct (Split _ _) as [|root [|seg [|]]] eqn:E; try done.
    unfold is_empty. case_bool_decide as Hr; [|done]. subst root. intros Hl.
    exists (pathUnescape seg). split; [|done]. apply Split_segment in E as [Hp Hs]. by exists seg. }
  destruct (match_path (hq_EscapedPath req)) as [h|].
  - destruct (Hyes h eq_refl) as (name & Hn & Hl). unfold lookup_key, patterns in Hl.
    repeat (case_bool_decide; [by simplify_eq |]). done.
  - split_and!; intros Hn%Hno; vm_compute in Hn; discriminate Hn.
Qed.

Section surface.
Context {R : Type} {RC : UniversalClient R}.
Variables (redirect_status : Z) (r : Registry) (order : list check) (app : App) (build : BuildInfo).
Variables (req : HttpRequest) (es : nat -> Env) (w : World R).
Hypothesis Hb : built r.
Hypothesis Ho : completes r order.
Abbreviation ready := (fun rep => exists w1, run (Registry_Check r order) es w = (w1, Some rep)).

Lemma handler_fits h :
  match_path (hq_EscapedPath req) = Some h -> to_be_routed req -> probing req ->
  exists w' resp, run (handle_route r order app build h) es w = (w', Some resp)
    /\ reply_fits redirect_status app build ready req (RepHandler resp) (rsp_status resp).
Proof using Hb Ho.
  intros Hm Hr Hp. pose proof (match_path_names req) as Hn. rewrite Hm in Hn. destruct h; cbn [handle_route].
  - do 2 eexists. split; [done |]. split; [exact Hr |]. split; [exact Hp |]. split; [done |]. by left.
  - unfold handleReady. rewrite run_bind.
    destruct (leaves_run _ _ es w (Registry_Check_returns r order Hb Ho)) as (w1 & rep & Hrun & _).
    rewrite Hrun. cbn [run]. do 2 eexists. split; [done |].
    split; [exact Hr |]. split; [exact Hp |]. split; [done |]. right; right. split; [done |]. exists rep.
    split_and!; [by exists w1 | done |]. simpl. by destruct (Healthy rep).
  - do 2 eexists. split; [done |]. split; [exact Hr |]. split; [exact Hp |]. split; [done |]. right; by left.
Qed.

Lemma mux_fits :
  exists w' reply st acts',
    run (mux_ServeHTTP redirect_status r order app build req) es w = (w', Some (reply, DidWriteHeader st :: acts'))
    /\ reply_fits redirect_status app build ready req reply st.
Proof using Hb Ho.
  unfold mux_ServeHTTP, routes. case_bool_decide as Hu; [by do 4 eexists |].
  cbn zeta. set (path := if bool_decide (hq_Method req = "CONNECT"%string) then _ else _).
  case_bool_decide as Hp; cbn [negb].
  2: { do 4 eexists. split; [done |]. simpl. unfold path in *. by case_bool_decide. }
  assert (Hr : to_be_routed req).
  { split; [done |]. unfold path in Hp. case_bool_decide; [by left | by right]. }
  rewrite Hp. pose proof (match_path_names req) as Hn.
  destruct (match_path (hq_EscapedPath req)) as [h|] eqn:Hm.
  - destruct (match_method (hq_Method req)) eqn:Hmm.
    + apply match_method_spec in Hmm. destruct (handler_fits h Hm Hr Hmm) as (w' & resp & Hrun & Hf).
      rewrite run_bind, Hrun. cbn [run]. by do 4 eexists.
    + apply not_true_iff_false in Hmm. rewrite match_method_spec in Hmm. do 4 eexists. split; [done |].
      split; [done |]. split_and!; [done | done | done |]. destruct h; auto.
  - do 4 eexists. split; [done |]. by split; [| split].
Qed.
End surface.


(** A probe over POST, and one with a path to be cleaned. *)
Definition probe (m p : string) : HttpRequest := mkHttpRequest m p p p.

