(* ===== verification/Process.v ===== *)
(** * [cmd/api]: the process

    [run] of [cmd/api/main.go]: start-up as a program, then the two servers, the
    signal, the wait for both and the deferred closing of the pools, as a
    labelled step relation over the lifecycles of the two servers. *)
From stdpp Require Import base gmap fin_maps strings list relations.
From Stdlib Require Import ZArith Lia Ascii.
From S2P Require Import Prelude.
From S2P Require Import GoStd.
From S2P Require Import GoTime.
From S2P Require Import Uuid.
From S2P Require Import Errors.
From S2P Require Import GoFmt.
From S2P Require Import GoFlag.
From S2P Require Import Config.
From S2P Require Import Schema.
From S2P Require Import Tx.
From S2P Require Import Prog.
From S2P Require Import Auth.
From S2P Require Import Pools.
From S2P Require Import Store.
From S2P Require Import Instances.
From S2P Require Import Idempotent.
From S2P Require Import Scenario.
From S2P Require Import Health.
From S2P Require Import GrpcLifecycle.
From S2P Require Import HttpLifecycle.
From S2P Require Import Concurrency.
From S2P Require Import AtMostOnce.

Open Scope nat_scope.

(** ** The logger *)

Definition slog_Debug : Z := (-4)%Z.
Definition slog_Info : Z := 0%Z.
Definition slog_Warn : Z := 4%Z.
Definition slog_Error : Z := 8%Z.

Definition parseLevel (level : string) : Z :=
  if bool_decide (level = "debug") then slog_Debug
  else if bool_decide (level = "warn") then slog_Warn
  else if bool_decide (level = "error") then slog_Error
  else slog_Info.

Inductive LogHandler := TextHandler | JSONHandler.

Record Logger := mkLogger { lg_handler : LogHandler; lg_level : Z; lg_attrs : list (string * string) }.

Definition newLogger (a : App) : Logger :=
  mkLogger (if bool_decide (app_LogFormat a = "text") then TextHandler else JSONHandler)
    (parseLevel (app_LogLevel a))
    [("service", app_Name a); ("env", app_Environment a)]%string.

(** ** Start-up *)

(** The deferred calls of [run] that close something. *)
Inductive Closing := CloseRedis | CloseDB.

#[global] Instance Closing_eq_dec : EqDecision Closing.
Proof. solve_decision. Defined.

Definition NewStore (cfg : Config) : Store :=
  mkStore true (idem_TTL (cfg_Idempotency cfg)) (idem_ProcessingTTL (cfg_Idempotency cfg))
    (redis_CommandTimeout (cfg_Redis cfg)).

Section startup.
Context {P : Type} {PL : PgxLib P} {C : Type} {K : Type} {JL : JwtLib K}.
Variables (ReadFile : string -> result string) (NewClient : RedisOptions -> C).

(** What the servers are built from. *)
Record Wiring := mkWiring {
  wi_cfg : Config;
  wi_log : Logger;
  wi_db : DB P;
  wi_redis : RedisClient C;
  wi_registry : Registry;
  wi_verifier : option (Verifier K);
  wi_service : Service
}.

(** [run] up to the construction of the servers: what was deferred, the latest
    first, and the error it returns or what it built. An unreachable database or
    Redis is logged. *)
Definition startup (loaded : result Config) : prog (list Closing * result Wiring) :=
  match loaded with
  | Err err => Ret ([], Err err)
  | Ok cfg =>
      let log := newLogger (cfg_App cfg) in
      match database_New cfg with
      | Err err => Ret ([], Err err)
      | Ok db =>
          (_ <- database_Verify db ;;
           let redisClient := redis_New NewClient cfg in
           _ <- redis_Verify redisClient ;;
           let store := NewStore cfg in
           match api_checks (Some store) with
           | None => Crash "health: nil check function"
           | Some registry =>
               match VerifierFromConfig ReadFile cfg with
               | Err err => Ret ([CloseRedis; CloseDB], Err err)
               | Ok verifier =>
                   Ret ([CloseRedis; CloseDB],
                        Ok (mkWiring cfg log db redisClient registry verifier
                              (WithIdempotency NewService (Some store))))
               end
           end)%prog
      end
  end.

(** The outcome of start-up, as a function of the configuration, the key file
    and the options of the pool. *)
Definition startup_outcome (loaded : result Config) (out : list Closing * result Wiring) : Prop :=
  match loaded with
  | Err err => out = ([], Err err)
  | Ok cfg =>
      match database_New cfg with
      | Err err => out = ([], Err err)
      | Ok db =>
          match VerifierFromConfig ReadFile cfg with
          | Err err => out = ([CloseRedis; CloseDB], Err err)
          | Ok verifier =>
              exists wi, out = ([CloseRedis; CloseDB], Ok wi)
                /\ wi_cfg wi = cfg /\ wi_db wi = db /\ wi_verifier wi = verifier
                /\ api_checks (Some (NewStore cfg)) = Some (wi_registry wi)
                /\ wi_service wi = WithIdempotency NewService (Some (NewStore cfg))
          end
      end
  end.

(** Start-up does not need its dependencies: whether PostgreSQL and Redis
    answer or not, [run] gets to the same point and changes nothing; it fails
    only for a configuration that is refused, pool settings that are refused or
    a verification key that cannot be loaded, and what it built before failing
    is closed, Redis first. *)
Lemma startup_independent {R} {RC : UniversalClient R} loaded es (w : World R) :
  exists w' out, run (startup loaded) es w = (w', Some out)
    /\ w_db w' = w_db w /\ startup_outcome loaded out.
Proof.
  destruct (leaves_run (startup_outcome loaded) (startup loaded) es w) as (w' & out & Hrun & Ho).
  - unfold startup, startup_outcome. destruct loaded as [cfg|err]; [|done].
    destruct (database_New cfg) as [db|err]; [|done].
    apply leaves_bind. eapply leaves_mono; [|apply database_Verify_returns]. intros _ _.
    apply leaves_bind. eapply leaves_mono; [|apply redis_Verify_returns]. intros _ _.
    destruct (api_checks (Some (NewStore cfg))) as [reg|] eqn:Hr; [|done].
    destruct (VerifierFromConfig ReadFile cfg) as [v|err]; [|done].
    eexists. by split_and!.
  - exists w', out. split_and!; [done | | done].
    pose proof (run_quiet (startup loaded) es w) as Hq. rewrite Hrun in Hq. apply Hq.
    unfold startup. destruct loaded as [cfg|err]; [|done]. destruct (database_New cfg); [|done].
    apply all_ops_bind; [by split; [|intros []] |]. intros _.
    apply all_ops_bind; [by split; [|intros []] |]. intros _. by repeat case_match.
Qed.
End startup.

(** ** The two servers under one lifecycle *)

(** The main goroutine: waiting for the servers, running the deferred calls
    with the error [run] returns, and the process gone. *)
Inductive main_pc :=
  | MWait
  | MClose (pending : list Closing) (err : option goerr)
  | MExited (err : option goerr).

Section process.
Context {H : Type} {HhL : HealthLib H} {GL : GrpcLib} {HtL : HttpLib} {P : Type} {PL : PgxLib P}.

(** [pr_errs] is the channel of errors; [pr_grpc_done] and [pr_http_done] are
    the two [Done] calls of the wait group. *)
Record Proc := mkProc {
  pr_grpc : GServer (H := H);
  pr_http : HServer;
  pr_started : bool;
  pr_signalled : bool;
  pr_errs : list goerr;
  pr_grpc_done : bool;
  pr_http_done : bool;
  pr_main : main_pc;
  pr_closed : list Closing
}.

(** After start-up: the goroutines of the two servers run, or the deferred
    calls do. *)
Definition proc_init {W} (out : list Closing * result W) : Proc :=
  match out with
  | (_, Ok _) => mkProc grpc_New http_New true false [] false false MWait []
  | (defers, Err err) =>
      mkProc grpc_New http_New false false [] false false (MClose defers (Some err)) []
  end.

Definition with_grpc (c : Proc) (g : GServer) : Proc :=
  mkProc g (pr_http c) (pr_started c) (pr_signalled c) (pr_errs c) (pr_grpc_done c) (pr_http_done c)
    (pr_main c) (pr_closed c).
Definition with_http (c : Proc) (h : HServer) : Proc :=
  mkProc (pr_grpc c) h (pr_started c) (pr_signalled c) (pr_errs c) (pr_grpc_done c) (pr_http_done c)
    (pr_main c) (pr_closed c).
Definition with_main (c : Proc) (m : main_pc) : Proc :=
  mkProc (pr_grpc c) (pr_http c) (pr_started c) (pr_signalled c) (pr_errs c) (pr_grpc_done c)
    (pr_http_done c) m (pr_closed c).
Definition signalled (c : Proc) : Proc :=
  mkProc (pr_grpc c) (pr_http c) (pr_started c) true (pr_errs c) (pr_grpc_done c) (pr_http_done c)
    (pr_main c) (pr_closed c).

(** [if err := server.Run(ctx); err != nil { errs <- fmt.Errorf("...: %w", err) }]. *)
Definition sent (pre : string) (err : option goerr) : list goerr :=
  match err with Some e => [prefixed pre e] | None => [] end.

Definition grpc_finished (c : Proc) (err : option goerr) : Proc :=
  mkProc (pr_grpc c) (pr_http c) (pr_started c) (pr_signalled c)
    (pr_errs c ++ sent "grpc server: " err) true (pr_http_done c) (pr_main c) (pr_closed c).
Definition http_finished (c : Proc) (err : option goerr) : Proc :=
  mkProc (pr_grpc c) (pr_http c) (pr_started c) (pr_signalled c)
    (pr_errs c ++ sent "http server: " err) (pr_grpc_done c) true (pr_main c) (pr_closed c).
Definition closed_one (c : Proc) (x : Closing) (rest : list Closing) (err : option goerr) : Proc :=
  mkProc (pr_grpc c) (pr_http c) (pr_started c) (pr_signalled c) (pr_errs c) (pr_grpc_done c)
    (pr_http_done c) (MClose rest err) (pr_closed c ++ [x]).

(** Requests that may still hold a database connection. *)
Definition busy (c : Proc) : nat :=
  go_inflight (gs_obs (pr_grpc c)) + ho_inflight (hs_obs (pr_http c)).

Definition exited (c : Proc) : bool := match pr_main c with MExited _ => true | _ => false end.

(** [main], once [run] has returned. *)
Definition api_main (c : Proc) : option exit :=
  match pr_main c with MExited err => Some (exit_of "fatal: " err) | _ => None end.

Variables (gcfg : GRPC) (hcfg : HTTP).

Inductive pstep : Proc -> label -> Proc -> Prop :=
  (* SIGINT or SIGTERM: signal.NotifyContext cancels the context *)
  | p_signal c : exited c = false -> pstep c Ambient (signalled c)
  (* the servers *)
  | p_grpc c l g :
      exited c = false -> pr_started c = true ->
      gstep gcfg (pr_signalled c) (pr_grpc c) l g -> pstep c l (with_grpc c g)
  | p_http c l h :
      exited c = false -> pr_started c = true ->
      hstep hcfg (pr_signalled c) (pr_http c) l h -> pstep c l (with_http c h)
  | p_grpc_finished c err :
      exited c = false -> pr_started c = true -> pr_grpc_done c = false ->
      gs_run (pr_grpc c) = RunReturned err -> pstep c Program (grpc_finished c err)
  | p_http_finished c err :
      exited c = false -> pr_started c = true -> pr_http_done c = false ->
      hs_run (pr_http c) = HRunReturned err -> pstep c Program (http_finished c err)
  (* servers.Wait(), then the first error of the channel *)
  | p_wait c :
      pr_main c = MWait -> pr_grpc_done c = true -> pr_http_done c = true ->
      pstep c Program (with_main c (MClose [CloseRedis; CloseDB] (head (pr_errs c))))
  (* the deferred calls; closing the pool waits for its connections *)
  | p_close_redis c rest err :
      pr_main c = MClose (CloseRedis :: rest) err ->
      pstep c Program (closed_one c CloseRedis rest err)
  | p_close_db c rest err :
      pr_main c = MClose (CloseDB :: rest) err -> Close_returns (busy c) ->
      pstep c Program (closed_one c CloseDB rest err)
  | p_exit c err :
      pr_main c = MClose [] err -> pstep c Program (with_main c (MExited err)).

(** Runs, with the labels of their steps. *)
Inductive psteps : Proc -> list label -> Proc -> Prop :=
  | psteps_nil c : psteps c [] c
  | psteps_cons c1 l c2 ls c3 : pstep c1 l c2 -> psteps c2 ls c3 -> psteps c1 (l :: ls) c3.

(** ** The invariant of the process *)

(** The errors the two goroutines have sent. *)
Definition grpc_sent (c : Proc) : list goerr :=
  match pr_grpc_done c, gs_run (pr_grpc c) with
  | true, RunReturned err => sent "grpc server: " err
  | _, _ => []
  end.
Definition http_sent (c : Proc) : list goerr :=
  match pr_http_done c, hs_run (pr_http c) with
  | true, HRunReturned err => sent "http server: " err
  | _, _ => []
  end.

Record p_inv (c : Proc) : Prop := {
  pi_grpc : g_inv (pr_grpc c);
  pi_http : h_inv (pr_http c);
  pi_grpc_done : pr_grpc_done c = true -> exists err, gs_run (pr_grpc c) = RunReturned err;
  pi_http_done : pr_http_done c = true -> exists err, hs_run (pr_http c) = HRunReturned err;
  pi_errs : pr_errs c = (grpc_sent c ++ http_sent c)%list
            \/ pr_errs c = (http_sent c ++ grpc_sent c)%list;
  pi_main : match pr_main c with
            | MWait => pr_closed c = []
            | MClose rest err =>
                (pr_closed c ++ rest)%list = [CloseRedis; CloseDB]
                /\ err = head (pr_errs c) /\ pr_grpc_done c = true /\ pr_http_done c = true
            | MExited err =>
                pr_closed c = [CloseRedis; CloseDB]
                /\ err = head (pr_errs c) /\ pr_grpc_done c = true /\ pr_http_done c = true
            end;
  pi_started : pr_started c = true
}.

Lemma proc_init_inv {W} defers (w : W) : p_inv (proc_init (defers, Ok w)).
Proof. split; try done; [apply grpc_New_inv | by left]. Qed.

Lemma pstep_inv c l c' : pstep c l c' -> p_inv c -> p_inv c'.
Proof.
  intros Hs [Ig Ih Igd Ihd Ie Im Ist]. destruct Hs as
    [c Hx|c l g Hx _ Hs|c l h Hx _ Hs|c err Hx _ Hd Hr|c err Hx _ Hd Hr|c Hm Hg Hh|c rest err Hm
    |c rest err Hm Hcl|c err Hm].
  - by split.
  - assert (Hk : forall err, gs_run (pr_grpc c) = RunReturned err -> gs_run g = RunReturned err)
      by (intros err; by eapply gstep_returned).
    split; simpl; try done.
    + by eapply gstep_inv.
    + intros Hd. destruct (Igd Hd) as [err He]. eauto.
    + unfold grpc_sent, http_sent in *. simpl. destruct (pr_grpc_done c); [|done].
      destruct (Igd eq_refl) as [err He]. rewrite (Hk _ He). by rewrite He in Ie.
  - assert (Hk : forall err, hs_run (pr_http c) = HRunReturned err -> hs_run h = HRunReturned err)
      by (intros err; by eapply hstep_returned).
    split; simpl; try done.
    + by eapply hstep_inv.
    + intros Hd. destruct (Ihd Hd) as [err He]. eauto.
    + unfold grpc_sent, http_sent in *. simpl. destruct (pr_http_done c); [|done].
      destruct (Ihd eq_refl) as [err He]. rewrite (Hk _ He). by rewrite He in Ie.
  - split; simpl; try done; [by exists err | |].
    + right. unfold grpc_sent, http_sent in *. simpl. rewrite Hd in Ie. rewrite Hr. f_equal.
      rewrite app_nil_r in Ie. by destruct Ie.
    + destruct (pr_main c) as [|rest e|e]; [done | ..]; destruct Im as (_ & _ & ? & _); congruence.
  - split; simpl; try done; [by exists err | |].
    + left. unfold grpc_sent, http_sent in *. simpl. rewrite Hd in Ie. rewrite Hr. f_equal.
      rewrite app_nil_r in Ie. by destruct Ie.
    + destruct (pr_main c) as [|rest e|e]; [done | ..]; destruct Im as (_ & _ & _ & ?); congruence.
  - rewrite Hm in Im. split; try done. simpl. by rewrite Im.
  - rewrite Hm in Im. destruct Im as (Hc & Herr & Hg & Hh). split; try done. simpl.
    by rewrite <- app_assoc.
  - rewrite Hm in Im. destruct Im as (Hc & Herr & Hg & Hh). split; try done. simpl.
    by rewrite <- app_assoc.
  - rewrite Hm in Im. destruct Im as (Hc & Herr & Hg & Hh). rewrite app_nil_r in Hc. by split.
Qed.

Lemma psteps_inv c ls c' : psteps c ls c' -> p_inv c -> p_inv c'.
Proof. induction 1 as [|c1 l c2 ls c3 Hs _ IH]; [done |]. eauto using pstep_inv. Qed.

(** ** Termination *)

Definition main_rank (m : main_pc) : nat :=
  match m with MWait => 4 | MClose rest _ => 1 + length rest | MExited _ => 0 end.

Definition p_rank (c : Proc) : nat :=
  g_rank (pr_grpc c) + h_rank (pr_http c) + (if pr_grpc_done c then 0 else 1)
  + (if pr_http_done c then 0 else 1) + main_rank (pr_main c).

Lemma pstep_rank c l c' :
  pstep c l c' -> p_inv c ->
  match l with Program => p_rank c' < p_rank c | _ => p_rank c' = p_rank c end.
Proof.
  intros Hs [Ig Ih _ _ _ _ _]. destruct Hs as
    [c Hx|c l g Hx _ Hs|c l h Hx _ Hs|c err Hx _ Hd Hr|c err Hx _ Hd Hr|c Hm Hg Hh|c rest err Hm
    |c rest err Hm Hcl|c err Hm]; unfold p_rank; simpl; rewrite ?Hm; simpl; try lia.
  - apply gstep_rank in Hs; [|done]. destruct l; lia.
  - apply hstep_rank in Hs; [|done]. destruct l; lia.
  - rewrite Hd. lia.
  - rewrite Hd. lia.
Qed.

Lemma p_rank_init {W} defers (w : W) : p_rank (proc_init (defers, Ok w)) = 30.
Proof. done. Qed.

(** A request in flight ends. *)
Lemma busy_finishes c :
  exited c = false -> pr_started c = true -> busy c <> 0 -> exists c', pstep c Finish c'.
Proof.
  intros Hx Hst Hb. unfold busy in Hb.
  destruct (go_inflight (gs_obs (pr_grpc c))) as [|n] eqn:Hn.
  - destruct (ho_inflight (hs_obs (pr_http c))) as [|m] eqn:Hm; [done |].
    eexists. apply p_http; [done | done |]. by eapply h_request_ends.
  - eexists. apply p_grpc; [done | done |]. by eapply g_rpc_ends.
Qed.

(** The decidable part of progress: has [Run] returned? *)
Lemma run_returned_dec (pc : run_pc) :
  (exists err, pc = RunReturned err) \/ (forall err, pc <> RunReturned err).
Proof. destruct pc; eauto. Qed.
Lemma hrun_returned_dec (pc : hrun_pc) :
  (exists err, pc = HRunReturned err) \/ (forall err, pc <> HRunReturned err).
Proof. destruct pc; eauto. Qed.

Lemma pstep_progress c :
  p_inv c -> pr_signalled c = true -> exited c = false ->
  exists l c', pstep c l c' /\ l <> Ambient.
Proof.
  intros [Ig Ih Igd Ihd _ Im Ist] Hsig Hx. unfold exited in Hx.
  destruct (pr_main c) as [|rest err|err] eqn:Em; [| |done].
  - assert (Hx' : exited c = false) by (unfold exited; by rewrite Em).
    destruct (pr_grpc_done c) eqn:Hg.
    + destruct (pr_http_done c) eqn:Hh.
      * exists Program. eexists. split; [|done]. by apply p_wait.
      * destruct (hrun_returned_dec (hs_run (pr_http c))) as [[e He]|Hn].
        -- exists Program. eexists. split; [|done]. by eapply p_http_finished.
        -- destruct (hstep_progress hcfg (pr_signalled c) _ Ih Hsig Hn) as [h Hs].
           exists Program. eexists. split; [|done]. by eapply p_http.
    + destruct (run_returned_dec (gs_run (pr_grpc c))) as [[e He]|Hn].
      * exists Program. eexists. split; [|done]. by eapply p_grpc_finished.
      * destruct (gstep_progress gcfg (pr_signalled c) _ Ig Hsig Hn) as (l & g & Hs & Hl).
        exists l. eexists. split; [|done]. by eapply p_grpc.
  - assert (Hx' : exited c = false) by (unfold exited; by rewrite Em).
    destruct rest as [|[] rest].
    + exists Program. eexists. split; [|done]. by eapply p_exit.
    + exists Program. eexists. split; [|done]. by eapply p_close_redis.
    + destruct (decide (busy c = 0)) as [Hb|Hb].
      * exists Program. eexists. split; [|done]. eapply p_close_db; [done |]. rewrite Hb. apply Close_live.
      * destruct (busy_finishes c Hx' Ist Hb) as [c' Hs]. exists Finish, c'. done.
Qed.

Lemma pstep_signalled c l c' : pstep c l c' -> pr_signalled c = true -> pr_signalled c' = true.
Proof. intros Hs Hsig. by destruct Hs. Qed.

Lemma pstep_finish c c' : pstep c Finish c' -> busy c' < busy c.
Proof.
  intros Hs. inversion Hs as [|c0 l g _ _ Hg|c0 l h _ _ Hh| | | | | |]; subst.
  - inversion Hg; subst. unfold busy; simpl. lia.
  - inversion Hh; subst. unfold busy; simpl. lia.
Qed.

(** The program's own steps of a run. *)
Fixpoint program_steps (ls : list label) : nat :=
  match ls with
  | [] => 0
  | Program :: ls' => S (program_steps ls')
  | _ :: ls' => program_steps ls'
  end.

Lemma psteps_rank c ls c' :
  psteps c ls c' -> p_inv c -> program_steps ls + p_rank c' <= p_rank c.
Proof.
  induction 1 as [|c1 l c2 ls c3 Hs _ IH]; intros Hi; [done |].
  pose proof (pstep_rank _ _ _ Hs Hi) as Hr. specialize (IH (pstep_inv _ _ _ Hs Hi)).
  destruct l; simpl; lia.
Qed.

Lemma psteps_signalled c ls c' : psteps c ls c' -> pr_signalled c = true -> pr_signalled c' = true.
Proof. induction 1; eauto using pstep_signalled. Qed.

(** Without any help from outside, the program reaches its exit. *)
Lemma psteps_exit n m c :
  p_inv c -> pr_signalled c = true -> p_rank c <= n -> busy c <= m ->
  exists ls c', psteps c ls c' /\ exited c' = true /\ Forall (fun l => l <> Ambient) ls.
Proof.
  revert m c. induction n as [n IHn] using lt_wf_ind. intros m. induction m as [m IHm] using lt_wf_ind.
  intros c Hi Hsig Hn Hm. destruct (exited c) eqn:Hx; [by exists [], c; repeat constructor |].
  destruct (pstep_progress c Hi Hsig Hx) as (l & c1 & Hs & Hl).
  pose proof (pstep_inv _ _ _ Hs Hi) as Hi1. pose proof (pstep_signalled _ _ _ Hs Hsig) as Hsig1.
  pose proof (pstep_rank _ _ _ Hs Hi) as Hr.
  assert (exists ls c', psteps c1 ls c' /\ exited c' = true /\ Forall (fun l => l <> Ambient) ls)
    as (ls & c' & Hss & Hx' & Hls).
  { destruct l; [| |done].
    - apply (IHn (p_rank c1)) with (m := busy c1); try done; lia.
    - apply pstep_finish in Hs as Hb. apply (IHm (busy c1)); try done; lia. }
  exists (l :: ls), c'. split_and!; [by econstructor | done | by constructor].
Qed.

(** Without a signal the HTTP server leaves its select only when [Serve] ended. *)
Definition http_waits (c : Proc) : Prop :=
  pr_signalled c = false -> hs_done (pr_http c) = false ->
  match hs_run (pr_http c) with HRunStart | HRunSelect | HRunReturned _ => True | _ => False end.

Lemma psteps_http_waits c ls c' : psteps c ls c' -> http_waits c -> http_waits c'.
Proof.
  induction 1 as [|c1 l c2 ls c3 Hs _ IH]; intros Hw; [done |]. apply IH. unfold http_waits in *.
  destruct Hs as [c Hx|c l g Hx _ Hs|c l h Hx _ Hs| | | | | |]; simpl in *; try done.
  intros Hsig Hd. specialize (Hw Hsig).
  destruct Hs as [s listened s' Hr Hst|s listened s' err Hr Hst|s Hr [Hsel|Hsel]|s Hr|s Hr Hsh|s err Hr Hsh
    |s err Hr|s err cerr Hr Hcl|s err Hr Hdn|s err Hsv Hsr|s Hl Ha|s n Hn]; simpl in *; try done;
    try congruence; specialize (Hw Hd); first [done | by rewrite Hr in Hw].
Qed.

Lemma http_in_select c :
  p_inv c -> http_waits c -> pr_signalled c = false -> is_Some (hs_listener (pr_http c)) ->
  hs_done (pr_http c) = false -> hs_run (pr_http c) = HRunSelect.
Proof.
  intros [_ Ih _ _ _ _ _] Hw Hsig [a Ha] Hd. unfold h_inv, h_bound, h_unbound in Ih.
  specialize (Hw Hsig Hd). destruct (hs_run (pr_http c)) as [| | | | | |[e|]|[e|]]; intuition congruence.
Qed.

(** A gRPC server whose [Run] has returned has no step of its own left. *)
Lemma grpc_returned_stuck cancelled s s' err :
  g_inv s -> gs_run s = RunReturned err -> ~ gstep gcfg cancelled s Program s'.
Proof.
  unfold g_inv, drain, bound, unbound, calm. intros Hi Hr Hs. rewrite Hr in Hi.
  inversion Hs; subst; destruct err; destruct (gs_done s) eqn:Hd; simpl in *; intuition congruence.
Qed.

(** While the main goroutine waits and the HTTP server is in its select, only the
    end of [Serve] moves the process. *)
Lemma waiting_stuck c c' err :
  g_inv (pr_grpc c) -> gs_run (pr_grpc c) = RunReturned err -> pr_signalled c = false ->
  hs_done (pr_http c) = false -> hs_run (pr_http c) = HRunSelect -> pr_main c = MWait ->
  pr_grpc_done c = true -> pr_http_done c = false ->
  pstep c Program c' -> hs_done (pr_http c') = true.
Proof.
  intros Ig Hg Hsig Hd Hs Hm Hgd Hh Hst.
  inversion Hst as [|c0 l g _ _ Hgs|c0 l h _ _ Hhs| |c0 e _ _ _ Hr| | | |]; subst; try congruence.
  - by destruct (grpc_returned_stuck _ _ _ _ Ig Hg Hgs).
  - inversion Hhs; subst; simpl; try congruence. naive_solver congruence.
Qed.

(** ** Why the process fails *)

Lemma psteps_causes c ls c' :
  psteps c ls c' -> p_inv c ->
  g_causes gcfg (pr_grpc c) /\ h_causes hcfg (pr_http c) ->
  g_causes gcfg (pr_grpc c') /\ h_causes hcfg (pr_http c').
Proof.
  induction 1 as [|c1 l c2 ls c3 Hs _ IH]; intros Hi [Hg Hh]; [done |].
  apply IH; [by eapply pstep_inv |]. destruct Hi as [Ig Ih _ _ _ _ _].
  destruct Hs; simpl; eauto using gstep_causes, hstep_causes.
Qed.

(** A start-up that failed runs the deferred calls and exits with its error. *)
Definition refused (err : goerr) (c : Proc) : Prop :=
  pr_started c = false
  /\ match pr_main c with MWait => False | MClose _ e | MExited e => e = Some err end.

Lemma psteps_refused err c ls c' : psteps c ls c' -> refused err c -> refused err c'.
Proof.
  induction 1 as [|c1 l c2 ls c3 Hs _ IH]; intros [Hst Hm]; [done |]. apply IH.
  destruct Hs as [c Hx|c l g Hx Hs _|c l h Hx Hs _|c err' Hx Hs _ _|c err' Hx Hs _ _|c Hm'|c rest err' Hm'
    |c rest err' Hm' _|c err' Hm']; try congruence; try (by split); split; try done; simpl;
    by rewrite Hm' in Hm.
Qed.

(** An error of [run] as [main] prints it. *)
Definition fatal_line (err : goerr) : list piece := [Txt "fatal: "] ++ Error err ++ [Txt line_feed].

(** The error a goroutine sent, with the server it came from. *)
Definition reported (c : Proc) (e : goerr) : Prop :=
  (exists e', e = prefixed "grpc server: " e' /\ grpc_cause gcfg (pr_grpc c) (Some e'))
  \/ (exists e', e = prefixed "http server: " e' /\ http_cause hcfg (pr_http c) (Some e')).

(** C36. The exit status tells what went wrong, by its causes. When start-up
    failed the process exits with status 1 and the line of that error. Otherwise
    the status is 0, without a line, exactly when neither server failed: both
    bound their sockets, the gRPC server was not cut off by [Stop], the HTTP
    server was not cut off by [Close], and HTTP's [Serve] ended with
    [ErrServerClosed]; else it is 1 and the line is that of a server's
    failure: the address it could not listen on, the drain that was forced, the
    shutdown that timed out, or the end of HTTP's [Serve]. The end of gRPC's
    [Serve] has no part in it: its error is logged and [Run] does not return it. *)
Theorem exit_status_exact {W} (out : list Closing * result W) ls c status lines :
  psteps (proc_init out) ls c -> api_main c = Some (Exited status lines) ->
  match out.2 with
  | Err err => status = 1%Z /\ lines = [fatal_line err]
  | Ok _ =>
      (status = 0%Z <-> ~ grpc_failed (pr_grpc c) /\ ~ http_failed (pr_http c))
      /\ (status = 0%Z /\ lines = []
          \/ status = 1%Z /\ exists e, lines = [fatal_line e] /\ reported c e)
  end.
Proof.
  destruct out as [defers [w|err]]; intros Hrun; unfold api_main; simpl.
  - pose proof (psteps_inv _ _ _ Hrun (proc_init_inv defers w)) as [_ _ Igd Ihd Ie Im _].
    destruct (psteps_causes _ _ _ Hrun (proc_init_inv defers w) (conj (grpc_New_causes gcfg) (http_New_causes hcfg)))
      as [Hgc [_ _ Hhc]].
    destruct (pr_main c) as [| |err]; [done | done |]. intros [= Hx].
    destruct Im as (_ & -> & Hg & Hh). destruct (Igd Hg) as [eg Heg], (Ihd Hh) as [eh Heh].
    unfold g_causes in Hgc. unfold grpc_sent, http_sent in Ie. rewrite Hg, Hh, Heg, Heh in *.
    pose proof (grpc_cause_failed _ _ _ Hgc) as Hgf. pose proof (http_cause_failed _ _ _ Hhc) as Hhf.
    unfold reported, fatal_line.
    destruct eg as [eg|], eh as [eh|]; simpl in Ie; destruct Ie as [He | He]; rewrite He in Hx;
      cbn [head exit_of app] in Hx; simplify_eq; (split; [intuition congruence |]);
      first [by left | right; split; [done |];
        first [exists (prefixed "grpc server: " eg); by eauto | exists (prefixed "http server: " eh); by eauto]].
  - assert (Hr : refused err c) by (by eapply psteps_refused).
    destruct Hr as [_ Hm]. destruct (pr_main c); [done | done |]. subst. by intros [= <- <-].
Qed.

Section runs.
Context {W : Type}.
Variables (defers : list Closing) (wiring : W) (ls : list label) (c : Proc).
Hypothesis Hrun : psteps (proc_init (defers, Ok wiring)) ls c.

Let Hinv : p_inv c := psteps_inv _ _ _ Hrun (proc_init_inv defers wiring).

(** C18. Shutdown always terminates: once the signal has arrived, whatever the
    process was doing, it takes at most thirty more steps of its own; until it
    has exited it is never stuck, one of its goroutines can take a step or a
    request in flight, which always ends, is being waited for; and steps of
    its own and ends of requests alone bring it to its exit. *)
Theorem shutdown_terminates :
  pr_signalled c = true ->
  (forall ls' c', psteps c ls' c' ->
     program_steps ls' <= 30
     /\ (exited c' = true \/ exists l c'', pstep c' l c'' /\ l <> Ambient))
  /\ exists ls' c', psteps c ls' c' /\ exited c' = true /\ Forall (fun l => l <> Ambient) ls'.
Proof using Hrun.
  intros Hsig. pose proof (psteps_rank _ _ _ Hrun (proc_init_inv defers wiring)) as Hr.
  rewrite p_rank_init in Hr. split.
  - intros ls' c' Hs'. split; [pose proof (psteps_rank _ _ _ Hs' Hinv); lia |].
    destruct (exited c') eqn:Hx; [by left | right].
    apply pstep_progress; [by eapply psteps_inv | by eapply psteps_signalled | done].
  - by apply (psteps_exit (p_rank c) (busy c)).
Qed.

(** C19. The pools close last: when the first of them is closed both servers have
    returned from [Run], Redis is closed before PostgreSQL, and a server that
    shut down gracefully has no request in flight and takes no new one; the
    gRPC health service has long said NOT_SERVING. *)
Theorem pools_close_last :
  pr_closed c <> [] ->
  exists eg eh, gs_run (pr_grpc c) = RunReturned eg /\ hs_run (pr_http c) = HRunReturned eh
    /\ (pr_closed c = [CloseRedis] \/ pr_closed c = [CloseRedis; CloseDB])
    /\ (eg = None -> go_inflight (gs_obs (pr_grpc c)) = 0 /\ not_serving (pr_grpc c)
                     /\ ~ accepts_rpc (gs_obs (pr_grpc c)))
    /\ (eh = None -> ho_inflight (hs_obs (pr_http c)) = 0
                     /\ ~ accepts_request (hs_obs (pr_http c))).
Proof using Hrun.
  intros Hcl. destruct Hinv as [Ig Ih Igd Ihd _ Im _].
  assert (pr_grpc_done c = true /\ pr_http_done c = true
          /\ exists rest, (pr_closed c ++ rest)%list = [CloseRedis; CloseDB]) as (Hg & Hh & rest & Hc).
  { destruct (pr_main c) as [|rest err|err]; [done | |]; destruct Im as (Hc & _ & Hg & Hh).
    - by split_and!; [.. | exists rest].
    - split_and!; [done | done |]. exists []. by rewrite app_nil_r. }
  destruct (Igd Hg) as [eg Heg], (Ihd Hh) as [eh Heh]. exists eg, eh. split_and!; try done.
  - destruct (pr_closed c) as [|x [|y [|]]]; simplify_eq/=; auto.
  - intros ->. unfold g_inv in Ig. rewrite Heg in Ig.
    destruct Ig as ((_ & Hn & (Hgr & _ & Hf) & Hs) & Hst & _). split_and!; [by apply Hf | done |].
    intros (_ & Hng & _)%accepts_rpc_ok. congruence.
  - intros ->. unfold h_inv in Ih. rewrite Heh in Ih. destruct Ih as (_ & _ & Hd & Hi).
    split; [done |]. intros [Hnd _]%accepts_request_ok. congruence.
Qed.

(** C38. The failure of the gRPC server alone does not end the process: as long as
    no signal arrives and the HTTP server serves, the process has not exited and
    has written nothing to standard error; the error, once sent, stays in the
    channel; no pool is closed; and once the gRPC goroutine is done the only
    step of the process's own that is left is the end of HTTP's [Serve]. *)
Theorem grpc_failure_does_not_exit err :
  gs_run (pr_grpc c) = RunReturned err ->
  pr_signalled c = false -> is_Some (hs_listener (pr_http c)) -> hs_done (pr_http c) = false ->
  api_main c = None /\ pr_main c = MWait /\ pr_closed c = [] /\ hs_run (pr_http c) = HRunSelect
  /\ (pr_grpc_done c = true ->
       pr_errs c = sent "grpc server: " err
       /\ forall c', pstep c Program c' -> hs_done (pr_http c') = true).
Proof using Hrun.
  intros Hg Hsig Hl Hd.
  assert (Hs : hs_run (pr_http c) = HRunSelect)
    by (eapply http_in_select; [exact Hinv | | done..]; by apply (psteps_http_waits _ _ _ Hrun)).
  destruct Hinv as [Ig _ _ Ihd Ie Im _].
  assert (Hh : pr_http_done c = false).
  { destruct (pr_http_done c); [|done]. destruct (Ihd eq_refl) as [e He]. congruence. }
  assert (Hm : pr_main c = MWait)
    by (destruct (pr_main c) as [|rest e|e]; [done | |]; destruct Im as (_ & _ & _ & ?); congruence).
  unfold api_main. rewrite Hm in *. split_and!; try done. intros Hgd. split.
  - unfold grpc_sent, http_sent in Ie. rewrite Hgd, Hh, Hg, app_nil_r in Ie. by destruct Ie.
  - intros c'. by eapply waiting_stuck.
Qed.
End runs.
End process.

(** ** Instances *)

Definition small_http : HTTP := mkHTTP "" 0 1 1 1 1.

Abbreviation Proc_ := (Proc (H := MemHealth)).
Definition boot : Proc_ := proc_init ([CloseRedis; CloseDB], Ok tt).

(** One step of a run, by the constructor that names it. *)
Ltac solve_side := simpl; first [reflexivity | by auto | by repeat eexists].
Ltac pstep_by c := eapply psteps_cons; [eapply c; solve_side | simpl].
Ltac grpc_by c := eapply psteps_cons; [eapply p_grpc; [reflexivity | reflexivity | eapply c; solve_side] | simpl].
Ltac http_by c := eapply psteps_cons; [eapply p_http; [reflexivity | reflexivity | eapply c; solve_side] | simpl].

Lemma psteps_app (gcfg : GRPC) (hcfg : HTTP) (c1 c2 c3 : Proc_) ls1 ls2 :
  psteps gcfg hcfg c1 ls1 c2 -> psteps gcfg hcfg c2 ls2 c3 -> psteps gcfg hcfg c1 (ls1 ++ ls2) c3.
Proof. induction 1; simpl; eauto using psteps. Qed.

(** Both servers listen, an RPC is in flight, and the signal arrives. *)
Lemma signalled_run :
  exists ls c, psteps small_grpc small_http boot ls c /\ pr_signalled c = true
    /\ go_inflight (gs_obs (pr_grpc c)) = 1
    (* ... and from there, a graceful shutdown *)
    /\ exists ls' c', psteps small_grpc small_http c ls' c' /\ pr_main c' = MExited None
         /\ pr_closed c' = [CloseRedis; CloseDB].
Proof.
  do 2 eexists. split; [|split; [|split]].
  - grpc_by (g_start_ok small_grpc false (grpc_New (H := MemHealth)) (Ok "[::]:9090"%string)).
    http_by (h_start_ok small_http false http_New (Ok "[::]:8080"%string)).
    grpc_by @g_rpc_starts. pstep_by @p_signal. apply psteps_nil.
  - reflexivity.
  - reflexivity.
  - do 2 eexists. split; [|split].
    + grpc_by @g_select. grpc_by @g_stop_polling. grpc_by @g_set_server. grpc_by @g_set_service.
      grpc_by @g_health_shutdown. grpc_by @g_spawn. grpc_by @g_rpc_ends. grpc_by @g_graceful_returns.
      grpc_by @g_select_stopped. grpc_by (fun s => g_serve_returns (H := MemHealth) small_grpc true s None).
      grpc_by @g_await_done. http_by @h_select. http_by @h_shutdown. http_by @h_shutdown_ok.
      http_by (fun s => h_serve_returns small_http true s http_ErrServerClosed). http_by @h_await_done.
      pstep_by @p_grpc_finished. pstep_by @p_http_finished. pstep_by @p_wait.
      pstep_by @p_close_redis. pstep_by @p_close_db. pstep_by @p_exit. apply psteps_nil.
    + reflexivity.
    + reflexivity.
Qed.

Lemma shutdown_terminates_witness :
  exists ls c, psteps small_grpc small_http boot ls c /\ go_inflight (gs_obs (pr_grpc c)) = 1
    /\ exists ls' c', psteps small_grpc small_http c ls' c' /\ exited c' = true.
Proof.
  destruct signalled_run as (ls & c & Hrun & Hsig & Hi & _). exists ls, c. split_and!; [done | done |].
  destruct (shutdown_terminates small_grpc small_http [CloseRedis; CloseDB] tt ls c Hrun Hsig)
    as [_ (ls' & c' & Hs & Hx & _)]. by exists ls', c'.
Defined.

Lemma pools_close_last_witness :
  exists ls c, psteps small_grpc small_http boot ls c /\ pr_closed c = [CloseRedis; CloseDB]
    /\ go_inflight (gs_obs (pr_grpc c)) = 0.
Proof.
  destruct signalled_run as (ls & c & Hrun & _ & _ & ls' & c' & Hrun' & Hm & Hc).
  pose proof (psteps_app _ _ _ _ _ _ _ Hrun Hrun') as H. exists (ls ++ ls'), c'. split_and!; try done.
  assert (Hne : pr_closed c' <> []) by (by rewrite Hc).
  destruct (pools_close_last small_grpc small_http [CloseRedis; CloseDB] tt (ls ++ ls') c' H Hne)
    as (eg & eh & Hg & Hh & _ & Hig & _).
  destruct eg as [e|]; [|by apply Hig]. exfalso.
  destruct (psteps_inv _ _ _ _ _ H (proc_init_inv _ _)) as [_ _ _ _ Ie Im _]. rewrite Hm in Im.
  destruct Im as (_ & Herr & Hgd & _). unfold grpc_sent in Ie. rewrite Hgd, Hg in Ie.
  destruct Ie as [He|He]; rewrite He in Herr; [done |]. by destruct (http_sent c').
Defined.

(** The gRPC port is taken, the HTTP server drains: status 1, and the line names
    the port. *)
Lemma port_taken_run :
  exists ls c, psteps small_grpc small_http boot ls c
    /\ pr_main c = MExited (Some (prefixed "grpc server: "
         (Wrap [Txt "grpc: listen on "; Str (GRPC_Addr small_grpc); Txt ": "]
            (External "address in use") []))).
Proof.
  do 2 eexists. split.
  - grpc_by (g_start_err small_grpc false (grpc_New (H := MemHealth)) (Err (External "address in use"))).
    http_by (h_start_ok small_http false http_New (Ok "[::]:8080"%string)).
    pstep_by @p_grpc_finished. pstep_by @p_signal. http_by @h_select. http_by @h_shutdown.
    http_by @h_shutdown_ok. http_by (fun s => h_serve_returns small_http true s http_ErrServerClosed).
    http_by @h_await_done. pstep_by @p_http_finished. pstep_by @p_wait.
    pstep_by @p_close_redis. pstep_by @p_close_db. pstep_by @p_exit. apply psteps_nil.
  - reflexivity.
Qed.

Lemma exit_status_exact_witness :
  (exists ls c, psteps small_grpc small_http boot ls c /\ api_main c = Some (Exited 0 [])
     /\ ~ grpc_failed (pr_grpc c) /\ ~ http_failed (pr_http c))
  /\ exists ls c lines, psteps small_grpc small_http boot ls c /\ api_main c = Some (Exited 1 lines)
     /\ ~ (~ grpc_failed (pr_grpc c) /\ ~ http_failed (pr_http c)).
Proof.
  split.
  - destruct signalled_run as (ls & c & Hrun & _ & _ & ls' & c' & Hrun' & Hm & Hc).
    pose proof (psteps_app _ _ _ _ _ _ _ Hrun Hrun') as H. exists (ls ++ ls'), c'.
    assert (Hx : api_main c' = Some (Exited 0 [])) by (unfold api_main; by rewrite Hm).
    split; [done |]. split; [done |].
    by apply (exit_status_exact small_grpc small_http _ (ls ++ ls') c' 0%Z [] H Hx).
  - destruct port_taken_run as (ls & c & Hrun & Hm). exists ls, c. eexists.
    assert (Hx : api_main c = Some (exit_of "fatal: " (Some (prefixed "grpc server: "
         (Wrap [Txt "grpc: listen on "; Str (GRPC_Addr small_grpc); Txt ": "]
            (External "address in use") []))))) by (unfold api_main; by rewrite Hm).
    split; [done |]. split; [exact Hx |]. intros Hn.
    by apply (exit_status_exact small_grpc small_http _ ls c 1%Z _ Hrun Hx) in Hn.
Defined.

(** The gRPC port is taken: the process goes on with its HTTP listener. *)
Lemma grpc_port_taken :
  exists ls c err, psteps small_grpc small_http boot ls c
    /\ gs_run (pr_grpc c) = RunReturned (Some err) /\ pr_grpc_done c = true
    /\ pr_signalled c = false /\ is_Some (hs_listener (pr_http c)) /\ hs_done (pr_http c) = false.
Proof.
  do 3 eexists. split; [|split_and!].
  - grpc_by (g_start_err small_grpc false (grpc_New (H := MemHealth)) (Err (External "address in use"))).
    pstep_by @p_grpc_finished.
    http_by (h_start_ok small_http false http_New (Ok "[::]:8080"%string)). apply psteps_nil.
  - reflexivity.
  - reflexivity.
  - reflexivity.
  - by eexists.
  - reflexivity.
Qed.

Lemma grpc_failure_does_not_exit_witness :
  exists ls c err, psteps small_grpc small_http boot ls c
    /\ gs_run (pr_grpc c) = RunReturned (Some err) /\ pr_main c = MWait
    /\ pr_errs c = [prefixed "grpc server: " err].
Proof.
  destruct grpc_port_taken as (ls & c & err & Hrun & Hg & Hgd & Hsig & Hl & Hd).
  exists ls, c, err.
  destruct (grpc_failure_does_not_exit small_grpc small_http [CloseRedis; CloseDB] tt ls c Hrun (Some err)
    Hg Hsig Hl Hd) as (_ & Hm & _ & _ & He).
  split_and!; try done. by apply He.
Defined.
