(* ===== verification/IdempotentSpec.v ===== *)
(** * Idempotent posting, request by request

    What one call of [PostIdempotent] does: with a Redis that works, with one
    that does not, and with a record that cannot be decoded; and that it always
    returns. *)
From stdpp Require Import base gmap fin_maps strings list.
From Stdlib Require Import ZArith Lia Ascii.
From S2P Require Import Prelude.
From S2P Require Import GoStd.
From S2P Require Import GoTime.
From S2P Require Import Uuid.
From S2P Require Import Errors.
From S2P Require Import Money.
From S2P Require Import Schema.
From S2P Require Import Tx.
From S2P Require Import Transfer.
From S2P Require Import Posting.
From S2P Require Import LedgerInv.
From S2P Require Import Idempotency.
From S2P Require Import Prog.
From S2P Require Import Retry.
From S2P Require Import Store.
From S2P Require Import Instances.
From S2P Require Import Idempotent.
From S2P Require Import Scenario.
From S2P Require Import Concurrency.
From S2P Require Import StoreSpec.
From S2P Require Import PostOnce.
From S2P Require Import AtMostOnce.

Open Scope Z_scope.

(** ** Bounded work *)

(** A program that returns and whose operations cost nothing. *)
Lemma free_tally {A} cost (p : prog A) (P : A -> Prop) n :
  all_ops (fun B o => cost B o = 0) p -> leaves P p -> tally cost (fun m a => m = n /\ P a) n p.
Proof.
  revert n. induction p as [a|why|X o k IH]; intros n; simpl; [done | done |].
  intros [Ho Hk] Hl b. rewrite Ho, Z.add_0_r. by apply IH.
Qed.

(** Running it first. *)
Lemma free_first {A B} cost (p : prog A) (P : A -> Prop) (g : A -> prog B) Q n :
  all_ops (fun B o => cost B o = 0) p -> leaves P p ->
  (forall a, P a -> tally cost Q n (g a)) -> tally cost Q n (bind p g).
Proof.
  intros Ho Hl Hg. apply tally_bind. eapply tally_mono; [|by apply free_tally].
  intros m a [-> Ha]. by apply Hg.
Qed.

Lemma quiet_free B (o : op B) : quiet o -> cost_posts B o = 0.
Proof. by destruct o. Qed.

Section bounded.
Context {UL : UuidLib} {RCo : RecordCodec}.
Variables (s : Service) (key : string) (cmd : Command).
Let f := Fingerprint (command_request cmd).
Hypothesis Hpolicy : policy_ok (svc_retry s).

Lemma cacheCompletion_returns id : leaves (fun _ => True) (cacheCompletion s key f id).
Proof.
  unfold cacheCompletion, Complete. destruct (svc_idem s) as [st|]; [|done]. simpl.
  destruct (st_client st); [|done]. simpl. intros t1 t2 [|]; done.
Qed.

Lemma releaseClaim_returns : leaves (fun _ => True) (releaseClaim s key).
Proof.
  unfold releaseClaim, Release. destruct (svc_idem s) as [st|]; [|done]. simpl.
  destruct (st_client st); [|done]. simpl. by intros [].
Qed.

Lemma recoverFromDatabase_returns :
  leaves (fun r => forall res, r = Ok (Some res) -> res_Attempts res = zero_attempts)
    (recoverFromDatabase key f).
Proof.
  unfold recoverFromDatabase. intros r. cbn [bind leaves].
  destruct (scan_row r) as [t|e]; [|by destruct (errors_Is e pgx_ErrNoRows)].
  destruct (FingerprintFromBytes _); [|done].
  destruct (negb _); [done |]. by intros res [= <-].
Qed.

Lemma Acquire_returns st : leaves (fun _ => True) (Acquire st key f).
Proof.
  destruct st as [st|]; [|done]. unfold Acquire. destruct (st_client st); [|done].
  apply leaves_bind. intros now. cbn [leaves]. generalize 3%nat as n. intros n.
  induction n as [|n IH]; [done |]. cbn [acquire_loop]. intros [[]|e]; simpl; [done | | done].
  intros [[raw|]|e]; simpl; [by destruct (Unmarshal raw) | done | done].
Qed.

(** How the reported attempts relate to the transactions that ran: they are as
    many, or the answer is an error with an empty result. *)
Definition counts_posts (m : Z) (a : Result * option goerr) : Prop :=
  0 <= m <= max_attempts (svc_retry s)
  /\ (Total (res_Attempts (fst a)) = m \/ fst a = zero_result /\ snd a <> None).

Lemma postWithRetry_tally stamp :
  tally cost_posts (fun m '(r, a) => 0 <= m <= max_attempts (svc_retry s) /\ Total a = m) 0
    (postWithRetry (svc_retry s) cmd stamp).
Proof.
  unfold postWithRetry. destruct (Command_Validate cmd).
  - simpl. unfold max_attempts. lia.
  - eapply tally_mono; [|apply (retry_loop_leaves _ _ _ _ 1 _ 0 Hpolicy)];
      try (unfold max_attempts, counted; simpl; lia).
    intros m [r a] ((Ht & _) & _ & ->). split; lia.
Qed.

Lemma postClaimed_tally degraded :
  tally cost_posts counts_posts 0 (postClaimed s key f cmd degraded).
Proof.
  unfold postClaimed. apply tally_bind. eapply tally_mono; [|apply postWithRetry_tally].
  intros m [[posted|err] attempts] [Hm Ht]; cbn iota beta.
  - eapply free_first; [apply cacheCompletion_ops, quiet_free | apply cacheCompletion_returns |].
    intros cached _. split; simpl; auto.
  - destruct (isDuplicateIdempotencyKey err).
    + eapply free_first;
        [apply recoverFromDatabase_ops, quiet_free | apply recoverFromDatabase_returns |].
      intros [[res|]|e] Hres; [|by split; [|right]..].
      eapply free_first; [apply cacheCompletion_ops, quiet_free | apply cacheCompletion_returns |].
      intros cached _. split; simpl; auto.
    + eapply free_first; [apply releaseClaim_ops, quiet_free | apply releaseClaim_returns |].
      intros u _. split; simpl; auto.
Qed.

Lemma PostIdempotent_tally : tally cost_posts counts_posts 0 (PostIdempotent s key cmd).
Proof.
  assert (Hnone : forall res e, Total (res_Attempts res) = 0 -> counts_posts 0 (res, Some e)).
  { intros res e Hr. split; simpl; [unfold max_attempts; lia |]. by left. }
  unfold PostIdempotent. destruct (ParseKey key) as [k|e]; [|by apply Hnone].
  destruct (Command_Validate cmd) as [e|]; [by apply Hnone |]. fold f.
  destruct (negb (negb _)); [|apply postClaimed_tally].
  eapply free_first; [apply Acquire_ops, quiet_free | apply Acquire_returns |].
  intros [claim|err] _.
  - destruct (negb _); [|apply postClaimed_tally]. unfold resolveExisting.
    destruct (negb _); [by apply Hnone |].
    eapply free_first;
      [apply recoverFromDatabase_ops, quiet_free | apply recoverFromDatabase_returns |].
    intros [[res|]|e] Hres.
    + split; simpl; [unfold max_attempts; lia |]. left. by rewrite (Hres res eq_refl).
    + case_bool_decide; [apply postClaimed_tally | by apply Hnone].
    + by apply Hnone.
  - destruct (errors_Is err ErrUnavailable); [apply postClaimed_tally |].
    destruct (errors_Is err ErrInProgress); by apply Hnone.
Qed.
End bounded.

(** ** Records in Redis decode to themselves *)

Section records.
Context {UL : UuidLib} {RCo : RecordCodec}.

Lemma plain_completion f id t1 t2 : plain_record (completion_record f (uuid_String id) t1 t2) = true.
Proof. apply plain_completed, plain_uuid. Qed.
End records.

(** ** Running a request *)

Section runs.
Context {UL : UuidLib} {RCo : RecordCodec} {R : Type} {RC : UniversalClient R}.

(** A first attempt that succeeds. *)
Lemma run_posted {A} p cmd stamp (k : result Transfer * Attempts -> prog A) es (w : World R) db' t :
  Command_Validate cmd = None -> postOnce cmd stamp (env_tx (es O)) (w_db w) = (db', Ok t) ->
  run (bind (postWithRetry p cmd stamp) k) es w
  = run (k (Ok t, mkAttempts 1 0 0)) (fun n => es (S n)) (mkWorld db' (w_redis w)).
Proof.
  intros Hv Hp. unfold postWithRetry. rewrite Hv.
  destruct (Z.to_nat (Z.max 1 (MaxAttempts p))) as [|fuel] eqn:E; [lia |].
  cbn [retry_loop bind call run handle]. unfold on_db. by rewrite Hp.
Qed.

Context {RL : RedisLaws R}.

(** Caching a completion in a Redis that answers. *)
Lemma run_cached {A} s st key f id (k : bool -> prog A) es (w : World R) :
  svc_idem s = Some st -> st_client st = true ->
  exists r', contents r' = <[RedisKey key := Marshal (completion_record f (uuid_String id)
                                (env_time (es 0%nat)) (env_time (es 1%nat)))]> (contents (w_redis w))
    /\ run (bind (cacheCompletion s key f id) k) es w
       = run (k true) (fun n => es (3 + n)%nat) (mkWorld (w_db w) r').
Proof.
  intros Hs Hc. unfold cacheCompletion, Complete, Available. rewrite Hs. simpl. rewrite Hc. simpl.
  destruct (Set_law (w_redis w) (RedisKey key) (Marshal (completion_record f (uuid_String id)
    (env_time (es 0%nat)) (env_time (es 1%nat)))) (st_ttl st)) as (r' & Hset & Hcont).
  exists r'. split; [done |]. unfold on_redis. by rewrite Hset.
Qed.

(** Claiming a free key. *)
Lemma run_acquired {A} st key f (k : result Claim -> prog A) es (w : World R) :
  st_client st = true -> contents (w_redis w) !! RedisKey key = None ->
  exists r', contents r' = <[RedisKey key := Marshal (claim_record f (env_time (es 0%nat)))]>
                             (contents (w_redis w))
    /\ run (bind (Acquire (Some st) key f) k) es w
       = run (k (Ok (mkClaim true empty_record))) (fun n => es (2 + n)%nat) (mkWorld (w_db w) r').
Proof.
  intros Hc Hfree. unfold Acquire. rewrite Hc. simpl.
  destruct (SetNX_law (w_redis w) (RedisKey key) (Marshal (claim_record f (env_time (es 0%nat))))
              (st_processingTTL st)) as (r' & Hset & Hcont).
  rewrite bool_decide_eq_true_2 in Hset, Hcont by done.
  exists r'. split; [done |]. unfold on_redis. by rewrite Hset.
Qed.

(** Finding a record under the key. *)
Lemma run_existing {A} st key f raw (k : result Claim -> prog A) es (w : World R) :
  st_client st = true -> contents (w_redis w) !! RedisKey key = Some raw ->
  exists r', contents r' = contents (w_redis w)
    /\ run (bind (Acquire (Some st) key f) k) es w
       = run (k match Unmarshal raw with
                | Some record => Ok (mkClaim false record)
                | None => Err (Wrap [Txt "idempotency: decode record for "; Str key; Txt ": "]
                                 (External "json") [])
                end) (fun n => es (3 + n)%nat) (mkWorld (w_db w) r').
Proof.
  intros Hc Hraw. unfold Acquire. rewrite Hc. simpl.
  destruct (SetNX_law (w_redis w) (RedisKey key) (Marshal (claim_record f (env_time (es 0%nat))))
              (st_processingTTL st)) as (r1 & Hset & Hcont).
  rewrite bool_decide_eq_false_2 in Hset, Hcont by congruence.
  destruct (Get_law r1 (RedisKey key)) as (r2 & Hget & Hcont2).
  exists r2. split; [congruence |]. unfold on_redis. rewrite Hset. simpl. unfold on_redis. simpl.
  rewrite Hget, Hcont, Hraw. simpl. by destruct (Unmarshal raw).
Qed.
End runs.

Section recover.
Context {UL : UuidLib} {R : Type} {RC : UniversalClient R}.

(** The row under a key is the one the query by key finds. *)
Lemma selected_row base key id row db :
  db_inv base db -> transfers db !! id = Some row -> t_idempotency_key row = Some key ->
  select_by_key key db = Some row.
Proof.
  intros Hinv Hr Hk. destruct (select_by_key key db) as [row'|] eqn:E.
  - apply select_by_key_Some in E as (id' & Hr' & Hk').
    pose proof (inv_unique_key _ _ Hinv _ _ _ _ _ Hr Hr' Hk Hk'). congruence.
  - by destruct (proj1 (select_by_key_None _ _) E _ _ Hr).
Qed.

(** The recovery query answers with the recorded transfer. *)
Lemma run_recovered {A} base key cmd t (k : result (option Result) -> prog A) es (w : World R) :
  service_inv base (w_db w) -> recorded key cmd t (w_db w) -> env_query (es O) = None ->
  run (bind (recoverFromDatabase key (Fingerprint (command_request cmd))) k) es w
  = run (k (Ok (Some (mkResult t zero_attempts true true false)))) (fun n => es (S n)) w.
Proof.
  intros [Hinv Hst] (tid & row & Hr & Hk & -> & Hf) Hq.
  pose proof (selected_row _ _ _ _ _ Hinv Hr Hk) as Hsel.
  unfold recoverFromDatabase. cbn [bind call run handle]. rewrite Hq, Hsel. cbn [scan_row].
  rewrite Hf. cbn [default id]. unfold FingerprintFromBytes.
  rewrite (length_Fingerprint (command_request cmd)). cbn [Nat.eqb fingerprint_size negb].
  rewrite bool_decide_eq_true_2 by reflexivity. reflexivity.
Qed.
End recover.

(** An environment in which nothing fails and identifiers are fresh. *)
Definition good_env (es : nat -> Env) (db : Db) : Prop :=
  forall n, calm (env_tx (es n)) /\ fresh_ids (env_tx (es n)) db /\ env_query (es n) = None.

Section claims.
Context {UL : UuidLib} {RCo : RecordCodec} {R : Type} {RC : UniversalClient R}.
Implicit Types (s : Service) (w : World R) (base : gmap UUID Z).

(** A payment nothing stands against: the command is valid, no business rule
    refuses it, its key is valid and unused, and the destination has room. *)
Definition payable (key : string) (cmd : Command) (db : Db) : Prop :=
  ParseKey key = Ok key /\ Command_Validate cmd = None
  /\ in_int64 (c_AmountMinor cmd) = true /\ expected_refusal cmd db = None
  /\ key_free (Some key) db = true
  /\ from_option in_int64 true (credited_balance cmd db) = true.

(** The first attempt of a payable request posts it. *)
Lemma payable_posts base key cmd env db :
  db_inv base db -> payable key cmd db -> calm env -> fresh_ids env db ->
  let stamp := mkStamp key (Fingerprint_Bytes (Fingerprint (command_request cmd))) in
  let t := posted_transfer cmd (tx_uuid env 0) (tx_now env) in
  exists db', postOnce cmd (Some stamp) env db = (db', Ok t) /\ recorded key cmd t db'.
Proof.
  intros Hinv (Hk & Hv & Hi & Hr & Hf & Hb) Hc Hfr stamp t.
  assert (Hst : stamp_ok (Some stamp)).
  { intros st [= <-]. destruct (ParseKey_column _ Hk) as [Hx Hy].
    split; [exact Hx |]. split; [exact Hy |].
    exact (length_Fingerprint (command_request cmd)). }
  destruct (ready_can_post base cmd (Some stamp) env db) as (sr & d & Hp); [done.. |].
  destruct Hc as (Hbeg & Hflt & Hcm).
  destruct (post_complete cmd (Some stamp) env Hflt sr d db (inv_keyed _ _ Hinv) Hp)
    as (st & Hpost & Hdb & Hdef).
  eexists. split.
  - unfold postOnce, run_tx. rewrite Hbeg, Hpost, Hdef, Hcm. done.
  - rewrite Hdb. apply posting_recorded.
Qed.

(** The first request. *)
Lemma run_first {RL : RedisLaws R} base s st key cmd es w :
  service_inv base (w_db w) -> svc_idem s = Some st -> st_client st = true ->
  contents (w_redis w) !! RedisKey key = None -> payable key cmd (w_db w) ->
  good_env es (w_db w) ->
  exists t w1 t1 t2,
    run (PostIdempotent s key cmd) es w
      = (w1, Some (mkResult t (mkAttempts 1 0 0) false false false, None))
    /\ recorded key cmd t (w_db w1) /\ service_inv base (w_db w1)
    /\ contents (w_redis w1) !! RedisKey key
      = Some (Marshal (completion_record (Fingerprint (command_request cmd))
                         (uuid_String (ID t)) t1 t2)).
Proof.
  intros Hinv Hs Hc Hfree Hpay Hes. pose proof Hpay as (Hk & Hv & _).
  destruct (Hes 2%nat) as (Hcalm & Hfresh & _).
  destruct (payable_posts base key cmd (env_tx (es 2%nat)) (w_db w)) as (db' & Hp & Hrec);
    [apply Hinv | done.. |].
  unfold PostIdempotent. rewrite Hk, Hv, Hs. cbn [Available]. rewrite Hc. cbn [negb].
  assert (Hf : service_inv base db').
  { destruct (service_stable base _ (OpPostOnce cmd (Some (mkStamp key (Fingerprint_Bytes
      (Fingerprint (command_request cmd)))))) (w_db w) db' _ Hinv eq_refl (ex_intro _ _ Hp)).
    done. }
  revert Hp Hrec. generalize (Fingerprint (command_request cmd)) as f. intros f Hp Hrec.
  match goal with |- context [run (bind (Acquire (Some st) key f) ?k) ?e ?w'] =>
    destruct (run_acquired st key f k e w' Hc Hfree) as (r1 & _ & ->)
  end.
  cbn [Acquired negb]. unfold postClaimed. cbv zeta.
  erewrite run_posted by done. cbn [w_redis].
  match goal with |- context [run (bind (cacheCompletion s key f ?id) ?k) ?e ?w'] =>
    destruct (run_cached s st key f id k e w' Hs Hc) as (r2 & Hc2 & ->)
  end.
  cbn [negb andb run]. do 4 eexists. split; [reflexivity |]. split; [done |]. split; [done |].
  cbn [w_redis] in *. rewrite Hc2. apply lookup_insert_eq.
Qed.

(** A later request that finds the record of a completed one. *)
Lemma run_replay {RL : RedisLaws R} base s st key cmd t t1 t2 es w :
  service_inv base (w_db w) -> svc_idem s = Some st -> st_client st = true ->
  ParseKey key = Ok key -> Command_Validate cmd = None -> recorded key cmd t (w_db w) ->
  contents (w_redis w) !! RedisKey key
    = Some (Marshal (completion_record (Fingerprint (command_request cmd)) (uuid_String (ID t)) t1 t2)) ->
  (forall n, env_query (es n) = None) ->
  exists w2, run (PostIdempotent s key cmd) es w
      = (w2, Some (mkResult t (mkAttempts 0 0 0) true true false, None))
    /\ w_db w2 = w_db w.
Proof.
  intros Hinv Hs Hc Hk Hv Hrec Hraw Hq.
  unfold PostIdempotent. rewrite Hk, Hv, Hs. cbn [Available]. rewrite Hc. cbn [negb].
  set (f := Fingerprint (command_request cmd)) in *.
  match goal with |- context [run (bind (Acquire (Some st) key f) ?k) ?e ?w'] =>
    destruct (run_existing st key f _ k e w' Hc Hraw) as (r1 & _ & ->)
  end.
  rewrite Unmarshal_Marshal by apply plain_completion. cbn [Acquired negb Existing].
  unfold resolveExisting, Matches. cbn [completion_record rec_Fingerprint rec_State].
  rewrite bool_decide_eq_true_2 by reflexivity. cbn [negb].
  unfold f. erewrite run_recovered; [| done | done | apply Hq].
  cbn [run]. by eexists.
Qed.

(** With a Redis that answers, the first request of a payable payment posts
    it in one attempt and reports it as new; an identical request afterwards
    reports the same transfer as a replay, without an attempt, and leaves the
    database as it is. *)
Lemma first_posts_second_replays {RL : RedisLaws R} base s st key cmd es es' w :
  service_inv base (w_db w) -> svc_idem s = Some st -> st_client st = true ->
  contents (w_redis w) !! RedisKey key = None -> payable key cmd (w_db w) ->
  good_env es (w_db w) -> (forall n, env_query (es' n) = None) ->
  exists t w1 w2,
    run (PostIdempotent s key cmd) es w
      = (w1, Some (mkResult t (mkAttempts 1 0 0) false false false, None))
    /\ recorded key cmd t (w_db w1)
    /\ run (PostIdempotent s key cmd) es' w1
      = (w2, Some (mkResult t (mkAttempts 0 0 0) true true false, None))
    /\ w_db w2 = w_db w1.
Proof.
  intros Hinv Hs Hc Hfree Hpay Hes Hq. pose proof Hpay as (Hk & Hv & _).
  destruct (run_first base s st key cmd es w) as (t & w1 & t1 & t2 & H1 & Hrec & Hinv1 & Hraw);
    [done.. |].
  destruct (run_replay base s st key cmd t t1 t2 es' w1) as (w2 & H2 & Hdb); [done.. |].
  by exists t, w1, w2.
Qed.

(** A Redis that fails every command does not stop a payment: the request
    goes through on PostgreSQL alone, posts in one attempt and reports that
    coordination was degraded. *)
Lemma redis_down_still_posts base s st key cmd es w :
  service_inv base (w_db w) -> svc_idem s = Some st -> st_client st = true ->
  (forall r k v ttl, exists e, SetNX r k v ttl = (r, Err e)) ->
  (forall r k v ttl, exists e, Set_ r k v ttl = (r, Err e)) ->
  payable key cmd (w_db w) -> good_env es (w_db w) ->
  exists t w1,
    run (PostIdempotent s key cmd) es w
      = (w1, Some (mkResult t (mkAttempts 1 0 0) false false true, None))
    /\ recorded key cmd t (w_db w1).
Proof.
  intros Hinv Hs Hc Hnx Hset Hpay Hes. pose proof Hpay as (Hk & Hv & _).
  destruct (Hes 2%nat) as (Hcalm & Hfresh & _).
  destruct (payable_posts base key cmd (env_tx (es 2%nat)) (w_db w)) as (db' & Hp & Hrec);
    [apply Hinv | done.. |].
  unfold PostIdempotent. rewrite Hk, Hv, Hs. cbn [Available]. rewrite Hc. cbn [negb].
  revert Hp Hrec. generalize (Fingerprint (command_request cmd)) as f. intros f Hp Hrec.
  unfold Acquire at 1. rewrite Hc. cbn [bind call run handle acquire_loop].
  destruct (Hnx (w_redis w) (RedisKey key) (Marshal (claim_record f (env_time (es 0%nat))))
              (st_processingTTL st)) as [e He].
  unfold on_redis. rewrite He. cbn [bind unavailable errors_Is orb].
  rewrite bool_decide_eq_true_2 by done. cbn [orb].
  unfold postClaimed. cbv zeta. erewrite run_posted by done.
  unfold cacheCompletion, Complete. rewrite Hs. cbn [Available]. rewrite Hc.
  cbn [negb bind call run handle w_redis].
  match goal with |- context [on_redis ?w' (fun r => Set_ r ?k ?v ?t)] =>
    destruct (Hset (w_redis w') k v t) as [e2 He2]; unfold on_redis; rewrite He2
  end.
  cbn [bind run negb andb]. do 2 eexists. split; [reflexivity | exact Hrec].
Qed.

(** A record that does not decode is not treated as absent: the request
    fails with an error that is neither the unavailability of Redis, which
    would have let the payment through, nor a business refusal; nothing is
    posted. *)
Lemma corrupt_record_refuses_payment {RL : RedisLaws R} s st key cmd raw es w :
  svc_idem s = Some st -> st_client st = true ->
  ParseKey key = Ok key -> Command_Validate cmd = None ->
  contents (w_redis w) !! RedisKey key = Some raw -> Unmarshal raw = None ->
  exists w1 e, run (PostIdempotent s key cmd) es w = (w1, Some (zero_result, Some e))
    /\ w_db w1 = w_db w /\ forall t, errors_Is e t = false.
Proof.
  intros Hs Hc Hk Hv Hraw Hbad.
  unfold PostIdempotent. rewrite Hk, Hv, Hs. cbn [Available]. rewrite Hc. cbn [negb].
  generalize (Fingerprint (command_request cmd)) as f. intros f.
  match goal with |- context [run (bind (Acquire (Some st) key f) ?k) ?e ?w'] =>
    destruct (run_existing st key f _ k e w' Hc Hraw) as (r1 & _ & ->)
  end.
  rewrite Hbad. cbn [errors_Is run]. by do 2 eexists.
Qed.

(** C24. Under a policy whose longest delay is below the largest duration, a
    call of [PostIdempotent] always returns, without a panic, after at most the
    attempt budget of transactions, whatever the outside world does; the attempts
    it reports are the transactions it ran, unless it answers with an error and an
    empty result (a conflict or a payment in progress found after a duplicate key
    is answered so although a transaction ran). *)
Theorem PostIdempotent_bounded s key cmd es w :
  policy_ok (svc_retry s) ->
  exists w' res err, run (PostIdempotent s key cmd) es w = (w', Some (res, err))
    /\ run_cost cost_posts (PostIdempotent s key cmd) es w <= max_attempts (svc_retry s)
    /\ (Total (res_Attempts res) = run_cost cost_posts (PostIdempotent s key cmd) es w
        \/ res = zero_result /\ err <> None).
Proof.
  intros Hp.
  destruct (tally_run cost_posts _ _ 0 es w (PostIdempotent_tally s key cmd Hp))
    as (w' & [res err] & Hr & [_ Hle] & Ht).
  exists w', res, err. split; [done |]. split; [lia | done].
Qed.
End claims.

(** ** Witnesses *)

Lemma scn_stamps : service_inv scn_base scn_db.
Proof. split; [apply scn_inv |]. intros id t k. simpl. by rewrite lookup_empty. Qed.

Lemma scn_good : good_env scn_env scn_db.
Proof.
  intros n. split; [by repeat split |]. split; [|done].
  split; simpl; [by rewrite lookup_empty.. |]. intros E%uuid_of_Z_mod.
  rewrite !Z.mod_eq in E by lia.
  assert (H : 256 * ((1000 + 100 * Z.of_nat n + Z.of_nat 2) / 256
                     - (1000 + 100 * Z.of_nat n + Z.of_nat 1) / 256) = 1) by lia.
  lia.
Qed.

Lemma PostIdempotent_bounded_witness :
  exists w' res err,
    run (PostIdempotent scn_service scn_key scn_cmd) scn_env scn_world = (w', Some (res, err)).
Proof.
  destruct (PostIdempotent_bounded scn_service scn_key scn_cmd scn_env scn_world)
    as (w' & res & err & H & _); [vm_compute; reflexivity |].
  exists w', res, err. exact H.
Defined.
