(* ===== verification/IdempotentExact.v ===== *)
(** * What every request with a key is answered

    [PostIdempotent] on every combination of what Redis and PostgreSQL hold for
    the key, in an environment in which nothing fails: the reference decision
    [decide_request], the answer and the state it leaves; the same without
    Redis; and what that means for a payment whose Redis record is gone. *)
From stdpp Require Import base gmap fin_maps strings list.
From Stdlib Require Import ZArith Lia Ascii.
From S2P Require Import Prelude.
From S2P Require Import GoStd.
From S2P Require Import GoTime.
From S2P Require Import Uuid.
From S2P Require Import Errors.
From S2P Require Import Money.
From S2P Require Import Schema.
From S2P Require Import Tx.
From S2P Require Import Transfer.
From S2P Require Import Posting.
From S2P Require Import LedgerInv.
From S2P Require Import Idempotency.
From S2P Require Import Prog.
From S2P Require Import Retry.
From S2P Require Import Store.
From S2P Require Import RecordJson.
From S2P Require Import Instances.
From S2P Require Import Idempotent.
From S2P Require Import Scenario.
From S2P Require Import Concurrency.
From S2P Require Import StoreSpec.
From S2P Require Import PostOnce.
From S2P Require Import AtMostOnce.
From S2P Require Import IdempotentSpec.

Open Scope Z_scope.

(** ** Total correctness of a program alone

    [wp E p Q w]: from [w], as long as every operation meets an environment in
    [E], the program returns, in a world and with a value in [Q]. *)
Section wp.
Context {R : Type} {RC : UniversalClient R}.
Implicit Types (w : World R) (E : Env -> Prop).

Fixpoint wp {A} E (p : prog A) (Q : World R -> A -> Prop) w : Prop :=
  match p with
  | Ret a => Q w a
  | Crash _ => False
  | Vis o k => forall e, E e -> wp E (k (handle e w o).2) Q (handle e w o).1
  end.

Lemma wp_run {A} E (p : prog A) Q es w :
  (forall n, E (es n)) -> wp E p Q w -> exists w' a, run p es w = (w', Some a) /\ Q w' a.
Proof.
  revert es w. induction p as [a|why|X o k IH]; intros es w He; simpl; [by eauto | done |].
  intros H. specialize (H _ (He O)). destruct (handle (es O) w o) as [w1 b]. apply (IH b); [|exact H].
  intros n. apply He.
Qed.

Lemma wp_mono {A} E (p : prog A) (Q Q' : World R -> A -> Prop) w :
  (forall w' a, Q w' a -> Q' w' a) -> wp E p Q w -> wp E p Q' w.
Proof.
  intros HQ. revert w. induction p as [a|why|X o k IH]; intros w; simpl; [apply HQ | done |].
  intros H e He. by apply IH, H.
Qed.

Lemma wp_bind {A B} E (p : prog A) (k : A -> prog B) Q w :
  wp E p (fun w' a => wp E (k a) Q w') w -> wp E (bind p k) Q w.
Proof.
  revert w. induction p as [a|why|X o c IH]; intros w; simpl; [done | done |].
  intros H e He. by apply IH, H.
Qed.

(** Cutting a program at a bind. *)
Lemma wp_seq {A B} E (p : prog A) (k : A -> prog B) (S : World R -> A -> Prop) Q w :
  wp E p S w -> (forall w' a, S w' a -> wp E (k a) Q w') -> wp E (bind p k) Q w.
Proof. intros Hp Hk. apply wp_bind. eapply wp_mono; [|exact Hp]. exact Hk. Qed.
End wp.

(** ** The store *)

(** Redis is readable and stands for the map [m]. *)
Section store.
Context {R : Type} {RC : UniversalClient R} {RL : RedisLaws R} {RCo : RecordCodec} {UL : UuidLib}.
Implicit Types (w : World R) (E : Env -> Prop).

Definition stands (r : R) (m : string -> option Record_) : Prop :=
  readable r /\ forall k, view r k = m k.

Lemma stands_view r : readable r -> stands r (view r).
Proof. done. Qed.

Lemma put_put m key a b k : put (put m key a) key b k = put m key b k.
Proof. unfold put. by case_bool_decide. Qed.

Lemma put_same m key k : put m key (m key) k = m k.
Proof. unfold put. case_bool_decide; congruence. Qed.

Lemma wp_acquire E st key f w m :
  st_client st = true -> stands (w_redis w) m ->
  wp E (Acquire (Some st) key f) (fun w' r =>
    w_db w' = w_db w
    /\ match m key with
       | None => r = Ok (mkClaim true empty_record)
           /\ exists t, stands (w_redis w') (put m key (Some (claim_record f t)))
       | Some rec_ => r = Ok (mkClaim false rec_) /\ stands (w_redis w') m
       end) w.
Proof.
  intros Hc [Hr Hm]. unfold Acquire. rewrite Hc. cbn [wp bind call handle fst snd acquire_loop]. intros e _.
  generalize (env_time e) as t. intros t. cbn [wp bind call]. intros e1 _. cbn [handle]. unfold on_redis.
  destruct (SetNX_law (w_redis w) (RedisKey key) (Marshal (claim_record f t)) (st_processingTTL st))
    as (r1 & -> & H1).
  rewrite <- Hm. unfold view at 1. destruct (contents (w_redis w) !! RedisKey key) as [raw|] eqn:Ec.
  - rewrite bool_decide_eq_false_2 in H1 |- * by done. destruct (Hr _ _ Ec) as [rec_ Hu].
    cbn [mbind option_bind fst snd wp bind call]. rewrite Hu. intros e2 _. cbn [handle w_redis].
    unfold on_redis. cbn [w_redis w_db]. destruct (Get_law r1 (RedisKey key)) as (r2 & -> & H2).
    rewrite H1, Ec. cbn [fst snd bind wp]. rewrite Hu. cbn [wp]. split_and!; [done | done |].
    cbn [w_redis]. destruct (view_same (w_redis w) r2) as [Hr2 Hv2]; [congruence | done |].
    split; [done |]. intros k. by rewrite Hv2.
  - rewrite bool_decide_eq_true_2 in H1 |- * by done. cbn [mbind option_bind fst snd wp bind].
    split_and!; [done | done |]. exists t. cbn [w_redis].
    destruct (view_insert _ _ _ _ (claim_record f t) H1) as [Hr1 Hv1]; [apply Unmarshal_Marshal, plain_claim | done |].
    split; [done |]. intros k. rewrite Hv1. unfold put. by rewrite Hm.
Qed.

Lemma wp_cache E s st key f id w m :
  svc_idem s = Some st -> st_client st = true -> stands (w_redis w) m ->
  wp E (cacheCompletion s key f id) (fun w' b => b = true /\ w_db w' = w_db w
    /\ exists t1 t2, stands (w_redis w') (put m key (Some (completion_record f (uuid_String id) t1 t2)))) w.
Proof.
  intros Hs Hc [Hr Hm]. unfold cacheCompletion, Complete, Available. rewrite Hs, Hc.
  cbn [negb wp bind call]. intros e1 _ e2 _ e3 _. cbn [handle fst snd]. unfold on_redis.
  destruct (Set_law (w_redis w) (RedisKey key) (Marshal (completion_record f (uuid_String id) (env_time e1) (env_time e2)))
              (st_ttl st)) as (r1 & -> & H1).
  cbn [fst snd bind wp]. split_and!; [done | done |]. exists (env_time e1), (env_time e2). cbn [w_redis].
  destruct (view_insert _ _ _ _ (completion_record f (uuid_String id) (env_time e1) (env_time e2)) H1)
    as [Hr1 Hv1]; [apply Unmarshal_Marshal, plain_completion | done |].
  split; [done |]. intros k. rewrite Hv1. unfold put. by rewrite Hm.
Qed.

Lemma wp_release E s st key w m :
  svc_idem s = Some st -> st_client st = true -> stands (w_redis w) m ->
  wp E (releaseClaim s key) (fun w' _ => w_db w' = w_db w /\ stands (w_redis w') (put m key None)) w.
Proof.
  intros Hs Hc [Hr Hm]. unfold releaseClaim, Release, Available. rewrite Hs, Hc.
  cbn [negb wp bind call]. intros e1 _. cbn [handle]. unfold on_redis.
  destruct (Del_law (w_redis w) (RedisKey key)) as (r1 & -> & H1).
  cbn [fst snd bind wp w_db w_redis]. split; [done |].
  destruct (view_delete _ _ _ H1) as [Hr1 Hv1]; [done |].
  split; [done |]. intros k. rewrite Hv1. unfold put. by rewrite Hm.
Qed.
End store.

(** ** The decision *)

(** What becomes of a request. *)
Inductive verdict :=
  | Posted
  | Replay (t : Transfer)
  | Conflict
  | InProgress
  | Refused (se : sentinel)
  | OutOfRange.

Section decision.
Context {UL : UuidLib}.

(** The row answers this command: it carries the fingerprint of the request. *)
Definition row_for (cmd : Command) (row : TransferRow) : bool :=
  bool_decide (Fingerprint (row_request row) = Fingerprint (command_request cmd)).

Definition settled_row (cmd : Command) (row : TransferRow) : verdict :=
  if row_for cmd row then Replay (transfer_of_row row) else Conflict.

(** A request that goes to PostgreSQL: the business rules come first, then the
    key, then the range of the balance. *)
Definition decide_post (key : string) (cmd : Command) (db : Db) : verdict :=
  match expected_refusal cmd db with
  | Some se => Refused se
  | None =>
      match select_by_key key db with
      | Some row => settled_row cmd row
      | None => if from_option in_int64 true (credited_balance cmd db) then Posted else OutOfRange
      end
  end.

(** A request that meets [rec_] in Redis. *)
Definition decide_request (rec_ : option Record_) (key : string) (cmd : Command) (db : Db) : verdict :=
  match rec_ with
  | None => decide_post key cmd db
  | Some r =>
      if negb (Matches r (Fingerprint (command_request cmd))) then Conflict
      else match select_by_key key db with
      | Some row => settled_row cmd row
      | None => if bool_decide (rec_State r = StateCompleted) then decide_post key cmd db else InProgress
      end
  end.

(** The posting that the specification of [Posting] allows was applied. *)
Definition posts (key : string) (cmd : Command) (db db' : Db) (t : Transfer) : Prop :=
  exists env s d,
    let stamp := Some (mkStamp key (Fingerprint_Bytes (Fingerprint (command_request cmd)))) in
    can_post cmd stamp (tx_uuid env 0) (tx_uuid env 1) (tx_uuid env 2) s d db
    /\ db' = apply_posting cmd stamp (tx_uuid env 0) (tx_uuid env 1) (tx_uuid env 2) (tx_now env) s d db
    /\ t = posted_transfer cmd (tx_uuid env 0) (tx_now env).

(** What the caller is told, and what the database has become. *)
Definition answered (degraded : bool) (key : string) (cmd : Command) (db db' : Db) (v : verdict)
    (res : Result) (err : option goerr) : Prop :=
  match v with
  | Posted =>
      err = None /\ posts key cmd db db' (res_Transfer res)
      /\ res = mkResult (res_Transfer res) (mkAttempts 1 0 0) false false degraded
  | Replay t =>
      err = None /\ db' = db
      /\ res = mkResult t (res_Attempts res) true true degraded
  | Conflict => db' = db /\ res = zero_result /\ err = Some (key_conflict key)
  | InProgress => db' = db /\ res = zero_result /\ err = Some (key_in_progress key)
  | Refused se =>
      db' = db /\ res = mkResult zero_transfer (mkAttempts 1 0 0) false false degraded
      /\ exists e, err = Some e /\ is_exactly se e
  | OutOfRange =>
      db' = db /\ res = mkResult zero_transfer (mkAttempts 1 0 0) false false degraded
      /\ exists e, err = Some e /\ errors_As_Pg e = Some numeric_value_out_of_range
  end.

(** Nothing fails and identifiers are fresh. *)
Definition good (db : Db) (e : Env) : Prop :=
  calm (env_tx e) /\ fresh_ids (env_tx e) db /\ env_query e = None.

(** A request that passes the checks made before anything is touched. *)
Definition admitted (key : string) (cmd : Command) : Prop :=
  ParseKey key = Ok key /\ Command_Validate cmd = None /\ in_int64 (c_AmountMinor cmd) = true.
End decision.

(** ** The steps of a request *)

Section steps.
Context {UL : UuidLib} {RCo : RecordCodec} {R : Type} {RC : UniversalClient R}.
Variables (base : gmap UUID Z) (s : Service) (key : string) (cmd : Command) (db0 : Db).
Let f := Fingerprint (command_request cmd).
Let stamp := mkStamp key (Fingerprint_Bytes f).
Hypothesis Hinv : service_inv base db0.
Hypothesis Hadm : admitted key cmd.
Implicit Types (w : World R).

Lemma wp_recover w :
  w_db w = db0 ->
  wp (good db0) (recoverFromDatabase key f) (fun w' r => w' = w /\
    r = match select_by_key key db0 with
        | None => Ok None
        | Some row => if row_for cmd row
                      then Ok (Some (mkResult (transfer_of_row row) zero_attempts true true false))
                      else Err (key_conflict key)
        end) w.
Proof.
  intros Hw. unfold recoverFromDatabase. cbn [bind call wp]. intros e (_ & _ & Hq). cbn [handle fst snd].
  rewrite Hq, Hw. destruct (select_by_key key db0) as [row|] eqn:Hsel; cbn [scan_row]; [|done].
  apply select_by_key_Some in Hsel as (id & Hr & Hk). destruct Hinv as [_ Hst].
  rewrite (Hst _ _ _ Hr Hk). cbn [default Datatypes.id]. unfold row_for.
  unfold FingerprintFromBytes. rewrite (length_Fingerprint (row_request row)). cbn [Nat.eqb fingerprint_size negb].
  unfold f. generalize (Fingerprint (row_request row)), (Fingerprint (command_request cmd)). intros a b.
  by case_bool_decide.
Qed.

(** What the first attempt answers; it is also the last. *)
Definition attempted w w' (r : result Transfer) : Prop :=
  w_redis w' = w_redis w /\
  match expected_refusal cmd db0 with
  | Some se => w_db w' = db0 /\ exists e, r = Err e /\ is_exactly se e
  | None =>
      match select_by_key key db0 with
      | Some _ => w_db w' = db0 /\ exists e, r = Err e /\ isDuplicateIdempotencyKey e = true
      | None =>
          if from_option in_int64 true (credited_balance cmd db0)
          then exists t, r = Ok t /\ posts key cmd db0 (w_db w') t
          else w_db w' = db0
               /\ exists e, r = Err e /\ errors_As_Pg e = Some numeric_value_out_of_range
      end
  end.

Lemma stamp_fits : stamp_ok (Some stamp).
Proof.
  intros st [= <-]. destruct (ParseKey_column _ (proj1 Hadm)) as [Hx Hy].
  split; [exact Hx |]. split; [exact Hy |]. exact (length_Fingerprint (command_request cmd)).
Qed.

Lemma attempt_outcome e w :
  good db0 e -> w_db w = db0 ->
  attempted w (handle e w (OpPostOnce cmd (Some stamp))).1 (handle e w (OpPostOnce cmd (Some stamp))).2
  /\ forall err, (handle e w (OpPostOnce cmd (Some stamp))).2 = Err err -> snd (retryableCode err) = false.
Proof.
  intros (Hc & Hf & _) Hw. cbn [handle]. unfold on_db. rewrite Hw.
  destruct Hadm as (_ & Hv & Hi).
  pose proof (postOnce_answer base cmd (Some stamp) (env_tx e) db0 (proj1 Hinv) Hc Hv Hi stamp_fits Hf) as H.
  unfold attempted. cbn [keyOrNil stamp stamp_key key_free] in H.
  destruct (expected_refusal cmd db0) as [se|].
  { destruct H as (err & -> & He & Hr). cbn. split_and!; try done; [by eauto |]. by intros ? [= <-]. }
  destruct (select_by_key key db0) as [row|].
  { rewrite bool_decide_eq_false_2 in H by done. destruct H as (err & -> & He & Hr).
    cbn. split_and!; try done; [by eauto |]. by intros ? [= <-]. }
  rewrite bool_decide_eq_true_2 in H by done. cbn [negb] in H.
  destruct (from_option in_int64 true (credited_balance cmd db0)); cbn [negb] in H.
  - destruct H as (sr & d & Hp & ->). cbn. split_and!; try done. eexists. split; [done |].
    by exists (env_tx e), sr, d.
  - destruct H as (err & -> & He & Hr). cbn. split_and!; try done; [by eauto |]. by intros ? [= <-].
Qed.

Lemma wp_post w :
  w_db w = db0 ->
  wp (good db0) (postWithRetry (svc_retry s) cmd (Some stamp))
    (fun w' ra => attempted w w' ra.1 /\ ra.2 = mkAttempts 1 0 0) w.
Proof.
  intros Hw. unfold postWithRetry. destruct Hadm as (_ & -> & _).
  destruct (Z.to_nat (Z.max 1 (MaxAttempts (svc_retry s)))) as [|fuel] eqn:E; [lia |].
  cbn [retry_loop bind call wp]. intros e He. destruct (attempt_outcome e w He Hw) as [Ha Hr].
  destruct (handle e w _).2 as [t|err]; [by split |].
  destruct (retryableCode err) as [code b] eqn:Hb. pose proof (Hr err eq_refl) as Hb'.
  rewrite Hb in Hb'. cbn in Hb'. subst b. by split.
Qed.

(** [postClaimed], whatever Redis is: [C id b r] says what caching the transfer
    [id] leaves and answers, [L r] what releasing the claim leaves. *)
Lemma wp_postClaimed w degraded (C : UUID -> bool -> R -> Prop) (L : R -> Prop) :
  w_db w = db0 ->
  (forall id w1, w_redis w1 = w_redis w ->
     wp (good db0) (cacheCompletion s key f id) (fun w' b => w_db w' = w_db w1 /\ C id b (w_redis w')) w1) ->
  (forall w1, w_redis w1 = w_redis w ->
     wp (good db0) (releaseClaim s key) (fun w' _ => w_db w' = w_db w1 /\ L (w_redis w')) w1) ->
  (forall id b r, C id b r -> (if negb b && Available (svc_idem s) then true else degraded) = degraded) ->
  wp (good db0) (postClaimed s key f cmd degraded) (fun w' '(res, err) =>
    answered degraded key cmd db0 (w_db w') (decide_post key cmd db0) res err
    /\ match decide_post key cmd db0 with
       | Posted | Replay _ => exists b, C (ID (res_Transfer res)) b (w_redis w')
       | Conflict | InProgress => w_redis w' = w_redis w
       | Refused _ | OutOfRange => L (w_redis w')
       end) w.
Proof.
  intros Hw Hcache Hrel Hflag. unfold postClaimed. cbv zeta. fold stamp.
  eapply wp_seq; [by apply wp_post |]. intros w1 [r a] [[Hr1 Hdb1] Ha]. cbn [fst snd] in Hdb1, Ha. subst a.
  unfold decide_post. destruct (expected_refusal cmd db0) as [se|].
  { destruct Hdb1 as (Hdb1 & e & -> & He). unfold isDuplicateIdempotencyKey. rewrite (proj1 He).
    eapply wp_seq; [by apply Hrel |]. intros w2 _ [Hdb2 HL]. cbn [wp answered].
    split; [|done]. split_and!; [congruence | done | by eauto]. }
  destruct (select_by_key key db0) as [row|] eqn:Hsel.
  { destruct Hdb1 as (Hdb1 & e & -> & ->). eapply wp_seq; [by apply wp_recover |].
    intros w2 r2 [-> ->]. rewrite Hsel. unfold settled_row. destruct (row_for cmd row); [|done].
    cbn [res_Transfer res_Replayed res_RecoveredFromDatabase].
    eapply wp_seq; [by apply Hcache |]. intros w3 b [Hdb3 HC]. cbn [wp answered res_Attempts res_Transfer].
    split; [|by exists b]. split_and!; [done | congruence | done]. }
  destruct (from_option in_int64 true (credited_balance cmd db0)).
  - destruct Hdb1 as (t & -> & Hp). eapply wp_seq; [by apply Hcache |]. intros w2 b [Hdb2 HC].
    cbn [wp]. rewrite (Hflag _ _ _ HC). cbn [answered res_Transfer].
    split; [|by exists b]. by rewrite Hdb2.
  - destruct Hdb1 as (Hdb1 & e & -> & He). unfold isDuplicateIdempotencyKey. rewrite He.
    rewrite (bool_decide_eq_false_2 (Code numeric_value_out_of_range = sqlStateUniqueViolation)) by done.
    cbn [andb]. eapply wp_seq; [by apply Hrel |]. intros w2 _ [Hdb2 HL]. cbn [wp answered].
    split; [|done]. split_and!; [congruence | done | by eauto].
Qed.

(** The record a request leaves under its key in Redis, having met [rec_]. *)
Definition leaves_record (rec_ : option Record_) (v : verdict) (res : Result) (r' : option Record_)
    : Prop :=
  match v with
  | Posted => exists t1 t2, r' = Some (completion_record f (uuid_String (ID (res_Transfer res))) t1 t2)
  | Replay t =>
      match rec_ with
      | Some _ => r' = rec_
      | None => exists t1 t2, r' = Some (completion_record f (uuid_String (ID t)) t1 t2)
      end
  | Conflict => match rec_ with Some _ => r' = rec_ | None => exists t1, r' = Some (claim_record f t1) end
  | InProgress => r' = rec_
  | Refused _ | OutOfRange => r' = None
  end.

Context {RL : RedisLaws R}.

(** [postClaimed] over a Redis that answers and stands for [m]. *)
Lemma wp_postClaimed_redis w st m :
  svc_idem s = Some st -> st_client st = true -> w_db w = db0 -> stands (w_redis w) m ->
  wp (good db0) (postClaimed s key f cmd false) (fun w' '(res, err) =>
    answered false key cmd db0 (w_db w') (decide_post key cmd db0) res err
    /\ exists r', stands (w_redis w') (put m key r')
       /\ match decide_post key cmd db0 with
          | Posted | Replay _ =>
              exists t1 t2, r' = Some (completion_record f (uuid_String (ID (res_Transfer res))) t1 t2)
          | Conflict | InProgress => r' = m key
          | Refused _ | OutOfRange => r' = None
          end) w.
Proof.
  intros Hs Hc Hw Hm.
  eapply wp_mono; [|apply (wp_postClaimed w false
    (fun id b r => b = true /\ exists t1 t2, stands r (put m key (Some (completion_record f (uuid_String id) t1 t2))))
    (fun r => stands r (put m key None))); [done | | |]].
  - intros w' [res err] [Ha Hr]. split; [exact Ha |].
    destruct (decide_post key cmd db0);
      repeat match goal with H : exists _, _ |- _ => destruct H | H : _ /\ _ |- _ => destruct H end.
    + eexists. split; [by eauto | by eauto].
    + eexists. split; [by eauto | by eauto].
    + exists (m key). split; [|done]. rewrite Hr. destruct Hm as [H1 H2]. split; [done |].
      intros k. by rewrite put_same.
    + exists (m key). split; [|done]. rewrite Hr. destruct Hm as [H1 H2]. split; [done |].
      intros k. by rewrite put_same.
    + by exists None.
    + by exists None.
  - intros id w1 Hr1. rewrite <- Hr1 in Hm.
    eapply wp_mono; [|by apply (wp_cache (good db0) s st key f id w1 m)]. by intros w' b (-> & Hdb & H).
  - intros w1 Hr1. rewrite <- Hr1 in Hm. by apply (wp_release (good db0) s st key w1 m).
  - by intros id b r [-> _].
Qed.

(** A request over a Redis that answers and stands for [m]. *)
Lemma wp_PostIdempotent w st m :
  svc_idem s = Some st -> st_client st = true -> w_db w = db0 -> stands (w_redis w) m ->
  wp (good db0) (PostIdempotent s key cmd) (fun w' '(res, err) =>
    answered false key cmd db0 (w_db w') (decide_request (m key) key cmd db0) res err
    /\ exists r', stands (w_redis w') (put m key r')
       /\ leaves_record (m key) (decide_request (m key) key cmd db0) res r') w.
Proof.
  intros Hs Hc Hw Hm. unfold PostIdempotent. destruct (id Hadm) as (-> & -> & _). fold f.
  rewrite Hs. cbn [Available]. rewrite Hc. cbn [negb].
  eapply wp_seq; [by apply (wp_acquire (good db0) st key f w m) |]. intros w1 r [Hdb1 Hr].
  assert (Hsame : forall w2, stands (w_redis w2) m -> stands (w_redis w2) (put m key (m key))).
  { intros w2 [H1 H2]. split; [done |]. intros k. by rewrite put_same. }
  destruct (m key) as [rec_|] eqn:Hmk.
  - destruct Hr as [-> Hm1]. cbn [Acquired negb Existing]. unfold resolveExisting, decide_request. fold f.
    destruct (Matches rec_ f); cbn [negb].
    2: { cbn [wp answered]. split; [by rewrite Hdb1 |]. exists (Some rec_). by split; [apply Hsame |]. }
    eapply wp_seq; [apply wp_recover; congruence |]. intros w2 r2 [-> ->].
    destruct (select_by_key key db0) as [row|] eqn:Hsel.
    { unfold settled_row. destruct (row_for cmd row); cbn [wp answered]; (split; [by rewrite ?Hdb1 |]);
        exists (Some rec_); (split; [by apply Hsame | done]). }
    case_bool_decide.
    2: { cbn [wp answered]. split; [by rewrite Hdb1 |]. exists (Some rec_). by split; [apply Hsame |]. }
    eapply wp_mono; [|apply (wp_postClaimed_redis w1 st m); [done | done | congruence | done]].
    intros w2 [res err] [Ha (r' & Hst & Hr')]. split; [done |]. exists r'. split; [done |].
    revert Hr'. unfold decide_post. rewrite Hsel.
    by destruct (expected_refusal cmd db0), (from_option in_int64 true (credited_balance cmd db0)).
  - destruct Hr as [-> [t Hm1]]. cbn [Acquired negb].
    eapply wp_mono; [|apply (wp_postClaimed_redis w1 st (put m key (Some (claim_record f t)))); [done | done | congruence | exact Hm1]].
    intros w2 [res err] [Ha (r' & [Hread Hview] & Hr')]. split; [done |]. exists r'. split.
    { split; [done |]. intros k. by rewrite Hview, put_put. }
    cbn [decide_request]. cbn [decide_request] in Ha.
    destruct (decide_post key cmd db0) eqn:Hd; cbn [leaves_record answered] in *; try done.
    + destruct Ha as (_ & _ & Ha). by rewrite Ha in Hr'.
    + exists t. rewrite Hr'. unfold put. by rewrite bool_decide_eq_true_2.
    + revert Hd. unfold decide_post, settled_row. repeat case_match; done.
Qed.

(** A request that finds no Redis: there is none, or the claim fails. *)
Lemma wp_PostIdempotent_degraded w :
  w_db w = db0 ->
  (Available (svc_idem s) = false
   \/ forall r k v ttl, exists r' e, SetNX r k v ttl = (r', Err e)) ->
  wp (good db0) (PostIdempotent s key cmd) (fun w' '(res, err) =>
    answered true key cmd db0 (w_db w') (decide_post key cmd db0) res err) w.
Proof.
  intros Hw Hdown.
  assert (Hpost : forall w1, w_db w1 = db0 -> wp (good db0) (postClaimed s key f cmd true)
    (fun w' '(res, err) => answered true key cmd db0 (w_db w') (decide_post key cmd db0) res err) w1).
  { intros w1 Hw1. eapply wp_mono; [|apply (wp_postClaimed w1 true (fun _ _ _ => True) (fun _ => True)); [done | | |]].
    - by intros w' [res err] [Ha _].
    - intros id w2 _. unfold cacheCompletion, Complete. destruct (svc_idem s) as [st|]; [|done].
      cbn [Available]. destruct (st_client st); cbn [negb]; [|done]. cbn [wp bind call]. intros e1 _ e2 _ e3 _.
      cbn [handle fst snd]. unfold on_redis. by destruct (Set_ _ _ _ _) as [r' []].
    - intros w2 _. unfold releaseClaim, Release, Available. destruct (svc_idem s) as [st|]; [|done].
      destruct (st_client st); cbn [negb]; [|done]. cbn [wp bind call]. intros e1 _. cbn [handle]. unfold on_redis. by destruct (Del _ _) as [r' []].
    - intros. by destruct (_ && _). }
  unfold PostIdempotent. destruct (id Hadm) as (-> & -> & _). fold f.
  destruct (Available (svc_idem s)) eqn:Ha; cbn [negb]; [|by apply Hpost].
  destruct Hdown as [|Hnx]; [done |]. destruct (svc_idem s) as [st|] eqn:Hs; [|done].
  cbn [Available] in Ha. unfold Acquire. rewrite Ha. cbn [wp bind call acquire_loop]. intros e _ e1 _.
  cbn [handle fst snd]. unfold on_redis.
  match goal with |- context [SetNX ?r ?k ?v ?t] => destruct (Hnx r k v t) as (r' & err & ->) end.
  cbn [fst snd bind unavailable errors_Is orb]. rewrite bool_decide_eq_true_2 by done. cbn [orb].
  by apply Hpost.
Qed.
End steps.

(** ** Every request is answered as decided *)

Section claims.
Context {UL : UuidLib} {RCo : RecordCodec} {R : Type} {RC : UniversalClient R}.
Implicit Types (s : Service) (w : World R) (base : gmap UUID Z).

Lemma run_decided {RL : RedisLaws R} base s st key cmd es w :
  service_inv base (w_db w) -> svc_idem s = Some st -> st_client st = true -> readable (w_redis w) ->
  admitted key cmd -> (forall n, good (w_db w) (es n)) ->
  let v := decide_request (view (w_redis w) key) key cmd (w_db w) in
  exists w' res err,
    run (PostIdempotent s key cmd) es w = (w', Some (res, err))
    /\ answered false key cmd (w_db w) (w_db w') v res err
    /\ readable (w_redis w')
    /\ (forall k, k <> key -> view (w_redis w') k = view (w_redis w) k)
    /\ leaves_record cmd (view (w_redis w) key) v res (view (w_redis w') key).
Proof.
  intros Hinv Hs Hc Hr Hadm Hes v.
  pose proof (wp_PostIdempotent base s key cmd (w_db w) Hinv Hadm w st _ Hs Hc eq_refl (stands_view _ Hr)) as H.
  destruct (wp_run _ _ _ es w Hes H) as (w' & [res err] & Hrun & Ha & r' & [Hread Hview] & Hl).
  exists w', res, err. split_and!; [exact Hrun | exact Ha | exact Hread | |].
  - intros k Hk. rewrite Hview. unfold put. by rewrite bool_decide_eq_false_2.
  - rewrite Hview. unfold put. by rewrite bool_decide_eq_true_2.
Qed.

(** C11. What a request with an idempotency key is answered, exactly. On books in
    order, over a Redis that answers and with nothing failing, for every
    combination of what Redis and PostgreSQL hold for the key: a record of a
    different payment is a conflict; a payment on record under the key is replayed
    from PostgreSQL; one that is still being processed is reported as in progress;
    everything else goes to PostgreSQL, where a business rule refuses it, the
    payment on record answers it or conflicts with it, a balance beyond 64 bits
    refuses it, or it is posted, once and in one attempt. Only a posting changes
    the database, no other key is touched in Redis, and the record left there is
    the completed one after a posting or a recovery and none after a refusal. *)
Theorem PostIdempotent_exact {RL : RedisLaws R} base s st key cmd es w :
  service_inv base (w_db w) -> svc_idem s = Some st -> st_client st = true -> readable (w_redis w) ->
  admitted key cmd -> (forall n, good (w_db w) (es n)) ->
  let v := decide_request (view (w_redis w) key) key cmd (w_db w) in
  exists w' res err,
    run (PostIdempotent s key cmd) es w = (w', Some (res, err))
    /\ answered false key cmd (w_db w) (w_db w') v res err
    /\ (forall k, k <> key -> view (w_redis w') k = view (w_redis w) k)
    /\ leaves_record cmd (view (w_redis w) key) v res (view (w_redis w') key).
Proof.
  intros Hinv Hs Hc Hr Hadm Hes v.
  destruct (run_decided base s st key cmd es w) as (w' & res & err & H1 & H2 & _ & H3); [done.. |].
  by exists w', res, err.
Qed.

(** C13. Without Redis a valid request is still answered, from PostgreSQL alone:
    when there is no store, or every claim fails, and PostgreSQL does not fail, the
    answer is the one that the business rules, the payment on record under the key
    and the range of the balance decide, and it is posted at most once. A payment
    that is posted, replayed or refused is answered with a result that says that
    coordination was degraded; a conflict is answered with an empty result. *)
Theorem degraded_exact base s key cmd es w :
  service_inv base (w_db w) -> admitted key cmd -> (forall n, good (w_db w) (es n)) ->
  (Available (svc_idem s) = false
   \/ forall (r : R) k v ttl, exists r' e, SetNX r k v ttl = (r', Err e)) ->
  exists w' res err,
    run (PostIdempotent s key cmd) es w = (w', Some (res, err))
    /\ answered true key cmd (w_db w) (w_db w') (decide_post key cmd (w_db w)) res err.
Proof.
  intros Hinv Hadm Hes Hdown.
  pose proof (wp_PostIdempotent_degraded base s key cmd (w_db w) Hinv Hadm w eq_refl Hdown) as H.
  destruct (wp_run _ _ _ es w Hes H) as (w' & [res err] & Hrun & Ha). by exists w', res, err.
Qed.

(** ** A payment whose record in Redis is gone *)

(** C39. A payment that was made can be reported as refused: when the record in
    Redis is gone, a retry of a payment on record is put to the business rules
    again before its key is looked at, so once the source holds less than the
    amount (it may have paid everything it had) the retry is told that the
    payment failed for insufficient funds, though the transfer is on record. *)
Theorem paid_reported_refused {RL : RedisLaws R} base s st key cmd t se es w :
  service_inv base (w_db w) -> svc_idem s = Some st -> st_client st = true -> readable (w_redis w) ->
  admitted key cmd -> (forall n, good (w_db w) (es n)) ->
  view (w_redis w) key = None -> recorded key cmd t (w_db w) -> expected_refusal cmd (w_db w) = Some se ->
  exists w' res e,
    run (PostIdempotent s key cmd) es w = (w', Some (res, Some e)) /\ is_exactly se e
    /\ recorded key cmd t (w_db w').
Proof.
  intros Hinv Hs Hc Hr Hadm Hes Hno Hrec Hse.
  destruct (run_decided base s st key cmd es w) as (w' & res & err & Hrun & Ha & _); [done.. |].
  rewrite Hno in Ha. unfold decide_request, decide_post in Ha. rewrite Hse in Ha.
  destruct Ha as (Hdb & _ & e & -> & He). exists w', res, e. by rewrite Hdb.
Qed.

Lemma Fingerprint_String_inj f g : Fingerprint_String f = Fingerprint_String g -> f = g.
Proof.
  intros E%(f_equal hex_DecodeString). unfold Fingerprint_String in E.
  rewrite !hex_decode_encode in E. by injection E.
Qed.

Lemma recorded_selected base key cmd t db :
  service_inv base db -> recorded key cmd t db ->
  exists row, select_by_key key db = Some row /\ t = transfer_of_row row
    /\ Fingerprint (row_request row) = Fingerprint (command_request cmd).
Proof.
  intros [Hinv Hst] (id & row & Hr & Hk & -> & Hf). exists row.
  split_and!; [by eapply selected_row | done |]. rewrite (Hst _ _ _ Hr Hk) in Hf.
  exact (Some_inj _ _ Hf).
Qed.

(** Another payment under the key of one on record. *)
Lemma decide_stranger key other row db :
  expected_refusal other db = None -> select_by_key key db = Some row ->
  Fingerprint (row_request row) <> Fingerprint (command_request other) ->
  decide_request None key other db = Conflict.
Proof.
  intros Hok Hsel Hne. unfold decide_request, decide_post, settled_row, row_for. rewrite Hok, Hsel.
  rewrite (bool_decide_eq_false_2 _ Hne). reflexivity.
Qed.

(** A request that meets the claim of another. *)
Lemma decide_claimed f t key cmd db :
  f <> Fingerprint (command_request cmd) -> decide_request (Some (claim_record f t)) key cmd db = Conflict.
Proof.
  unfold decide_request, Matches. generalize (Fingerprint (command_request cmd)) as g. intros g Hne.
  cbn [claim_record rec_Fingerprint].
  rewrite bool_decide_eq_false_2 by (intros E%Fingerprint_String_inj; exact (Hne E)). reflexivity.
Qed.

(** C40. A stranger's mistake locks the owner out: when the record in Redis is
    gone, a different payment under the same key is refused as a conflict, but
    its claim stays, so a retry of the payment that is on record under the key is
    refused as a conflict as well, although no other payment was ever made under
    the key. *)
Theorem conflict_blocks_owner {RL : RedisLaws R} base s st key cmd other t es es' w :
  service_inv base (w_db w) -> svc_idem s = Some st -> st_client st = true -> readable (w_redis w) ->
  admitted key cmd -> admitted key other ->
  (forall n, good (w_db w) (es n)) -> (forall n, good (w_db w) (es' n)) ->
  view (w_redis w) key = None -> recorded key cmd t (w_db w) ->
  Fingerprint (command_request other) <> Fingerprint (command_request cmd) ->
  expected_refusal other (w_db w) = None ->
  exists w1 w2,
    run (PostIdempotent s key other) es w = (w1, Some (zero_result, Some (key_conflict key)))
    /\ run (PostIdempotent s key cmd) es' w1 = (w2, Some (zero_result, Some (key_conflict key)))
    /\ recorded key cmd t (w_db w2).
Proof.
  intros Hinv Hs Hc Hr Hadm Hadm' Hes Hes' Hno Hrec Hne Hok.
  destruct (recorded_selected _ _ _ _ _ Hinv Hrec) as (row & Hsel & Ht & Hf).
  destruct (run_decided base s st key other es w) as (w1 & res & err & Hrun & Ha & Hr1 & _ & Hl); [done.. |].
  assert (Hd : decide_request None key other (w_db w) = Conflict).
  { apply (decide_stranger key other row); [exact Hok | exact Hsel |]. rewrite Hf. intros E. apply Hne.
    symmetry. exact E. }
  rewrite Hno, Hd in Ha, Hl. destruct Ha as (Hdb & -> & ->), Hl as [t1 Hview]. exists w1.
  destruct (run_decided base s st key cmd es' w1) as (w2 & res & err & Hrun2 & Ha & _); [by rewrite ?Hdb.. |].
  rewrite Hview, Hdb, (decide_claimed _ _ _ _ _ Hne) in Ha.
  destruct Ha as (Hdb2 & -> & ->). exists w2. split; [exact Hrun |]. split; [exact Hrun2 |].
  rewrite Hdb2. exact Hrec.
Qed.
End claims.

(** ** Witnesses *)

(** All that alice has. *)
Definition all_cmd : Command := mkCommand alice bob 1000 "USD".
Definition other_cmd : Command := mkCommand bob alice 1 "USD".

Definition spent_db : Db :=
  Eval vm_compute in w_db (fst (run (PostIdempotent scn_service scn_key all_cmd) scn_env scn_world)).

(** She has spent it, and Redis has forgotten. *)
Definition spent : World MemRedis := mkWorld spent_db ∅.
Definition later : nat -> Env := fun _ => scn_env 50.

Lemma spent_recorded :
  service_inv scn_base spent_db /\ exists t, recorded scn_key all_cmd t spent_db.
Proof.
  destruct (run_first scn_base scn_service scn_store scn_key all_cmd scn_env scn_world scn_stamps
              eq_refl eq_refl (lookup_empty _)) as (t & w1 & t1 & t2 & Hrun & Hrec & Hinv & _);
    [split_and!; by vm_compute | exact scn_good |].
  assert (Hw : w_db w1 = spent_db).
  { apply (f_equal (fun x => w_db (fst x))) in Hrun. cbn [fst] in Hrun. rewrite <- Hrun.
    vm_compute. reflexivity. }
  rewrite Hw in *. eauto.
Qed.

Lemma spent_good n : good spent_db (later n).
Proof. split; [by repeat split |]. split; [|done]. split; vm_compute; congruence. Qed.

Lemma spent_readable : readable (w_redis spent).
Proof.
  intros k raw H. assert (Hno : contents (w_redis spent) !! RedisKey k = None) by exact (lookup_empty _).
  congruence.
Qed.

Lemma admitted_all : admitted scn_key all_cmd.
Proof. split_and!; by vm_compute. Qed.
Lemma admitted_other : admitted scn_key other_cmd.
Proof. split_and!; by vm_compute. Qed.

(** An empty Redis and an empty ledger: the first request is decided to be
    posted. *)
Lemma PostIdempotent_exact_witness :
  exists w' res,
    run (PostIdempotent scn_service scn_key scn_cmd) scn_env scn_world = (w', Some (res, None))
    /\ posts scn_key scn_cmd scn_db (w_db w') (res_Transfer res).
Proof.
  destruct (PostIdempotent_exact scn_base scn_service scn_store scn_key scn_cmd scn_env scn_world scn_stamps
    eq_refl eq_refl spent_readable ltac:(split_and!; by vm_compute) scn_good)
    as (w' & res & err & Hrun & Ha & _).
  change (decide_request _ _ _ _) with (decide_request None scn_key scn_cmd scn_db) in Ha.
  replace (decide_request None scn_key scn_cmd scn_db) with Posted in Ha by (vm_compute; reflexivity).
  destruct Ha as (-> & Hp & _). exists w', res. split; [exact Hrun | exact Hp].
Defined.

(** With Redis down, a payment is refused that was never made. *)
Lemma degraded_exact_witness :
  exists w' res e,
    run (PostIdempotent scn_service scn_key (mkCommand alice bob 1001 "USD")) scn_env scn_world_down
      = (w', Some (res, Some e))
    /\ is_exactly ErrInsufficientFunds e /\ res_CoordinationDegraded res = true.
Proof.
  destruct (degraded_exact scn_base scn_service scn_key (mkCommand alice bob 1001 "USD") scn_env
    scn_world_down scn_stamps ltac:(split_and!; by vm_compute) scn_good) as (w' & res & err & Hrun & Ha).
  { right. intros r k v ttl. exists r, (External "dial tcp: connection refused"). reflexivity. }
  replace (decide_post _ _ _) with (Refused ErrInsufficientFunds) in Ha by (vm_compute; reflexivity).
  destruct Ha as (_ & -> & e & -> & He). do 3 eexists.
  split; [exact Hrun |]. split; [exact He | reflexivity].
Defined.

(** Alice retries the payment that emptied her account. *)
Lemma paid_reported_refused_witness :
  exists w' res e t,
    run (PostIdempotent scn_service scn_key all_cmd) later spent = (w', Some (res, Some e))
    /\ is_exactly ErrInsufficientFunds e /\ recorded scn_key all_cmd t (w_db w').
Proof.
  destruct spent_recorded as [Hinv [t Hrec]].
  destruct (paid_reported_refused scn_base scn_service scn_store scn_key all_cmd t ErrInsufficientFunds
    later spent Hinv eq_refl eq_refl spent_readable admitted_all spent_good eq_refl Hrec)
    as (w' & res & e & Hrun & He & Hr); [vm_compute; reflexivity |].
  exists w', res, e, t. split_and!; [exact Hrun | exact He | exact Hr].
Defined.

(** Bob uses the key for a payment of his own, and alice retries hers. *)
Lemma conflict_blocks_owner_witness :
  exists w1 w2,
    run (PostIdempotent scn_service scn_key other_cmd) later spent
      = (w1, Some (zero_result, Some (key_conflict scn_key)))
    /\ run (PostIdempotent scn_service scn_key all_cmd) later w1
      = (w2, Some (zero_result, Some (key_conflict scn_key))).
Proof.
  destruct spent_recorded as [Hinv [t Hrec]].
  destruct (conflict_blocks_owner scn_base scn_service scn_store scn_key all_cmd other_cmd t later later
    spent Hinv eq_refl eq_refl spent_readable admitted_all admitted_other spent_good spent_good eq_refl Hrec)
    as (w1 & w2 & H1 & H2 & _); [vm_compute; discriminate | vm_compute; reflexivity |].
  exists w1, w2. split; [exact H1 | exact H2].
Defined.
