(* ===== verification/System.v ===== *)
(** * The service under concurrent load

    Any number of requests of any kind, interleaved operation by operation,
    with faults of the database and a Redis that may do anything: what holds of
    every state they reach and of every answer they give. *)
From stdpp Require Import base gmap fin_maps strings list relations.
From Stdlib Require Import ZArith Lia Ascii.
From S2P Require Import Prelude.
From S2P Require Import GoStd.
From S2P Require Import GoTime.
From S2P Require Import Uuid.
From S2P Require Import Errors.
From S2P Require Import Money.
From S2P Require Import Schema.
From S2P Require Import Tx.
From S2P Require Import Transfer.
From S2P Require Import Posting.
From S2P Require Import LedgerInv.
From S2P Require Import Sha256.
From S2P Require Import Idempotency.
From S2P Require Import Prog.
From S2P Require Import Retry.
From S2P Require Import Store.
From S2P Require Import Account.
From S2P Require Import Ledger.
From S2P Require Import Instances.
From S2P Require Import Idempotent.
From S2P Require Import Scenario.
From S2P Require Import Concurrency.
From S2P Require Import Reconcile.
From S2P Require Import AtMostOnce.

Open Scope Z_scope.

(** ** Requests *)

Inductive request :=
  | RqPostIdempotent (key : string) (cmd : Command)
  | RqPost (cmd : Command)
  | RqCreateAccount (currency : string)
  | RqGetAccount (id : UUID)
  | RqGetTransfer (id : UUID)
  | RqGetByKey (key : string)
  | RqEntries (id : UUID)
  (* a reconciliation that takes its own baseline first *)
  | RqReconcile.

Inductive response :=
  | RsResult (a : Result * option goerr)
  | RsTransfer (a : result Transfer)
  | RsAccount (a : result Account)
  | RsEntries (a : result (list Entry))
  | RsReport (a : result Report).

Definition reply {A} (f : A -> response) (p : prog A) : prog response :=
  bind p (fun a => Ret (f a)).

(** A snapshot of the baseline, then a pass against it. *)
Definition snapshot_and_check : prog (result Report) :=
  (b <- SnapshotBaseline ;;
   match b with
   | Err err => Ret (Err err)
   | Ok baseline => Check baseline
   end)%prog.

Section system.
Context {UL : UuidLib} {RCo : RecordCodec}.
Variable s : Service.

Definition serve (r : request) : prog response :=
  match r with
  | RqPostIdempotent key cmd => reply RsResult (PostIdempotent s key cmd)
  | RqPost cmd => reply RsTransfer (Post (svc_retry s) cmd)
  | RqCreateAccount c => reply RsAccount (Create c)
  | RqGetAccount id => reply RsAccount (Account_Get id)
  | RqGetTransfer id => reply RsTransfer (Service_Get id)
  | RqGetByKey key => reply RsTransfer (GetByIdempotencyKey key)
  | RqEntries id => reply RsEntries (EntriesForTransfer id)
  | RqReconcile => reply RsReport snapshot_and_check
  end.

(** What an answer promises of the database, from then on. *)
Definition promise (r : request) (a : response) (db : Db) : Prop :=
  match r, a with
  | RqPostIdempotent key cmd, RsResult a => answers key cmd a db
  | RqReconcile, RsReport (Ok report) => Report_OK report = true
  | RqEntries id, RsEntries (Ok es) =>
      (es = [] \/ exists e1 e2, es = [e1; e2] /\ IsDebit e1 = true /\ IsCredit e2 = true)
      /\ SumMinor es = 0
  | _, _ => True
  end.

Lemma promise_upward r : upward (promise r).
Proof. intros a db db'. destruct r, a; simpl; try done. apply answers_upward. Qed.

Section invariant.
Variable base : gmap UUID Z.
Abbreviation safe_ Q p db := (safe (service_inv base) service_op Q p db).

Lemma safe_reply {A} (f : A -> response) (p : prog A) Q db :
  safe_ (fun a db => Q (f a) db) p db -> safe_ Q (reply f p) db.
Proof. intros H. apply (safe_bind _ _ Q p (fun a => Ret (f a))). exact H. Qed.

(** The state in which a query of a pass ran explains every balance. *)
Lemma report_from_OK b d1 d2 d3 d4 :
  (forall id, base_of b id = base_of base id) ->
  service_inv base d1 -> service_inv base d2 -> service_inv base d3 -> service_inv base d4 ->
  Report_OK (report_from b d1 d2 d3 d4) = true.
Proof.
  intros Hb [H1 _] [H2 _] [H3 _] [H4 _].
  assert (Hsane : transfers_sane d3).
  { intros id t Ht. destruct (inv_transfers _ _ H3 _ _ Ht). split; [lia | done]. }
  unfold Report_OK, report_from. simpl.
  rewrite (proj2 (select_negative_nil d2)), (proj2 (mismatches_in_nil b d4)),
    (proj2 (select_unbalanced_nil d3 Hsane)).
  - simpl. apply Z.eqb_eq, (total_ledger_zero _ _ H1).
  - intros id t Ht _. apply (inv_transfers _ _ H3 _ _ Ht).
  - intros id r Hr. rewrite Hb, <- (inv_books _ _ H4 _ _ Hr), wrap64_id; [done |].
    destruct (inv_accounts _ _ H4 _ _ Hr) as [_ Hrange].
    int64.
  - intros id r Hr. apply (inv_accounts _ _ H2 _ _ Hr).
Qed.

Lemma snapshot_and_check_safe db :
  safe_ (fun r _ => forall report, r = Ok report -> Report_OK report = true)
    snapshot_and_check db.
Proof.
  apply safe_bind. eapply safe_mono; [|by apply SnapshotBaseline_safe].
  intros [b|e] db1 Hb; [|done]. destruct (Hb b eq_refl) as (d & [Hd _] & Hsnap).
  eapply safe_mono; [|by apply Check_snapshots].
  intros r db2 Hr report ->. destruct (Hr _ eq_refl) as (d1 & d2 & d3 & d4 & H1 & H2 & H3 & H4 & ->).
  apply report_from_OK; [|done..]. by eapply snapshot_base.
Qed.

(** The entries of a transfer, whenever they are read. *)
Lemma select_entries_shape d id :
  db_inv base d ->
  (select_entries id d = []
   \/ exists e1 e2, select_entries id d = [e1; e2]
        /\ - int64_max <= e_amount_minor e1 < 0 /\ e_amount_minor e2 = - e_amount_minor e1).
Proof.
  intros Hinv. destruct (transfers d !! id) as [t|] eqn:Ht.
  - right. destruct (select_entries_posted _ _ _ _ Hinv Ht) as (e1 & e2 & L1 & L2 & ->).
    destruct (tok_range _ _ (inv_transfers _ _ Hinv _ _ Ht)).
    destruct L1 as (_ & _ & A1 & _), L2 as (_ & _ & A2 & _).
    exists e1, e2. split; [done |]. lia.
  - left. by eapply select_entries_none.
Qed.

Lemma EntriesForTransfer_safe id db :
  safe_ (fun a db => promise (RqEntries id) (RsEntries a) db) (EntriesForTransfer id) db.
Proof.
  eapply safe_mono; [|apply safe_query with (P := fun es => promise (RqEntries id) (RsEntries (Ok es)) db)].
  - intros [es|e] db' H; [by apply H | done].
  - done.
  - intros d db' [Hd _]. apply safe_CollectRows; [done | done | |by intros e db'' a].
    intros es db'' Hes a [= <-]. rewrite scan_rows_total in Hes. injection Hes as <-.
    destruct (select_entries_shape d id Hd) as [-> |(e1 & e2 & -> & Hr & He)]; [by split; [left |] |].
    simpl. split.
    + right. exists (entry_of_row e1), (entry_of_row e2). split; [done |].
      unfold IsDebit, IsCredit. simpl. rewrite !Z.ltb_lt. lia.
    + unfold SumMinor. simpl. rewrite He, wrap64_id, wrap64_id; [lia | |];
        rewrite ?wrap64_id; int64.
  - by intros e db' a.
Qed.

Lemma serve_safe r db : safe_ (promise r) (serve r) db.
Proof.
  assert (Hany : forall (A : Type) (f : A -> response) (p : prog A),
    (forall a db', promise r (f a) db') -> all_ops service_op p -> safe_ (promise r) (reply f p) db).
  { intros A f p Hp Hops. apply safe_frame; [apply service_stable | done |].
    intros a db' _. apply Hp. }
  destruct r; cbn [serve].
  - apply safe_reply, PostIdempotent_safe.
  - apply Hany; [done |]. apply all_ops_bind; [|by intros []].
    by apply postWithRetry_ops; [apply service_op_quiet |].
  - apply Hany; [done |]. unfold Create. destruct (Currency_Validate _); [done |].
    split; [done |]. by intros [].
  - apply Hany; [done |]. split; [done |]. intros x. cbn [bind]. by repeat case_match.
  - apply Hany; [done |]. split; [done |]. intros x. cbn [bind]. by repeat case_match.
  - apply Hany; [done |]. split; [done |]. intros x. cbn [bind]. by repeat case_match.
  - apply safe_reply, EntriesForTransfer_safe.
  - apply safe_reply. eapply safe_mono; [|apply snapshot_and_check_safe].
    intros [report|e] db' H; [by apply H | done].
Qed.
End invariant.

(** ** Reachable states *)

Section reach.
Context {R : Type} {RC : UniversalClient R}.
Variables (reqs : list request) (w w' : World R) (ps : list (prog response)).
Hypothesis Hsteps : steps (w, serve <$> reqs) (w', ps).

(** From a state that satisfies a stable invariant, whatever is reached
    satisfies it, nothing is lost, and answers keep their promises. *)
Lemma reach base (I : Db -> Prop) :
  (forall db, I db -> service_inv base db) -> stable I service_op -> I (w_db w) ->
  I (w_db w') /\ db_le (w_db w) (w_db w')
  /\ forall i a r, ps !! i = Some (Ret a) -> reqs !! i = Some r -> promise r a (w_db w').
Proof.
  intros HI Hst Hw.
  set (Q := fun i a db => forall r, reqs !! i = Some r -> promise r a db).
  destruct (system_sound I service_op Q) with (3 := Hsteps) as [[HI' Hsafe] Hle]; [| done | |].
  - intros i a db db' Hle Ha r Hr. eapply promise_upward; [done | by apply Ha].
  - split; [done |]. intros i p. simpl. rewrite list_lookup_fmap.
    intros (r & Hr & ->)%fmap_Some. apply (safe_weaken (service_inv base)); [done |].
    eapply safe_mono; [|apply serve_safe]. intros a db Ha r' Hr'. congruence.
  - split_and!; [done | done |]. intros i a r Ha Hr. exact (Hsafe _ _ Ha _ Hr).
Qed.

(** The same for an invariant that only the operations of these requests keep. *)
Lemma reach_inv (I : Db -> Prop) (okay : forall B, op B -> Prop) :
  (forall r, r ∈ reqs -> all_ops okay (serve r)) -> stable I okay -> I (w_db w) -> I (w_db w').
Proof.
  intros Hops Hst Hw.
  destruct (system_sound I okay (fun _ (_ : response) _ => True)) with (3 := Hsteps) as [[? _] _]; [done | done | | done].
  split; [done |]. intros i p. simpl. rewrite list_lookup_fmap.
  intros (r & Hr & ->)%fmap_Some. eapply safe_mono; [|apply all_ops_safe; [done |]]; [done |].
  apply Hops. by eapply list_elem_of_lookup_2.
Qed.
End reach.

(** ** The history of the database *)

(** What can change the database: an account is opened, a payment is posted. *)
Inductive change :=
  | Opened (currency : string)
  | Applied (cmd : Command) (stamp : option idempotencyStamp).

Definition changes (c : change) (db db' : Db) : Prop :=
  match c with
  | Opened currency => exists id now,
      let row := mkAccount id currency 0 now now in
      accounts db !! id = None
      /\ db' = mkDb (<[id := row]> (accounts db)) (transfers db) (ledger_entries db)
  | Applied cmd stamp => exists tid e1 e2 now src dst,
      can_post cmd stamp tid e1 e2 src dst db
      /\ db' = apply_posting cmd stamp tid e1 e2 now src dst db
  end.

(** [history db0 l db]: the changes [l], the oldest first, made [db] of [db0]. *)
Inductive history (db0 : Db) : list change -> Db -> Prop :=
  | history_nil : history db0 [] db0
  | history_snoc l c db db' : history db0 l db -> changes c db db' -> history db0 (l ++ [c]) db'.

(** The stamp a request puts on the payment it posts. *)
Definition stamp_of (key : string) (cmd : Command) : idempotencyStamp :=
  mkStamp key (Fingerprint_Bytes (Fingerprint (command_request cmd))).

(** A change that one of the requests asked for, under the key it named. *)
Definition asked (reqs : list request) (c : change) : Prop :=
  match c with
  | Opened currency => RqCreateAccount currency ∈ reqs
  | Applied cmd None => RqPost cmd ∈ reqs
  | Applied cmd (Some st) => exists key, st = stamp_of key cmd /\ RqPostIdempotent key cmd ∈ reqs
  end.

(** The payments posted under a key. *)
Definition carries (key : string) (c : change) : bool :=
  match c with
  | Applied _ (Some st) => bool_decide (stamp_key st = key)
  | _ => false
  end.
Definition under (key : string) (l : list change) : list change := List.filter (carries key) l.

Lemma under_app key l l' : under key (l ++ l') = (under key l ++ under key l')%list.
Proof. apply List.filter_app. Qed.

Section one_key.
Variables (base : gmap UUID Z) (reqs : list request) (db0 : Db).

Definition asked_op B (o : op B) : Prop :=
  match o with
  | OpPostOnce c st => asked reqs (Applied c st)
  | OpCreateAccount c => asked reqs (Opened c)
  | _ => True
  end.

(** Each key was posted under at most once, and not at all if it was taken. *)
Definition once (l : list change) (db : Db) : Prop :=
  forall key, (length (under key l) <= 1)%nat
    /\ (select_by_key key db0 <> None -> under key l = [])
    /\ (under key l <> [] \/ select_by_key key db0 <> None -> select_by_key key db <> None).

Definition traced (db : Db) : Prop :=
  exists l, history db0 l db /\ Forall (asked reqs) l /\ once l db.

Lemma asked_service B (o : op B) : asked_op B o -> service_op B o.
Proof.
  destruct o as [cmd [st|]| | | | | | | | | |]; try done. simpl. intros (key & -> & _). done.
Qed.

(** A posting needs its key to be free, and takes it. *)
Lemma posting_takes cmd stamp tid e1 e2 now src dst db key :
  can_post cmd stamp tid e1 e2 src dst db ->
  (carries key (Applied cmd stamp) = true -> select_by_key key db = None)
  /\ (carries key (Applied cmd stamp) = true \/ select_by_key key db <> None ->
      select_by_key key (apply_posting cmd stamp tid e1 e2 now src dst db) <> None).
Proof.
  intros Hc. split.
  - destruct stamp as [st|]; [|done]. intros <-%bool_decide_eq_true.
    apply cp_key_free in Hc. simpl in Hc. by apply bool_decide_eq_true in Hc.
  - intros Hk Hnone. pose proof (proj1 (select_by_key_None _ _) Hnone) as Hfree. destruct Hk as [Hk|Hk].
    + destruct stamp as [st|]; [|done]. apply bool_decide_eq_true in Hk as <-.
      apply (Hfree tid (completed_row cmd (Some st) tid now)); [|done]. simpl. apply lookup_insert_eq.
    + destruct (select_by_key key db) as [row|] eqn:Hsel; [|done].
      apply select_by_key_Some in Hsel as (id & Hr & Hkey). apply (Hfree id row); [|done]. simpl.
      rewrite lookup_insert_ne; [done |]. intros ->. pose proof (cp_transfer_fresh _ _ _ _ _ _ _ _ Hc). congruence.
Qed.

Lemma once_posting l cmd stamp tid e1 e2 now src dst db :
  once l db -> can_post cmd stamp tid e1 e2 src dst db ->
  once (l ++ [Applied cmd stamp]) (apply_posting cmd stamp tid e1 e2 now src dst db).
Proof.
  intros Ho Hc key. destruct (Ho key) as (Hle & Htaken & Hdb).
  destruct (posting_takes cmd stamp tid e1 e2 now src dst db key Hc) as [Hfree Hnow].
  rewrite under_app, length_app. unfold under at 2 4 6. cbn [List.filter].
  destruct (carries key (Applied cmd stamp)); cbn [length]; rewrite ?app_nil_r.
  - specialize (Hfree eq_refl). assert (Hn : under key l = []).
    { destruct (under key l) eqn:E; [done |]. destruct Hdb; [by left | done]. }
    rewrite Hn. split_and!; [simpl; lia | |].
    + intros Ht. destruct Hdb; [by right | done].
    + intros _. apply Hnow. by left.
  - split_and!; [lia | done |]. intros H%Hdb. apply Hnow. by right.
Qed.

Lemma traced_stable : stable (fun db => service_inv base db /\ traced db) asked_op.
Proof.
  intros B o db db' b [Hinv (l & Hh & Ha & Ho)] Hok He.
  destruct (service_stable base B o db db' b Hinv (asked_service _ _ Hok) He) as [Hinv' Hle].
  split; [|done]. split; [done |].
  assert (Hsame : db' = db -> traced db') by (intros ->; by exists l).
  destruct o as [cmd stamp|c| | | | | | | | |]; simpl in He; try (by apply Hsame);
    try (by apply Hsame; destruct He).
  - destruct He as [env He]. apply postOnce_cases in He as [[-> _]|(src & dst & Hc & -> & _)];
      [by apply Hsame | | apply Hinv].
    exists (l ++ [Applied cmd stamp])%list. split_and!.
    + econstructor; [exact Hh |]. by do 6 eexists.
    + apply Forall_app. split; [done | by constructor].
    + by apply once_posting.
  - destruct He as [env He].
    apply createAccount_cases in He as [[-> _]|(row & -> & Hf & Hc & -> & _)]; [by apply Hsame |].
    exists (l ++ [Opened c])%list. split_and!.
    + econstructor; [exact Hh |]. by exists (tx_uuid env 0), (tx_now env).
    + apply Forall_app. split; [done | by constructor].
    + intros key. rewrite under_app, app_nil_r. apply Ho.
Qed.

Lemma traced_start : traced db0.
Proof.
  exists []. split_and!; [constructor | constructor |]. intros key. split_and!; [simpl; lia | done |].
  by intros [|].
Qed.
End one_key.

(** *** The operations of a request *)

Section request_ops.
Variable okay : forall B, op B -> Prop.
Hypothesis Hquiet : forall B (o : op B), quiet o -> okay B o.

Lemma CollectRows_ops {A B} (rows : list A) (scan : A -> result B) :
  all_ops okay (CollectRows rows scan).
Proof.
  split; [by apply Hquiet |]. intros [x|e]; simpl; [by destruct (scan_rows _ _) |].
  split; [by apply Hquiet |]. intros n. by destruct (scan_rows _ _).
Qed.

(** A query whose rows are collected. *)
Lemma collected_ops {A B C} (q : Db -> list A) (scan : A -> result B) e1 e2 (k : list B -> C) :
  all_ops okay
    (bind (call (OpQuery q)) (fun rows => match rows with
       | Err err => Ret (Err (e1 err))
       | Ok rows => bind (CollectRows rows scan) (fun found => match found with
           | Err err => Ret (Err (e2 err))
           | Ok found => Ret (Ok (k found))
           end)
       end)).
Proof.
  split; [by apply Hquiet |]. intros [rows|e]; cbn [bind]; [|done].
  apply all_ops_bind; [apply CollectRows_ops |]. by intros [].
Qed.

Lemma and_then_ops p f :
  all_ops okay p -> (forall r, all_ops okay (f r)) -> all_ops okay (and_then p f).
Proof. intros Hp Hf. apply all_ops_bind; [done |]. by intros []. Qed.

Lemma snapshot_and_check_ops : all_ops okay snapshot_and_check.
Proof.
  apply all_ops_bind.
  - split; [by apply Hquiet |]. intros [rows|e]; cbn [bind]; [|done].
    apply all_ops_bind.
    + split; [by apply Hquiet |]. intros [x|e]; [done |]. by split; [apply Hquiet |].
    + intros [arrived [e|]]; by destruct (scan_baseline arrived ∅).
  - intros [baseline|e]; [|done].
    apply and_then_ops; [split; [by apply Hquiet |]; intros r; cbn [bind]; by repeat case_match |]. intros r1.
    apply and_then_ops; [apply collected_ops |]. intros r2.
    apply and_then_ops; [apply collected_ops |]. intros r3. apply collected_ops.
Qed.

(** A request performs the changes it asks for and what changes nothing. *)
Lemma serve_ops r :
  match r with
  | RqPostIdempotent key cmd => okay _ (OpPostOnce cmd (Some (stamp_of key cmd)))
  | RqPost cmd => okay _ (OpPostOnce cmd None)
  | RqCreateAccount c => okay _ (OpCreateAccount c)
  | _ => True
  end -> all_ops okay (serve r).
Proof.
  assert (Hq : forall X (q : Db -> X) B (k : result X -> prog B),
    (forall x, all_ops okay (k x)) -> all_ops okay (bind (call (OpQuery q)) k)).
  { intros X q B k Hk. split; [by apply Hquiet | exact Hk]. }
  destruct r; intros Hr; (apply all_ops_bind; [|done]).
  - by apply PostIdempotent_ops.
  - apply all_ops_bind; [by apply postWithRetry_ops | by intros []].
  - unfold Create. destruct (Currency_Validate _); [done |]. split; [done |]. by intros [].
  - apply Hq. intros x. by repeat case_match.
  - apply Hq. intros x. by repeat case_match.
  - apply Hq. intros x. by repeat case_match.
  - apply collected_ops.
  - apply snapshot_and_check_ops.
Qed.
End request_ops.

Lemma asked_ops reqs r : r ∈ reqs -> all_ops (asked_op reqs) (serve r).
Proof.
  intros Hr. apply serve_ops; [by intros B [] |]. destruct r; simpl; try done. by exists key.
Qed.
End system.

(** The small concrete world is in order. *)
Lemma scn_service_inv : service_inv scn_base scn_db.
Proof. split; [apply scn_inv |]. intros id t k. simpl. by rewrite lookup_empty. Qed.
