(* ===== verification/StressSpec.v ===== *)
(** * What the stress command shows

    Its goroutines always finish; the workload it builds is one the ledger
    accepts; and its verdict is right: it counts every attempt once and reports
    no violation of a ledger that has none. *)
From stdpp Require Import base gmap fin_maps strings list relations.
From Stdlib Require Import ZArith Lia Ascii.
From S2P Require Import Prelude.
From S2P Require Import GoStd.
From S2P Require Import GoTime.
From S2P Require Import Uuid.
From S2P Require Import Errors.
From S2P Require Import Config.
From S2P Require Import Money.
From S2P Require Import Schema.
From S2P Require Import Tx.
From S2P Require Import Transfer.
From S2P Require Import Posting.
From S2P Require Import LedgerInv.
From S2P Require Import Prog.
From S2P Require Import Pools.
From S2P Require Import Retry.
From S2P Require Import Account.
From S2P Require Import Store.
From S2P Require Import Instances.
From S2P Require Import Idempotent.
From S2P Require Import Scenario.
From S2P Require Import Concurrency.
From S2P Require Import Reconcile.
From S2P Require Import AtMostOnce.
From S2P Require Import System.
From S2P Require Import Stress.

Open Scope Z_scope.

(** ** How long a goroutine runs *)

Lemma wait_within p attempt : policy_ok p -> within 2 (wait p attempt).
Proof.
  intros Hp draw. simpl. destruct (delay_range p attempt draw Hp) as (d & -> & _).
  by destruct (d <=? 0); intros b.
Qed.

Lemma retry_loop_within fuel p cmd stamp n a :
  policy_ok p -> 1 <= n <= max_attempts p -> fuel = Z.to_nat (max_attempts p - n + 1) ->
  within (3 * fuel) (retry_loop fuel p cmd stamp n a).
Proof.
  intros Hp. revert n a. induction fuel as [|fuel IH]; intros n a Hn Hf; [lia |].
  replace (3 * S fuel)%nat with (S (2 + 3 * fuel))%nat by lia.
  cbn [retry_loop bind call within]. intros [t|e]; [done |].
  destruct (retryableCode e) as [c []]; cbn [negb]; [|done].
  destruct (Z.leb_spec (MaxAttempts p) n); [done |].
  apply within_bind; [by apply wait_within |]. intros [cerr|]; [done |].
  apply IH; unfold max_attempts in *; lia.
Qed.

Lemma stress_policy_ok : policy_ok stress_policy.
Proof. by vm_compute. Qed.

Lemma PostWithAttempts_within cmd : within 60 (PostWithAttempts stress_policy cmd).
Proof.
  unfold PostWithAttempts, postWithRetry. destruct (Command_Validate cmd); [done |].
  apply (retry_loop_within 20); [apply stress_policy_ok | |]; by vm_compute.
Qed.

(** What one posting reports of its attempts: none when the command is invalid. *)
Definition attempts_ok (out : result Transfer * Attempts) : Prop :=
  let a := snd out in
  0 <= Total a <= 20 /\ 0 <= SerializationFailures a /\ 0 <= Deadlocks a
  /\ SerializationFailures a + Deadlocks a <= Total a
  /\ (is_Ok (fst out) = true -> 1 <= Total a).

Lemma PostWithAttempts_attempts cmd : leaves attempts_ok (PostWithAttempts stress_policy cmd).
Proof.
  unfold PostWithAttempts, postWithRetry.
  destruct (Command_Validate cmd); [by vm_compute |].
  pose proof (retry_loop_leaves 20 stress_policy cmd None 1 (mkAttempts 0 0 0) 0 stress_policy_ok)
    as H.
  eapply tally_leaves, tally_mono; [|apply H; by vm_compute]; cbn beta.
  intros m [r a] [(Ht & Hs & Hd & Hr) _]. unfold attempts_ok. simpl fst. simpl snd.
  change (max_attempts stress_policy) with 20 in *.
  destruct r as [t|e]; [simpl; lia |].
  destruct Hr as [[_ Hr]|[Hr _]]; simpl is_Ok; split_and!; try lia; done.
Qed.

(** ** The goroutines finish *)

(** [ranked w n]: the goroutine finishes within [n] steps of its own. *)
Definition ranked (w : worker) (n : nat) : Prop :=
  match w with
  | WBlocked _ => n = 63%nat
  | WRunning p => exists m, within m p /\ n = (m + 2)%nat
  | WCounted _ => n = 1%nat
  | WDone _ => n = 0%nat
  end.

(** Replacing one of the ranks of a list by a smaller one. *)
Lemma sum_list_insert_lt ns i n n' :
  ns !! i = Some n -> (n' < n)%nat -> (sum_list (<[i := n']> ns) < sum_list ns)%nat.
Proof.
  revert i. induction ns as [|x ns IH]; intros [|i]; simpl; intros; simplify_eq; [lia |].
  specialize (IH i ltac:(done) ltac:(done)). lia.
Qed.

Section workers.
Context {R : Type} {RC : UniversalClient R}.
Implicit Types (e : @Exec R) (w : World R).

(** One goroutine moves to a state of smaller rank. *)
Lemma ranked_insert ws ns i x x' :
  Forall2 ranked ws ns -> ws !! i = Some x ->
  (forall n, ranked x n -> exists n', ranked x' n' /\ (n' < n)%nat) ->
  exists ns', Forall2 ranked (<[i := x']> ws) ns' /\ (sum_list ns' < sum_list ns)%nat.
Proof.
  intros Hr Hi Hx. destruct (Forall2_lookup_l _ _ _ _ _ Hr Hi) as (n & Hn & Hxn).
  destruct (Hx n Hxn) as (n' & Hn' & Hlt). exists (<[i := n']> ns).
  split; [by apply Forall2_insert | by eapply sum_list_insert_lt].
Qed.

Lemma xstep_rank k e e' ns :
  xstep k e e' -> Forall2 ranked (x_workers e) ns ->
  exists ns', Forall2 ranked (x_workers e') ns' /\ (sum_list ns' < sum_list ns)%nat.
Proof.
  intros Hs Hr. destruct Hs as [w ws c i cmd Hi _|w ws c i B o kk ev w' b Hi _|w ws c i out Hi|w ws c i out Hi];
    simpl in *; (eapply ranked_insert; [done | exact Hi |]); intros n Hn; simpl in Hn.
  - subst n. exists 62%nat. split; [|lia]. exists 60%nat. split; [apply PostWithAttempts_within | done].
  - destruct Hn as (m & Hm & ->). destruct m as [|m]; [done |]. exists (m + 2)%nat. split; [|lia].
    exists m. split; [apply Hm | done].
  - destruct Hn as (m & Hm & ->). exists 1%nat. split; [done | lia].
  - subst n. exists 0%nat. split; [done | lia].
Qed.

Lemma xsteps_rank k n e e' ns :
  nsteps (xstep k) n e e' -> Forall2 ranked (x_workers e) ns ->
  exists ns', Forall2 ranked (x_workers e') ns' /\ (n + sum_list ns' <= sum_list ns)%nat.
Proof.
  intros Hs. revert ns. induction Hs as [e|n e1 e2 e3 Hs _ IH]; intros ns Hr.
  - exists ns. split; [done | lia].
  - destruct (xstep_rank _ _ _ _ Hs Hr) as (ns1 & Hr1 & Hlt).
    destruct (IH _ Hr1) as (ns2 & Hr2 & Hle). exists ns2. split; [done | lia].
Qed.

Lemma exec_init_ranked w cmds :
  Forall2 ranked (x_workers (exec_init w cmds)) (replicate (length cmds) 63%nat).
Proof. simpl. induction cmds as [|cmd cmds IH]; simpl; constructor; done. Qed.

Lemma sum_list_replicate n x : sum_list (replicate n x) = (n * x)%nat.
Proof. induction n as [|n IH]; simpl; lia. Qed.

(** A goroutine that holds a slot can move. *)
Lemma holder_moves k e i x :
  x_workers e !! i = Some x -> holds_slot x = true -> (exists n, ranked x n) ->
  exists e', xstep k e e'.
Proof.
  destruct e as [w ws c]. simpl. intros Hi Hh [n Hn]. destruct x as [cmd|p|out|out]; try done.
  - destruct p as [out|why|B o kk].
    + eexists. by eapply x_count.
    + by destruct Hn as (m & Hm & _).
    + destruct (handle (mkEnv (scn_tx 0) None 0 0 None) w o) as [w' b] eqn:Hh'.
      eexists. by eapply x_op.
  - eexists. by eapply x_release.
Qed.

Lemma xstep_progress k e ns :
  0 < k -> Forall2 ranked (x_workers e) ns ->
  all_done e = true \/ exists e', xstep k e e'.
Proof.
  intros Hk Hr. unfold all_done. destruct (forallb is_done (x_workers e)) eqn:Hd; [by left | right].
  destruct (List.filter holds_slot (x_workers e)) as [|x l] eqn:Hf.
  - assert (Hb : exists i cmd, x_workers e !! i = Some (WBlocked cmd)).
    { apply not_true_iff_false in Hd. rewrite forallb_forall in Hd.
      destruct (decide (Exists (fun x => is_done x = false) (x_workers e))) as [Hex|Hex].
      - apply Exists_exists in Hex as (x & Hx & Hnd).
        assert (Hno : holds_slot x = false).
        { apply not_true_iff_false. intros Hh.
          assert (In x (List.filter holds_slot (x_workers e))) as Hin
            by (apply filter_In; split; [by apply list_elem_of_In | done]).
          by rewrite Hf in Hin. }
        apply list_elem_of_lookup in Hx as [i Hi]. destruct x; try done. eauto.
      - exfalso. apply Hd. intros x Hx. apply not_Exists_Forall in Hex; [|apply _].
        rewrite Forall_forall in Hex. apply list_elem_of_In in Hx. by apply not_false_is_true, Hex. }
    destruct Hb as (i & cmd & Hi). destruct e as [w ws c]. eexists.
    eapply x_slot; [exact Hi |]. unfold in_flight. simpl in Hf. rewrite Hf. done.
  - assert (Hin : In x (List.filter holds_slot (x_workers e))) by (rewrite Hf; by left).
    apply filter_In in Hin as [Hin Hh]. apply list_elem_of_In, list_elem_of_lookup in Hin as [i Hi].
    destruct (Forall2_lookup_l _ _ _ _ _ Hr Hi) as (n & _ & Hn).
    eapply holder_moves; eauto.
Qed.

(** C35. The goroutines of [execute] never deadlock and never run forever:
    whatever PostgreSQL answers and however they interleave, with at least one
    slot every one of them has finished after at most 63 steps per command, and
    until then one of them can move. *)
Theorem execute_terminates k w cmds n e :
  0 < k -> nsteps (xstep k) n (exec_init w cmds) e ->
  (n <= 63 * length cmds)%nat /\ (all_done e = true \/ exists e', xstep k e e').
Proof.
  intros Hk Hs. destruct (xsteps_rank _ _ _ _ _ Hs (exec_init_ranked w cmds)) as (ns & Hr & Hle).
  rewrite sum_list_replicate in Hle. split; [lia |]. by eapply xstep_progress.
Qed.

(** ** The counters *)

(** The outcome a goroutine has counted. *)
Definition counted_out (x : worker) : option (result Transfer * Attempts) :=
  match x with WCounted out | WDone out => Some out | _ => None end.

(** What a goroutine is still going to return. *)
Definition prog_of (x : worker) : prog (result Transfer * Attempts) :=
  match x with
  | WBlocked cmd => PostWithAttempts stress_policy cmd
  | WRunning p => p
  | WCounted out | WDone out => Ret out
  end.

(** The counters are those of the counted outcomes, in the order in which the
    goroutines took the mutex, and what is still to come is in order too. *)
Record counts_inv (cmds : list Command) (e : @Exec R) : Prop := {
  ci_length : length (x_workers e) = length cmds;
  ci_leaves : Forall (fun x => leaves attempts_ok (prog_of x)) (x_workers e);
  ci_counts : exists outs, outs ≡ₚ omap counted_out (x_workers e)
                /\ x_counts e = foldl count_outcome no_counts outs
}.

Lemma counts_inv_init w cmds : counts_inv cmds (exec_init w cmds).
Proof.
  split; simpl.
  - apply length_fmap.
  - apply Forall_fmap, Forall_true. intros cmd. apply PostWithAttempts_attempts.
  - exists []. split; [|done]. by induction cmds.
Qed.

(** A goroutine that moves without counting, and one that counts. *)
Lemma omap_insert_same (ws : list worker) i x x' :
  ws !! i = Some x -> counted_out x' = counted_out x ->
  omap counted_out (<[i := x']> ws) = omap counted_out ws.
Proof.
  revert i. induction ws as [|y ws IH]; intros [|i]; simpl; intros; simplify_eq; [by rewrite H0 |].
  by rewrite IH.
Qed.

Lemma omap_insert_new (ws : list worker) i x x' out :
  ws !! i = Some x -> counted_out x = None -> counted_out x' = Some out ->
  omap counted_out (<[i := x']> ws) ≡ₚ out :: omap counted_out ws.
Proof.
  revert i. induction ws as [|y ws IH]; intros [|i]; simpl; intros Hi Hx Hx'; simplify_eq.
  - by rewrite Hx, Hx'.
  - destruct (counted_out y); rewrite IH by done; [apply Permutation_swap | done].
Qed.

Lemma counts_inv_step k cmds e e' : xstep k e e' -> counts_inv cmds e -> counts_inv cmds e'.
Proof.
  intros Hs [Hl Hf (outs & Hp & Hc)].
  destruct Hs as [w ws c i cmd Hi _|w ws c i B o kk ev w' b Hi _|w ws c i out Hi|w ws c i out Hi];
    simpl in *; pose proof (Forall_lookup_1 _ _ _ _ Hf Hi) as Hx; simpl in Hx;
    (split; simpl; [by rewrite length_insert | apply Forall_insert; [done | simpl; auto] |]).
  - exists outs. by rewrite (omap_insert_same _ _ _ _ Hi).
  - exists outs. by rewrite (omap_insert_same _ _ _ _ Hi).
  - exists (outs ++ [out])%list. rewrite foldl_app. simpl. rewrite <- Hc. split; [|done].
    rewrite (omap_insert_new _ _ _ _ out Hi) by done. rewrite <- Hp.
    symmetry. apply Permutation_cons_append.
  - exists outs. by rewrite (omap_insert_same _ _ _ _ Hi).
Qed.

Lemma counts_inv_steps k cmds e e' : rtc (xstep k) e e' -> counts_inv cmds e -> counts_inv cmds e'.
Proof. induction 1; eauto using counts_inv_step. Qed.

(** What a list of outcomes adds to the counters. *)
Definition outcomes_total (c : Counts) : Z :=
  ct_Successful c + ct_InsufficientFunds c + ct_ExhaustedRetries c + ct_UnexpectedFailures c.

(** The counters are consistent with [n] outcomes counted. *)
Record counts_ok (n : Z) (c : Counts) : Prop := {
  co_total : outcomes_total c = n;
  co_nonneg : 0 <= ct_Successful c /\ 0 <= ct_InsufficientFunds c
              /\ 0 <= ct_ExhaustedRetries c /\ 0 <= ct_UnexpectedFailures c;
  co_attempts : ct_Successful c <= ct_TotalAttempts c <= 20 * n;
  co_worst : 0 <= ct_MaxAttemptsForOne c <= 20 /\ ct_TotalAttempts c <= ct_MaxAttemptsForOne c * n;
  co_retries : 0 <= ct_SerializationRetries c /\ 0 <= ct_DeadlockRetries c
               /\ ct_SerializationRetries c + ct_DeadlockRetries c <= ct_TotalAttempts c;
  co_problems : Z.of_nat (length (ct_Problems c)) = Z.min 10 (ct_UnexpectedFailures c)
}.

Lemma no_counts_ok : counts_ok 0 no_counts.
Proof. split; unfold outcomes_total; simpl; lia. Qed.

Lemma count_outcome_ok n c out :
  0 <= n -> counts_ok n c -> attempts_ok out -> counts_ok (n + 1) (count_outcome c out).
Proof.
  intros Hn [Ht Hnn Ha [Hw Hw'] Hr Hp] (HT & Hs & Hd & Hsum & Hok). destruct out as [r a]. simpl in *.
  assert (Hmax : ct_TotalAttempts c + Total a <= Z.max (ct_MaxAttemptsForOne c) (Total a) * (n + 1)).
  { destruct (Z.max_spec (ct_MaxAttemptsForOne c) (Total a)) as [[? ->]|[? ->]]; nia. }
  unfold outcomes_total in *.
  destruct r as [t|err]; simpl in *; [split; unfold outcomes_total; simpl; lia |].
  destruct (errors_Is err ErrInsufficientFunds); [split; unfold outcomes_total; simpl; lia |].
  destruct (errors_Is err ErrRetriesExhausted); [split; unfold outcomes_total; simpl; lia |].
  split; unfold outcomes_total; simpl; try lia.
  destruct (Nat.ltb_spec (length (ct_Problems c)) 10); rewrite ?length_app; simpl; lia.
Qed.

Lemma foldl_counts_ok outs n c :
  0 <= n -> counts_ok n c -> Forall attempts_ok outs ->
  counts_ok (n + Z.of_nat (length outs)) (foldl count_outcome c outs).
Proof.
  revert n c. induction outs as [|out outs IH]; intros n c Hn Hc; simpl.
  - intros _. by rewrite Z.add_0_r.
  - intros [Ho Hos]%Forall_cons.
    replace (n + Z.of_nat (S (length outs))) with (n + 1 + Z.of_nat (length outs)) by lia.
    apply IH; [lia | by apply count_outcome_ok | done].
Qed.

Lemma done_counted ws :
  forallb is_done ws = true -> length (omap counted_out ws) = length ws.
Proof. induction ws as [|[]]; simpl; try done. intros. f_equal. auto. Qed.

Lemma counted_attempts ws :
  Forall (fun x => leaves attempts_ok (prog_of x)) ws -> Forall attempts_ok (omap counted_out ws).
Proof. induction 1 as [|[] ws H _ IH]; simpl; try done; by constructor. Qed.

Lemma execute_workers_counts k cmds w w' c :
  execute_workers cmds k w w' c -> counts_ok (Z.of_nat (length cmds)) c.
Proof.
  intros (ws & Hs & Hd). destruct (counts_inv_steps _ cmds _ _ Hs (counts_inv_init w cmds))
    as [Hl Hf (outs & Hp & Hc)]. simpl in *. rewrite Hc.
  replace (Z.of_nat (length cmds)) with (0 + Z.of_nat (length outs)).
  - apply foldl_counts_ok; [lia | apply no_counts_ok |]. rewrite Hp. by apply counted_attempts.
  - rewrite Hp, done_counted by done. lia.
Qed.

(** ** The goroutines as interleaved requests *)

Lemma xstep_steps k e e' :
  xstep k e e' ->
  steps (x_world e, prog_of <$> x_workers e) (x_world e', prog_of <$> x_workers e').
Proof.
  assert (Hsame : forall (ws : list worker) i x x', ws !! i = Some x -> prog_of x' = prog_of x ->
            prog_of <$> <[i := x']> ws = prog_of <$> ws).
  { intros ws i x x' Hi Hx. rewrite list_fmap_insert, Hx. apply list_insert_id.
    by rewrite list_lookup_fmap, Hi. }
  intros Hs. destruct Hs as [w ws c i cmd Hi _|w ws c i B o kk ev w' b Hi Hh|w ws c i out Hi|w ws c i out Hi];
    simpl; try (by erewrite (Hsame _ _ _ _ Hi) by done).
  apply rtc_once. rewrite list_fmap_insert. simpl. eapply step_op; [|done].
  by rewrite list_lookup_fmap, Hi.
Qed.

Lemma xsteps_steps k e e' :
  rtc (xstep k) e e' ->
  steps (x_world e, prog_of <$> x_workers e) (x_world e', prog_of <$> x_workers e').
Proof. induction 1 as [|e1 e2 e3 H _ IH]; [done |]. etrans; [by eapply xstep_steps | done]. Qed.

Lemma execute_workers_inv {UL : UuidLib} {RCo : RecordCodec} base k cmds w w' c :
  service_inv base (w_db w) -> execute_workers cmds k w w' c ->
  service_inv base (w_db w') /\ db_le (w_db w) (w_db w').
Proof.
  intros Hinv (ws & Hs & _). apply xsteps_steps in Hs. simpl in Hs.
  rewrite <- list_fmap_compose in Hs.
  destruct (system_sound (service_inv base) service_op
              (fun _ (_ : result Transfer * Attempts) _ => True)) with (3 := Hs)
    as [[? _] ?]; [done | apply service_stable | | done].
  split; [done |]. intros i p. simpl. rewrite list_lookup_fmap. intros (cmd & _ & ->)%fmap_Some.
  eapply safe_mono; [|apply all_ops_safe; [apply service_stable |]]; [done |].
  apply postWithRetry_ops; [apply service_op_quiet | done].
Qed.
End workers.

(** ** Accounts that are created and funded *)

(** A direct credit is a new baseline for the account, and for the supply. *)
Definition add_base (base : gmap UUID Z) (id : UUID) (amount : Z) : gmap UUID Z :=
  <[id := base_of base id + amount]> base.

Lemma base_of_add base i id amount :
  base_of (add_base base id amount) i = base_of base i + (if uuid_eqb id i then amount else 0).
Proof.
  unfold add_base, base_of, uuid_eqb. rewrite lookup_insert.
  destruct (decide (id = i)) as [->|Hne]; [by rewrite bool_decide_eq_true_2 |].
  rewrite bool_decide_eq_false_2 by done. lia.
Qed.

Lemma sum_add_base base (i : UUID) amount :
  sumZ id (add_base base i amount) = sumZ id base + amount.
Proof.
  unfold add_base, base_of. destruct (base !! i) as [b|] eqn:Hb; simpl.
  - rewrite (sumZ_update _ _ _ _ _ Hb). unfold id. lia.
  - rewrite sumZ_insert by done. unfold id. lia.
Qed.

(** A credit outside any transfer keeps the invariant, for that baseline. *)
Lemma credit_inv base db i amount now r :
  db_inv base db -> accounts db !! i = Some r -> 0 <= a_balance_minor r + amount <= int64_max ->
  let r' := set_updated_at now (with_balance r (a_balance_minor r + amount)) in
  let db' := mkDb (<[i := r']> (accounts db)) (transfers db) (ledger_entries db) in
  db_inv (add_base base i amount) db' /\ db_le db db'.
Proof.
  intros Hinv Hr Hb r' db'. pose proof Hinv as [[Ka Kt Ke] Ha Ht He Hu Hbk Hbase].
  assert (Hacc : forall j a, accounts db !! j = Some a ->
            exists a', accounts db' !! j = Some a' /\ a_currency a' = a_currency a
                       /\ a_created_at a' = a_created_at a).
  { intros j a Hj. simpl. rewrite lookup_insert. case_decide; subst; [|eauto].
    rewrite Hr in Hj. injection Hj as <-. by exists r'. }
  assert (Hcur : forall j c, (exists a, accounts db !! j = Some a /\ a_currency a = c) ->
            exists a, accounts db' !! j = Some a /\ a_currency a = c).
  { intros j c (a & Hj & <-). destruct (Hacc _ _ Hj) as (a' & ? & ? & _). eauto. }
  split; [split | split; simpl; [exact Hacc | done | done]].
  - split; simpl; [|done..]. intros j a. rewrite lookup_insert. case_decide; [|apply Ka].
    intros [= <-]. subst. simpl. by apply Ka.
  - intros j a. simpl. rewrite lookup_insert. case_decide; [|apply Ha].
    intros [= <-]. destruct (Ha _ _ Hr). by split.
  - intros j t Hj. destruct (Ht _ _ Hj). split; auto.
  - done.
  - done.
  - intros j a. simpl. rewrite base_of_add, lookup_insert. unfold account_ledger. simpl.
    fold (account_ledger j db). case_decide as E.
    + subst. intros [= <-]. simpl. rewrite uuid_eqb_refl, (Hbk _ _ Hr). lia.
    + intros Hj. rewrite uuid_eqb_ne, (Hbk _ _ Hj) by done. lia.
  - intros j Hj. unfold add_base in Hj. simpl. destruct (decide (i = j)) as [->|Hne].
    + rewrite lookup_insert_eq. eauto.
    + rewrite lookup_insert_ne in Hj by done. rewrite lookup_insert_ne by done. by apply Hbase.
Qed.

(** One statement in a transaction of its own. *)
Lemma autocommit_exec {A} (f : Z -> Db -> sql (Db * list deferred * A)) env db db' r :
  autocommit (exec f) env db = (db', r) ->
  (db' = db /\ exists e, r = Err e)
  \/ exists ds a, f (tx_now env) db = inr (db', ds, a) /\ (r = Ok a \/ exists e, r = Err e).
Proof.
  unfold autocommit. destruct (exec f env (tx_start db)) as [st [a|e]] eqn:He;
    [|intros; simplify_eq; eauto].
  apply exec_Ok in He as (db1 & ds & Hf & ->). simpl in *.
  destruct (run_all_deferred _ _); [intros; simplify_eq; eauto |].
  destruct (tx_commit env); intros; simplify_eq; eauto 10.
Qed.

Section setup.
Context {R : Type} {RC : UniversalClient R} {UL : UuidLib} {RCo : RecordCodec}.
Implicit Types (w : World R).

(** [grown base w base' w']: nothing was lost, and the books are in order, for
    a baseline that may have changed. *)
Definition grown (base : gmap UUID Z) (w : World R) (base' : gmap UUID Z) (w' : World R) : Prop :=
  service_inv base' (w_db w') /\ db_le (w_db w) (w_db w').

Lemma grown_refl base w : service_inv base (w_db w) -> grown base w base w.
Proof. by split. Qed.

Lemma grown_trans b1 w1 b2 w2 b3 w3 : grown b1 w1 b2 w2 -> grown b2 w2 b3 w3 -> grown b1 w1 b3 w3.
Proof. intros [_ H1] [H2 H3]. split; [done | by etrans]. Qed.

Lemma credit_grown base w w' i amount r a0 :
  service_inv base (w_db w) -> 0 < amount -> accounts (w_db w) !! i = Some a0 ->
  pool_Exec (sql_credit i amount) w w' r ->
  exists base', grown base w base' w'
    /\ sumZ id base <= sumZ id base' <= sumZ id base + amount
    /\ (forall n, r = Ok n ->
          sumZ id base' = sumZ id base + amount
          /\ exists now, accounts (w_db w') =
               <[i := set_updated_at now (with_balance a0 (a_balance_minor a0 + amount))]>
                 (accounts (w_db w))).
Proof.
  intros [Hinv Hst] Hpos Ha0 [env Hx]. unfold on_db in Hx.
  destruct (autocommit _ env (w_db w)) as [db' r'] eqn:Hauto. simplify_eq.
  apply autocommit_exec in Hauto as [[-> [e ->]]|(ds & n & Hf & _)].
  { exists base. split; [by split; [split |] |]. split; [lia | done]. }
  unfold sql_credit in Hf. destruct (update_balance _ _ _ _ _) as [e|[db1 m]] eqn:Hu; [done |].
  injection Hf as -> _ ->. assert (Hn : n = 1).
  { unfold update_balance in Hu. rewrite Ha0 in Hu. sql_inv Hu. by simplify_eq. }
  destruct (update_balance_inr _ _ _ _ _ _ _ Hu Hn) as (a & Ha & _ & Hi & Hb & _ & ->).
  rewrite Ha0 in Ha. injection Ha as <-. apply in_int64_spec in Hi.
  destruct (credit_inv base (w_db w) i amount (tx_now env) a0 Hinv Ha0) as [Hinv' Hle]; [lia |].
  exists (add_base base i amount). rewrite sum_add_base.
  split; [by split; [split |] |]. split; [lia |]. intros _ _. split; [done | by eexists].
Qed.

Lemma Create_grown base w w' c r :
  service_inv base (w_db w) -> perform (Create c) w w' r ->
  grown base w base w'
  /\ forall acct, r = Ok acct ->
       accounts (w_db w) !! acct_ID acct = None
       /\ exists now, accounts (w_db w') = <[acct_ID acct := mkAccount (acct_ID acct) c 0 now now]>
                                             (accounts (w_db w)).
Proof.
  intros Hinv [es Hr]. unfold Create in Hr. destruct (Currency_Validate c) as [err|].
  { injection Hr as <- <-. by split; [apply grown_refl |]. }
  simpl in Hr. destruct (on_db w _) as [w1 b] eqn:Hd. unfold on_db in Hd.
  destruct (autocommit _ _ (w_db w)) as [db' b'] eqn:Ha. simplify_eq.
  assert (Hg : grown base w base (mkWorld db' (w_redis w))).
  { apply (service_stable base _ (OpCreateAccount c) _ _ b Hinv I). by eexists. }
  apply createAccount_cases in Ha as [[-> [e ->]]|(row & -> & Hf & Hc & -> & Hb)].
  - simpl in Hr. injection Hr as <- <-. by split.
  - destruct Hb as [->|[e ->]]; simpl in Hr; injection Hr as <- <-; (split; [done |]); [|done].
    intros acct [= <-]. simpl. split; [done |]. by eexists.
Qed.

(** What a batch of created accounts looks like. *)
Record created (c : string) (f : Z) (ids : list UUID) (db db' : Db) : Prop := {
  cr_nodup : NoDup ids;
  cr_new : forall i, i ∈ ids -> accounts db !! i = None;
  cr_row : forall i, i ∈ ids -> exists r, accounts db' !! i = Some r /\ a_currency r = c
             /\ a_balance_minor r = Z.max 0 f;
  cr_frame : forall i, i ∉ ids -> accounts db' !! i = accounts db !! i
}.

Lemma created_nil c f db : created c f [] db db.
Proof. split; [constructor | | |]; by intros i ?%elem_of_nil || intros. Qed.

Lemma created_cons c f i r ids db db1 db' :
  accounts db !! i = None -> accounts db1 = <[i := r]> (accounts db) ->
  a_currency r = c -> a_balance_minor r = Z.max 0 f ->
  created c f ids db1 db' -> created c f (i :: ids) db db'.
Proof.
  intros Hi H1 Hc Hb [Hnd Hnew Hrow Hfr].
  assert (Hni : i ∉ ids).
  { intros Hin. pose proof (Hnew _ Hin) as Hn. by rewrite H1, lookup_insert_eq in Hn. }
  split.
  - by constructor.
  - intros j [->|Hj]%elem_of_cons; [done |]. pose proof (Hnew _ Hj) as Hn.
    rewrite H1, lookup_insert_ne in Hn by congruence. done.
  - intros j [->|Hj]%elem_of_cons; [|by apply Hrow]. exists r.
    by rewrite (Hfr _ Hni), H1, lookup_insert_eq.
  - intros j [Hne Hj]%not_elem_of_cons. by rewrite (Hfr _ Hj), H1, lookup_insert_ne.
Qed.

(** One account is opened and funded. *)
Lemma funded_account base w w1 w2 c f acct funded :
  service_inv base (w_db w) -> perform (Create c) w w1 (Ok acct) ->
  (if 0 <? f then pool_Exec (sql_credit (acct_ID acct) f) else proc_ret (Ok 0)) w1 w2 funded ->
  exists base2, grown base w base2 w2
    /\ sumZ id base <= sumZ id base2 <= sumZ id base + Z.max 0 f
    /\ (is_Ok funded = true ->
          sumZ id base2 = sumZ id base + Z.max 0 f
          /\ accounts (w_db w) !! acct_ID acct = None
          /\ exists r, accounts (w_db w2) = <[acct_ID acct := r]> (accounts (w_db w))
               /\ a_currency r = c /\ a_balance_minor r = Z.max 0 f).
Proof.
  intros Hinv Hc Hf. destruct (Create_grown _ _ _ _ _ Hinv Hc) as [Hg Hnew].
  destruct (Hnew _ eq_refl) as (Hnone & now & Hrow).
  destruct (Z.ltb_spec 0 f) as [Hpos|Hneg].
  - assert (Ha0 : accounts (w_db w1) !! acct_ID acct = Some (mkAccount (acct_ID acct) c 0 now now))
      by (by rewrite Hrow, lookup_insert_eq).
    destruct (credit_grown _ _ _ _ _ _ _ (proj1 Hg) Hpos Ha0 Hf) as (base2 & Hg2 & Hb & Hok).
    exists base2. split; [by eapply grown_trans |]. split; [lia |]. destruct funded as [n|e]; [|done]. intros _.
    destruct (Hok n eq_refl) as (Hsum & now' & Hacc). split_and!; [lia | done |].
    eexists. rewrite Hacc, Hrow, insert_insert_eq. split_and!; [done | done |]. simpl. lia.
  - destruct Hf as [-> ->]. exists base. split; [done |]. split; [lia |]. intros _. split_and!; [lia | done |].
    eexists. rewrite Hrow. split_and!; [done | done |]. simpl. lia.
Qed.

Lemma createAccounts_grown n c f base w w' r :
  service_inv base (w_db w) -> createAccounts n c f w w' r ->
  exists base', grown base w base' w'
    /\ sumZ id base <= sumZ id base' <= sumZ id base + Z.of_nat n * Z.max 0 f
    /\ forall ids, r = Ok ids ->
         length ids = n /\ sumZ id base' = sumZ id base + Z.of_nat n * Z.max 0 f
         /\ created c f ids (w_db w) (w_db w').
Proof.
  revert base w w' r. induction n as [|n IH]; intros base w w' r Hinv; cbn [createAccounts].
  { intros [-> ->]. exists base. split; [by apply grown_refl |]. split; [lia |]. intros ids [= <-].
    split_and!; [done | lia | apply created_nil]. }
  intros (w1 & [acct|e] & Hc & Hrest).
  2: { destruct Hrest as [-> ->]. exists base. split; [by eapply Create_grown |]. split; [lia | done]. }
  destruct Hrest as (w2 & fd & Hf & Hrest).
  destruct (funded_account _ _ _ _ _ _ _ _ Hinv Hc Hf) as (base2 & Hg2 & Hb2 & Hok).
  destruct fd as [z|e]; [|by destruct Hrest as [-> ->]; exists base2; split; [done |]; split; [lia |]].
  destruct Hrest as (w3 & r3 & Hloop & Hrest).
  destruct (IH _ _ _ _ (proj1 Hg2) Hloop) as (base3 & Hg3 & Hb3 & Hids).
  exists base3. destruct r3 as [ids|e]; destruct Hrest as [-> ->];
    (split; [by eapply grown_trans |]); (split; [lia |]); [|done].
  intros _ [= <-]. destruct (Hids _ eq_refl) as (Hl & Hs & Hcr).
  destruct (Hok eq_refl) as (Hs2 & Hnone & row & Hacc & Hcur & Hbal).
  split_and!; [simpl; lia | lia | by eapply created_cons].
Qed.
End setup.

(** ** The workload *)

(** Two neighbours on a ring differ. *)
Lemma ring_neighbours n i : (2 <= n)%nat -> (i mod n <> (i + 1) mod n)%nat.
Proof.
  intros Hn Heq. pose proof (Nat.div_mod_eq i n). pose proof (Nat.mod_upper_bound i n ltac:(lia)).
  destruct (decide (S (i mod n) < n)%nat) as [Hlt|Hge].
  - rewrite <- (Nat.mod_unique (i + 1) n (i / n) (S (i mod n))) in Heq by lia. lia.
  - rewrite <- (Nat.mod_unique (i + 1) n (S (i / n)) 0) in Heq; [lia | lia | nia].
Qed.

(** A command between accounts at two positions of the list. *)
Definition drawn (opt : options) (c : string) (ids : list UUID) (cmd : Command) : Prop :=
  exists i j a b, ids !! i = Some a /\ ids !! j = Some b /\ i <> j
    /\ cmd = mkCommand a b (so_amount opt) c.

(** A command between two different accounts of the list. *)
Definition between (opt : options) (c : string) (ids : list UUID) (cmd : Command) : Prop :=
  c_SourceAccountID cmd ∈ ids /\ c_DestinationAccountID cmd ∈ ids
  /\ c_SourceAccountID cmd <> c_DestinationAccountID cmd
  /\ c_AmountMinor cmd = so_amount opt /\ c_Currency cmd = c.

Lemma drawn_between opt c ids cmd : NoDup ids -> drawn opt c ids cmd -> between opt c ids cmd.
Proof.
  intros Hnd (i & j & a & b & Ha & Hb & Hij & ->).
  split_and!; simpl; try done; try (by eapply list_elem_of_lookup_2).
  intros ->. by apply Hij, (NoDup_lookup _ _ _ _ Hnd Ha).
Qed.

Lemma command_at_drawn opt c ids i :
  (2 <= length ids)%nat -> exists cmd, command_at opt c ids i = Some cmd /\ drawn opt c ids cmd.
Proof.
  intros Hlen.
  assert (Hget : forall k, (k < length ids)%nat -> exists a, ids !! k = Some a).
  { intros k Hk. by apply lookup_lt_is_Some_2. }
  destruct (Hget 0%nat) as [a Ha]; [lia |]. destruct (Hget 1%nat) as [b Hb]; [lia |].
  unfold command_at. rewrite Ha, Hb. cbn [mbind option_bind].
  destruct (bool_decide (so_scenario opt = "opposing")).
  { eexists. split; [done |]. destruct (_ =? 0); [exists 0%nat, 1%nat, a, b | exists 1%nat, 0%nat, b, a];
      by split_and!. }
  destruct (bool_decide (so_scenario opt = "ring")).
  - destruct (Hget (i mod length ids)%nat) as [x Hx]; [apply Nat.mod_upper_bound; lia |].
    destruct (Hget ((i + 1) mod length ids)%nat) as [y Hy]; [apply Nat.mod_upper_bound; lia |].
    cbv zeta. rewrite Hx, Hy. eexists. split; [done |].
    do 4 eexists. split_and!; [exact Hx | exact Hy | by apply ring_neighbours | done].
  - eexists. split; [done |]. exists 0%nat, 1%nat, a, b. by split_and!.
Qed.

(** With two accounts or more the workload is built, command by command. *)
Lemma buildCommands_drawn opt c ids :
  (2 <= length ids)%nat -> make_fits sizeof_Command (so_attempts opt) = true ->
  exists cmds, buildCommands opt c ids = Some cmds
    /\ length cmds = Z.to_nat (so_attempts opt) /\ Forall (drawn opt c ids) cmds.
Proof.
  intros Hlen Hfit. unfold buildCommands. rewrite Hfit. cbn [negb].
  destruct (mapM _ _) as [cmds|] eqn:Hb.
  - exists cmds. apply mapM_Some in Hb. split_and!; [done | |].
    + by rewrite <- (Forall2_length _ _ _ Hb), length_seq.
    + apply Forall_forall. intros cmd Hin. apply list_elem_of_lookup in Hin as [i Hi].
      destruct (Forall2_lookup_r _ _ _ _ _ Hb Hi) as (j & _ & Hj).
      destruct (command_at_drawn opt c ids j Hlen) as (cmd' & Hc & H). congruence.
  - exfalso. apply eq_None_not_Some in Hb. apply Hb, mapM_is_Some_2.
    apply Forall_forall. intros j _. destruct (command_at_drawn opt c ids j Hlen) as (cmd & Hc & _).
    by exists cmd.
Qed.

Lemma between_valid opt c ids cmd :
  between opt c ids cmd -> 0 < so_amount opt -> currency_format c = true -> uuid_Nil ∉ ids ->
  Command_Validate cmd = None.
Proof.
  intros (Hs & Hd & Hne & Ha & Hc) Hpos Hcur Hnil. unfold Command_Validate. rewrite Ha, Hc.
  destruct (Z.leb_spec (so_amount opt) 0); [lia |].
  rewrite (proj2 (Currency_Validate_format c) Hcur), uuid_eqb_ne by done.
  rewrite !uuid_eqb_ne; [done | congruence | congruence].
Qed.

Section setup_accounts.
Context {R : Type} {RC : UniversalClient R} {UL : UuidLib} {RCo : RecordCodec}.
Variable uuid_parse_error : string -> goerr.
Implicit Types (w : World R).

Definition uses_existing (opt : options) : bool :=
  negb (bool_decide (so_source opt = "")) || negb (bool_decide (so_destination opt = "")).

(** The money the run writes into the accounts it creates. *)
Definition minted (opt : options) : Z :=
  if uses_existing opt then 0
  else match account_count opt with
       | Ok n => Z.of_nat n * Z.max 0 (funding opt)
       | Err _ => 0
       end.

(** The two slices that are made with a capacity fit the address space. *)
Definition capacity_ok (opt : options) : bool :=
  make_fits sizeof_Command (so_attempts opt)
  && (uses_existing opt
      || match account_count opt with
         | Ok n => make_fits sizeof_UUID (Z.of_nat n)
         | Err _ => true
         end).

Lemma minted_nonneg opt : 0 <= minted opt.
Proof. unfold minted. repeat case_match; lia. Qed.

Lemma account_count_two opt n : account_count opt = Ok n -> (2 <= n)%nat.
Proof.
  unfold account_count. case_bool_decide; [|intros [= <-]; lia].
  destruct (Z.ltb_spec (so_accounts opt) 2); [done |]. intros [= <-]. lia.
Qed.

(** What setting up leaves, whatever it answers. *)
Definition set_up (opt : options) (c : string) (base base' : gmap UUID Z) (w w' : World R)
    (r : option (result (list UUID))) : Prop :=
  grown base w base' w' /\ sumZ id base <= sumZ id base' <= sumZ id base + minted opt
  /\ match r with
     | None => capacity_ok opt = false
     | Some (Err _) => True
     | Some (Ok ids) =>
         sumZ id base' = sumZ id base + minted opt /\ (2 <= length ids)%nat
         /\ capacity_ok opt = make_fits sizeof_Command (so_attempts opt)
         /\ (uses_existing opt = false -> created c (funding opt) ids (w_db w) (w_db w'))
     end.

Lemma setupAccounts_grown opt c base w w' r :
  service_inv base (w_db w) -> setupAccounts uuid_parse_error opt c w w' r ->
  exists base', set_up opt c base base' w w' r.
Proof.
  intros Hinv. unfold setupAccounts, set_up, minted, capacity_ok. fold (uses_existing opt).
  pose proof (grown_refl base w Hinv) as Hrefl.
  destruct (uses_existing opt).
  - cbn [orb]. rewrite andb_true_r.
    destruct (uuid_Parse (so_source opt)), (uuid_Parse (so_destination opt)); intros [-> ->]; exists base;
      split_and!; done || lia.
  - destruct (account_count opt) as [n|e] eqn:Hn; cbn [orb].
    2: { intros [-> ->]. exists base. split_and!; done || lia. }
    destruct (make_fits sizeof_UUID (Z.of_nat n)); cbn [negb]; rewrite ?andb_true_r, ?andb_false_r.
    2: { intros [-> ->]. exists base. split_and!; done || lia. }
    intros (w1 & ids & Hc & [-> ->]).
    destruct (createAccounts_grown _ _ _ _ _ _ _ Hinv Hc) as (base' & Hg & Hb & Hids).
    exists base'. split; [done |]. split; [done |]. destruct ids as [ids|]; [|done].
    destruct (Hids _ eq_refl) as (Hl & Hs & Hcr).
    split_and!; [done | rewrite Hl; by eapply account_count_two | done | done].
Qed.

(** The workload the tool builds on accounts of its own is one the ledger
    accepts: the accounts are new and pairwise different, hold the currency of
    the run and the funding; [buildCommands] builds exactly the
    requested number of commands, and every one of them, whatever the scenario,
    validates and moves the requested amount between two different ones of
    these accounts. *)
Lemma workload_valid opt c base w w' ids :
  service_inv base (w_db w) -> uses_existing opt = false ->
  setupAccounts uuid_parse_error opt c w w' (Some (Ok ids)) -> capacity_ok opt = true ->
  0 < so_amount opt -> currency_format c = true -> uuid_Nil ∉ ids ->
  created c (funding opt) ids (w_db w) (w_db w')
  /\ exists cmds, buildCommands opt c ids = Some cmds
       /\ length cmds = Z.to_nat (so_attempts opt)
       /\ Forall (fun cmd => between opt c ids cmd /\ Command_Validate cmd = None) cmds.
Proof.
  intros Hinv Hown Hs Hcap Hpos Hcur Hnil.
  destruct (setupAccounts_grown _ _ _ _ _ _ Hinv Hs) as (base' & _ & _ & _ & Hlen & Hfit & Hcr).
  rewrite Hcap in Hfit. pose proof (Hcr Hown) as Hc. split; [done |].
  destruct (buildCommands_drawn opt c ids Hlen (eq_sym Hfit)) as (cmds & Hb & Hl & Hf).
  exists cmds. split_and!; [done | done |]. eapply Forall_impl; [exact Hf |].
  intros cmd Hcmd%drawn_between; [|apply Hc]. split; [done |]. by eapply between_valid.
Qed.
End setup_accounts.

(** ** Runs *)

Section alone.
Context {R : Type} {RC : UniversalClient R}.
Implicit Types (w : World R).

(** A goroutine that is not interrupted. *)
Lemma run_xsteps k p es w w' ws c i out :
  ws !! i = Some (WRunning p) -> run p es w = (w', Some out) ->
  rtc (xstep k) (mkExec w ws c) (mkExec w' (<[i := WRunning (Ret out)]> ws) c).
Proof.
  revert es w ws. induction p as [x|why|X o f IH]; intros es w ws Hi; simpl.
  - intros [= <- <-]. rewrite list_insert_id by done. constructor.
  - done.
  - destruct (handle (es O) w o) as [w1 b] eqn:Hh. intros Hr.
    eapply rtc_l; [by eapply x_op |].
    rewrite <- (list_insert_insert_eq ws i (WRunning (Ret out)) (WRunning (f b))).
    eapply IH; [|done]. apply list_lookup_insert_eq. by eapply lookup_lt_Some.
Qed.

(** The commands one after the other, the [i]-th with the answers of [es i]. *)
Fixpoint run_sequential (cmds : list Command) (es : nat -> nat -> Env) (w : World R) (c : Counts)
    : option (World R * Counts) :=
  match cmds with
  | [] => Some (w, c)
  | cmd :: cmds' =>
      match run (PostWithAttempts stress_policy cmd) (es O) w with
      | (w', Some out) => run_sequential cmds' (fun n => es (S n)) w' (count_outcome c out)
      | (_, None) => None
      end
  end.

Lemma in_flight_idle (pre : list worker) cmds :
  forallb is_done pre = true -> in_flight (pre ++ (WBlocked <$> cmds)) = 0.
Proof.
  intros Hp. unfold in_flight. induction pre as [|[]]; simpl in *; try done; [|by apply IHpre].
  by induction cmds.
Qed.

Lemma run_sequential_xsteps k cmds es w c w' c' pre :
  0 < k -> forallb is_done pre = true -> run_sequential cmds es w c = Some (w', c') ->
  exists ws, rtc (xstep k) (mkExec w (pre ++ (WBlocked <$> cmds))%list c) (mkExec w' ws c')
    /\ forallb is_done ws = true.
Proof.
  intros Hk. revert es w c pre. induction cmds as [|cmd cmds IH]; intros es w c pre Hp; simpl.
  - intros [= <- <-]. exists pre. rewrite app_nil_r. by split.
  - destruct (run _ (es O) w) as [w1 [out|]] eqn:Hr; [|done]. intros Hrest.
    destruct (IH (fun n => es (S n)) w1 (count_outcome c out) (pre ++ [WDone out])%list)
      as (ws & Hs & Hd); [by rewrite forallb_app, Hp | done |].
    exists ws. split; [|done]. rewrite <- app_assoc in Hs.
    set (rest := WBlocked <$> cmds) in *.
    assert (Hat : forall x y, <[length pre := y]> (pre ++ x :: rest)%list = (pre ++ y :: rest)%list).
    { intros x y. rewrite <- (Nat.add_0_r (length pre)), insert_app_r. done. }
    assert (Hget : forall x, (pre ++ x :: rest)%list !! length pre = Some x).
    { intros x. by rewrite list_lookup_middle. }
    eapply rtc_l.
    { eapply x_slot; [apply Hget |]. pose proof (in_flight_idle pre (cmd :: cmds) Hp) as Hz.
      simpl in Hz. fold rest in Hz. lia. }
    rewrite Hat. etrans; [eapply run_xsteps; [apply Hget | exact Hr] |]. rewrite Hat.
    eapply rtc_l; [eapply x_count, Hget |]. rewrite Hat.
    eapply rtc_l; [eapply x_release, Hget |]. rewrite Hat. exact Hs.
Qed.

Lemma run_sequential_execute k cmds es w w' c :
  0 < k -> run_sequential cmds es w no_counts = Some (w', c) -> execute_workers cmds k w w' c.
Proof. intros Hk Hr. apply (run_sequential_xsteps k cmds es w no_counts w' c [] Hk eq_refl Hr). Qed.
End alone.

(** ** The main goroutine gets to the end *)

Section total.
Context {R : Type} {RC : UniversalClient R} {UL : UuidLib}.
Implicit Types (w : World R).

(** [total m]: from every world, [m] has an outcome. *)
Definition total {A} (m : @proc R A) : Prop := forall w, exists w' a, m w w' a.

Lemma total_ret {A} (a : A) : total (proc_ret a).
Proof. intros w. by exists w, a. Qed.

Lemma total_bind {A B} (m : @proc R A) (f : A -> @proc R B) :
  total m -> (forall a, total (f a)) -> total (proc_bind m f).
Proof.
  intros Hm Hf w. destruct (Hm w) as (w1 & a & H1). destruct (Hf a w1) as (w2 & b & H2).
  exists w2, b, w1, a. done.
Qed.

Lemma total_perform {A} (P : A -> Prop) (p : prog A) : leaves P p -> total (perform p).
Proof.
  intros Hp w. destruct (leaves_run P p scn_env w Hp) as (w' & a & Hr & _). exists w', a. by exists scn_env.
Qed.

Lemma total_pool_Exec {A} (f : Z -> Db -> sql (Db * list deferred * A)) : total (pool_Exec f).
Proof.
  intros w. destruct (on_db w (autocommit (exec f) (scn_tx 0))) as [w' r] eqn:H.
  exists w', r. by exists (scn_tx 0).
Qed.

Lemma run_sequential_total cmds w c : exists w' c', run_sequential cmds (fun _ => scn_env) w c = Some (w', c').
Proof.
  revert w c. induction cmds as [|cmd cmds IH]; intros w c; simpl; [eauto |].
  destruct (leaves_run _ _ scn_env w (PostWithAttempts_attempts cmd)) as (w' & out & -> & _). apply IH.
Qed.

Lemma execute_total cmds k : 0 < k -> total (execute (R := R) cmds k).
Proof.
  intros Hk. apply total_bind; [by apply (total_perform (fun _ => True)) |]. intros began.
  apply total_bind.
  - intros w. destruct (run_sequential_total cmds w no_counts) as (w' & c & H).
    exists w', c. by eapply run_sequential_execute.
  - intros c. apply total_bind; [by apply (total_perform (fun _ => True)) |]. intros. apply total_ret.
Qed.

(** None of its programs panics. *)
Lemma CollectRows_returns {A B} (rows : list A) (scan : A -> result B) :
  leaves (fun _ => True) (CollectRows rows scan).
Proof. intros [[]|e]; simpl; [by case_match |]. intros n. by case_match. Qed.

Lemma query_returns {A B} (q : Db -> A) (f : result A -> prog B) :
  (forall r, leaves (fun _ => True) (f r)) -> leaves (fun _ => True) (bind (call (OpQuery q)) f).
Proof. intros H r. apply H. Qed.

Lemma and_then_returns p f :
  leaves (fun _ => True) p -> (forall r, leaves (fun _ => True) (f r)) ->
  leaves (fun _ => True) (and_then p f).
Proof. intros Hp Hf. apply leaves_bind. eapply leaves_mono; [|exact Hp]. by intros [] _. Qed.

(** A query whose rows are collected. *)
Lemma collected_returns {A B C} (q : Db -> list A) (scan : A -> result B) e1 e2 (k : list B -> C) :
  leaves (fun _ => True)
    (bind (call (OpQuery q)) (fun rows => match rows with
       | Err err => Ret (Err (e1 err))
       | Ok rows => bind (CollectRows rows scan) (fun found => match found with
           | Err err => Ret (Err (e2 err))
           | Ok found => Ret (Ok (k found))
           end)
       end)).
Proof.
  apply query_returns. intros [rows|e]; [|done]. apply leaves_bind.
  eapply leaves_mono; [|apply CollectRows_returns]. by intros [] _.
Qed.

Lemma Check_returns baseline : leaves (fun _ => True) (Check baseline).
Proof.
  apply and_then_returns; [apply query_returns; intros r; by repeat case_match |]. intros r1.
  apply and_then_returns; [apply collected_returns |]. intros r2.
  apply and_then_returns; [apply collected_returns |]. intros r3. apply collected_returns.
Qed.

Lemma SnapshotBaseline_returns : leaves (fun _ => True) SnapshotBaseline.
Proof.
  apply query_returns. intros [rows|e]; [|done]. intros [x|e]; cbn [bind].
  - by destruct (scan_baseline rows ∅).
  - intros n. cbn [bind]. by destruct (scan_baseline _ ∅).
Qed.

Lemma readBalances_returns ids : leaves (fun _ => True) (readBalances ids).
Proof.
  apply leaves_bind. assert (H : forall m, leaves (fun _ => True) (readAccounts ids m)).
  - induction ids as [|i ids IH]; intros m; [done |]. cbn [readAccounts]. apply leaves_bind.
    intros r. cbn [bind]. destruct (scan_row r); [apply IH |]. by destruct (errors_Is _ _).
  - eapply leaves_mono; [|apply H]. intros [m|e] _; [|done]. apply query_returns. intros r. by case_match.
Qed.

Lemma Create_returns c : leaves (fun _ => True) (Create c).
Proof. unfold Create. destruct (Currency_Validate c); [done |]. by intros []. Qed.

Lemma setupAccounts_total pe opt c : total (setupAccounts (R := R) pe opt c).
Proof.
  unfold setupAccounts. repeat case_match; try apply total_ret.
  apply total_bind; [|intros ids; apply total_ret].
  match goal with |- total (createAccounts ?n _ _) => generalize n end.
  intros n. induction n as [|n IH]; [apply total_ret |]. cbn [createAccounts].
  apply total_bind; [eapply total_perform, Create_returns |]. intros [acct|e]; [|apply total_ret].
  apply total_bind; [case_match; [apply total_pool_Exec | apply total_ret] |].
  intros [z|e]; [|apply total_ret]. apply total_bind; [apply IH |]. intros []; apply total_ret.
Qed.
End total.

(** ** The verdict *)

Section verdict.
Context {R : Type} {RC : UniversalClient R} {UL : UuidLib} {RCo : RecordCodec}.
Implicit Types (w : World R).

(** A program run by itself keeps what [safe] promises. *)
Lemma safe_run {A} I (okay : forall B, op B -> Prop) (Q : A -> Db -> Prop) p es w w' a :
  stable I okay -> I (w_db w) -> safe I okay Q p (w_db w) -> run p es w = (w', Some a) ->
  I (w_db w') /\ db_le (w_db w) (w_db w') /\ Q a (w_db w').
Proof.
  intros Hst. revert es w. induction p as [x|why|X o k IH]; intros es w HI; simpl.
  - intros HQ [= <- <-]. done.
  - done.
  - intros [Hok Hk]. destruct (handle (es O) w o) as [w1 b] eqn:Hh. apply handle_eff in Hh.
    destruct (Hst _ _ _ _ _ HI Hok Hh) as [HI1 Hle].
    intros Hr. destruct (IH b (fun n => es (S n)) w1 HI1) as (? & ? & ?);
      [by apply (Hk (w_db w)) | done |].
    split_and!; [done | by etrans | done].
Qed.

Lemma perform_grown {A} base (P : A -> Prop) (p : prog A) w w' a :
  service_inv base (w_db w) -> perform p w w' a ->
  (forall db, safe (service_inv base) service_op (fun a _ => P a) p db) ->
  grown base w base w' /\ P a.
Proof.
  intros Hinv [es Hr] Hs.
  destruct (safe_run (service_inv base) service_op (fun a _ => P a) p es w w' a) as (? & ? & ?);
    [apply service_stable | done | done | done |]. by split.
Qed.

(** A program whose operations are allowed. *)
Lemma all_ops_any {A} base (p : prog A) db :
  all_ops service_op p -> safe (service_inv base) service_op (fun _ _ => True) p db.
Proof. intros H. eapply safe_mono; [|apply all_ops_safe; [apply service_stable | done]]. done. Qed.

Lemma readAccounts_ops ids m : all_ops service_op (readAccounts ids m).
Proof.
  revert m. induction ids as [|i ids IH]; intros m; [done |]. cbn [readAccounts].
  apply all_ops_bind; [|intros []; [apply IH | done]].
  split; [done |]. intros x. cbn [bind]. by repeat case_match.
Qed.

(** Every total the tool reads is the money supply. *)
Lemma readBalances_total base ids db :
  safe (service_inv base) service_op
    (fun r _ => forall balances total, r = Ok (balances, total) -> total = sumZ id base)
    (readBalances ids) db.
Proof.
  unfold readBalances. apply safe_frame; [apply service_stable | apply readAccounts_ops |].
  intros [m|e] db1 _; [|done]. cbn [bind call safe]. split; [done |].
  intros db2 db3 row _ [Hinv _] [-> [->|[e ->]]]; [|done].
  unfold scan_int64. destruct (in_int64 _); [|done]. cbn [safe].
  intros balances total [= _ <-]. by apply total_balance_base.
Qed.

Lemma Report_OK_clean r :
  Report_OK r = true ->
  rp_NegativeBalances r = [] /\ rp_BalanceMismatches r = [] /\ rp_UnbalancedTransfers r = []
  /\ rp_TotalLedgerMinor r = 0.
Proof.
  unfold Report_OK. rewrite !andb_true_iff, !Nat.eqb_eq, !length_zero_iff_nil, Z.eqb_eq. tauto.
Qed.

Context {P : Type} {PL : PgxLib P}.
Variable uuid_parse_error : string -> goerr.
Variables (Version GOOS GOARCH : string) (NumCPU : Z) (server_version : string).
Abbreviation stress_ := (@stress_run R RC UL P PL uuid_parse_error Version GOOS GOARCH NumCPU server_version).

(** What a run that reports says, on a ledger in order. *)
Record verdict (opt : options) (r : StressResult) : Prop := {
  vd_conserved : sr_ConservationHeld r = true;
  vd_negative : sr_NegativeBalances r = 0;
  vd_violations : sr_LedgerInvariantViolations r = 0;
  vd_reconciled : sr_ReconciliationOK r = true;
  vd_problems : sr_Problems r = [];
  vd_attempts : sr_Attempts r = so_attempts opt;
  vd_counts : counts_ok (so_attempts opt) (sr_counts r);
  vd_ok : Result_OK r = (ct_UnexpectedFailures (sr_counts r) =? 0)
}.

Lemma conclude_verdict opt k c cmds counts d env before total after report :
  1 <= so_attempts opt -> length cmds = Z.to_nat (so_attempts opt) ->
  counts_ok (Z.of_nat (length cmds)) counts -> Report_OK report = true ->
  verdict opt (conclude opt k c cmds counts d env before total after total report).
Proof.
  intros Ha Hl Hc Hr. pose proof (Report_OK_clean _ Hr) as (Hn & Hm & Hu & Ht).
  rewrite Hl, Z2Nat.id in Hc by lia.
  split; unfold Result_OK, conclude, Problems; simpl;
    rewrite ?Hn, ?Hm, ?Hu, ?Ht, ?Hr, ?Z.eqb_refl, ?Hl, ?Z2Nat.id by lia; done.
Qed.

(** What is true of the world and of the outcome at the end. *)
Definition run_ok (opt : options) (base : gmap UUID Z) (w w' : World R) (out : outcome) : Prop :=
  exists base', grown base w base' w'
  /\ total_balance (w_db w) <= total_balance (w_db w') <= total_balance (w_db w) + minted opt /\
  match out with
  | Panicked => capacity_ok opt = false
  | Returned None err => is_Some err
  | Returned (Some r) err =>
      capacity_ok opt = true /\ verdict opt r
      /\ total_balance (w_db w') = total_balance (w_db w) + minted opt
      /\ err = (if ct_UnexpectedFailures (sr_counts r) =? 0 then None else Some violations_error)
  end.

(** A world that grew from [w], and by no more money than the run may mint. *)
Definition funded_by (opt : options) (base : gmap UUID Z) w (base' : gmap UUID Z) w' : Prop :=
  grown base w base' w'
  /\ total_balance (w_db w) <= total_balance (w_db w') <= total_balance (w_db w) + minted opt.

Lemma funded_grown opt base w base1 w1 w2 :
  funded_by opt base w base1 w1 -> grown base1 w1 base1 w2 -> funded_by opt base w base1 w2.
Proof.
  intros [Hg Ht] Hg2. split; [by eapply grown_trans |].
  by rewrite (total_balance_base base1 (w_db w2)), <- (total_balance_base base1 (w_db w1)) by (apply Hg || apply Hg2).
Qed.

Lemma funded_refl opt base w w1 :
  service_inv base (w_db w) -> grown base w base w1 -> funded_by opt base w base w1.
Proof.
  intros Hinv Hg. eapply funded_grown; [|exact Hg]. split; [by apply grown_refl |].
  pose proof (minted_nonneg opt). lia.
Qed.

Lemma fails_ok opt base base' w w1 w' err out :
  funded_by opt base w base' w1 -> fails err w1 w' out -> run_ok opt base w w' out.
Proof. intros [Hg Ht] [-> ->]. exists base'. split; [done |]. split; [done |]. eauto. Qed.

Lemma perform_any {A} base (p : prog A) w w' a :
  service_inv base (w_db w) -> all_ops service_op p -> perform p w w' a -> grown base w base w'.
Proof.
  intros Hinv Hp Hr. apply (perform_grown base (fun _ => True) p w w' a); [done | done |].
  intros db. by apply all_ops_any.
Qed.

Lemma execute_grown base cmds k w w' counts d :
  service_inv base (w_db w) -> execute cmds k w w' (counts, d) ->
  grown base w base w' /\ counts_ok (Z.of_nat (length cmds)) counts.
Proof.
  intros Hinv (w1 & began & H1 & w2 & cs & H2 & w3 & ended & H3 & [-> [= -> _]]).
  pose proof (perform_any base (call OpNow) _ _ _ Hinv ltac:(by split) H1) as Hg1.
  destruct (execute_workers_inv base _ _ _ _ _ (proj1 Hg1) H2) as [Hinv2 Hle2].
  pose proof (perform_any base (call OpNow) _ _ _ Hinv2 ltac:(by split) H3) as Hg3.
  split; [|by eapply execute_workers_counts].
  eapply grown_trans; [exact Hg1 |]. eapply grown_trans; [by split | exact Hg3].
Qed.

(** The snapshot is the baseline of the ledger, so the pass finds nothing. *)
Lemma snapshot_base_of base w w' r :
  service_inv base (w_db w) -> perform SnapshotBaseline w w' r ->
  grown base w base w'
  /\ forall baseline, r = Ok baseline -> forall i, base_of baseline i = base_of base i.
Proof.
  intros Hinv Hp.
  destruct (perform_grown base
    (fun r => forall b, r = Ok b -> exists d, service_inv base d
                /\ scan_baseline (select_unexplained d) ∅ = Ok b) _ _ _ _ Hinv Hp) as [Hg H].
  { intros db. by apply SnapshotBaseline_safe. }
  split; [done |]. intros b ->. destruct (H _ eq_refl) as (d & [Hd _] & Hs). by eapply snapshot_base.
Qed.

Lemma check_clean base baseline w w' r :
  service_inv base (w_db w) -> (forall i, base_of baseline i = base_of base i) ->
  perform (Check baseline) w w' r ->
  grown base w base w' /\ forall report, r = Ok report -> Report_OK report = true.
Proof.
  intros Hinv Hb Hp.
  apply (perform_grown base (fun r => forall report, r = Ok report -> Report_OK report = true)
           _ _ _ _ Hinv Hp).
  intros db. eapply safe_mono; [|by apply Check_snapshots].
  intros a db' Ha rep ->. destruct (Ha _ eq_refl) as (d1 & d2 & d3 & d4 & H1 & H2 & H3 & H4 & ->).
  by apply (report_from_OK base).
Qed.

Lemma read_supply base ids w w' r :
  service_inv base (w_db w) -> perform (readBalances ids) w w' r ->
  grown base w base w' /\ forall balances total, r = Ok (balances, total) -> total = sumZ id base.
Proof.
  intros Hinv Hp.
  apply (perform_grown base (fun r => forall b total, r = Ok (b, total) -> total = sumZ id base)
           _ _ _ _ Hinv Hp).
  intros db. apply readBalances_total.
Qed.

Lemma emit_ok opt base base' w w' w2 r out stdout_error :
  funded_by opt base w base' w2 -> capacity_ok opt = true -> verdict opt r ->
  total_balance (w_db w2) = total_balance (w_db w) + minted opt ->
  emit_and_exit opt stdout_error r w2 w' out -> run_ok opt base w w' out.
Proof.
  intros Hg Hcap Hv Ht. unfold emit_and_exit.
  destruct (if so_asJSON opt then stdout_error else None) as [err|]; [by eapply fails_ok |].
  rewrite (vd_ok _ _ Hv). intros He. exists base'.
  destruct (ct_UnexpectedFailures (sr_counts r) =? 0) eqn:Hu; simpl in He; destruct He as [-> ->];
    (split; [apply Hg |]); (split; [apply Hg |]); rewrite Hu; done.
Qed.

(** [run] from the baseline on, in a world that grew from [w]. *)
Lemma run_workload_ok opt cfg k c ids cmds stdout_error base base0 w w0 w' out :
  1 <= so_attempts opt -> capacity_ok opt = true -> length cmds = Z.to_nat (so_attempts opt) ->
  funded_by opt base w base0 w0 -> sumZ id base0 = total_balance (w_db w) + minted opt ->
  run_workload Version GOOS GOARCH NumCPU server_version opt cfg k c ids cmds stdout_error w0 w' out ->
  run_ok opt base w w' out.
Proof.
  intros Ha Hcap Hl Hg0 Hsum (w1 & sn & H1 & Hrun).
  destruct (snapshot_base_of _ _ _ _ (proj1 (proj1 Hg0)) H1) as [G1 Hb]. pose proof (funded_grown _ _ _ _ _ _ Hg0 G1) as Hg1.
  destruct sn as [baseline|err]; [|by eapply fails_ok]. specialize (Hb _ eq_refl).
  destruct Hrun as (w2 & b2 & H2 & Hrun).
  destruct (read_supply _ _ _ _ _ (proj1 (proj1 Hg1)) H2) as [G2 Ht2]. pose proof (funded_grown _ _ _ _ _ _ Hg1 G2) as Hg2.
  destruct b2 as [[before total2]|err]; [|by eapply fails_ok]. specialize (Ht2 _ _ eq_refl).
  destruct Hrun as (w3 & en & H3 & w4 & [counts d] & H4 & w5 & b5 & H5 & Hrun).
  pose proof (perform_any base0 (describeEnv _ _ _ _ _ _) _ _ _ (proj1 (proj1 Hg2))
                ltac:(by split; [|intros x; split]) H3) as G3.
  pose proof (funded_grown _ _ _ _ _ _ Hg2 G3) as Hg3.
  destruct (execute_grown _ _ _ _ _ _ _ (proj1 (proj1 Hg3)) H4) as [G4 Hc].
  pose proof (funded_grown _ _ _ _ _ _ Hg3 G4) as Hg4.
  destruct (read_supply _ _ _ _ _ (proj1 (proj1 Hg4)) H5) as [G5 Ht5]. pose proof (funded_grown _ _ _ _ _ _ Hg4 G5) as Hg5.
  destruct b5 as [[after total5]|err]; [|by eapply fails_ok]. specialize (Ht5 _ _ eq_refl).
  destruct Hrun as (w6 & rp & H6 & Hrun).
  destruct (check_clean _ _ _ _ _ (proj1 (proj1 Hg5)) Hb H6) as [G6 Hrp]. pose proof (funded_grown _ _ _ _ _ _ Hg5 G6) as Hg6.
  destruct rp as [report|err]; [|by eapply fails_ok]. specialize (Hrp _ eq_refl). subst total2 total5.
  eapply emit_ok; [exact Hg6 | exact Hcap | | | exact Hrun].
  - by apply conclude_verdict.
  - rewrite <- Hsum. apply total_balance_base, Hg6.
Qed.

Lemma stress_total opt loaded stdout_error : total (stress_ opt loaded stdout_error).
Proof.
  unfold stress_run. destruct (Z.ltb_spec (so_attempts opt) 1) as [|Ha]; [apply total_ret |].
  assert (Hk : 0 < effective_concurrency opt).
  { unfold effective_concurrency. destruct (Z.leb_spec (so_concurrency opt) 0); simpl; [lia |].
    destruct (_ <? _); lia. }
  destruct (ParseCurrency _) as [c|err]; [|apply total_ret].
  destruct loaded as [cfg|err]; [|apply total_ret].
  destruct (database_New cfg) as [db|err]; [|apply total_ret].
  apply total_bind; [eapply total_perform, database_Verify_returns |]. intros [err|]; [apply total_ret |].
  apply total_bind; [apply setupAccounts_total |]. intros [[ids|err]|]; [|apply total_ret..].
  destruct (buildCommands opt c ids) as [cmds|]; [|apply total_ret].
  apply total_bind; [eapply total_perform, SnapshotBaseline_returns |]. intros [bl|err]; [|apply total_ret].
  apply total_bind; [eapply total_perform, readBalances_returns |]. intros [[b t]|err]; [|apply total_ret].
  apply total_bind; [by apply (total_perform (fun _ => True)); intros x y |]. intros en.
  apply total_bind; [by apply execute_total |]. intros [counts d].
  apply total_bind; [eapply total_perform, readBalances_returns |]. intros [[b' t']|err]; [|apply total_ret].
  apply total_bind; [eapply total_perform, Check_returns |]. intros [rp|err]; [|apply total_ret].
  unfold emit_and_exit. destruct (if so_asJSON opt then _ else _); [apply total_ret |].
  destruct (negb _); apply total_ret.
Qed.

Lemma stress_run_ok opt loaded stdout_error base w w' out :
  service_inv base (w_db w) -> stress_ opt loaded stdout_error w w' out ->
  run_ok opt base w w' out.
Proof.
  intros Hinv. pose proof (funded_refl opt base w w Hinv (grown_refl _ _ Hinv)) as H0.
  unfold stress_run. destruct (Z.ltb_spec (so_attempts opt) 1) as [|Ha]; [by eapply fails_ok |].
  destruct (ParseCurrency _) as [c|err]; [|by eapply fails_ok].
  destruct loaded as [cfg|err]; [|by eapply fails_ok].
  destruct (database_New cfg) as [db|err]; [|by eapply fails_ok].
  intros (w1 & v & H1 & Hrun).
  pose proof (perform_any base (database_Verify db) _ _ _ Hinv ltac:(by split; [|intros []]) H1) as G1.
  destruct v as [err|]; [eapply fails_ok; [by apply funded_refl | exact Hrun] |].
  destruct Hrun as (w2 & r2 & H2 & Hrun).
  destruct (setupAccounts_grown _ _ _ _ _ _ _ (proj1 G1) H2) as (base' & G2 & Hsum & Hr2).
  assert (Hg : funded_by opt base w base' w2).
  { split; [by eapply grown_trans |]. rewrite (total_balance_base base), (total_balance_base base');
      [done | apply G2 | apply Hinv]. }
  destruct r2 as [[ids|err]|].
  - destruct Hr2 as (Hs & Hlen & Hcap & _).
    destruct (make_fits sizeof_Command (so_attempts opt)) eqn:Hfit.
    + destruct (buildCommands_drawn opt c ids Hlen Hfit) as (cmds & Hb & Hl & _). rewrite Hb in Hrun.
      eapply run_workload_ok; [exact Ha | exact Hcap | exact Hl | exact Hg | | exact Hrun].
      rewrite Hs. f_equal. symmetry. apply total_balance_base, Hinv.
    + unfold buildCommands in Hrun. rewrite Hfit in Hrun. destruct Hrun as [-> ->].
      exists base'. split; [apply Hg |]. split; [apply Hg | done].
  - by eapply fails_ok.
  - destruct Hrun as [-> ->]. exists base'. split; [apply Hg |]. split; [apply Hg | done].
Qed.

End verdict.


(** ** What is printed *)

Definition all_held : msg := [Txt newline; Txt "all invariants held for this run"; Txt newline].

(** The text ends with the all-clear exactly when the run is OK, after one line
    for each problem. *)
Lemma emit_text_verdict order r :
  (all_held ∈ emit_text order r <-> Result_OK r = true)
  /\ (forall p, p ∈ sr_Problems r ->
        ([Txt newline; Txt "PROBLEM: "] ++ p ++ [Txt newline])%list ∈ emit_text order r).
Proof.
  unfold emit_text. split.
  - rewrite !elem_of_app. split; [|by intros ->; right; right; right; right; left].
    intros [H|[H|[H|[H|H]]]].
    + by repeat (apply elem_of_cons in H as [?|H]; [done |]); apply elem_of_nil in H.
    + by apply list_elem_of_fmap in H as ([? ?] & ? & _).
    + by repeat (apply elem_of_cons in H as [?|H]; [done |]); apply elem_of_nil in H.
    + by apply list_elem_of_fmap in H as (? & ? & _).
    + by destruct (Result_OK r); [|apply elem_of_nil in H].
  - intros p Hp. rewrite !elem_of_app. right; right; right; left. apply list_elem_of_fmap. eauto.
Qed.

(** ** The witnesses: two accounts of its own, the ring, one transfer *)

Definition ring_options : options :=
  mkOptions "ring" 1 0 100 "USD" 0 2 "" "" (5 * Minute) true false.

(** An empty ledger. *)
Definition new_world : World MemRedis := mkWorld empty_db ∅.

Lemma new_service_inv : service_inv ∅ (w_db new_world).
Proof. split; [apply db_inv_empty |]. intros i t k. simpl. by rewrite lookup_empty. Qed.

(** Two accounts are created; the [i]-th is drawn from the [i]-th environment. *)
Lemma ring_setup :
  exists w', setupAccounts (R := MemRedis) External ring_options "USD" new_world w'
               (Some (Ok [uuid_of_Z 6000; uuid_of_Z 6100]))
             /\ w' = mkWorld (mkDb (<[uuid_of_Z 6000 := mkAccount (uuid_of_Z 6000) "USD" 100 7 7]>
                                 (<[uuid_of_Z 6100 := mkAccount (uuid_of_Z 6100) "USD" 100 7 7]>
                                    ∅)) ∅ ∅) ∅.
Proof.
  eexists. split.
  - do 2 eexists. split; [|split; reflexivity].
    do 2 eexists. split; [exists (fun _ => scn_env 50); vm_compute; reflexivity |]. cbn iota beta.
    do 2 eexists. split; [exists (scn_tx 0); vm_compute; reflexivity |]. cbn iota beta.
    do 2 eexists. split.
    + do 2 eexists. split; [exists (fun _ => scn_env 51); vm_compute; reflexivity |]. cbn iota beta.
      do 2 eexists. split; [exists (scn_tx 0); vm_compute; reflexivity |]. cbn iota beta.
      do 2 eexists. split; [split; reflexivity |]. split; reflexivity.
    + split; reflexivity.
  - vm_compute. reflexivity.
Qed.

(** A run in which every step succeeds, from its parts. *)
Lemma stress_run_intro {R} {RC : UniversalClient R} {UL : UuidLib} {P} {PL : PgxLib P}
    pe Version GOOS GOARCH NumCPU sv opt cfg c db ids cmds bl before t env counts d after t' rp
    (w w2 w3 : World R) :
  (so_attempts opt <? 1) = false -> ParseCurrency (so_currency opt) = Ok c ->
  database_New cfg = Ok db -> perform (database_Verify db) w w None ->
  setupAccounts pe opt c w w2 (Some (Ok ids)) -> buildCommands opt c ids = Some cmds ->
  perform SnapshotBaseline w2 w2 (Ok bl) -> perform (readBalances ids) w2 w2 (Ok (before, t)) ->
  perform (describeEnv Version GOOS GOARCH NumCPU sv cfg) w2 w2 env ->
  execute cmds (effective_concurrency opt) w2 w3 (counts, d) ->
  perform (readBalances ids) w3 w3 (Ok (after, t')) -> perform (Check bl) w3 w3 (Ok rp) ->
  let r := conclude opt (effective_concurrency opt) c cmds counts d env before t after t' rp in
  Result_OK r = true ->
  stress_run (P := P) pe Version GOOS GOARCH NumCPU sv opt (Ok cfg) None w w3 (Returned (Some r) None).
Proof.
  intros Ha Hc Hdb H1 H2 Hb H3 H4 H5 H6 H7 H8 r Hr. unfold stress_run. rewrite Ha, Hc, Hdb.
  exists w, None. split; [done |]. exists w2, (Some (Ok ids)). split; [done |]. cbn iota. rewrite Hb.
  exists w2, (Ok bl). split; [done |]. exists w2, (Ok (before, t)). split; [done |].
  exists w2, env. split; [done |]. exists w3, (counts, d). split; [done |].
  exists w3, (Ok (after, t')). split; [done |]. exists w3, (Ok rp). split; [done |].
  unfold emit_and_exit. fold r. rewrite Hr. by destruct (so_asJSON opt).
Qed.

(** The whole command, the transfers one after the other. *)
Definition ring_config : Config := Eval vm_compute in default_config.
Definition ring_ids : list UUID := [uuid_of_Z 6000; uuid_of_Z 6100].
Definition ring_cmds : list Command :=
  Eval vm_compute in default [] (buildCommands ring_options "USD" ring_ids).
Definition ring_before : World MemRedis :=
  Eval vm_compute in
    mkWorld (mkDb (<[uuid_of_Z 6000 := mkAccount (uuid_of_Z 6000) "USD" 100 7 7]>
               (<[uuid_of_Z 6100 := mkAccount (uuid_of_Z 6100) "USD" 100 7 7]> ∅)) ∅ ∅) ∅.
Definition ring_after : option (World MemRedis * Counts) :=
  Eval vm_compute in run_sequential ring_cmds (fun n _ => scn_env n) ring_before no_counts.

Abbreviation ring_run :=
  (stress_run (R := MemRedis) (P := PoolConfig) External "go1.24" "linux" "amd64" 8 "17"
     ring_options (Ok ring_config) None).

Lemma perform_intro {R} {RC : UniversalClient R} {A} (p : prog A) (w w' : World R) a :
  run p scn_env w = (w', Some a) -> perform p w w' a.
Proof. by exists scn_env. Qed.

(** What the steps of the run answer. *)
Definition answer {A} (p : prog A) (w : World MemRedis) (d : A) : A := default d (snd (run p scn_env w)).

Definition ring_end : World MemRedis := default ring_before (fst <$> ring_after).
Definition ring_counts : Counts := default no_counts (snd <$> ring_after).
Definition ok_or {A} (d : A) (r : result A) : A := match r with Ok a => a | Err _ => d end.
Definition ring_baseline : Baseline := ok_or ∅ (answer SnapshotBaseline ring_before (Ok ∅)).
Definition ring_read (w : World MemRedis) : gmap string Z * Z :=
  ok_or (∅, 0) (answer (readBalances ring_ids) w (Ok (∅, 0))).
Definition ring_env : StressEnv :=
  Eval vm_compute in
    answer (describeEnv "go1.24" "linux" "amd64" 8 "17" ring_config) ring_before
      (mkStressEnv "" "" 0 "" "" 0 "" "").
Definition ring_report : Report := ok_or empty_report (answer (Check ring_baseline) ring_end (Ok empty_report)).
Definition ring_db : DB PoolConfig :=
  Eval vm_compute in ok_or (mkDB (mkPoolConfig "" 0 0 0 ∅) 0 "") (database_New ring_config).

(** The equation of closed terms by evaluation. *)
Local Ltac evaluates := match goal with |- _ = ?b => vm_cast_no_check (eq_refl b) end.

Lemma ring_executes : execute ring_cmds 1 ring_before ring_end (ring_counts, 0).
Proof.
  exists ring_before, 0. split; [by apply perform_intro |]. exists ring_end, ring_counts.
  split; [apply (run_sequential_execute 1 _ (fun n _ => scn_env n)); [done | evaluates] |].
  exists ring_end, 0. split; [by apply perform_intro | done].
Qed.

Lemma ring_runs :
  let r := conclude ring_options 1 "USD" ring_cmds ring_counts 0 ring_env
             (fst (ring_read ring_before)) (snd (ring_read ring_before))
             (fst (ring_read ring_end)) (snd (ring_read ring_end)) ring_report in
  ring_run new_world ring_end (Returned (Some r) None) /\ ct_Successful (sr_counts r) = 1.
Proof.
  destruct ring_setup as (w1 & Hs & Hw).
  assert (Hw' : w1 = ring_before) by (rewrite Hw; vm_compute; reflexivity). rewrite Hw' in Hs.
  cbv zeta. split; [|evaluates].
  apply (stress_run_intro External "go1.24" "linux" "amd64" 8 "17" ring_options ring_config "USD"
           ring_db ring_ids ring_cmds ring_baseline _ _ _ _ _ _ _ _ new_world ring_before ring_end);
    [evaluates | evaluates | evaluates | apply perform_intro; evaluates | exact Hs | evaluates
    | apply perform_intro; evaluates | apply perform_intro; evaluates | apply perform_intro; evaluates
    | apply ring_executes | apply perform_intro; evaluates | apply perform_intro; evaluates
    | evaluates].
Qed.

Lemma execute_terminates_witness :
  exists n e, nsteps (xstep 1) n (exec_init scn_world [scn_cmd; scn_cmd]) e
    /\ (1 <= n <= 126)%nat /\ (all_done e = true \/ exists e', xstep 1 e e').
Proof.
  assert (Hs : nsteps (xstep 1) 1 (exec_init scn_world [scn_cmd; scn_cmd])
                 (mkExec scn_world [WRunning (PostWithAttempts stress_policy scn_cmd); WBlocked scn_cmd]
                    no_counts)).
  { apply nsteps_once. apply (x_slot 1 scn_world [WBlocked scn_cmd; WBlocked scn_cmd] no_counts 0 scn_cmd);
      [reflexivity | by vm_compute]. }
  destruct (execute_terminates 1 scn_world [scn_cmd; scn_cmd] 1 _ ltac:(lia) Hs) as [Hn Hp].
  do 2 eexists. split; [exact Hs |]. split; [simpl in Hn; lia | exact Hp].
Defined.
