(* ===== verification/StressReport.v ===== *)
(** * [cmd/stress]: the report and the ledger

    What a report of the stress command says is true of the database it ran
    against: its counts are the rows of the tables, its successes are among the
    new transfers and its attempts bound them, its balances are those of the
    accounts; and the JSON it prints carries all of it. *)
From stdpp Require Import base gmap fin_maps strings list relations.
From Stdlib Require Import ZArith Lia Ascii.
From S2P Require Import Prelude.
From S2P Require Import GoStd.
From S2P Require Import GoTime.
From S2P Require Import Uuid.
From S2P Require Import Errors.
From S2P Require Import Config.
From S2P Require Import Money.
From S2P Require Import Schema.
From S2P Require Import Tx.
From S2P Require Import Transfer.
From S2P Require Import Posting.
From S2P Require Import LedgerInv.
From S2P Require Import Prog.
From S2P Require Import Pools.
From S2P Require Import Retry.
From S2P Require Import Account.
From S2P Require Import Store.
From S2P Require Import Instances.
From S2P Require Import Idempotent.
From S2P Require Import Scenario.
From S2P Require Import Concurrency.
From S2P Require Import Reconcile.
From S2P Require Import AtMostOnce.
From S2P Require Import System.
From S2P Require Import Stress.
From S2P Require Import GoStrings.
From S2P Require Import GoJson.
From S2P Require Import JsonSpec.
From S2P Require Import GoFmt.
From S2P Require Import RecordJson.
From S2P Require Import StoreSpec.
From S2P Require Import StressJson.
From S2P Require Import StressSpec.

Open Scope Z_scope.

(** ** Transfers in the table *)

Definition transfer_count (db : Db) : Z := countZ (fun _ => true) (transfers db).
Definition entry_total (db : Db) : Z := countZ (fun _ => true) (ledger_entries db).

(** A posting that was reported to its caller. *)
Definition ok_post {B} (o : op B) : B -> Z :=
  match o in op B return B -> Z with
  | OpPostOnce _ _ => fun r => if is_Ok r then 1 else 0
  | _ => fun _ => 0
  end.

(** An operation adds at most the transfer it posts, and adds it when it says so. *)
Lemma eff_transfers {B} (o : op B) db db' b :
  well_keyed db -> eff o db db' b ->
  transfer_count db + ok_post o b <= transfer_count db' <= transfer_count db + cost_posts B o.
Proof.
  intros Hwk. unfold transfer_count.
  destruct o as [cmd stamp|c|A q|k v t|k|k v t|k| | | |d]; cbn [eff ok_post cost_posts];
    try (intros ->; lia).
  - intros [env H]. destruct (postOnce_cases _ _ _ _ _ _ Hwk H) as [[-> [e ->]]|(s & d & Hc & -> & Hr)];
      [simpl; lia |]. simpl. rewrite countZ_insert by apply Hc. destruct Hr as [->|(e & -> & _)]; simpl; lia.
  - intros [env [[-> _]|(row & _ & _ & _ & -> & _)]%createAccount_cases]; simpl; lia.
  - intros [-> _]. lia.
Qed.

Definition succeeded (out : result Transfer * Attempts) : Z := if is_Ok out.1 then 1 else 0.

(** ** What a goroutine accounts for

    [paid n m p]: a goroutine that ran [n] postings so far, [m] of them reported
    to it, and goes on with [p]; in the end its attempts are its postings, and
    a success is one that was reported. *)
Section goroutine.
Context {UL : UuidLib}.

Fixpoint paid (n m : Z) (p : prog (result Transfer * Attempts)) : Prop :=
  match p with
  | Ret (r, a) => n = Total a /\ succeeded (r, a) <= m
  | Crash _ => False
  | Vis o k => service_op _ o /\ forall b, paid (n + cost_posts _ o) (m + ok_post o b) (k b)
  end.

Lemma paid_wait p attempt n m k :
  policy_ok p -> (forall r, paid n m (k r)) -> paid n m (bind (wait p attempt) k).
Proof.
  intros Hp Hk. cbn [wait bind call paid]. split; [done |]. intros draw.
  destruct (delay_range p attempt draw Hp) as (d & -> & _).
  destruct (d <=? 0); cbn [bind call paid]; (split; [done |]); intros r; cbn [cost_posts ok_post];
    rewrite !Z.add_0_r; apply Hk.
Qed.

Lemma paid_retry_loop fuel p cmd n m a :
  policy_ok p -> 0 <= m -> 1 <= n <= max_attempts p -> fuel = Z.to_nat (max_attempts p - n + 1) ->
  paid (n - 1) m (retry_loop fuel p cmd None n a).
Proof.
  intros Hp Hm. revert n a. induction fuel as [|fuel IH]; intros n a Hn Hf; [lia |].
  cbn [retry_loop bind call paid]. split; [done |]. intros [t|e]; cbn [cost_posts ok_post is_Ok].
  { cbn [paid]. unfold succeeded. split; simpl; lia. }
  destruct (retryableCode e) as [c b] eqn:Ec. destruct b; cbn [negb].
  2: { cbn [paid]. unfold succeeded. split; simpl; lia. }
  destruct (record_retryable _ _ (with_total a n) Ec) as (Ht & _). cbn [with_total Total] in Ht.
  destruct (Z.leb_spec (MaxAttempts p) n); [cbn [paid]; unfold succeeded; split; simpl; lia |].
  apply paid_wait; [done |]. intros [cerr|]; [cbn [paid]; unfold succeeded; split; simpl; lia |].
  rewrite Z.add_0_r. replace (n - 1 + 1) with (n + 1 - 1) by lia.
  apply IH; unfold max_attempts in *; lia.
Qed.

Lemma paid_PostWithAttempts cmd : paid 0 0 (PostWithAttempts stress_policy cmd).
Proof.
  unfold PostWithAttempts, postWithRetry. destruct (Command_Validate cmd); [done |].
  apply (paid_retry_loop (Z.to_nat (Z.max 1 (MaxAttempts stress_policy))) stress_policy cmd 1 0);
    [apply stress_policy_ok | done | by vm_compute | by vm_compute].
Qed.

End goroutine.

(** ** Sums over the goroutines *)

Definition total_of {A} (f : A -> Z) (l : list A) : Z := foldr (fun x acc => f x + acc) 0 l.

Lemma total_of_insert {A} (f : A -> Z) l i x y :
  l !! i = Some x -> total_of f (<[i := y]> l) = total_of f l - f x + f y.
Proof.
  revert i. induction l as [|z l IH]; intros [|i]; simpl; intros; simplify_eq; [lia |].
  rewrite (IH i) by done. lia.
Qed.

Lemma total_of_perm {A} (f : A -> Z) l k : l ≡ₚ k -> total_of f l = total_of f k.
Proof. induction 1; simpl; lia. Qed.

Lemma foldl_counts outs c :
  ct_Successful (foldl count_outcome c outs) = ct_Successful c + total_of succeeded outs
  /\ ct_TotalAttempts (foldl count_outcome c outs)
     = ct_TotalAttempts c + total_of (fun out => Total out.2) outs.
Proof.
  revert c. induction outs as [|[r a] outs IH]; intros c; [simpl; lia |].
  cbn [foldl total_of foldr]. destruct (IH (count_outcome c (r, a))) as [-> ->].
  fold (total_of succeeded outs) (total_of (fun out : result Transfer * Attempts => Total out.2) outs).
  unfold count_outcome, succeeded at 2. cbn [fst snd].
  destruct r as [t|e]; simpl; [lia |].
  destruct (errors_Is e ErrInsufficientFunds); simpl; [lia |].
  destruct (errors_Is e ErrRetriesExhausted); simpl; lia.
Qed.

(** ** The table while the goroutines run *)

Section table.
Context {R : Type} {RC : UniversalClient R} {UL : UuidLib} {RCo : RecordCodec}.
Implicit Types (e : @Exec R) (w : World R).

(** The postings the goroutines account for bracket the transfers added since
    there were [n0]. *)
Record table_inv (base : gmap UUID Z) (n0 : Z) (e : @Exec R) : Prop := {
  ti_books : service_inv base (w_db (x_world e));
  ti_paid : exists gs : list (Z * Z),
    Forall2 (fun x g => paid g.1 g.2 (prog_of x)) (x_workers e) gs
    /\ n0 + total_of snd gs <= transfer_count (w_db (x_world e)) <= n0 + total_of fst gs
}.

Lemma table_inv_init base w cmds :
  service_inv base (w_db w) -> table_inv base (transfer_count (w_db w)) (exec_init w cmds).
Proof.
  intros Hinv. split; [done |]. exists (replicate (length cmds) (0, 0)). split.
  - simpl. clear Hinv. induction cmds as [|cmd cmds IH]; simpl; constructor; [|done].
    apply paid_PostWithAttempts.
  - assert (Hz : forall f : Z * Z -> Z, f (0, 0) = 0 -> total_of f (replicate (length cmds) (0, 0)) = 0).
    { intros f Hf. induction (length cmds) as [|n IH]; simpl; lia. }
    rewrite !Hz by done. simpl. lia.
Qed.

Lemma table_inv_step base n0 k e e' : xstep k e e' -> table_inv base n0 e -> table_inv base n0 e'.
Proof.
  intros Hs [Hb (gs & Hp & Hn)].
  assert (Hsame : forall w ws c c' i x x', e = mkExec w ws c -> ws !! i = Some x -> prog_of x' = prog_of x ->
    table_inv base n0 (mkExec w (<[i := x']> ws) c')).
  { intros w ws c c' i x x' -> Hi Hx. split; [done |]. exists gs. split; [|done]. simpl in *.
    destruct (Forall2_lookup_l _ _ _ _ _ Hp Hi) as (g & Hg & Hpg).
    rewrite <- (list_insert_id gs i g) by done. apply Forall2_insert; [done |]. by rewrite Hx. }
  destruct Hs as [w ws c i cmd Hi _|w ws c i B o kk ev w' b Hi Hh|w ws c i out Hi|w ws c i out Hi];
    try (by eapply Hsame).
  simpl in *. destruct (Forall2_lookup_l _ _ _ _ _ Hp Hi) as (g & Hg & Hop & Hpk).
  apply handle_eff in Hh. destruct (service_stable base _ o _ _ b Hb Hop Hh) as [Hb' _].
  pose proof (eff_transfers o _ _ b (inv_keyed _ _ (proj1 Hb)) Hh) as Ht.
  split; [done |]. exists (<[i := (g.1 + cost_posts B o, g.2 + ok_post o b)]> gs). split.
  - apply Forall2_insert; [done |]. apply Hpk.
  - simpl. rewrite !(total_of_insert _ _ _ _ _ Hg). simpl. lia.
Qed.

Lemma table_inv_steps base n0 k e e' : rtc (xstep k) e e' -> table_inv base n0 e -> table_inv base n0 e'.
Proof. induction 1; eauto using table_inv_step. Qed.

(** Goroutines that are done account for what they counted. *)
Lemma paid_done ws (gs : list (Z * Z)) :
  Forall2 (fun x g => paid g.1 g.2 (prog_of x)) ws gs -> forallb is_done ws = true ->
  total_of fst gs = total_of (fun out => Total out.2) (omap counted_out ws)
  /\ total_of succeeded (omap counted_out ws) <= total_of snd gs.
Proof.
  intros Hp. induction Hp as [|x [n m] ws gs Hx _ IH]; [done |].
  destruct x as [| | |[r a]]; try done. cbn [forallb is_done andb]. intros Hd.
  destruct (IH Hd) as [IH1 IH2]. destruct Hx as [Hn Hm].
  cbn [omap list_omap counted_out total_of foldr fst snd] in *.
  change (list_omap _ _ counted_out ws) with (omap counted_out ws). unfold total_of in *. lia.
Qed.

(** The successes were posted, and no transfer was posted without an attempt. *)
Lemma execute_workers_table base k cmds w w' c :
  service_inv base (w_db w) -> execute_workers cmds k w w' c ->
  transfer_count (w_db w) + ct_Successful c <= transfer_count (w_db w')
    <= transfer_count (w_db w) + ct_TotalAttempts c.
Proof.
  intros Hinv (ws & Hs & Hd).
  destruct (counts_inv_steps _ cmds _ _ Hs (counts_inv_init w cmds)) as [_ _ (outs & Hp & Hc)].
  destruct (table_inv_steps base _ _ _ _ Hs (table_inv_init base w cmds Hinv)) as [_ (gs & Hg & Hn)].
  simpl in *. destruct (paid_done _ _ Hg Hd) as [H1 H2].
  destruct (foldl_counts outs no_counts) as [E1 E2]. rewrite <- Hc in E1, E2. simpl in E1, E2.
  rewrite !(total_of_perm _ _ _ Hp) in *. lia.
Qed.
End table.

(** ** Reading *)

Section reading.
Context {R : Type} {RC : UniversalClient R} {UL : UuidLib}.
Implicit Types (w : World R).

(** A reader alone sees one state of the database, and leaves it. *)
Lemma perform_reads {A} (Q : A -> Prop) (p : prog A) w w' a :
  (forall db, safe (fun d => d = w_db w) (@quiet) (fun a _ => Q a) p db) ->
  perform p w w' a -> w_db w' = w_db w /\ Q a.
Proof.
  intros Hs [es Hr].
  destruct (safe_run (fun d => d = w_db w) (@quiet) (fun a _ => Q a) p es w w' a) as (? & _ & ?);
    [|done | done | done | done].
  intros B o db db' b -> Hq He. assert (db' = w_db w) as ->; [|done].
  destruct o; simpl in *; try done. by destruct He.
Qed.

Lemma perform_quiet {A} (p : prog A) w w' a :
  all_ops (@quiet) p -> perform p w w' a -> w_db w' = w_db w.
Proof. intros Hq [es Hr]. pose proof (run_quiet p es w Hq) as H. by rewrite Hr in H. Qed.

(** What [readBalances] collects of a database. *)
Definition balances_of (ids : list UUID) (db : Db) (balances : gmap string Z) : Prop :=
  forall s b, balances !! s = Some b <->
    exists id row, id ∈ ids /\ s = uuid_String id /\ accounts db !! id = Some row /\ a_balance_minor row = b.

Lemma readAccounts_reads db0 ids seen m :
  balances_of seen db0 m ->
  forall db, safe (fun d => d = db0) (@quiet)
    (fun r _ => forall m', r = Ok m' ->
       balances_of (ids ++ seen) db0 m' /\ Forall (fun id => is_Some (accounts db0 !! id)) ids)
    (readAccounts ids m) db.
Proof.
  revert seen m. induction ids as [|id ids IH]; intros seen m Hm db; [by intros m' [= <-] |].
  cbn [readAccounts]. unfold Account_Get. cbn [bind call safe]. split; [done |].
  intros db1 db2 row _ -> [-> [->|[e ->]]]; [|by cbn; case_match].
  cbn [scan_row]. destruct (accounts db0 !! id) as [a|] eqn:Ha; [|done]. cbn [bind safe].
  assert (Hm' : balances_of (id :: seen) db0 (<[uuid_String id := a_balance_minor a]> m)).
  { intros s b. rewrite lookup_insert_Some, (Hm s b). split.
    - intros [[<- <-]|[_ (i & r & Hi & H)]]; [|by exists i, r; rewrite elem_of_cons; naive_solver].
      exists id, a. rewrite elem_of_cons. naive_solver.
    - intros (i & r & [->|Hi]%elem_of_cons & -> & Hr & <-); [left; naive_solver |].
      destruct (decide (uuid_String id = uuid_String i)) as [E|E].
      + left. apply uuid_String_inj in E as ->. naive_solver.
      + right. split; [done |]. by exists i, r. }
  eapply safe_mono; [|apply (IH _ _ Hm')]. intros r db' Hr m' ->. destruct (Hr _ eq_refl) as [Hb Hall].
  split; [|apply Forall_cons; split; [by rewrite Ha | done]].
  intros s b. rewrite (Hb s b). do 2 (apply exist_proper; intros ?).
  by rewrite !elem_of_app, !elem_of_cons; intuition.
Qed.

Lemma readBalances_reads w w' ids balances total :
  perform (readBalances ids) w w' (Ok (balances, total)) ->
  w_db w' = w_db w /\ balances_of ids (w_db w) balances /\ total = total_balance (w_db w)
  /\ Forall (fun id => is_Some (accounts (w_db w) !! id)) ids.
Proof.
  intros Hp. destruct (perform_reads (fun r => forall b t, r = Ok (b, t) ->
    balances_of ids (w_db w) b /\ t = total_balance (w_db w)
    /\ Forall (fun id => is_Some (accounts (w_db w) !! id)) ids) (readBalances ids) w w'
    (Ok (balances, total))) as [Hw H]; [|done | by split; [|apply H]].
  intros db. unfold readBalances. apply safe_bind.
  eapply safe_mono; [|apply (readAccounts_reads (w_db w) ids [] ∅)].
  2: { intros s b. rewrite lookup_empty. split; [done |]. by intros (? & ? & ?%elem_of_nil & _). }
  intros [m|e] db1 Hm; [|done]. destruct (Hm _ eq_refl) as [Hb Hall]. rewrite app_nil_r in Hb.
  cbn [bind call safe]. split; [done |]. intros db2 db3 row _ -> [-> [->|[e ->]]]; [|done].
  unfold scan_int64. destruct (in_int64 _); [|done]. cbn [safe]. by intros b t [= <- <-].
Qed.

(** A pass alone reports on the one state there is. *)
Lemma Check_reads w w' baseline report :
  perform (Check baseline) w w' (Ok report) ->
  w_db w' = w_db w
  /\ report = report_from baseline (w_db w) (w_db w) (w_db w) (w_db w).
Proof.
  intros Hp. destruct (perform_reads (fun r => forall rep, r = Ok rep ->
    rep = report_from baseline (w_db w) (w_db w) (w_db w) (w_db w)) (Check baseline) w w'
    (Ok report)) as [Hw H]; [|done | by split; [|apply H]].
  intros db. eapply safe_mono; [|by apply Check_snapshots].
  intros r db' Hr rep ->. by destruct (Hr _ eq_refl) as (d1 & d2 & d3 & d4 & -> & -> & -> & -> & ->).
Qed.

Lemma SnapshotBaseline_quiet w w' r : perform SnapshotBaseline w w' r -> w_db w' = w_db w.
Proof.
  intros Hp. apply (perform_reads (fun _ => True) SnapshotBaseline w w' r); [|done]. intros db.
  eapply safe_mono; [|by apply SnapshotBaseline_safe]. done.
Qed.

(** ** Setting up changes no transfer *)

Lemma Create_transfers w w' c r :
  perform (Create c) w w' r -> transfers (w_db w') = transfers (w_db w).
Proof.
  intros [es Hr]. unfold Create in Hr. destruct (Currency_Validate c); [by injection Hr as <- _ |].
  simpl in Hr. unfold on_db in Hr. destruct (autocommit _ _ (w_db w)) as [db' b] eqn:Ha.
  assert (Ht : transfers db' = transfers (w_db w))
    by (by apply createAccount_cases in Ha as [[-> _]|(row & _ & _ & _ & -> & _)]).
  destruct b; simpl in Hr; by injection Hr as <- _.
Qed.

Lemma credit_transfers w w' id amount r :
  pool_Exec (sql_credit id amount) w w' r -> transfers (w_db w') = transfers (w_db w).
Proof.
  intros [env Hx]. unfold on_db in Hx. destruct (autocommit _ env (w_db w)) as [db' b] eqn:Ha.
  injection Hx as <- _. apply autocommit_exec in Ha as [[-> _]|(ds & n & Hf & _)]; [done |].
  unfold sql_credit in Hf. destruct (update_balance _ _ _ _ _) as [e|[db1 m]] eqn:Hu; [done |].
  injection Hf as <- _ _. unfold update_balance in Hu. simpl.
  destruct (accounts (w_db w) !! id); [|by injection Hu as <- _].
  sql_inv Hu. by simplify_eq.
Qed.

Lemma createAccounts_transfers n c f w w' r :
  createAccounts n c f w w' r -> transfers (w_db w') = transfers (w_db w).
Proof.
  revert w w' r. induction n as [|n IH]; intros w w' r; cbn [createAccounts]; [by intros [-> _] |].
  intros (w1 & [acct|e] & Hc & Hrest); apply Create_transfers in Hc as <-; [|by destruct Hrest as [-> _]].
  destruct Hrest as (w2 & fd & Hf & Hrest).
  assert (Ht : transfers (w_db w2) = transfers (w_db w1))
    by (destruct (0 <? f); [by eapply credit_transfers | by destruct Hf as [-> _]]).
  destruct fd as [z|e]; [|by destruct Hrest as [-> _]].
  destruct Hrest as (w3 & [ids|e] & Hloop & [-> _]); by rewrite (IH _ _ _ Hloop).
Qed.

Lemma setupAccounts_transfers pe opt c w w' r :
  setupAccounts pe opt c w w' r -> transfers (w_db w') = transfers (w_db w).
Proof.
  unfold setupAccounts. destruct (_ || _).
  - by repeat case_match; intros [-> _].
  - destruct (account_count opt); [|by intros [-> _]]. destruct (negb _); [by intros [-> _] |].
    intros (w1 & ids & Hc & [-> _]). by eapply createAccounts_transfers.
Qed.
End reading.

(** ** A run that reports *)

Section report.
Context {R : Type} {RC : UniversalClient R} {UL : UuidLib} {RCo : RecordCodec}.
Context {P : Type} {PL : PgxLib P}.
Variable uuid_parse_error : string -> goerr.
Variables (Version GOOS GOARCH : string) (NumCPU : Z) (server_version : string).
Abbreviation stress_ := (@stress_run R RC UL P PL uuid_parse_error Version GOOS GOARCH NumCPU server_version).
Implicit Types (w : World R).

(** The steps behind a report. *)
Record reported (opt : options) (w w' : World R) (r : StressResult) (err : option goerr) : Prop := {
  rd_steps : exists c cfg ids cmds bl before t env counts d after t' rp w1 w2 w3 w4 w5 w6 w7,
    w_db w1 = w_db w /\ setupAccounts uuid_parse_error opt c w1 w2 (Some (Ok ids))
    /\ perform SnapshotBaseline w2 w3 (Ok bl) /\ perform (readBalances ids) w3 w4 (Ok (before, t))
    /\ perform (describeEnv Version GOOS GOARCH NumCPU server_version cfg) w4 w5 env
    /\ execute cmds (effective_concurrency opt) w5 w6 (counts, d)
    /\ perform (readBalances ids) w6 w7 (Ok (after, t')) /\ perform (Check bl) w7 w' (Ok rp)
    /\ r = conclude opt (effective_concurrency opt) c cmds counts d env before t after t' rp;
  rd_err : err = if Result_OK r then None else Some violations_error
}.

Lemma stress_run_reported opt loaded stdout_error w w' r err :
  stress_ opt loaded stdout_error w w' (Returned (Some r) err) -> reported opt w w' r err.
Proof.
  assert (Hno : forall e w1, ~ fails e w1 w' (Returned (Some r) err)) by (by intros e w1 [_ H]).
  unfold stress_run. destruct (so_attempts opt <? 1); [by intros ?%Hno |].
  destruct (ParseCurrency _) as [c|]; [|by intros ?%Hno]. destruct loaded as [cfg|]; [|by intros ?%Hno].
  destruct (database_New cfg) as [db|]; [|by intros ?%Hno].
  intros (w1 & v & H1 & Hrun). destruct v; [by apply Hno in Hrun |].
  destruct Hrun as (w2 & [[ids|]|] & H2 & Hrun); [|by apply Hno in Hrun | by destruct Hrun].
  destruct (buildCommands opt c ids) as [cmds|]; [|by destruct Hrun].
  destruct Hrun as (w3 & [bl|] & H3 & Hrun); [|by apply Hno in Hrun].
  destruct Hrun as (w4 & [[before t]|] & H4 & Hrun); [|by apply Hno in Hrun].
  destruct Hrun as (w5 & env & H5 & w6 & [counts d] & H6 & w7 & [[after t']|] & H7 & Hrun); [|by apply Hno in Hrun].
  destruct Hrun as (w8 & [rp|] & H8 & Hrun); [|by apply Hno in Hrun].
  unfold emit_and_exit in Hrun. destruct (if so_asJSON opt then _ else _); [by apply Hno in Hrun |].
  set (res := conclude _ _ _ _ _ _ _ _ _ _ _ _) in Hrun.
  assert (H : w' = w8 /\ r = res /\ err = if Result_OK r then None else Some violations_error).
  { destruct (Result_OK res) eqn:E; simpl in Hrun; destruct Hrun as [-> Hr];
      injection Hr as -> ->; by rewrite E. }
  destruct H as (-> & Hr & He). split; [|done].
  exists c, cfg, ids, cmds, bl, before, t, env, counts, d, after, t', rp, w1, w2, w3, w4, w5, w6, w7.
  split_and!; [|done..]. apply (perform_quiet (database_Verify db) _ _ _ ltac:(by split; [|intros []]) H1).
Qed.

(** What a report claims is what is in the tables. *)
Record report_true (w w' : World R) (r : StressResult) : Prop := {
  rt_completed : sr_CompletedTransfers r = transfer_count (w_db w') /\ sr_PendingTransfers r = 0;
  rt_entries : sr_LedgerEntries r = entry_total (w_db w')
    /\ sr_LedgerEntries r = 2 * sr_CompletedTransfers r;
  rt_posted : transfer_count (w_db w) + ct_Successful (sr_counts r) <= sr_CompletedTransfers r
    <= transfer_count (w_db w) + ct_TotalAttempts (sr_counts r);
  rt_total : sr_TotalBalanceAfter r = total_balance (w_db w');
  rt_balances : exists ids, balances_of ids (w_db w') (sr_BalancesAfter r)
    /\ dom (sr_BalancesBefore r) = dom (sr_BalancesAfter r)
    /\ Forall (fun id => is_Some (accounts (w_db w') !! id)) ids
}.

Lemma completed_all base db :
  db_inv base db ->
  countZ (has_status "completed") (transfers db) = transfer_count db
  /\ countZ (has_status "pending") (transfers db) = 0.
Proof.
  intros Hinv. split.
  - unfold transfer_count, countZ. apply sumZ_ext. intros id t Ht. unfold has_status.
    by rewrite (tok_completed _ _ (inv_transfers _ _ Hinv _ _ Ht)).
  - apply countZ_zero. intros id t Ht. unfold has_status.
    by rewrite (tok_completed _ _ (inv_transfers _ _ Hinv _ _ Ht)).
Qed.

(** Two readings of the same accounts have the same keys. *)
Lemma balances_dom ids db db' m m' :
  balances_of ids db m -> balances_of ids db' m' ->
  Forall (fun id => is_Some (accounts db !! id)) ids ->
  Forall (fun id => is_Some (accounts db' !! id)) ids -> dom m = dom m'.
Proof.
  assert (H : forall db m, balances_of ids db m -> Forall (fun id => is_Some (accounts db !! id)) ids ->
            forall s, s ∈ dom m <-> exists id, id ∈ ids /\ s = uuid_String id).
  { clear. intros db m Hm Hall s. rewrite elem_of_dom. rewrite Forall_forall in Hall. split.
    - intros [b (id & row & Hin & -> & _)%Hm]. by exists id.
    - intros (id & Hin & ->). destruct (Hall _ Hin) as [row Hrow]. exists (a_balance_minor row).
      apply Hm. by exists id, row. }
  intros Hm Hm' Ha Ha'. apply set_eq. intros s. by rewrite (H _ _ Hm Ha), (H _ _ Hm' Ha').
Qed.

Lemma reported_true base opt w w' r err :
  service_inv base (w_db w) -> reported opt w w' r err -> report_true w w' r.
Proof.
  intros Hinv [(c & cfg & ids & cmds & bl & before & t & env & counts & d & after & t' & rp
    & w1 & w2 & w3 & w4 & w5 & w6 & w7 & E1 & H2 & H3 & H4 & H5 & H6 & H7 & H8 & ->) _].
  assert (Hinv1 : service_inv base (w_db w1)) by congruence.
  destruct (setupAccounts_grown _ _ _ _ _ _ _ Hinv1 H2) as (base' & [Hinv2 _] & _ & _).
  pose proof (setupAccounts_transfers _ _ _ _ _ _ H2) as T2.
  apply SnapshotBaseline_quiet in H3. destruct (readBalances_reads _ _ _ _ _ H4) as (E4 & Hbef & _ & Ha4).
  apply (perform_quiet (describeEnv _ _ _ _ _ _)) in H5 as E5; [|by split; [|intros x; split]].
  assert (Hinv5 : service_inv base' (w_db w5)) by (by rewrite E5, E4, H3).
  destruct (execute_grown _ _ _ _ _ _ _ Hinv5 H6) as [[Hinv6 _] _].
  destruct H6 as (x1 & began & X1 & x2 & cs & X2 & x3 & ended & X3 & [Ew [= -> _]]).
  apply (perform_quiet (call OpNow)) in X1; [|by split]. apply (perform_quiet (call OpNow)) in X3; [|by split].
  destruct (readBalances_reads _ _ _ _ _ H7) as (E7 & Haft & -> & Ha7).
  destruct (Check_reads _ _ _ _ H8) as [E8 ->].
  assert (Hx1 : service_inv base' (w_db x1)) by (by rewrite X1).
  pose proof (execute_workers_table base' _ _ _ _ _ Hx1 X2) as Hn.
  assert (Hdb : w_db x2 = w_db w') by (subst x3; congruence).
  assert (Hinv' : db_inv base' (w_db w')) by (rewrite E8, E7; apply Hinv6).
  assert (Hn0 : transfer_count (w_db x1) = transfer_count (w_db w))
    by (unfold transfer_count; rewrite X1, E5, E4, H3, T2, E1; done).
  destruct (completed_all _ _ Hinv') as [Hc Hp]. pose proof (entries_twice _ _ Hinv') as He.
  rewrite Hdb, Hn0 in Hn. rewrite <- E8 in *.
  assert (E67 : w_db w6 = w_db w') by congruence. rewrite E67 in *.
  split; simpl; rewrite ?Hc; [by split | | done | done |].
  - split; [done |]. exact He.
  - exists ids. split_and!; [done | | done]. by eapply balances_dom.
Qed.

(** C17. A report of the stress command is true of the database it leaves. On a
    ledger in order, whatever fails and however the goroutines interleave: the
    completed transfers it counts are the transfers in the table, none is
    pending, and the ledger holds two entries for each; every success it counts
    is a new transfer, and no transfer was added without an attempt it counts;
    the total and the balances after the run are those of the accounts in the
    table, for the same accounts as before. *)
Theorem stress_report_true opt loaded stdout_error base w w' r err :
  service_inv base (w_db w) ->
  stress_ opt loaded stdout_error w w' (Returned (Some r) err) -> report_true w w' r.
Proof. intros Hinv Hr. eapply reported_true, stress_run_reported; eauto. Qed.

(** ** The JSON report *)

Variable IsPrint : Z -> bool.
Variable PgError_Error : PgError -> string.
Abbreviation emit_ := (@emit IsPrint PgError_Error UL).

Lemma json_balances ids db m id :
  balances_of ids db m ->
  json_int (member (uuid_String id) (json_valid (JMap JInt m))) = m !! uuid_String id.
Proof.
  intros Hm. rewrite member_JMap.
  - destruct (m !! uuid_String id) as [z|]; [apply json_int_JInt | done].
  - intros k x Hk. apply Hm in Hk as (i & row & _ & -> & _). apply to_valid_id, plain_valid, plain_uuid.
Qed.

(** What a reader of the JSON report learns. *)
Record json_says (r : StressResult) (err : option goerr) (j : json) : Prop := {
  js_verdict : verdict_of j = Some (bool_decide (err = None));
  js_numbers : Forall (fun '(name, z) => json_int (member name j) = Some z) (numbers r);
  js_balances : exists before after,
    member "balances_before" j = Some before /\ member "balances_after" j = Some after
    /\ forall id, json_int (member (uuid_String id) before) = sr_BalancesBefore r !! uuid_String id
                /\ json_int (member (uuid_String id) after) = sr_BalancesAfter r !! uuid_String id;
  js_problems : member "problems" j = None <-> sr_Problems r = []
}.

(** With [-json] the command prints its whole report: what is printed is
    valid JSON, whatever text the errors contain; the verdict computed from it
    alone is the exit status; every counter and every balance reads back as the
    number it was; and a member with problems is there exactly when there are
    some. *)
Lemma json_report_faithful opt loaded stdout_error order w w' r err :
  so_asJSON opt = true ->
  stress_ opt loaded stdout_error w w' (Returned (Some r) err) ->
  exists j, parse (emit_ (so_asJSON opt) order r) = Some j /\ json_says r err j.
Proof.
  intros -> Hr. destruct (stress_run_reported _ _ _ _ _ _ _ Hr) as
    [(c & cfg & ids & cmds & bl & before & t & env & counts & d & after & t' & rp
    & w1 & w2 & w3 & w4 & w5 & w6 & w7 & _ & _ & _ & H4 & _ & _ & H7 & _ & Er) He].
  destruct (readBalances_reads _ _ _ _ _ H4) as (_ & Hb & _). destruct (readBalances_reads _ _ _ _ _ H7) as (_ & Ha & _).
  assert (Eb : sr_BalancesBefore r = before /\ sr_BalancesAfter r = after) by (by rewrite Er).
  destruct Eb as [Eb Ea]. eexists. split; [apply parse_emit |]. split.
  - rewrite report_verdict, He. by destruct (Result_OK r).
  - apply report_numbers.
  - exists (json_valid (JMap JInt before)), (json_valid (JMap JInt after)). rewrite Eb, Ea.
    split_and!; [| | intros id; split; by eapply json_balances].
    + rewrite <- Eb. unfold StressResult_json, problems_json. by destruct (sr_Problems r).
    + rewrite <- Ea. unfold StressResult_json, problems_json. by destruct (sr_Problems r).
  - unfold StressResult_json, problems_json. by destruct (sr_Problems r).
Qed.
End report.

(** ** Witnesses *)

Lemma stress_report_true_witness :
  exists w' r, ring_run new_world w' (Returned (Some r) None)
    /\ report_true new_world w' r /\ 1 <= sr_CompletedTransfers r <= 1.
Proof.
  destruct ring_runs as [Hr _].
  pose proof (stress_report_true (P := PoolConfig) External "go1.24" "linux" "amd64" 8 "17"
    ring_options (Ok ring_config) None ∅ new_world _ _ _ new_service_inv Hr) as H.
  do 2 eexists. split; [exact Hr |]. split; [exact H |]. pose proof (rt_posted _ _ _ H) as Hp.
  revert Hp. vm_compute. done.
Defined.

