(* ===== verification/Mains.v ===== *)
(** * The commands: flags, [main] and exit status

    [main] of [cmd/stress], [cmd/devtoken] and [cmd/migrate]: the flags they
    register, what they do with a command line, and the status and text they end
    with. What runs in between is [Stress], [DevToken] and [Migrate]; [main] of
    [cmd/api] is in [Process]. *)
From stdpp Require Import base gmap fin_maps strings list.
From Stdlib Require Import ZArith Lia Ascii.
From S2P Require Import Prelude.
From S2P Require Import GoStd.
From S2P Require Import GoStrings.
From S2P Require Import GoTime.
From S2P Require Import GoJson.
From S2P Require Import Uuid.
From S2P Require Import Errors.
From S2P Require Import GoFmt.
From S2P Require Import GoFlag.
From S2P Require Import Config.
From S2P Require Import Migrate.
From S2P Require Import Schema.
From S2P Require Import LedgerInv.
From S2P Require Import Prog.
From S2P Require Import Auth.
From S2P Require Import Pools.
From S2P Require Import Instances.
From S2P Require Import Scenario.
From S2P Require Import DevToken.
From S2P Require Import AtMostOnce.
From S2P Require Import System.
From S2P Require Import Stress.
From S2P Require Import StressSpec.

Open Scope Z_scope.

(** ** [cmd/stress] *)

Section stress_main.
Variable frac : Z -> Z -> Z -> Z.            (* the float64 part of ParseDuration *)

Definition with_scenario (x : string) (o : options) : options :=
  mkOptions x (so_attempts o) (so_concurrency o) (so_amount o) (so_currency o) (so_fund o)
    (so_accounts o) (so_source o) (so_destination o) (so_timeout o) (so_asJSON o) (so_verbose o).
Definition with_attempts (x : Z) (o : options) : options :=
  mkOptions (so_scenario o) x (so_concurrency o) (so_amount o) (so_currency o) (so_fund o)
    (so_accounts o) (so_source o) (so_destination o) (so_timeout o) (so_asJSON o) (so_verbose o).
Definition with_concurrency (x : Z) (o : options) : options :=
  mkOptions (so_scenario o) (so_attempts o) x (so_amount o) (so_currency o) (so_fund o)
    (so_accounts o) (so_source o) (so_destination o) (so_timeout o) (so_asJSON o) (so_verbose o).
Definition with_amount (x : Z) (o : options) : options :=
  mkOptions (so_scenario o) (so_attempts o) (so_concurrency o) x (so_currency o) (so_fund o)
    (so_accounts o) (so_source o) (so_destination o) (so_timeout o) (so_asJSON o) (so_verbose o).
Definition with_currency (x : string) (o : options) : options :=
  mkOptions (so_scenario o) (so_attempts o) (so_concurrency o) (so_amount o) x (so_fund o)
    (so_accounts o) (so_source o) (so_destination o) (so_timeout o) (so_asJSON o) (so_verbose o).
Definition with_fund (x : Z) (o : options) : options :=
  mkOptions (so_scenario o) (so_attempts o) (so_concurrency o) (so_amount o) (so_currency o) x
    (so_accounts o) (so_source o) (so_destination o) (so_timeout o) (so_asJSON o) (so_verbose o).
Definition with_accounts (x : Z) (o : options) : options :=
  mkOptions (so_scenario o) (so_attempts o) (so_concurrency o) (so_amount o) (so_currency o)
    (so_fund o) x (so_source o) (so_destination o) (so_timeout o) (so_asJSON o) (so_verbose o).
Definition with_source (x : string) (o : options) : options :=
  mkOptions (so_scenario o) (so_attempts o) (so_concurrency o) (so_amount o) (so_currency o)
    (so_fund o) (so_accounts o) x (so_destination o) (so_timeout o) (so_asJSON o) (so_verbose o).
Definition with_destination (x : string) (o : options) : options :=
  mkOptions (so_scenario o) (so_attempts o) (so_concurrency o) (so_amount o) (so_currency o)
    (so_fund o) (so_accounts o) (so_source o) x (so_timeout o) (so_asJSON o) (so_verbose o).
Definition with_timeout (x : Z) (o : options) : options :=
  mkOptions (so_scenario o) (so_attempts o) (so_concurrency o) (so_amount o) (so_currency o)
    (so_fund o) (so_accounts o) (so_source o) (so_destination o) x (so_asJSON o) (so_verbose o).
Definition with_asJSON (x : bool) (o : options) : options :=
  mkOptions (so_scenario o) (so_attempts o) (so_concurrency o) (so_amount o) (so_currency o)
    (so_fund o) (so_accounts o) (so_source o) (so_destination o) (so_timeout o) x (so_verbose o).
Definition with_verbose (x : bool) (o : options) : options :=
  mkOptions (so_scenario o) (so_attempts o) (so_concurrency o) (so_amount o) (so_currency o)
    (so_fund o) (so_accounts o) (so_source o) (so_destination o) (so_timeout o) (so_asJSON o) x.

(** [var opt options]. *)
Definition zero_options : options := mkOptions "" 0 0 0 "" 0 0 "" "" 0 false false.

Definition stress_flags : list (Flag options) :=
  [StringVar with_scenario "scenario" "oneway" "oneway | opposing | ring";
   IntVar with_attempts "attempts" 100 "total transfer attempts";
   IntVar with_concurrency "concurrency" 0 "maximum attempts in flight (0 = all at once)";
   IntVar with_amount "amount" 100 "amount to transfer, in minor units";
   StringVar with_currency "currency" "USD" "currency code";
   IntVar with_fund "fund" 0
     "minor units to fund each created account with (0 = enough for every attempt)";
   IntVar with_accounts "accounts" 4 "number of accounts for the ring scenario";
   StringVar with_source "source" "" "existing source account UUID (default: create one)";
   StringVar with_destination "destination" "" "existing destination account UUID (default: create one)";
   DurationVar frac with_timeout "timeout" (5 * Minute) "overall timeout for the run";
   BoolVar with_asJSON "json" false "emit the result as JSON";
   BoolVar with_verbose "v" false "log transfer activity to stderr"].

Lemma stress_defaults : registered stress_flags zero_options = default_options.
Proof. reflexivity. Qed.

Definition stress_parse (args : list string) : Parsed options :=
  Parse stress_flags (registered stress_flags zero_options) args.

(** What [run] returned, and the result it emitted. *)
Definition stress_exit (out : outcome) : option StressResult * exit :=
  match out with
  | Panicked => (None, Crashed)
  | Returned emitted err => (emitted, exit_of "stress: " err)
  end.

Context {R : Type} {RC : UniversalClient R} {UL : UuidLib} {P : Type} {PL : PgxLib P}.
Variable uuid_parse_error : string -> goerr.
Variables (Version GOOS GOARCH : string) (NumCPU : Z) (server_version : string).

(** [main] with the arguments after the name of the program; the result it
    emitted goes with the exit. *)
Definition stress_main (program : string) (args : list string) (loaded : result Config)
    (stdout_error : option goerr) : proc (R := R) (option StressResult * exit) :=
  match stress_parse args with
  | ParsedOk opt _ =>
      (out <- stress_run (P := P) uuid_parse_error Version GOOS GOARCH NumCPU server_version
                opt loaded stdout_error ;;
       proc_ret (stress_exit out))%proc
  | refused =>
      proc_ret (None, default Crashed (parse_exit (default_usage program stress_flags) refused))
  end.

(** How a run with these options may end: by a panic, or with a status. *)
Definition run_exit (opt : options) (base : gmap UUID Z) (w w' : World R)
    (emitted : option StressResult) (ex : exit) : Prop :=
  match ex with
  | Crashed => run_ok opt base w w' Panicked /\ emitted = None
  | Exited status lines =>
      exists err, run_ok opt base w w' (Returned emitted err)
        /\ ex = exit_of "stress: " err
        /\ (status = 0 <-> exists r, emitted = Some r /\ Result_OK r = true)
  end.

Lemma stress_run_exit opt loaded stdout_error base w w' out :
  service_inv base (w_db w) ->
  stress_run (P := P) uuid_parse_error Version GOOS GOARCH NumCPU server_version opt loaded stdout_error
    w w' out ->
  run_exit opt base w w' (stress_exit out).1 (stress_exit out).2.
Proof.
  intros Hinv Hrun. pose proof (stress_run_ok _ _ _ _ _ _ _ _ _ _ _ _ _ Hinv Hrun) as Hok.
  destruct out as [|emitted err]; [done |]. cbn [stress_exit fst snd].
  assert (Hz : forall s l, exit_of "stress: " err = Exited s l -> s = 0 <-> err = None).
  { intros s l. destruct err; cbn [exit_of]; intros [= <- <-]; by split. }
  destruct (exit_of "stress: " err) as [|status lines] eqn:Hx; [by destruct err |].
  exists err. split_and!; [done | done |].
  rewrite (Hz _ _ eq_refl). destruct Hok as (base' & _ & _ & Hr). destruct emitted as [r|].
  - destruct Hr as (_ & Hv & _ & ->). rewrite <- (vd_ok _ _ Hv).
    destruct (Result_OK r) eqn:E; split; try done; [by exists r |].
    intros (r' & [= <-] & H'). congruence.
  - destruct Hr as [e ->]. split; [done |]. by intros (? & ? & _).
Qed.

(** C16. From the command line to the exit status, the stress command tells the
    truth. Arguments that do not parse end it with status 2, a request for help
    with status 0, the usage on standard error, and nothing is touched. Otherwise
    it runs with the options that were given, on a ledger in order, whatever the
    scenario, the interleaving and the failures of PostgreSQL: it comes to an end
    and leaves the books in order; it panics only when the slice of commands or
    of accounts that was asked for exceeds the address space; however it ends, the
    balances have grown by no more than the funding of its accounts. If it
    reports at all, they have grown by exactly that, and it reports conservation,
    no negative balance, no violation and a clean reconciliation, every requested
    attempt counted exactly once. Unless it panicked, the status is 0 exactly when
    it emitted a result that is OK, else 1 with the error on standard error. *)
Theorem stress_exit_exact program args loaded stdout_error base w :
  service_inv base (w_db w) ->
  (exists w' out, stress_main program args loaded stdout_error w w' out)
  /\ forall w' emitted ex, stress_main program args loaded stdout_error w w' (emitted, ex) ->
     match stress_parse args with
     | ParsedOk opt _ => run_exit opt base w w' emitted ex
     | ParsedHelp =>
         ex = Exited 0 (default_usage program stress_flags) /\ w' = w /\ emitted = None
     | ParsedBad m =>
         ex = Exited 2 ((m ++ [Txt line_feed]) :: default_usage program stress_flags)%list
         /\ w' = w /\ emitted = None
     end.
Proof.
  intros Hinv. unfold stress_main. destruct (stress_parse args) as [opt rest| |m].
  - split.
    + destruct (stress_total (P := P) uuid_parse_error Version GOOS GOARCH NumCPU server_version
                  opt loaded stdout_error w) as (w' & out & Hrun).
      exists w', (stress_exit out), w', out. by split.
    + intros w' emitted ex (w1 & out & Hrun & [-> Hx]).
      pose proof (stress_run_exit _ _ _ _ _ _ _ Hinv Hrun) as Hr. by rewrite <- Hx in Hr.
  - split; [by do 3 eexists |]. by intros w' emitted ex [-> [= -> ->]].
  - split; [by do 3 eexists |]. by intros w' emitted ex [-> [= -> ->]].
Qed.
End stress_main.

(** *** Every run can be asked for *)

(** The numbers of the options fit their variables. *)
Definition wide (o : options) : Prop :=
  Forall (fun z => in_int64 z = true)
    [so_attempts o; so_concurrency o; so_amount o; so_fund o; so_accounts o; so_timeout o].

(** The command line that spells out every option. *)
Definition stress_args (o : options) : list string :=
  [render "scenario" (so_scenario o);
   render "attempts" (FormatInt (so_attempts o));
   render "concurrency" (FormatInt (so_concurrency o));
   render "amount" (FormatInt (so_amount o));
   render "currency" (so_currency o);
   render "fund" (FormatInt (so_fund o));
   render "accounts" (FormatInt (so_accounts o));
   render "source" (so_source o);
   render "destination" (so_destination o);
   render "timeout" (nanoseconds (so_timeout o));
   render "json" (bool_text (so_asJSON o));
   render "v" (bool_text (so_verbose o))].

(** The command line can express every set of options: written out one flag
    after the other, with any texts (empty, with spaces, with equals signs or
    beginning with a minus sign) and any numbers of 64 bits, options are read back
    exactly, and nothing is left over. *)
Lemma stress_flags_roundtrip frac o :
  wide o -> stress_parse frac (stress_args o) = ParsedOk o [].
Proof.
  unfold wide. rewrite !Forall_cons. intros (Ha & Hc & Hm & Hf & Hn & Ht & _).
  unfold stress_parse, stress_args.
  do 12 (erewrite Parse_render;
    [| reflexivity | reflexivity
     | cbn [fl_Set StringVar IntVar BoolVar DurationVar];
       rewrite ?ParseInt_FormatInt, ?ParseDuration_nanoseconds, ?ParseBool_text by assumption;
       reflexivity]).
  by destruct o.
Qed.

(** ** [cmd/migrate] *)

Definition migrate_flags : list (Flag string) :=
  [StringVar (fun x _ => x) "path" "migrations" "directory containing the migration files"].

(** [usage]. *)
Definition migrate_usage : list msg :=
  [Txt ("Usage: migrate [-path dir] <command>" +:+ line_feed +:+ line_feed
        +:+ "Commands:" +:+ line_feed
        +:+ "  up             apply all pending migrations" +:+ line_feed
        +:+ "  down           roll back exactly one migration" +:+ line_feed
        +:+ "  down-all       roll back every migration (destroys all data)" +:+ line_feed
        +:+ "  version        print the current schema version" +:+ line_feed
        +:+ "  force <ver>    mark the schema as being at <ver> without running it" +:+ line_feed
        +:+ line_feed)]
  :: PrintDefaults migrate_flags.

Definition migrate_parse (args : list string) : Parsed string :=
  Parse migrate_flags (registered migrate_flags "") args.

Section migrate_main.
Context {M : Type} {ML : MigrateLib M}.

(** The event [EvUsage] of [migrate_run] is [usage] once more. *)
Definition migrate_main (args : list string) (loaded : result Config) (oe : OpenEnv)
    : mig (M := M) exit :=
  match migrate_parse args with
  | ParsedOk path rest =>
      mig_bind (migrate_run loaded oe path rest) (fun err => mig_ret (exit_of "migrate: " err))
  | refused => mig_ret (default Crashed (parse_exit migrate_usage refused))
  end.

(** C31. The migration command does exactly what was asked, from its arguments to
    its exit status. Arguments that do not parse end it with status 2 and a
    request for help with status 0, without a look at the database. Otherwise the
    words after the flags decide: "up" applies, "down" takes one step back, only
    "down-all" takes everything down, "force" sets the version it was given; with
    no command, an unknown one, a configuration that is refused or a database that
    cannot be opened the migrator is not touched and the status is 1; a migration
    that changes nothing is a success; and on every path the database handle is
    opened at most once, used only while open, and closed. *)
Theorem migrate_command_exact args loaded oe lib tr :
  match migrate_parse args with
  | ParsedOk path rest =>
      let '(lib', cs, ok) := spec_run loaded oe rest lib in
      exists evs lines,
        migrate_main args loaded oe (mkMigState lib tr)
        = (mkMigState lib' (tr ++ evs)%list, Exited (if ok : bool then 0 else 1) lines)
        /\ calls evs = cs /\ handle_use false evs = Some false
  | ParsedHelp =>
      migrate_main args loaded oe (mkMigState lib tr) = (mkMigState lib tr, Exited 0 migrate_usage)
  | ParsedBad m =>
      migrate_main args loaded oe (mkMigState lib tr)
      = (mkMigState lib tr, Exited 2 ((m ++ [Txt line_feed]) :: migrate_usage)%list)
  end.
Proof.
  unfold migrate_main. destruct (migrate_parse args) as [path rest| |m]; [|done | done].
  pose proof (migrate_run_exact loaded oe path rest lib tr) as H.
  destruct (spec_run loaded oe rest lib) as [[lib' cs] ok]. destruct H as (evs & err & Hr & Hc & Hh & Hok).
  exists evs. unfold mig_bind. rewrite Hr. unfold mig_ret.
  destruct err as [e|]; cbn [exit_of]; eexists; (split_and!; [|done | done]); do 2 f_equal;
    destruct ok; intuition congruence.
Qed.
End migrate_main.

Example migrate_usage_defaults :
  map (msg_text (fun _ => false) (fun _ => ""%string)) (PrintDefaults migrate_flags)
  = [("  -path string" +:+ line_feed +:+ "    " +:+ tab +:+ "directory containing the migration files (default "
      +:+ String "034" ("migrations" +:+ String "034" (")" +:+ line_feed)))%string].
Proof. vm_compute. reflexivity. Qed.

(** ** [cmd/devtoken] *)

(** The variables of [main]. *)
Record DevFlags := mkDevFlags {
  df_issuer : string;
  df_audience : string;
  df_subject : string;
  df_scopes : string;
  df_ttl : Z;
  df_keyPath : string;
  df_outDir : string;
  df_quiet : bool
}.

Definition zero_dev_flags : DevFlags := mkDevFlags "" "" "" "" 0 "" "" false.

Section devtoken_main.
Variable frac : Z -> Z -> Z -> Z.

Definition devtoken_flags : list (Flag DevFlags) :=
  [StringVar (fun x '(mkDevFlags _ b c d e f g h) => mkDevFlags x b c d e f g h)
     "issuer" "https://dev-issuer.local" "value for the iss claim";
   StringVar (fun x '(mkDevFlags a _ c d e f g h) => mkDevFlags a x c d e f g h)
     "audience" "payments-api" "value for the aud claim";
   StringVar (fun x '(mkDevFlags a b _ d e f g h) => mkDevFlags a b x d e f g h)
     "subject" "dev-client" "value for the sub claim";
   StringVar (fun x '(mkDevFlags a b c _ e f g h) => mkDevFlags a b c x e f g h)
     "scopes" "accounts:read accounts:write transfers:read transfers:write ledger:read"
     "space-delimited scopes for the scope claim";
   DurationVar frac (fun x '(mkDevFlags a b c d _ f g h) => mkDevFlags a b c d x f g h)
     "ttl" Hour "how long the token is valid";
   StringVar (fun x '(mkDevFlags a b c d e _ g h) => mkDevFlags a b c d e x g h)
     "key" "" "existing PEM private key to sign with (default: generate one)";
   StringVar (fun x '(mkDevFlags a b c d e f _ h) => mkDevFlags a b c d e f x h)
     "out" "" "directory to write a generated keypair into";
   BoolVar (fun x '(mkDevFlags a b c d e f g _) => mkDevFlags a b c d e f g x)
     "quiet" false "print only the token, for scripting"].

Definition devtoken_parse (args : list string) : Parsed DevFlags :=
  Parse devtoken_flags (registered devtoken_flags zero_dev_flags) args.

Context {S K : Type} {JL : JwtLib K} {SL : SigningLib S K}.
Variable o : Outside.

Definition devtoken_main (program : string) (args : list string) (d : Disk) : Disk * exit :=
  match devtoken_parse args with
  | ParsedOk f _ =>
      let '(d', r) := devtoken_run o (df_issuer f) (df_audience f) (df_subject f) (df_scopes f) (df_ttl f)
                        (df_keyPath f) (df_outDir f) (df_quiet f) d in
      (d', exit_of "devtoken: " (match r with Ok _ => None | Err e => Some e end))
  | refused => (d, default Crashed (parse_exit (default_usage program devtoken_flags) refused))
  end.

End devtoken_main.

Section devtoken_flow.
Variable frac : Z -> Z -> Z -> Z.
Context {S K : Type} {JL : JwtLib K} {SL : SigningLib S K} {R : Type} {RC : UniversalClient R}.

Lemma devtoken_main_0 (o : Outside) program args f rest d d' lines :
  devtoken_parse frac args = ParsedOk f rest ->
  devtoken_main (S := S) frac o program args d = (d', Exited 0 lines) ->
  devtoken_run (S := S) o (df_issuer f) (df_audience f) (df_subject f) (df_scopes f) (df_ttl f)
    (df_keyPath f) (df_outDir f) (df_quiet f) d = (d', Ok tt).
Proof.
  intros Hp. unfold devtoken_main. rewrite Hp.
  destruct (devtoken_run _ _ _ _ _ _ _ _ _ d) as [d1 [[]|e]]; [|done]. by intros [= <- _].
Qed.

(** C30. The documented use of development tokens works: a first run of the
    command without -key and with -out writes a key pair; a later run with -quiet
    and the private key it wrote prints one line, a token; and if both exit with
    status 0, a service that has the public key file, the issuer and the audience
    in its configuration builds its verifier and accepts that token, from the
    second it was minted until it expires, within the configured leeway, as the
    caller named by the subject with exactly the scopes listed. The texts of the
    second run are UTF-8, its issuer and audience are not empty and its subject
    not blank (the defaults are such). *)
Theorem devtoken_flow_accepted (o1 o2 : Outside) program args1 f1 rest1 args2 f2 rest2 d d1 d2 l1 l2 cfg :
  devtoken_parse frac args1 = ParsedOk f1 rest1 -> df_keyPath f1 = "" -> df_outDir f1 <> "" ->
  devtoken_main (S := S) frac o1 program args1 d = (d1, Exited 0 l1) ->
  devtoken_parse frac args2 = ParsedOk f2 rest2 -> df_quiet f2 = true ->
  df_keyPath f2 = filepath_Join (df_outDir f1) "private.pem" ->
  devtoken_main (S := S) frac o2 program args2 d1 = (d2, Exited 0 l2) ->
  Forall (fun s => to_valid s = s) [df_issuer f2; df_audience f2; df_subject f2; df_scopes f2] ->
  in_int64 (out_now o2) = true -> in_int64 (df_ttl f2) = true ->
  df_issuer f2 <> "" -> df_audience f2 <> "" -> TrimSpace (df_subject f2) <> "" ->
  jwt_PublicKeyFile (cfg_JWT cfg) = filepath_Join (df_outDir f1) "public.pem" ->
  jwt_Issuer (cfg_JWT cfg) = df_issuer f2 -> jwt_Audience (cfg_JWT cfg) = df_audience f2 ->
  let leeway := jwt_Leeway (cfg_JWT cfg) in
  exists token v,
    disk_out d2 = (disk_out d1 ++ [[Str token]])%list
    /\ VerifierFromConfig (read_disk d2) cfg = Ok (Some v)
    /\ forall es (w : World R),
         whole_second (out_now o2) - leeway <= env_time (es O) < whole_second (out_now o2 + df_ttl f2) + leeway ->
         run (Verify v token) es w
         = (w, Some (Ok (mkPrincipal (TrimSpace (df_subject f2)) (df_issuer f2) (df_audience f2)
                           (Fields (df_scopes f2))))).
Proof.
  intros Hp1 Hk1 Hout Hm1 Hp2 Hq2 Hk2 Hm2 Htexts Hnow Httl Hi Ha Hs Hf Hci Hca.
  apply (devtoken_main_0 _ _ _ _ _ _ _ _ Hp1) in Hm1. apply (devtoken_main_0 _ _ _ _ _ _ _ _ Hp2) in Hm2.
  rewrite Hk1 in Hm1. rewrite Hq2, Hk2 in Hm2.
  eapply pair_then_token; [exact Hm1 | exact Hout | exact Hm2 | by apply minted_exact | done..].
Qed.
End devtoken_flow.

(** ** Witnesses *)

(** The ring of [StressSpec], asked for on a command line. *)
Lemma stress_exit_exact_witness :
  exists w' r,
    stress_main (R := MemRedis) (P := PoolConfig) exact_frac External "go1.24" "linux" "amd64" 8 "17"
      "stress" (stress_args ring_options) (Ok ring_config) None new_world w' (Some r, Exited 0 [])
    /\ sr_ConservationHeld r = true /\ total_balance (w_db w') = 200.
Proof.
  destruct ring_runs as [Hr _].
  assert (Hp : stress_parse exact_frac (stress_args ring_options) = ParsedOk ring_options [])
    by (vm_compute; reflexivity).
  assert (Hm : exists r, stress_main (R := MemRedis) (P := PoolConfig) exact_frac External "go1.24" "linux"
     "amd64" 8 "17" "stress" (stress_args ring_options) (Ok ring_config) None new_world ring_end
     (Some r, Exited 0 [])).
  { eexists. unfold stress_main. rewrite Hp. do 2 eexists. split; [exact Hr | by split]. }
  destruct Hm as [r Hm].
  destruct (stress_exit_exact (P := PoolConfig) exact_frac External "go1.24" "linux" "amd64" 8 "17" "stress"
              (stress_args ring_options) (Ok ring_config) None ∅ new_world new_service_inv) as [_ H].
  specialize (H _ _ _ Hm). rewrite Hp in H.
  destruct H as (err & (base' & _ & _ & _ & Hv & Ht & _) & _ & _).
  exists ring_end, r. split; [exact Hm |]. split; [apply Hv |]. rewrite Ht. vm_compute. reflexivity.
Defined.

(** The commands of the documentation, on an empty disk at time zero. *)
Definition make_devtoken : list string := ["-out"; "./.devkeys"]%string.
Definition mint_quietly : list string := ["-key"; ".devkeys/private.pem"; "-quiet"]%string.
Definition served_config : Config :=
  mkConfig (cfg_App default_config) (cfg_HTTP default_config) (cfg_GRPC default_config)
    (mkJWT "" ".devkeys/public.pem" "https://dev-issuer.local" "payments-api" (30 * Second))
    (cfg_Postgres default_config) (cfg_Redis default_config) (cfg_Kafka default_config)
    (cfg_Idempotency default_config).

Abbreviation dev_main args d :=
  (devtoken_main (SL := toy_signing) exact_frac calm_outside "devtoken" args d).
Definition keyed_disk : Disk := fst (dev_main make_devtoken (mkDisk ∅ [] [])).

Lemma devtoken_flow_accepted_witness :
  exists d2 token v,
    dev_main mint_quietly keyed_disk = (d2, Exited 0 []) /\ last (disk_out d2) = Some [Str token]
    /\ VerifierFromConfig (JL := toy_verifying) (read_disk d2) served_config = Ok (Some v)
    /\ run (Verify (JL := toy_verifying) v token) scn_env scn_world
       = (scn_world, Some (Ok (mkPrincipal "dev-client" "https://dev-issuer.local" "payments-api" AllScopes))).
Proof.
  assert (H1 : dev_main make_devtoken (mkDisk ∅ [] []) = (keyed_disk, Exited 0 [])).
  { unfold keyed_disk. rewrite (surjective_pairing (dev_main make_devtoken (mkDisk ∅ [] []))) at 1.
    reflexivity. }
  destruct (dev_main mint_quietly keyed_disk) as [d2 ex] eqn:H2.
  assert (Hx : ex = Exited 0 []).
  { apply (f_equal snd) in H2. change ex with (d2, ex).2. rewrite <- H2. vm_compute. reflexivity. }
  subst ex.
  destruct (devtoken_flow_accepted (R := MemRedis) exact_frac calm_outside calm_outside "devtoken"
              make_devtoken (mkDevFlags "https://dev-issuer.local" "payments-api" "dev-client" default_scopes
                               Hour "" "./.devkeys" false) []
              mint_quietly (mkDevFlags "https://dev-issuer.local" "payments-api" "dev-client" default_scopes
                              Hour ".devkeys/private.pem" "" true) []
              (mkDisk ∅ [] []) keyed_disk d2 [] [] served_config)
    as (token & v & Hout & Hv & Hacc);
    [vm_compute; reflexivity | reflexivity | discriminate | exact H1 | vm_compute; reflexivity | reflexivity
    | vm_compute; reflexivity | exact H2 | repeat constructor | reflexivity | reflexivity | discriminate | discriminate
    | vm_compute; discriminate | vm_compute; reflexivity | reflexivity | reflexivity |].
  exists d2, token, v. split_and!; [done | by rewrite Hout, last_snoc | done |].
  rewrite (Hacc scn_env scn_world); [exact (f_equal (fun p => (scn_world, Some (Ok p))) default_caller) |].
  split; vm_compute; [discriminate | reflexivity].
Defined.
