(* ===== verification/Server.v ===== *)
(** * The gRPC server under concurrent load

    Any number of RPCs with any credentials, each through the whole interceptor
    chain, interleaved operation by operation: what clients can rely on. *)
From stdpp Require Import base gmap fin_maps strings list relations.
From Stdlib Require Import ZArith Lia Ascii.
From S2P Require Import Prelude.
From S2P Require Import GoStd.
From S2P Require Import GoStrings.
From S2P Require Import GoTime.
From S2P Require Import Uuid.
From S2P Require Import Errors.
From S2P Require Import GrpcErrors.
From S2P Require Import Config.
From S2P Require Import Money.
From S2P Require Import Schema.
From S2P Require Import Tx.
From S2P Require Import Transfer.
From S2P Require Import Posting.
From S2P Require Import LedgerInv.
From S2P Require Import Idempotency.
From S2P Require Import Prog.
From S2P Require Import Auth.
From S2P Require Import Retry.
From S2P Require Import Store.
From S2P Require Import Instances.
From S2P Require Import Account.
From S2P Require Import Ledger.
From S2P Require Import Idempotent.
From S2P Require Import Grpc.
From S2P Require Import Scenario.
From S2P Require Import Interceptors.
From S2P Require Import Concurrency.
From S2P Require Import Reconcile.
From S2P Require Import AtMostOnce.
From S2P Require Import System.

Open Scope Z_scope.

(** ** What [CreateTransfer] accepts *)

Section validation.
Context {UL : UuidLib} {RCo : RecordCodec}.

(** The request names the command. *)
Definition request_names (req : CreateTransferRequest) (cmd : Command) : Prop :=
  ParseKey (rq_IdempotencyKey req) = Ok (rq_IdempotencyKey req)
  /\ uuid_Parse (rq_SourceAccountId req) = Some (c_SourceAccountID cmd)
  /\ uuid_Parse (rq_DestinationAccountId req) = Some (c_DestinationAccountID cmd)
  /\ rq_SourceAccountId req <> "" /\ rq_DestinationAccountId req <> ""
  /\ c_SourceAccountID cmd <> uuid_Nil /\ c_DestinationAccountID cmd <> uuid_Nil
  /\ currency_format (rq_Currency req) = true /\ c_Currency cmd = rq_Currency req
  /\ 0 < rq_AmountMinor req /\ c_AmountMinor cmd = rq_AmountMinor req.

Lemma parseUUID_Ok field raw id :
  parseUUID field raw = Ok id <-> uuid_Parse raw = Some id /\ raw <> "" /\ id <> uuid_Nil.
Proof.
  unfold parseUUID, uuid_eqb. case_bool_decide as Hr; [intuition congruence |].
  destruct (uuid_Parse raw) as [u|]; [|intuition congruence].
  case_bool_decide; intuition congruence.
Qed.

(** A validation error: one the client reads as it is. *)
Definition mistake (e : goerr) : Prop :=
  errors_As_Status e = None /\ is_client_mistake e = true.

Lemma refuse_mistake {A} e :
  mistake e -> refuse (A := A) e = Ret (Err (StatusErr InvalidArgument (Error e))).
Proof. intros [H1 H2]. unfold refuse, toStatus. by rewrite H1, H2. Qed.

Lemma parseUUID_Err field raw e : parseUUID field raw = Err e -> mistake e.
Proof. unfold parseUUID. by repeat case_match; intros; simplify_eq. Qed.

Lemma parseCurrency_Ok raw c : parseCurrency raw = Ok c <-> currency_format raw = true /\ c = raw.
Proof.
  unfold parseCurrency, ParseCurrency. rewrite <- Currency_Validate_format.
  destruct (Currency_Validate raw); split; [done | by intros [] | by intros [= <-] | by intros [_ ->]].
Qed.

Lemma parseCurrency_Err raw e : parseCurrency raw = Err e -> mistake e.
Proof.
  unfold parseCurrency, ParseCurrency, Currency_Validate. by repeat case_match; intros; simplify_eq.
Qed.

Lemma ParseKey_Err key e : ParseKey key = Err e -> mistake e.
Proof. unfold ParseKey. by repeat case_match; intros; simplify_eq. Qed.

(** What follows the answer of [PostIdempotent]. *)
Definition transfer_reply (a : Result * option goerr) : prog (result CreateTransferResponse) :=
  let '(result, err) := a in
  match err with
  | Some err => refuse err
  | None =>
      Ret (Ok (mkCreateTransferResponse (transferToProto (res_Transfer result)) (res_Replayed result)))
  end.

Lemma request_names_parses req cmd :
  request_names req cmd <->
  ParseKey (rq_IdempotencyKey req) = Ok (rq_IdempotencyKey req)
  /\ parseUUID "source_account_id" (rq_SourceAccountId req) = Ok (c_SourceAccountID cmd)
  /\ parseUUID "destination_account_id" (rq_DestinationAccountId req) = Ok (c_DestinationAccountID cmd)
  /\ parseCurrency (rq_Currency req) = Ok (c_Currency cmd)
  /\ 0 < rq_AmountMinor req /\ c_AmountMinor cmd = rq_AmountMinor req.
Proof. unfold request_names. rewrite !parseUUID_Ok, parseCurrency_Ok. tauto. Qed.

(** The two cases of [CreateTransfer]. *)
Lemma CreateTransfer_cases s req :
  (exists cmd, request_names req cmd
     /\ CreateTransfer s req = bind (PostIdempotent s (rq_IdempotencyKey req) cmd) transfer_reply)
  \/ ((forall cmd, ~ request_names req cmd)
      /\ exists e, CreateTransfer s req = Ret (Err (StatusErr InvalidArgument (Error e))) /\ mistake e).
Proof.
  assert (Hno : forall e (p : prog (result CreateTransferResponse)), mistake e -> p = refuse e ->
    exists e, p = Ret (Err (StatusErr InvalidArgument (Error e))) /\ mistake e).
  { intros e p He ->. exists e. split; [by apply refuse_mistake | done]. }
  setoid_rewrite request_names_parses. unfold CreateTransfer.
  destruct (ParseKey _) as [key|e] eqn:Hk;
    [|right; split; [by intros cmd (? & ? & ? & ? & ? & ?) | by eapply Hno; [eapply ParseKey_Err |]]].
  apply ParseKey_Ok_eq in Hk as ->.
  destruct (parseUUID _ (rq_SourceAccountId req)) as [src|e] eqn:Hs;
    [|right; split; [by intros cmd (? & ? & ? & ? & ? & ?) | by eapply Hno; [eapply parseUUID_Err |]]].
  destruct (parseUUID _ (rq_DestinationAccountId req)) as [dst|e] eqn:Hd;
    [|right; split; [by intros cmd (? & ? & ? & ? & ? & ?) | by eapply Hno; [eapply parseUUID_Err |]]].
  destruct (parseCurrency _) as [cur|e] eqn:Hc;
    [|right; split; [by intros cmd (? & ? & ? & ? & ? & ?) | by eapply Hno; [eapply parseCurrency_Err |]]].
  destruct (Z.leb_spec (rq_AmountMinor req) 0);
    [right; split; [by intros cmd (? & ? & ? & ? & ? & ?); lia | eapply Hno; [|reflexivity]; done] |].
  left. by exists (mkCommand src dst (rq_AmountMinor req) cur).
Qed.
End validation.

(** ** The types of the replies *)

Section types.
Context {UL : UuidLib}.

(** A canonical identifier, which a client can parse. *)
Definition uuid_field (f : string) : Prop := exists u, uuid_Parse f = Some u /\ f = uuid_String u.

Definition account_typed (m : AccountMsg) : Prop :=
  uuid_field (am_Id m) /\ currency_format (am_Currency m) = true
  /\ 0 <= am_BalanceMinor m <= int64_max.

Definition transfer_typed (m : TransferMsg) : Prop :=
  uuid_field (tm_Id m) /\ uuid_field (tm_SourceAccountId m)
  /\ uuid_field (tm_DestinationAccountId m)
  /\ tm_SourceAccountId m <> tm_DestinationAccountId m
  /\ 0 < tm_AmountMinor m <= int64_max /\ currency_format (tm_Currency m) = true
  /\ tm_Status m = TRANSFER_STATUS_COMPLETED.

Definition entry_typed (m : LedgerEntryMsg) : Prop :=
  uuid_field (em_Id m) /\ uuid_field (em_TransferId m) /\ uuid_field (em_AccountId m)
  /\ em_AmountMinor m <> 0 /\ - int64_max <= em_AmountMinor m <= int64_max
  /\ currency_format (em_Currency m) = true.

Definition reply_typed (r : Rpc) (a : Reply) : Prop :=
  match r, a with
  | RpcCreateAccount _, RplAccount m | RpcGetAccount _, RplAccount m => account_typed m
  | RpcCreateTransfer _, RplCreated m => transfer_typed (rs_Transfer m)
  | RpcGetTransfer _, RplTransfer m => transfer_typed m
  | RpcListLedgerEntriesForTransfer _, RplEntries l => Forall entry_typed l
  | _, _ => False
  end.

Lemma uuid_field_String u : uuid_field (uuid_String u).
Proof. exists u. split; [apply uuid_Parse_String | done]. Qed.

Lemma account_typed_row r : account_ok r -> account_typed (accountToProto (account_of_row r)).
Proof. intros [Hc Hb]. split; [apply uuid_field_String | done]. Qed.

Lemma transfer_currency t :
  Forall (fun c => snd c = true) (transfers_checks t) -> currency_format (t_currency t) = true.
Proof. intros H. do 2 apply Forall_cons in H as [_ H]. by apply Forall_cons in H as [H _]. Qed.

Lemma transfer_typed_row db t :
  transfer_ok db t -> transfer_typed (transferToProto (transfer_of_row t)).
Proof.
  intros [Hck Hst Hr Hne _ _ _]. unfold transfer_typed. simpl. rewrite Hst.
  split_and!; try apply uuid_field_String; try apply Hr; [|by apply transfer_currency | done].
  intros E%uuid_String_inj. done.
Qed.

Lemma entry_typed_leg db t e :
  transfer_ok db t -> debit_leg t e \/ credit_leg t e ->
  entry_typed (ledgerEntryToProto (entry_of_row e)).
Proof.
  intros [Hck _ Hr _ _ _ _] Hl. unfold entry_typed. simpl.
  assert (Hamt : e_currency e = t_currency t
                 /\ (e_amount_minor e = - t_amount_minor t \/ e_amount_minor e = t_amount_minor t))
    by (destruct Hl as [(_ & _ & ? & ?)|(_ & _ & ? & ?)]; auto).
  destruct Hamt as [-> Hamt].
  split_and!; try apply uuid_field_String; try lia. by apply transfer_currency.
Qed.
End types.

(** ** Promises of the replies *)

Section server.
Context {UL : UuidLib} {RCo : RecordCodec} {K : Type} {JL : JwtLib K}.
Variables (s : Service) (verifier : option (Verifier K)).

(** The two legs of a transfer, as a client reads them. *)
Definition balanced_legs (l : list LedgerEntryMsg) : Prop :=
  exists d c, l = [d; c] /\ em_AmountMinor d < 0 /\ em_AmountMinor c = - em_AmountMinor d
    /\ em_TransferId d = em_TransferId c /\ em_Currency d = em_Currency c.

(** What a reply promises of the database, from then on. *)
Definition rpc_promise (r : Rpc) (a : result Reply) (db : Db) : Prop :=
  match r, a with
  | RpcCreateTransfer req, Ok (RplCreated m) =>
      exists cmd t, request_names req cmd /\ recorded (rq_IdempotencyKey req) cmd t db
        /\ rs_Transfer m = transferToProto t
  | RpcListLedgerEntriesForTransfer _, Ok (RplEntries l) =>
      balanced_legs l /\ Forall entry_typed l
  | _, Ok a => reply_typed r a
  | _, Err _ => True
  end.

Lemma rpc_promise_upward r : upward (fun a : result Reply * LogLine => rpc_promise r (fst a)).
Proof.
  intros [a line] db db' Hle. simpl. destruct r, a as [[]|]; try done.
  intros (cmd & t & Hn & Hrec & Ht). exists cmd, t. eauto using recorded_le.
Qed.

Lemma rpc_promise_Err r e db : rpc_promise r (Err e) db.
Proof. by destruct r. Qed.

Section invariant.
Variable base : gmap UUID Z.
Abbreviation safe_ Q p db := (safe (service_inv base) service_op Q p db).

Lemma CreateTransfer_safe req db :
  safe_ (fun a db => rpc_promise (RpcCreateTransfer req) (as_reply RplCreated a) db)
    (CreateTransfer s req) db.
Proof.
  destruct (CreateTransfer_cases s req) as [(cmd & Hn & ->)|(_ & e & -> & _)]; [|done].
  apply safe_bind. eapply safe_mono; [|apply PostIdempotent_safe].
  intros [r [err|]] db' Ha; [done |]. exists cmd, (res_Transfer r).
  split_and!; [done | by apply Ha | done].
Qed.

(** A transfer that was found keeps its two entries. *)
Lemma ListLedgerEntriesForTransfer_safe id db :
  safe_ (fun a db => rpc_promise (RpcListLedgerEntriesForTransfer id) (as_reply RplEntries a) db)
    (ListLedgerEntriesForTransfer id) db.
Proof.
  unfold ListLedgerEntriesForTransfer. destruct (parseUUID _ id) as [tid|e]; [|done].
  apply safe_bind. unfold Service_Get. split; [done |].
  intros db1 db2 r _ HI1 [-> [->|[e ->]]]; [|cbn [bind scan_row]; by case_match].
  cbn [bind scan_row]. destruct (transfers db1 !! tid) as [row|] eqn:Hrow; [|done].
  cbn [safe]. unfold EntriesForTransfer.
  split; [done |]. intros db3 db4 r Hle [Hinv3 _] [-> [->|[e ->]]]; [|done].
  assert (Hrow3 : transfers db3 !! tid = Some row) by (by eapply lookup_weaken; [|apply Hle]).
  destruct (select_entries_posted _ _ _ _ Hinv3 Hrow3) as (e1 & e2 & L1 & L2 & ->).
  destruct (tok_range _ _ (inv_transfers _ _ Hinv3 _ _ Hrow3)) as [Hpos _].
  unfold CollectRows, read_stream. cbn [bind]. split; [done |].
  intros db5 db6 r _ _ [-> [->|[e ->]]]; simpl.
  - pose proof L1 as (T1 & _ & A1 & C1). pose proof L2 as (T2 & _ & A2 & C2).
    split; [do 2 eexists; split; [reflexivity |]; simpl; rewrite A1, A2, T1, T2, C1, C2;
            split_and!; (done || lia) |].
    pose proof (inv_transfers _ _ Hinv3 _ _ Hrow3) as Htok.
    repeat (apply Forall_cons; split; [by eapply entry_typed_leg; [exact Htok | auto] |]). done.
  - split; [done |]. intros db7 db8 n _ _ ->. by destruct (scan_rows _ _).
Qed.

Lemma CreateAccount_safe c db :
  safe_ (fun a db => rpc_promise (RpcCreateAccount c) (as_reply RplAccount a) db) (CreateAccount c) db.
Proof.
  unfold CreateAccount. destruct (parseCurrency c) as [cur|e]; [|done]. apply safe_bind.
  unfold Create. destruct (Currency_Validate cur); [done |]. split; [done |].
  intros db1 db2 r _ _ [env He].
  apply createAccount_cases in He as [[_ [e ->]]|(row & Hrow & _ & Hc & _ & [->|[e ->]])]; [done | | done].
  apply account_typed_row. subst row. by split.
Qed.

Lemma GetAccount_safe id db :
  safe_ (fun a db => rpc_promise (RpcGetAccount id) (as_reply RplAccount a) db) (GetAccount id) db.
Proof.
  unfold GetAccount. destruct (parseUUID _ id) as [u|e]; [|done]. apply safe_bind. split; [done |].
  intros db1 db2 r _ [Hinv _] [-> [->|[e ->]]]; [|cbn [bind scan_row]; by case_match].
  cbn [bind scan_row]. destruct (accounts db1 !! u) as [row|] eqn:Hrow; [|done].
  apply account_typed_row. by eapply inv_accounts.
Qed.

Lemma GetTransfer_safe id db :
  safe_ (fun a db => rpc_promise (RpcGetTransfer id) (as_reply RplTransfer a) db) (GetTransfer id) db.
Proof.
  unfold GetTransfer. destruct (parseUUID _ id) as [u|e]; [|done]. apply safe_bind. split; [done |].
  intros db1 db2 r _ [Hinv _] [-> [->|[e ->]]]; [|cbn [bind scan_row]; by case_match].
  cbn [bind scan_row]. destruct (transfers db1 !! u) as [row|] eqn:Hrow; [|done].
  eapply transfer_typed_row. by eapply inv_transfers.
Qed.

Lemma dispatch_safe r db : safe_ (rpc_promise r) (dispatch s r) db.
Proof.
  assert (Hrep : forall A (f : A -> Reply) (p : prog (result A)) db,
    safe_ (fun a db => rpc_promise r (as_reply f a) db) p db -> safe_ (rpc_promise r) (replying f p) db).
  { intros A f p db' Hp. by apply safe_bind. }
  destruct r; cbn [dispatch]; apply Hrep;
    auto using CreateAccount_safe, GetAccount_safe, CreateTransfer_safe, GetTransfer_safe,
      ListLedgerEntriesForTransfer_safe.
Qed.

(** The interceptors read the clock and otherwise only answer errors. *)
Lemma guarded_safe {A} m (h : UnaryHandler A) ctx (Q : result A -> Db -> Prop) db :
  (forall e db', Q (Err e) db') -> (forall c db', safe_ Q (h c) db') ->
  safe_ Q (authenticate verifier m (authorize m h) ctx) db.
Proof.
  intros He Hh. assert (Ha : forall c db', safe_ Q (authorize m h c) db').
  { intros c db'. unfold authorize. repeat case_match; (apply Hh || apply He). }
  unfold authenticate. destruct (isUnauthenticated m); [apply Ha |].
  destruct verifier as [v|]; [|apply He]. destruct (ctx_metadata ctx); [|apply He].
  destruct (TokenFromAuthorization _); [|apply He].
  unfold Verify. destruct (is_empty _); [apply He |]. split; [done |].
  intros db1 db2 now _ _ ->. cbn [bind]. by case_match; [apply Ha | apply He].
Qed.

Lemma serve_rpc_safe md r db :
  safe_ (fun a db => rpc_promise r (fst a) db) (serve_rpc s verifier md r) db.
Proof.
  unfold serve_rpc, chain, logRequests. split; [done |]. intros db1 db2 start _ _ ->.
  cbn [bind]. apply safe_bind. eapply safe_mono; [|apply guarded_safe with (Q := rpc_promise r)].
  - intros a db' Ha. split; [done |]. intros db3 db4 stop Hle _ ->.
    exact (rpc_promise_upward r (a, mkLogLine LevelDebug "" OK 0 None) db' db3 Hle Ha).
  - intros e db'. apply rpc_promise_Err.
  - intros c db'. apply dispatch_safe.
Qed.
End invariant.

(** ** Any number of RPCs *)

(** A call: its metadata and its request. *)
Definition Call : Type := option (list (string * list string)) * Rpc.

Definition answer (c : Call) : prog (result Reply * LogLine) := serve_rpc s verifier (fst c) (snd c).

Section reach.
Context {R : Type} {RC : UniversalClient R}.
Variables (base : gmap UUID Z) (calls : list Call) (w w' : World R)
  (ps : list (prog (result Reply * LogLine))).
Hypothesis Hinv : service_inv base (w_db w).
Hypothesis Hsteps : steps (w, answer <$> calls) (w', ps).

Lemma rpc_reach :
  service_inv base (w_db w') /\ db_le (w_db w) (w_db w')
  /\ forall i a line md r, ps !! i = Some (Ret (a, line)) -> calls !! i = Some (md, r) ->
       rpc_promise r a (w_db w').
Proof.
  set (Q := fun i (a : result Reply * LogLine) db =>
    forall md r, calls !! i = Some (md, r) -> rpc_promise r (fst a) db).
  destruct (system_sound (service_inv base) service_op Q) with (3 := Hsteps)
    as [[HI' Hsafe] Hle]; [| apply service_stable | |].
  - intros i a db db' Hle Ha md r Hr. eapply rpc_promise_upward; [done | by eapply Ha].
  - split; [done |]. intros i p. simpl. rewrite list_lookup_fmap.
    intros ([md r] & Hr & ->)%fmap_Some. eapply safe_mono; [|apply serve_rpc_safe].
    intros a db Ha md' r' Hr'. pose proof (eq_trans (eq_sym Hr) Hr') as E. injection E as <- <-. exact Ha.
  - split_and!; [done | done |]. intros i a line md r Ha Hr. exact (Hsafe _ _ Ha _ _ Hr).
Qed.
End reach.

Section guarantees.
Context {R : Type} {RC : UniversalClient R}.
Implicit Types (base : gmap UUID Z) (w : World R).

(** C6. The whole gRPC server keeps the books: however many RPCs run at once,
    with whatever credentials, through the interceptor chain, while the
    database fails and Redis does anything, every state that is reached has
    its books in order, nothing recorded is lost or changed, and no money is
    created or destroyed. *)
Theorem rpc_safe_under_load base calls w w' ps :
  service_inv base (w_db w) ->
  steps (w, answer <$> calls) (w', ps) ->
  service_inv base (w_db w') /\ db_le (w_db w) (w_db w')
  /\ total_balance (w_db w') = total_balance (w_db w) /\ total_ledger (w_db w') = 0.
Proof.
  intros Hinv Hs. destruct (rpc_reach base calls w w' ps Hinv Hs) as (Hinv' & Hle & _).
  split_and!; [done | done | |].
  - rewrite (total_balance_base base), (total_balance_base base); [done | apply Hinv | apply Hinv'].
  - apply (total_ledger_zero base), Hinv'.
Qed.

(** Retrying is safe for clients: two successful [CreateTransfer] calls with
    the same idempotency key, from any callers and however interleaved, return
    the same transfer message. *)
Lemma retry_gets_same_transfer base calls w w' ps i j md1 md2 req1 req2 m1 m2 l1 l2 :
  service_inv base (w_db w) ->
  steps (w, answer <$> calls) (w', ps) ->
  calls !! i = Some (md1, RpcCreateTransfer req1) -> ps !! i = Some (Ret (Ok (RplCreated m1), l1)) ->
  calls !! j = Some (md2, RpcCreateTransfer req2) -> ps !! j = Some (Ret (Ok (RplCreated m2), l2)) ->
  rq_IdempotencyKey req1 = rq_IdempotencyKey req2 ->
  rs_Transfer m1 = rs_Transfer m2.
Proof.
  intros Hinv Hs Hi Pi Hj Pj Hk.
  destruct (rpc_reach base calls w w' ps Hinv Hs) as ([Hinv' _] & _ & Hp).
  destruct (Hp _ _ _ _ _ Pi Hi) as (c1 & t1 & _ & (id1 & row1 & R1 & K1 & E1 & _) & ->).
  destruct (Hp _ _ _ _ _ Pj Hj) as (c2 & t2 & _ & (id2 & row2 & R2 & K2 & E2 & _) & ->).
  rewrite Hk in K1. pose proof (inv_unique_key _ _ Hinv' _ _ _ _ _ R1 R2 K1 K2).
  congruence.
Qed.

(** A transfer on record is what [GetTransfer] returns under its identifier. *)
Lemma GetTransfer_recorded es w id row :
  well_keyed (w_db w) -> transfers (w_db w) !! id = Some row -> id <> uuid_Nil ->
  env_query (es O) = None ->
  run (GetTransfer (uuid_String id)) es w = (w, Some (Ok (transferToProto (transfer_of_row row)))).
Proof.
  intros Hwk Hr Hnil Hq. unfold GetTransfer.
  assert (Hne : uuid_String id <> "").
  { intros E. pose proof (uuid_String_length id) as Hl. by rewrite E in Hl. }
  rewrite (proj2 (parseUUID_Ok _ _ _) (conj (uuid_Parse_String id) (conj Hne Hnil))).
  unfold Service_Get. cbn [bind call run handle]. by rewrite Hq, Hr.
Qed.

(** C25. What was created can be read: the transfer a successful
    [CreateTransfer] returned is what [GetTransfer] returns for its identifier,
    in any later state, field for field. *)
Theorem created_then_read base calls w w' ps i md req m line es :
  service_inv base (w_db w) ->
  steps (w, answer <$> calls) (w', ps) ->
  calls !! i = Some (md, RpcCreateTransfer req) -> ps !! i = Some (Ret (Ok (RplCreated m), line)) ->
  tm_Id (rs_Transfer m) <> uuid_String uuid_Nil ->
  env_query (es O) = None ->
  run (GetTransfer (tm_Id (rs_Transfer m))) es w' = (w', Some (Ok (rs_Transfer m))).
Proof.
  intros Hinv Hs Hi Pi Hnil Hq.
  destruct (rpc_reach base calls w w' ps Hinv Hs) as ([Hinv' _] & _ & Hp).
  destruct (Hp _ _ _ _ _ Pi Hi) as (cmd & t & _ & (id & row & Hr & _ & -> & _) & Hm).
  rewrite Hm in *. pose proof (wk_transfers _ (inv_keyed _ _ Hinv') _ _ Hr) as Hid.
  cbn [tm_Id transferToProto transfer_of_row ID] in *. rewrite Hid in *.
  apply GetTransfer_recorded; [apply Hinv' | done | by intros -> | done].
Qed.

(** C20. Every successful reply of the server is of the type the API documents,
    whatever else runs: each call is answered with its own kind of message;
    every identifier is a canonical UUID, every currency three upper-case
    letters; a balance is a non-negative and a transfer's amount a positive
    64-bit number; a transfer's two accounts differ and its status is
    COMPLETED, never UNSPECIFIED; a listing is exactly two entries of the same
    transfer and currency, the debit first, of opposite amounts other than zero. *)
Theorem replies_well_typed base calls w w' ps i md r a line :
  service_inv base (w_db w) ->
  steps (w, answer <$> calls) (w', ps) ->
  calls !! i = Some (md, r) -> ps !! i = Some (Ret (Ok a, line)) ->
  reply_typed r a.
Proof.
  intros Hinv Hs Hi Pi.
  destruct (rpc_reach base calls w w' ps Hinv Hs) as ([Hinv' _] & _ & Hp).
  pose proof (Hp _ _ _ _ _ Pi Hi) as H. destruct r, a; try exact H; [|by destruct H].
  destruct H as (cmd & t & _ & (id & row & Hr & _ & -> & _) & Hm). simpl. rewrite Hm.
  eapply transfer_typed_row, (inv_transfers _ _ Hinv' _ _ Hr).
Qed.

(** C14. [CreateTransfer] does exactly one of two things. When the request has a
    valid key, two well-formed identifiers other than zero, a currency code and
    a positive amount, it posts precisely the payment the request names, under
    the request's key, and converts the answer. Otherwise it returns
    INVALID_ARGUMENT with the text of the validation error and the database
    and Redis are as they were. *)
Theorem CreateTransfer_exact req es w :
  (exists cmd, request_names req cmd
     /\ run (CreateTransfer s req) es w
        = run (bind (PostIdempotent s (rq_IdempotencyKey req) cmd) transfer_reply) es w)
  \/ ((forall cmd, ~ request_names req cmd)
      /\ exists e, run (CreateTransfer s req) es w
                   = (w, Some (Err (StatusErr InvalidArgument (Error e)))) /\ mistake e).
Proof.
  destruct (CreateTransfer_cases s req) as [(cmd & Hn & ->)|(Hno & e & -> & Hm)]; eauto 10.
Qed.
End guarantees.
End server.

(** ** A run of the server for the witnesses *)

(** Two payments under one key and a listing, each with its token. *)
Definition ledger_token : string := "RS256.k1.idp.payments.alice.60000000000.ledger:read".
Definition pay_call : Call := (scn_md good_token, RpcCreateTransfer scn_rq).
Definition list_call : Call :=
  (scn_md ledger_token, RpcListLedgerEntriesForTransfer (uuid_String (uuid_of_Z 1400))).
Definition scn_calls : list Call := [pay_call; pay_call; list_call].
Definition scn_answer : Call -> prog (result Reply * LogLine) :=
  answer scn_service (Some prod_verifier).

Definition srv_first := Eval vm_compute in run (scn_answer pay_call) scn_env scn_world.
Definition srv_second := Eval vm_compute in run (scn_answer pay_call) scn_env (fst srv_first).
Definition srv_third := Eval vm_compute in run (scn_answer list_call) scn_env (fst srv_second).

Definition reply_of (o : option (result Reply * LogLine)) : result Reply * LogLine :=
  default (Err (External ""), mkLogLine LevelDebug "" OK 0 None) o.

(** The three calls one after the other are one of the interleavings. *)
Lemma srv_steps :
  steps (scn_world, answer scn_service (Some prod_verifier) <$> scn_calls)
    (fst srv_third, [Ret (reply_of (snd srv_first)); Ret (reply_of (snd srv_second));
                     Ret (reply_of (snd srv_third))]).
Proof.
  set (p := scn_answer pay_call). set (q := scn_answer list_call).
  change (answer scn_service (Some prod_verifier) <$> scn_calls) with [p; p; q].
  trans (fst srv_first, [Ret (reply_of (snd srv_first)); p; q]).
  { apply (run_steps p scn_env scn_world (fst srv_first) (reply_of (snd srv_first)) [p; p; q] 0);
      [reflexivity | vm_compute; reflexivity]. }
  trans (fst srv_second, [Ret (reply_of (snd srv_first)); Ret (reply_of (snd srv_second)); q]).
  { apply (run_steps p scn_env (fst srv_first) (fst srv_second) (reply_of (snd srv_second))
             [Ret (reply_of (snd srv_first)); p; q] 1); [reflexivity | vm_compute; reflexivity]. }
  apply (run_steps q scn_env (fst srv_second) (fst srv_third) (reply_of (snd srv_third))
           [Ret (reply_of (snd srv_first)); Ret (reply_of (snd srv_second)); q] 2);
    [reflexivity | vm_compute; reflexivity].
Qed.

Lemma rpc_safe_under_load_witness :
  total_balance (w_db (fst srv_third)) = 1005 /\ total_ledger (w_db (fst srv_third)) = 0.
Proof.
  destruct (rpc_safe_under_load scn_service (Some prod_verifier) scn_base scn_calls scn_world
              (fst srv_third) _ scn_service_inv srv_steps) as (_ & _ & -> & ->).
  split; vm_compute; reflexivity.
Defined.

Lemma created_then_read_witness :
  match fst (reply_of (snd srv_first)) with
  | Ok (RplCreated m) =>
      run (GetTransfer (tm_Id (rs_Transfer m))) scn_env (fst srv_third)
      = (fst srv_third, Some (Ok (rs_Transfer m)))
  | _ => False
  end.
Proof.
  apply (created_then_read scn_service (Some prod_verifier) scn_base scn_calls scn_world
           (fst srv_third) _ 0 (scn_md good_token) scn_rq _ (snd (reply_of (snd srv_first))) scn_env
           scn_service_inv srv_steps); try reflexivity.
  vm_compute. discriminate.
Defined.

Lemma replies_well_typed_witness :
  match fst (reply_of (snd srv_second)) with
  | Ok (RplCreated m) => transfer_typed (rs_Transfer m)
  | _ => False
  end.
Proof.
  exact (replies_well_typed scn_service (Some prod_verifier) scn_base scn_calls scn_world
           (fst srv_third) _ 1 (scn_md good_token) (RpcCreateTransfer scn_rq) _
           (snd (reply_of (snd srv_second))) scn_service_inv srv_steps eq_refl eq_refl).
Defined.
