(* ===== verification/Guarantees.v ===== *)
(** * What the service guarantees under concurrent load

    The theorems about any number of interleaved requests, any faults of the
    database and any behaviour of Redis, with an instance of each one. *)
From stdpp Require Import base gmap fin_maps strings list relations.
From Stdlib Require Import ZArith Lia Ascii.
From S2P Require Import Prelude.
From S2P Require Import GoStd.
From S2P Require Import GoTime.
From S2P Require Import Uuid.
From S2P Require Import Errors.
From S2P Require Import Money.
From S2P Require Import Schema.
From S2P Require Import Tx.
From S2P Require Import Transfer.
From S2P Require Import Posting.
From S2P Require Import LedgerInv.
From S2P Require Import Sha256.
From S2P Require Import Idempotency.
From S2P Require Import Prog.
From S2P Require Import Retry.
From S2P Require Import Store.
From S2P Require Import Account.
From S2P Require Import Ledger.
From S2P Require Import Instances.
From S2P Require Import Idempotent.
From S2P Require Import Scenario.
From S2P Require Import Concurrency.
From S2P Require Import Reconcile.
From S2P Require Import AtMostOnce.
From S2P Require Import System.

Open Scope Z_scope.

(** ** The two-request run the witnesses use *)

Definition scn_twice : list request :=
  [RqPostIdempotent scn_key scn_cmd; RqPostIdempotent scn_key scn_cmd].

(** The first request alone, then the second. *)
Definition scn_first := Eval vm_compute in run (serve scn_service (RqPostIdempotent scn_key scn_cmd)) scn_env scn_world.
Definition scn_second := Eval vm_compute in run (serve scn_service (RqPostIdempotent scn_key scn_cmd)) scn_env (fst scn_first).

Definition answer_of (o : option response) : response := default (RsResult (zero_result, None)) o.

Lemma scn_steps :
  steps (scn_world, serve scn_service <$> scn_twice)
    (fst scn_second, [Ret (answer_of (snd scn_first)); Ret (answer_of (snd scn_second))]).
Proof.
  set (p := serve scn_service (RqPostIdempotent scn_key scn_cmd)).
  change (serve scn_service <$> scn_twice) with [p; p].
  trans (fst scn_first, [Ret (answer_of (snd scn_first)); p]).
  - apply (run_steps p scn_env scn_world (fst scn_first) (answer_of (snd scn_first)) [p; p] 0);
      [reflexivity | vm_compute; reflexivity].
  - apply (run_steps p scn_env (fst scn_first) (fst scn_second) (answer_of (snd scn_second))
             [Ret (answer_of (snd scn_first)); p] 1);
      [reflexivity | vm_compute; reflexivity].
Qed.

(** The payment a transfer stands for. *)
Definition transfer_request (t : Transfer) : Request :=
  mkRequest (SourceAccountID t) (DestinationAccountID t) (AmountMinor t) (TCurrency t).

Section guarantees.
Context {UL : UuidLib} {RCo : RecordCodec} {R : Type} {RC : UniversalClient R}.
Implicit Types (s : Service) (base : gmap UUID Z) (w : World R).

(** C1. From any state whose books are in order, however many requests of any
    kind run interleaved, whatever statements, commits and commands fail and
    whatever Redis does, every state that is reached has its books in order:
    one debit and one credit per transfer, no negative balance, every balance
    equal to its baseline plus its entries, at most one transfer per key; no
    account, transfer or entry was lost or changed; the total of the balances
    is what it was, and the whole ledger sums to zero. *)
Theorem ledger_safe_under_load s base reqs w w' ps :
  service_inv base (w_db w) ->
  steps (w, serve s <$> reqs) (w', ps) ->
  service_inv base (w_db w') /\ db_le (w_db w) (w_db w')
  /\ total_balance (w_db w') = total_balance (w_db w) /\ total_ledger (w_db w') = 0.
Proof.
  intros Hinv Hs.
  destruct (reach s reqs w w' ps Hs base (service_inv base)) as (Hinv' & Hle & _);
    [done | apply service_stable | done |].
  split_and!; [done | done | |].
  - rewrite (total_balance_base base), (total_balance_base base); [done | apply Hinv | apply Hinv'].
  - apply (total_ledger_zero base), Hinv'.
Qed.

(** C2. Two requests that carry the same idempotency key and both report
    success report the same transfer: same identifier, same parties, same
    amount, same times, whichever path (posting, replay, recovery after a
    lost race, degraded mode) each of them took. *)
Theorem same_key_same_transfer s base reqs w w' ps key cmd1 cmd2 i j r1 r2 :
  service_inv base (w_db w) ->
  steps (w, serve s <$> reqs) (w', ps) ->
  reqs !! i = Some (RqPostIdempotent key cmd1) -> ps !! i = Some (Ret (RsResult (r1, None))) ->
  reqs !! j = Some (RqPostIdempotent key cmd2) -> ps !! j = Some (Ret (RsResult (r2, None))) ->
  res_Transfer r1 = res_Transfer r2.
Proof.
  intros Hinv Hs Hi Pi Hj Pj.
  destruct (reach s reqs w w' ps Hs base (service_inv base)) as ([Hinv' _] & _ & Hp);
    [done | apply service_stable | done |].
  destruct (Hp _ _ _ Pi Hi eq_refl) as (id1 & row1 & R1 & K1 & E1 & _).
  destruct (Hp _ _ _ Pj Hj eq_refl) as (id2 & row2 & R2 & K2 & E2 & _).
  pose proof (inv_unique_key _ _ Hinv' _ _ _ _ _ R1 R2 K1 K2).
  simpl in E1, E2. congruence.
Qed.

(** C8. A request that reports success under a key reports a completed payment
    with the parties, the amount and the currency it asked for, unless the
    canonical text of the payment it reports and the one of the payment it asked
    for are two different texts with the same SHA-256: a key reused for a
    different payment never answers with the other payment. *)
Theorem replay_matches_request s base reqs w w' ps key cmd i r :
  service_inv base (w_db w) ->
  steps (w, serve s <$> reqs) (w', ps) ->
  reqs !! i = Some (RqPostIdempotent key cmd) -> ps !! i = Some (Ret (RsResult (r, None))) ->
  let t := res_Transfer r in
  Status t = StatusCompleted
  /\ ((SourceAccountID t = c_SourceAccountID cmd
       /\ DestinationAccountID t = c_DestinationAccountID cmd
       /\ AmountMinor t = c_AmountMinor cmd /\ TCurrency t = c_Currency cmd)
      \/ (Canonical (transfer_request t) <> Canonical (command_request cmd)
          /\ Sha256.Sum256 (Canonical (transfer_request t))
             = Sha256.Sum256 (Canonical (command_request cmd)))).
Proof.
  intros Hinv Hs Hi Pi t.
  destruct (reach s reqs w w' ps Hs base (service_inv base)) as ([Hinv' Hst] & _ & Hp);
    [done | apply service_stable | done |].
  destruct (Hp _ _ _ Pi Hi eq_refl) as (id & row & Hr & Hk & Ht & Hf).
  simpl in Ht. unfold t. rewrite Ht. clear t Ht.
  rewrite (Hst _ _ _ Hr Hk) in Hf. apply Some_inj in Hf.
  change (transfer_request (transfer_of_row row)) with (row_request row).
  split; [exact (tok_completed _ _ (inv_transfers _ _ Hinv' _ _ Hr)) |].
  destruct (decide (row_request row = command_request cmd)) as [E|E].
  - left. clear Hf. unfold row_request, command_request in E. by injection E.
  - right. split; [|exact Hf]. intros Hc. exact (E (Canonical_inj _ _ Hc)).
Qed.

(** C4. One key moves money at most once. However many requests of any kind run
    interleaved, and however many of them carry one key, for the same payment or
    for different ones: what happened to the database is a sequence of changes,
    accounts opened and payments posted whole, each of which one of the requests
    asked for under the very key the payment carries; and for every key at most one
    of the payments carries it, none if a payment was on record under the key
    before. *)
Theorem one_key_moves_money_once s base reqs w w' ps :
  service_inv base (w_db w) ->
  steps (w, serve s <$> reqs) (w', ps) ->
  exists l, history (w_db w) l (w_db w') /\ Forall (asked reqs) l
    /\ forall key, (length (under key l) <= 1)%nat
         /\ (select_by_key key (w_db w) <> None -> under key l = []).
Proof.
  intros Hinv Hs.
  destruct (reach_inv s reqs w w' ps Hs
           (fun db => service_inv base db /\ traced reqs (w_db w) db) (asked_op reqs))
    as [_ (l & Hh & Ha & Ho)].
  - intros r Hr. by apply asked_ops.
  - apply traced_stable.
  - split; [done | apply traced_start].
  - exists l. split_and!; [done | done |]. intros key. destruct (Ho key) as (? & ? & _). by split.
Qed.

(** A service that starts on an empty database can never come to hold
    money: no request, fault or interleaving gives any account a balance
    other than zero. *)
Lemma no_money_from_nothing s reqs w w' ps id r :
  w_db w = empty_db ->
  steps (w, serve s <$> reqs) (w', ps) ->
  accounts (w_db w') !! id = Some r -> a_balance_minor r = 0.
Proof.
  intros Hw Hs Hr. assert (Hinv : service_inv ∅ (w_db w)).
  { rewrite Hw. split; [apply db_inv_empty |]. intros i t k. simpl. by rewrite lookup_empty. }
  destruct (reach s reqs w w' ps Hs ∅ (service_inv ∅)) as ([Hinv' _] & _ & _);
    [done | apply service_stable | done |].
  pose proof (total_balance_base _ _ Hinv') as Ht. rewrite sumZ_empty in Ht.
  unfold total_balance in Ht. rewrite (sumZ_delete _ _ _ _ Hr) in Ht.
  assert (0 <= sumZ a_balance_minor (delete id (accounts (w_db w')))).
  { apply sumZ_nonneg. intros k v [_ Hk]%lookup_delete_Some.
    apply (inv_accounts _ _ Hinv' _ _ Hk). }
  destruct (inv_accounts _ _ Hinv' _ _ Hr) as [_ [? _]]. lia.
Qed.

(** C21. Reconciliation raises no false alarm: a pass that takes a baseline and
    checks it, run while any other requests post and open accounts between
    and during its queries, reports no violation when it reports at all. *)
Theorem reconcile_no_false_alarm s base reqs w w' ps i report :
  service_inv base (w_db w) ->
  steps (w, serve s <$> reqs) (w', ps) ->
  reqs !! i = Some RqReconcile -> ps !! i = Some (Ret (RsReport (Ok report))) ->
  Report_OK report = true.
Proof.
  intros Hinv Hs Hi Pi.
  destruct (reach s reqs w w' ps Hs base (service_inv base)) as (_ & _ & Hp);
    [done | apply service_stable | done |].
  exact (Hp _ _ _ Pi Hi).
Qed.
End guarantees.

Lemma ledger_safe_under_load_witness :
  total_balance (w_db (fst scn_second)) = 1005 /\ total_ledger (w_db (fst scn_second)) = 0.
Proof.
  destruct (ledger_safe_under_load scn_service scn_base scn_twice scn_world (fst scn_second) _
              scn_service_inv scn_steps) as (_ & _ & -> & ->).
  split; vm_compute; reflexivity.
Defined.

Lemma same_key_same_transfer_witness :
  match answer_of (snd scn_first), answer_of (snd scn_second) with
  | RsResult (r1, None), RsResult (r2, None) => res_Transfer r1 = res_Transfer r2
  | _, _ => False
  end.
Proof.
  apply (same_key_same_transfer scn_service scn_base scn_twice scn_world (fst scn_second) _
           scn_key scn_cmd scn_cmd 0 1 _ _ scn_service_inv scn_steps);
    reflexivity.
Defined.

Lemma replay_matches_request_witness :
  match answer_of (snd scn_second) with
  | RsResult (r, None) =>
      Status (res_Transfer r) = StatusCompleted
      /\ (AmountMinor (res_Transfer r) = 250
          \/ Canonical (transfer_request (res_Transfer r)) <> Canonical (command_request scn_cmd))
  | _ => False
  end.
Proof.
  destruct (replay_matches_request scn_service scn_base scn_twice scn_world (fst scn_second) _
              scn_key scn_cmd 1 _ scn_service_inv scn_steps eq_refl eq_refl)
    as [Hc [(_ & _ & H & _)|[H _]]]; (split; [exact Hc |]); [left; exact H | right; exact H].
Defined.

(** The key was used twice and the money moved once. *)
Lemma one_key_moves_money_once_witness :
  exists l, history scn_db l (w_db (fst scn_second)) /\ (length (under scn_key l) <= 1)%nat
    /\ w_db (fst scn_second) <> scn_db.
Proof.
  destruct (one_key_moves_money_once scn_service scn_base scn_twice scn_world
           (fst scn_second) _ scn_service_inv scn_steps) as (l & Hh & _ & Hk).
  exists l. split_and!; [exact Hh | apply Hk | by vm_compute].
Defined.

(** One request alone. *)
Lemma scn_one {R} {RC : UniversalClient R} r (w w' : World R) a :
  run (serve scn_service r) scn_env w = (w', Some a) ->
  steps (w, serve scn_service <$> [r]) (w', [Ret a]).
Proof.
  intros H. apply (run_steps (serve scn_service r) scn_env w w' a [serve scn_service r] 0);
    [reflexivity | exact H].
Qed.

(** A pass over the books after the two requests. *)
Definition scn_checked :=
  Eval vm_compute in run (serve scn_service RqReconcile) scn_env (fst scn_second).

Lemma scn_second_inv : service_inv scn_base (w_db (fst scn_second)).
Proof.
  destruct (reach scn_service scn_twice _ _ _ scn_steps scn_base (service_inv scn_base)) as (H & _);
    [done | apply service_stable | apply scn_service_inv | exact H].
Qed.

Lemma reconcile_no_false_alarm_witness :
  match answer_of (snd scn_checked) with
  | RsReport (Ok report) => Report_OK report = true /\ rp_CompletedTransfers report = 1
  | _ => False
  end.
Proof.
  split; [|vm_compute; reflexivity].
  refine (reconcile_no_false_alarm scn_service scn_base [RqReconcile] (fst scn_second)
            (fst scn_checked) _ 0 _ scn_second_inv
            (scn_one _ _ _ (answer_of (snd scn_checked)) _) eq_refl _); vm_compute; reflexivity.
Defined.
